(** * auth_akarin: the obfuscation and authentication layer of shadowsocksr

    A shallow embedding of [shadowsocks/obfsplugin/auth_akarin.py]:
    the xorshift128+ generator, the replay guard ([client_queue],
    [obfs_auth_akarin_data]) and the [auth_akarin_rand] session with its
    framing, handshake and UDP paths, followed by the properties of the
    protocol description that were checked against it.

    Python integers are unbounded, so they are [Z] and every mask of
    the source is written out.  [bytes] objects are lists of [byte].
    A method of the session is a function from the session to an
    outcome and the session it leaves behind: a Python exception keeps
    the mutations made before it was raised. *)

From Stdlib Require Import ZArith List Strings.Byte String Lia Bool.
From stdpp Require Import gmap.
Import ListNotations.
Open Scope Z_scope.

(* ===================================================================== *)
(** ** Outcomes of a call *)
(* ===================================================================== *)

(** The exceptions the modelled code can raise. *)
Inductive exn : Type :=
| StructError          (* struct.pack / struct.unpack on a bad value or size *)
| ZeroDivisionError    (* [%] with a zero divisor *)
| TypeError            (* an operation on [None] where bytes are expected *)
| AttributeError       (* a method call on [None] *)
| IndexError           (* [items[1]] on a short list *)
| ValueError           (* [int(...)] on a non-number *)
| Exception (msg : string).

(** [Hang] is a loop that does not leave within the iterations its
    model was given; see [chunk_loop]. *)
Inductive result (A : Type) : Type :=
| Ok (a : A)
| Raise (e : exn)
| Hang.
Arguments Ok {A} a.
Arguments Raise {A} e.
Arguments Hang {A}.

Definition result_bind {A B} (r : result A) (k : A → result B) : result B :=
  match r with
  | Ok a => k a
  | Raise e => Raise e
  | Hang => Hang
  end.

(* ===================================================================== *)
(** ** Bytes, slices and [struct] *)
(* ===================================================================== *)

Definition bytes : Type := list byte.

Definition Z_of_byte (b : byte) : Z := Z.of_N (Byte.to_N b).

Definition byte_of_Z (z : Z) : byte :=
  match Byte.of_N (Z.to_N (z mod 256)) with
  | Some b => b
  | None => x00
  end.

Definition byte_eqb (a b : byte) : bool := Byte.eqb a b.

Fixpoint bytes_eqb (a b : bytes) : bool :=
  match a, b with
  | [], [] => true
  | x :: a', y :: b' => byte_eqb x y && bytes_eqb a' b'
  | _, _ => false
  end.

Definition len {A} (l : list A) : Z := Z.of_nat (length l).

(** A Python index of a slice, clamped into [0, len]: a negative index
    counts from the end. *)
Definition slice_index (n i : Z) : Z :=
  if i <? 0 then Z.max 0 (n + i) else Z.min i n.

(** [l[lo:hi]]; [None] is an omitted bound. *)
Definition pyslice {A} (lo hi : option Z) (l : list A) : list A :=
  let n := len l in
  let a := match lo with Some i => slice_index n i | None => 0 end in
  let b := match hi with Some i => slice_index n i | None => n end in
  take (Z.to_nat (b - a)) (drop (Z.to_nat a) l).

Notation "l .[ a : b ]" := (pyslice (Some a) (Some b) l)
  (at level 1, a at level 50, b at level 50, format "l .[ a : b ]").
Notation "l .[ : b ]" := (pyslice None (Some b) l)
  (at level 1, b at level 50, format "l .[ : b ]").
Notation "l .[ a : ]" := (pyslice (Some a) None l)
  (at level 1, a at level 50, format "l .[ a : ]").

(** [b'c' * n] *)
Definition bytes_repeat (c : byte) (n : Z) : bytes := repeat c (Z.to_nat n).

(** Little-endian digits of [v] on [n] bytes, and back. *)
Fixpoint pack_le (n : nat) (v : Z) : bytes :=
  match n with
  | O => []
  | S n' => byte_of_Z v :: pack_le n' (v / 256)
  end.

Fixpoint unpack_le (b : bytes) : Z :=
  match b with
  | [] => 0
  | x :: b' => Z_of_byte x + 256 * unpack_le b'
  end.

Definition struct_pack (n : nat) (v : Z) : result bytes :=
  if (0 <=? v) && (v <? 2 ^ (8 * Z.of_nat n)) then Ok (pack_le n v)
  else Raise StructError.

Definition struct_unpack (n : nat) (b : bytes) : result Z :=
  if (length b =? n)%nat then Ok (unpack_le b) else Raise StructError.

(** [struct.pack('<H', v)], [struct.pack('<I', v)] and the unpacks
    ['<H'], ['<I'], ['<Q'] and ['>H']. *)
Definition pack_H : Z → result bytes := struct_pack 2.
Definition pack_I : Z → result bytes := struct_pack 4.
Definition unpack_H : bytes → result Z := struct_unpack 2.
Definition unpack_I : bytes → result Z := struct_unpack 4.
Definition unpack_Q : bytes → result Z := struct_unpack 8.
Definition unpack_H_be (b : bytes) : result Z := struct_unpack 2 (rev b).

(** Python's [a % b]: the sign follows the divisor, as [Z.modulo]
    does, and a zero divisor raises. *)
Definition py_mod (a b : Z) : result Z :=
  if b =? 0 then Raise ZeroDivisionError else Ok (a mod b).

(* ===================================================================== *)
(** ** xorshift128plus *)
(* ===================================================================== *)

Module xorshift128plus.

Record t : Type := mk { v0 : Z; v1 : Z }.

Definition max_int : Z := Z.shiftl 1 64 - 1.
Definition mov_mask : Z := Z.shiftl 1 (64 - 23) - 1.

(** [__init__] *)
Definition init : t := {| v0 := 0; v1 := 0 |}.

(** [next]: the value returned and the generator afterwards. *)
Definition next (r : t) : Z * t :=
  let x := v0 r in
  let y := v1 r in
  let x := Z.lxor x (Z.shiftl (Z.land x mov_mask) 23) in
  let x := Z.lxor x (Z.lxor (Z.lxor y (Z.shiftr x 17)) (Z.shiftr y 26)) in
  (Z.land (x + y) max_int, {| v0 := y; v1 := x |}).

(** [if len(bin) < 16: bin += b'\0' * 16] *)
Definition pad16 (bin : bytes) : bytes :=
  if len bin <? 16 then bin ++ bytes_repeat x00 16 else bin.

Definition init_from_bin (bin : bytes) : result t :=
  let bin := pad16 bin in
  result_bind (unpack_Q bin.[:8]) (fun a =>
  result_bind (unpack_Q bin.[8:16]) (fun b =>
  Ok {| v0 := a; v1 := b |})).

Definition init_from_bin_len (bin : bytes) (length : Z) : result t :=
  let bin := pad16 bin in
  result_bind (pack_H length) (fun l =>
  result_bind (unpack_Q (l ++ bin.[2:8])) (fun a =>
  result_bind (unpack_Q bin.[8:16]) (fun b =>
  Ok {| v0 := a; v1 := b |}))).

End xorshift128plus.

(* ===================================================================== *)
(** ** The replay guard *)
(* ===================================================================== *)

(** Readings of the clock ([time.time()]) are integers, in seconds.  A
    method that reads the clock takes the reading as [now]; the readings
    within one call are taken to be the same one. *)

Module client_queue.

Record t : Type := mk {
  front : Z;
  back : Z;
  alloc : gmap Z Z;
  enable : bool;
  last_update : Z;
  ref : Z
}.

(** [__init__(begin_id)] *)
Definition init (now begin_id : Z) : t :=
  {| front := begin_id - 64; back := begin_id + 1; alloc := ∅;
     enable := true; last_update := now; ref := 0 |}.

Definition update (now : Z) (q : t) : t :=
  {| front := front q; back := back q; alloc := alloc q;
     enable := enable q; last_update := now; ref := ref q |}.

Definition addref (q : t) : t :=
  {| front := front q; back := back q; alloc := alloc q;
     enable := enable q; last_update := last_update q; ref := ref q + 1 |}.

Definition delref (q : t) : t :=
  if 0 <? ref q then
    {| front := front q; back := back q; alloc := alloc q;
       enable := enable q; last_update := last_update q; ref := ref q - 1 |}
  else q.

Definition is_active (now : Z) (q : t) : bool :=
  (0 <? ref q) && (now - last_update q <? 60 * 10).

Definition re_enable (connection_id : Z) (q : t) : t :=
  {| front := connection_id - 64; back := connection_id + 1; alloc := ∅;
     enable := true; last_update := last_update q; ref := ref q |}.

(** [k in self.alloc] *)
Definition allocated (k : Z) (q : t) : bool :=
  match alloc q !! k with Some _ => true | None => false end.

(** The condition of the [while] loop that slides [front]. *)
Definition slide_cond (q : t) : bool :=
  allocated (front q) q || (front q + 0x1000 <? back q).

(** One turn of its body. *)
Definition slide_step (q : t) : t :=
  {| front := front q + 1; back := back q;
     alloc := if allocated (front q) q then delete (front q) (alloc q) else alloc q;
     enable := enable q; last_update := last_update q; ref := ref q |}.

(** The loop, for at most [fuel] turns. *)
Fixpoint slide (fuel : nat) (q : t) : t :=
  match fuel with
  | O => q
  | S fuel' => if slide_cond q then slide fuel' (slide_step q) else q
  end.

(** A number of turns the loop cannot exceed: each turn either frees
    an allocated id or brings [front] one closer to [back - 0x1000]
    ([slide_leaves] below). *)
Definition slide_fuel (q : t) : nat :=
  (size (alloc q) + Z.to_nat (back q - front q - 0x1000))%nat.

(** The queue when [insert] runs its three checks: re-enabled if it
    was not active, and updated. *)
Definition at_checks (now connection_id : Z) (q : t) : t :=
  update now (if negb (is_active now q) then re_enable connection_id q else q).

(** The two assignments that record an accepted id. *)
Definition allocate (connection_id : Z) (q : t) : t :=
  {| front := front q;
     back := if back q <=? connection_id then connection_id + 1 else back q;
     alloc := <[connection_id := 1]> (alloc q);
     enable := enable q; last_update := last_update q; ref := ref q |}.

(** [insert(connection_id)]: the answer and the queue afterwards. *)
Definition insert (now connection_id : Z) (q : t) : bool * t :=
  if negb (enable q) then (false, q)
  else
    let q := at_checks now connection_id q in
    if connection_id <? front q then (false, q)
    else if front q + 0x4000 <? connection_id then (false, q)
    else if allocated connection_id q then (false, q)
    else
      let q := allocate connection_id q in
      let q := slide (slide_fuel q) q in
      (true, addref q).

(** The window is well formed and holds the allocated ids. *)
Definition window_ok (q : t) : Prop :=
  front q ≤ back q ∧ ∀ k v, alloc q !! k = Some v → front q ≤ k < back q.

(** The states a queue can be in: built by [__init__], then changed
    by its methods only. *)
Inductive reachable : t → Prop :=
| reach_init now begin_id : reachable (init now begin_id)
| reach_update now q : reachable q → reachable (update now q)
| reach_addref q : reachable q → reachable (addref q)
| reach_delref q : reachable q → reachable (delref q)
| reach_re_enable c q : reachable q → reachable (re_enable c q)
| reach_insert now c q : reachable q → reachable (snd (insert now c q)).

End client_queue.

(** Modelled from the spec: [lru_cache.LRUCache], the bounded-LRU map
    from client ids to queues, is not part of the sources at hand.  It is
    an association list in the order the keys were first stored, whose
    head is the entry [first()] names ("the LRU front").  The description
    does not say how a read reorders the entries; none does here. *)
Module LRUCache.

Definition t (V : Type) : Type := list (Z * V).

Definition empty {V} : t V := [].

Fixpoint get {V} (k : Z) (c : t V) : option V :=
  match c with
  | [] => None
  | (k', v) :: c' => if k =? k' then Some v else get k c'
  end.

Definition contains {V} (k : Z) (c : t V) : bool :=
  match get k c with Some _ => true | None => false end.

(** [c[k] = v] *)
Fixpoint set {V} (k : Z) (v : V) (c : t V) : t V :=
  match c with
  | [] => [(k, v)]
  | (k', v') :: c' => if k =? k' then (k, v) :: c' else (k', v') :: set k v c'
  end.

(** [del c[k]] *)
Fixpoint del {V} (k : Z) (c : t V) : t V :=
  match c with
  | [] => []
  | (k', v') :: c' => if k =? k' then c' else (k', v') :: del k c'
  end.

Definition first {V} (c : t V) : option Z :=
  match c with
  | [] => None
  | (k, _) :: _ => Some k
  end.

End LRUCache.

(** Equality of the keys of [obfs_auth_akarin_data.user_id]: the server
    passes its [self.user_id], which is a 4-byte string or [None]. *)
Definition uid_eqb (a b : option bytes) : bool :=
  match a, b with
  | None, None => true
  | Some x, Some y => bytes_eqb x y
  | _, _ => false
  end.

Module obfs_auth_akarin_data.

Record t : Type := mk {
  name : string;
  user_id : list (option bytes * LRUCache.t client_queue.t);
  local_client_id : bytes;
  connection_id : Z;
  max_client : Z;
  max_buffer : Z
}.

Definition set_max_client (n : Z) (d : t) : t :=
  {| name := name d; user_id := user_id d;
     local_client_id := local_client_id d; connection_id := connection_id d;
     max_client := n; max_buffer := Z.max (n * 2) 1024 |}.

(** [__init__(name)] *)
Definition init (nm : string) : t :=
  set_max_client 64
    {| name := nm; user_id := []; local_client_id := [];
       connection_id := 0; max_client := 0; max_buffer := 0 |}.

Definition set_local_client_id (v : bytes) (d : t) : t :=
  {| name := name d; user_id := user_id d;
     local_client_id := v; connection_id := connection_id d;
     max_client := max_client d; max_buffer := max_buffer d |}.

Definition set_connection_id (v : Z) (d : t) : t :=
  {| name := name d; user_id := user_id d;
     local_client_id := local_client_id d; connection_id := v;
     max_client := max_client d; max_buffer := max_buffer d |}.

Fixpoint users_get (u : option bytes) (m : list (option bytes * LRUCache.t client_queue.t))
  : option (LRUCache.t client_queue.t) :=
  match m with
  | [] => None
  | (u', c) :: m' => if uid_eqb u u' then Some c else users_get u m'
  end.

Fixpoint users_set (u : option bytes) (c : LRUCache.t client_queue.t)
    (m : list (option bytes * LRUCache.t client_queue.t))
  : list (option bytes * LRUCache.t client_queue.t) :=
  match m with
  | [] => [(u, c)]
  | (u', c') :: m' =>
      if uid_eqb u u' then (u, c) :: m' else (u', c') :: users_set u c m'
  end.

(** The cache of a user, made on first use:
    [if user_id not in self.user_id: self.user_id[user_id] = LRUCache()]. *)
Definition cache_of (u : option bytes) (d : t) : LRUCache.t client_queue.t :=
  match users_get u (user_id d) with
  | Some c => c
  | None => LRUCache.empty
  end.

Definition store_cache (u : option bytes) (c : LRUCache.t client_queue.t) (d : t) : t :=
  {| name := name d; user_id := users_set u c (user_id d);
     local_client_id := local_client_id d; connection_id := connection_id d;
     max_client := max_client d; max_buffer := max_buffer d |}.

(** [update(user_id, client_id, connection_id)] *)
Definition update (now : Z) (u : option bytes) (client_id connection_id : Z) (d : t) : t :=
  let c := cache_of u d in
  match LRUCache.get client_id c with
  | Some q => store_cache u (LRUCache.set client_id (client_queue.update now q) c) d
  | None => store_cache u c d
  end.

(** The tail shared by the two accepting branches of [insert]: a new
    queue, or the old one re-enabled, then [client_queue.insert]. *)
Definition install_and_insert (now : Z) (client_id connection_id : Z)
    (c : LRUCache.t client_queue.t) : bool * LRUCache.t client_queue.t :=
  let q :=
    match LRUCache.get client_id c with
    | None => client_queue.init now connection_id
    | Some q => client_queue.re_enable connection_id q
    end in
  let '(r, q) := client_queue.insert now connection_id q in
  (r, LRUCache.set client_id q c).

(** [insert(user_id, client_id, connection_id)] *)
Definition insert (now : Z) (u : option bytes) (client_id connection_id : Z) (d : t)
  : bool * t :=
  let c := cache_of u d in
  let missing_or_disabled :=
    match LRUCache.get client_id c with
    | None => true
    | Some q => negb (client_queue.enable q)
    end in
  if missing_or_disabled then
    match LRUCache.first c with
    | None =>
        let '(r, c) := install_and_insert now client_id connection_id c in
        (r, store_cache u c d)
    | Some f =>
        if len c <? max_client d then
          let '(r, c) := install_and_insert now client_id connection_id c in
          (r, store_cache u c d)
        else
          match LRUCache.get f c with
          | Some qf =>
              if negb (client_queue.is_active now qf) then
                let c := LRUCache.del f c in
                let '(r, c) := install_and_insert now client_id connection_id c in
                (r, store_cache u c d)
              else (false, store_cache u c d)
          | None => (false, store_cache u c d)
          end
    end
  else
    match LRUCache.get client_id c with
    | Some q =>
        let '(r, q) := client_queue.insert now connection_id q in
        (r, store_cache u (LRUCache.set client_id q c) d)
    | None => (false, store_cache u c d)
    end.

(** [remove(user_id, client_id)] *)
Definition remove (u : option bytes) (client_id : Z) (d : t) : t :=
  match users_get u (user_id d) with
  | Some c =>
      match LRUCache.get client_id c with
      | Some q => store_cache u (LRUCache.set client_id (client_queue.delref q) c) d
      | None => d
      end
  | None => d
  end.

(** A run of [insert] calls for one (user, client) pair: the ids with
    the clock reading of each call, and the answers in order. *)
Fixpoint insert_all (u : option bytes) (client_id : Z) (calls : list (Z * Z)) (d : t)
  : list bool :=
  match calls with
  | [] => []
  | (connection_id, now) :: calls' =>
      let '(r, d) := insert now u client_id connection_id d in
      r :: insert_all u client_id calls' d
  end.

End obfs_auth_akarin_data.
(* ===================================================================== *)
(** ** The collaborators of the session *)
(* ===================================================================== *)

(** The cryptography, [base64] and the host's header parser are used as
    they come: the functions below stand for them.  [cipher_update] is
    [cipher.update(buf)] of the named method in the given direction
    ([true] enciphers) with the given key and IV, after [history] went
    through the same cipher object. *)
Class primitives : Type := {
  hmac_md5 : bytes → bytes → bytes;
  md5 : bytes → bytes;
  b64encode : bytes → bytes;
  cipher_iv_len : string → Z;
  cipher_update : string → bool → bytes → bytes → bytes → bytes → bytes;
  get_head_size : bytes → Z → Z
}.

(** Modelled from the spec: [common.int32], which turns the difference
    of two 32-bit timestamps into a signed number of seconds (the
    handshake is refused when it is more than 86400 away from zero). *)
Definition int32 (x : Z) : Z :=
  let y := Z.land x 0xFFFFFFFF in
  if 0x7FFFFFFF <? y then y - 0x100000000 else y.

(** What a call takes from its surroundings: the reading of the clock
    and the bytes [rand_bytes] hands out, [entropy] from position
    [drawn] on. *)
Module Env.

Record t : Type := mk {
  clock : Z;
  entropy : nat → byte;
  drawn : nat
}.

Definition rand_bytes (n : Z) (e : t) : bytes * t :=
  (map (entropy e) (seq (drawn e) (Z.to_nat n)),
   {| clock := clock e; entropy := entropy e;
      drawn := (drawn e + Z.to_nat n)%nat |}).

(** [random.randint(0, 31)] *)
Definition randint32 (e : t) : Z * t :=
  (Z_of_byte (entropy e (drawn e)) mod 32,
   {| clock := clock e; entropy := entropy e; drawn := S (drawn e) |}).

End Env.

(** Modelled from the spec: [encrypt.Encryptor], the cipher wrapper with
    separate encrypt and decrypt half-states and an "IV already sent"
    flag.  The first [encrypt] puts the IV in front of its output; a
    first [encrypt] of empty data is the marker that only sets the flag,
    and empty data is otherwise handed back as it is.  The decrypt half
    takes the first [cipher_iv_len] bytes it is given as its IV and
    deciphers what follows. *)
Module Encryptor.
Section with_primitives.
Context {prims : primitives}.

Record t : Type := mk {
  key : bytes;
  method : string;
  cipher_iv : bytes;
  iv_sent : bool;
  enc_history : bytes;
  iv_buf : bytes;
  decipher_iv : option bytes;
  dec_history : bytes
}.

(** [Encryptor(key, method, iv)]: without an IV of the right length a
    random one is drawn. *)
Definition new (k : bytes) (m : string) (iv : option bytes) (e : Env.t) : t * Env.t :=
  let given :=
    match iv with
    | Some v => if len v =? cipher_iv_len m then Some v else None
    | None => None
    end in
  let '(v, e) :=
    match given with
    | Some v => (v, e)
    | None => Env.rand_bytes (cipher_iv_len m) e
    end in
  ({| key := k; method := m; cipher_iv := v; iv_sent := false;
      enc_history := []; iv_buf := []; decipher_iv := None;
      dec_history := [] |}, e).

Definition encrypt (buf : bytes) (c : t) : bytes * t :=
  let sent (history : bytes) :=
    {| key := key c; method := method c; cipher_iv := cipher_iv c;
       iv_sent := true; enc_history := history;
       iv_buf := iv_buf c; decipher_iv := decipher_iv c;
       dec_history := dec_history c |} in
  match buf with
  | [] => if iv_sent c then ([], c) else (cipher_iv c, sent (enc_history c))
  | _ :: _ =>
      let out := cipher_update (method c) true (key c) (cipher_iv c) (enc_history c) buf in
      if iv_sent c then (out, sent (enc_history c ++ buf))
      else (cipher_iv c ++ out, sent (enc_history c ++ buf))
  end.

Definition decrypt (buf : bytes) (c : t) : bytes * t :=
  match buf, decipher_iv c with
  | [], _ => ([], c)
  | _ :: _, Some iv =>
      (cipher_update (method c) false (key c) iv (dec_history c) buf,
       {| key := key c; method := method c; cipher_iv := cipher_iv c;
          iv_sent := iv_sent c; enc_history := enc_history c;
          iv_buf := iv_buf c; decipher_iv := decipher_iv c;
          dec_history := dec_history c ++ buf |})
  | _ :: _, None =>
      let got := iv_buf c ++ buf in
      let n := cipher_iv_len (method c) in
      if len got <=? n then
        ([],
         {| key := key c; method := method c; cipher_iv := cipher_iv c;
            iv_sent := iv_sent c; enc_history := enc_history c;
            iv_buf := got; decipher_iv := None;
            dec_history := dec_history c |})
      else
        let iv := got.[:n] in
        let rest := got.[n:] in
        (cipher_update (method c) false (key c) iv [] rest,
         {| key := key c; method := method c; cipher_iv := cipher_iv c;
            iv_sent := iv_sent c; enc_history := enc_history c;
            iv_buf := []; decipher_iv := Some iv;
            dec_history := rest |})
  end.

End with_primitives.
End Encryptor.

(** [server_info] of [..obfs]: what the host gives the session.  The
    [users] table maps a 4-byte uid to the key of the user; [data] is
    the handle of the replay guard. *)
Module ServerInfo.

Record t : Type := mk {
  key : bytes;
  iv : bytes;
  recv_iv : bytes;
  overhead : Z;
  tcp_mss : Z;
  protocol_param : bytes;
  users : list (bytes * bytes);
  data : obfs_auth_akarin_data.t
}.

Definition set_tcp_mss (v : Z) (i : t) : t :=
  {| key := key i; iv := iv i; recv_iv := recv_iv i; overhead := overhead i;
     tcp_mss := v; protocol_param := protocol_param i; users := users i;
     data := data i |}.

Definition set_data (v : obfs_auth_akarin_data.t) (i : t) : t :=
  {| key := key i; iv := iv i; recv_iv := recv_iv i; overhead := overhead i;
     tcp_mss := tcp_mss i; protocol_param := protocol_param i; users := users i;
     data := v |}.

(** [self.server_info.users[uid]], [None] when [uid] is not a key. *)
Fixpoint users_get (uid : bytes) (m : list (bytes * bytes)) : option bytes :=
  match m with
  | [] => None
  | (u, k) :: m' => if bytes_eqb uid u then Some k else users_get uid m'
  end.

End ServerInfo.

(** *** Reading [protocol_param] *)

Definition colon : byte := "058".
Definition hash_sign : byte := "035".

(** [b.split(sep)] for a separator of one byte. *)
Fixpoint split_on (sep : byte) (b : bytes) : list bytes :=
  match b with
  | [] => [[]]
  | x :: b' =>
      if byte_eqb x sep then [] :: split_on sep b'
      else match split_on sep b' with
           | [] => [[x]]
           | w :: ws => (x :: w) :: ws
           end
  end.

(** [sep in b] *)
Definition contains_byte (sep : byte) (b : bytes) : bool :=
  existsb (byte_eqb sep) b.

Definition is_digit (c : byte) : bool :=
  (48 <=? Z_of_byte c) && (Z_of_byte c <=? 57).

Fixpoint digits_value (acc : Z) (b : bytes) : option Z :=
  match b with
  | [] => Some acc
  | c :: b' =>
      if is_digit c then digits_value (10 * acc + (Z_of_byte c - 48)) b' else None
  end.

(** [int(b)] on the decimal numbers, with a sign or without; on
    anything else it raises (Python also takes blanks around the number
    and underscores between its digits, which are left out here). *)
Definition py_int (b : bytes) : result Z :=
  let digits_of d :=
    match d with
    | [] => None
    | _ => digits_value 0 d
    end in
  let parsed :=
    match b with
    | c :: b' =>
        if byte_eqb c "045" then option_map Z.opp (digits_of b')
        else if byte_eqb c "043" then digits_of b'
        else digits_of b
    | [] => None
    end in
  match parsed with
  | Some v => Ok v
  | None => Raise ValueError
  end.


(** *** Methods as state transformers *)

(** A method on an object in state [S] that returns an [A]: the
    outcome of the call and the object afterwards. *)
Definition M (S A : Type) : Type := S → result A * S.

Definition ret {S A} (a : A) : M S A := fun s => (Ok a, s).

Definition bind {S A B} (m : M S A) (k : A → M S B) : M S B :=
  fun s =>
    match m s with
    | (Ok a, s') => k a s'
    | (Raise e, s') => (Raise e, s')
    | (Hang, s') => (Hang, s')
    end.

Definition lift {S A} (r : result A) : M S A := fun s => (r, s).
Definition raise {S A} (e : exn) : M S A := fun s => (Raise e, s).
Definition gets {S A} (f : S → A) : M S A := fun s => (Ok (f s), s).
Definition modify {S} (f : S → S) : M S unit := fun s => (Ok tt, f s).

Notation "'let*' x ':=' m 'in' k" := (bind m (fun x => k))
  (at level 10, x binder, m at level 100, k at level 200).
Notation "m ';;' k" := (bind m (fun _ => k))
  (at level 100, k at level 200, right associativity).
(* ===================================================================== *)
(** ** The session: [auth_akarin_rand] *)
(* ===================================================================== *)

Module auth_akarin_rand.

(** The attributes of the object, under their names, with what the
    host gave it ([server_info]) and what a call takes from its
    surroundings ([env]).  [None] is Python's [None]. *)
Record t : Type := mk {
  method : string;
  no_compatible_method : string;
  overhead : Z;
  raw_trans : bool;
  recv_buf : bytes;
  unit_len : Z;
  has_sent_header : bool;
  has_recv_header : bool;
  client_id : Z;
  connection_id : Z;
  max_time_dif : Z;
  salt : bytes;
  pack_id : Z;
  recv_id : Z;
  user_id : option bytes;
  user_id_num : Z;
  user_key : option bytes;
  client_over_head : Z;
  last_client_hash : bytes;
  last_server_hash : bytes;
  random_client : xorshift128plus.t;
  random_server : xorshift128plus.t;
  encryptor : option Encryptor.t;
  new_send_tcp_mss : Z;
  send_tcp_mss : Z;
  recv_tcp_mss : Z;
  send_back_cmd : list Z;
  server_info : ServerInfo.t;
  env : Env.t
}.

(** Assignments to one attribute. *)
Definition with_overhead (v : Z) (s : t) : t :=
  {| method := method s; no_compatible_method := no_compatible_method s;
     overhead := v; raw_trans := raw_trans s; recv_buf := recv_buf s;
     unit_len := unit_len s; has_sent_header := has_sent_header s;
     has_recv_header := has_recv_header s; client_id := client_id s;
     connection_id := connection_id s; max_time_dif := max_time_dif s;
     salt := salt s; pack_id := pack_id s; recv_id := recv_id s;
     user_id := user_id s; user_id_num := user_id_num s;
     user_key := user_key s; client_over_head := client_over_head s;
     last_client_hash := last_client_hash s;
     last_server_hash := last_server_hash s;
     random_client := random_client s; random_server := random_server s;
     encryptor := encryptor s; new_send_tcp_mss := new_send_tcp_mss s;
     send_tcp_mss := send_tcp_mss s; recv_tcp_mss := recv_tcp_mss s;
     send_back_cmd := send_back_cmd s; server_info := server_info s;
     env := env s |}.

Definition with_raw_trans (v : bool) (s : t) : t :=
  {| method := method s; no_compatible_method := no_compatible_method s;
     overhead := overhead s; raw_trans := v; recv_buf := recv_buf s;
     unit_len := unit_len s; has_sent_header := has_sent_header s;
     has_recv_header := has_recv_header s; client_id := client_id s;
     connection_id := connection_id s; max_time_dif := max_time_dif s;
     salt := salt s; pack_id := pack_id s; recv_id := recv_id s;
     user_id := user_id s; user_id_num := user_id_num s;
     user_key := user_key s; client_over_head := client_over_head s;
     last_client_hash := last_client_hash s;
     last_server_hash := last_server_hash s;
     random_client := random_client s; random_server := random_server s;
     encryptor := encryptor s; new_send_tcp_mss := new_send_tcp_mss s;
     send_tcp_mss := send_tcp_mss s; recv_tcp_mss := recv_tcp_mss s;
     send_back_cmd := send_back_cmd s; server_info := server_info s;
     env := env s |}.

Definition with_recv_buf (v : bytes) (s : t) : t :=
  {| method := method s; no_compatible_method := no_compatible_method s;
     overhead := overhead s; raw_trans := raw_trans s; recv_buf := v;
     unit_len := unit_len s; has_sent_header := has_sent_header s;
     has_recv_header := has_recv_header s; client_id := client_id s;
     connection_id := connection_id s; max_time_dif := max_time_dif s;
     salt := salt s; pack_id := pack_id s; recv_id := recv_id s;
     user_id := user_id s; user_id_num := user_id_num s;
     user_key := user_key s; client_over_head := client_over_head s;
     last_client_hash := last_client_hash s;
     last_server_hash := last_server_hash s;
     random_client := random_client s; random_server := random_server s;
     encryptor := encryptor s; new_send_tcp_mss := new_send_tcp_mss s;
     send_tcp_mss := send_tcp_mss s; recv_tcp_mss := recv_tcp_mss s;
     send_back_cmd := send_back_cmd s; server_info := server_info s;
     env := env s |}.

Definition with_unit_len (v : Z) (s : t) : t :=
  {| method := method s; no_compatible_method := no_compatible_method s;
     overhead := overhead s; raw_trans := raw_trans s;
     recv_buf := recv_buf s; unit_len := v;
     has_sent_header := has_sent_header s;
     has_recv_header := has_recv_header s; client_id := client_id s;
     connection_id := connection_id s; max_time_dif := max_time_dif s;
     salt := salt s; pack_id := pack_id s; recv_id := recv_id s;
     user_id := user_id s; user_id_num := user_id_num s;
     user_key := user_key s; client_over_head := client_over_head s;
     last_client_hash := last_client_hash s;
     last_server_hash := last_server_hash s;
     random_client := random_client s; random_server := random_server s;
     encryptor := encryptor s; new_send_tcp_mss := new_send_tcp_mss s;
     send_tcp_mss := send_tcp_mss s; recv_tcp_mss := recv_tcp_mss s;
     send_back_cmd := send_back_cmd s; server_info := server_info s;
     env := env s |}.

Definition with_has_sent_header (v : bool) (s : t) : t :=
  {| method := method s; no_compatible_method := no_compatible_method s;
     overhead := overhead s; raw_trans := raw_trans s;
     recv_buf := recv_buf s; unit_len := unit_len s; has_sent_header := v;
     has_recv_header := has_recv_header s; client_id := client_id s;
     connection_id := connection_id s; max_time_dif := max_time_dif s;
     salt := salt s; pack_id := pack_id s; recv_id := recv_id s;
     user_id := user_id s; user_id_num := user_id_num s;
     user_key := user_key s; client_over_head := client_over_head s;
     last_client_hash := last_client_hash s;
     last_server_hash := last_server_hash s;
     random_client := random_client s; random_server := random_server s;
     encryptor := encryptor s; new_send_tcp_mss := new_send_tcp_mss s;
     send_tcp_mss := send_tcp_mss s; recv_tcp_mss := recv_tcp_mss s;
     send_back_cmd := send_back_cmd s; server_info := server_info s;
     env := env s |}.

Definition with_has_recv_header (v : bool) (s : t) : t :=
  {| method := method s; no_compatible_method := no_compatible_method s;
     overhead := overhead s; raw_trans := raw_trans s;
     recv_buf := recv_buf s; unit_len := unit_len s;
     has_sent_header := has_sent_header s; has_recv_header := v;
     client_id := client_id s; connection_id := connection_id s;
     max_time_dif := max_time_dif s; salt := salt s; pack_id := pack_id s;
     recv_id := recv_id s; user_id := user_id s;
     user_id_num := user_id_num s; user_key := user_key s;
     client_over_head := client_over_head s;
     last_client_hash := last_client_hash s;
     last_server_hash := last_server_hash s;
     random_client := random_client s; random_server := random_server s;
     encryptor := encryptor s; new_send_tcp_mss := new_send_tcp_mss s;
     send_tcp_mss := send_tcp_mss s; recv_tcp_mss := recv_tcp_mss s;
     send_back_cmd := send_back_cmd s; server_info := server_info s;
     env := env s |}.

Definition with_client_id (v : Z) (s : t) : t :=
  {| method := method s; no_compatible_method := no_compatible_method s;
     overhead := overhead s; raw_trans := raw_trans s;
     recv_buf := recv_buf s; unit_len := unit_len s;
     has_sent_header := has_sent_header s;
     has_recv_header := has_recv_header s; client_id := v;
     connection_id := connection_id s; max_time_dif := max_time_dif s;
     salt := salt s; pack_id := pack_id s; recv_id := recv_id s;
     user_id := user_id s; user_id_num := user_id_num s;
     user_key := user_key s; client_over_head := client_over_head s;
     last_client_hash := last_client_hash s;
     last_server_hash := last_server_hash s;
     random_client := random_client s; random_server := random_server s;
     encryptor := encryptor s; new_send_tcp_mss := new_send_tcp_mss s;
     send_tcp_mss := send_tcp_mss s; recv_tcp_mss := recv_tcp_mss s;
     send_back_cmd := send_back_cmd s; server_info := server_info s;
     env := env s |}.

Definition with_connection_id (v : Z) (s : t) : t :=
  {| method := method s; no_compatible_method := no_compatible_method s;
     overhead := overhead s; raw_trans := raw_trans s;
     recv_buf := recv_buf s; unit_len := unit_len s;
     has_sent_header := has_sent_header s;
     has_recv_header := has_recv_header s; client_id := client_id s;
     connection_id := v; max_time_dif := max_time_dif s; salt := salt s;
     pack_id := pack_id s; recv_id := recv_id s; user_id := user_id s;
     user_id_num := user_id_num s; user_key := user_key s;
     client_over_head := client_over_head s;
     last_client_hash := last_client_hash s;
     last_server_hash := last_server_hash s;
     random_client := random_client s; random_server := random_server s;
     encryptor := encryptor s; new_send_tcp_mss := new_send_tcp_mss s;
     send_tcp_mss := send_tcp_mss s; recv_tcp_mss := recv_tcp_mss s;
     send_back_cmd := send_back_cmd s; server_info := server_info s;
     env := env s |}.

Definition with_pack_id (v : Z) (s : t) : t :=
  {| method := method s; no_compatible_method := no_compatible_method s;
     overhead := overhead s; raw_trans := raw_trans s;
     recv_buf := recv_buf s; unit_len := unit_len s;
     has_sent_header := has_sent_header s;
     has_recv_header := has_recv_header s; client_id := client_id s;
     connection_id := connection_id s; max_time_dif := max_time_dif s;
     salt := salt s; pack_id := v; recv_id := recv_id s;
     user_id := user_id s; user_id_num := user_id_num s;
     user_key := user_key s; client_over_head := client_over_head s;
     last_client_hash := last_client_hash s;
     last_server_hash := last_server_hash s;
     random_client := random_client s; random_server := random_server s;
     encryptor := encryptor s; new_send_tcp_mss := new_send_tcp_mss s;
     send_tcp_mss := send_tcp_mss s; recv_tcp_mss := recv_tcp_mss s;
     send_back_cmd := send_back_cmd s; server_info := server_info s;
     env := env s |}.

Definition with_recv_id (v : Z) (s : t) : t :=
  {| method := method s; no_compatible_method := no_compatible_method s;
     overhead := overhead s; raw_trans := raw_trans s;
     recv_buf := recv_buf s; unit_len := unit_len s;
     has_sent_header := has_sent_header s;
     has_recv_header := has_recv_header s; client_id := client_id s;
     connection_id := connection_id s; max_time_dif := max_time_dif s;
     salt := salt s; pack_id := pack_id s; recv_id := v;
     user_id := user_id s; user_id_num := user_id_num s;
     user_key := user_key s; client_over_head := client_over_head s;
     last_client_hash := last_client_hash s;
     last_server_hash := last_server_hash s;
     random_client := random_client s; random_server := random_server s;
     encryptor := encryptor s; new_send_tcp_mss := new_send_tcp_mss s;
     send_tcp_mss := send_tcp_mss s; recv_tcp_mss := recv_tcp_mss s;
     send_back_cmd := send_back_cmd s; server_info := server_info s;
     env := env s |}.

Definition with_user_id (v : option bytes) (s : t) : t :=
  {| method := method s; no_compatible_method := no_compatible_method s;
     overhead := overhead s; raw_trans := raw_trans s;
     recv_buf := recv_buf s; unit_len := unit_len s;
     has_sent_header := has_sent_header s;
     has_recv_header := has_recv_header s; client_id := client_id s;
     connection_id := connection_id s; max_time_dif := max_time_dif s;
     salt := salt s; pack_id := pack_id s; recv_id := recv_id s;
     user_id := v; user_id_num := user_id_num s; user_key := user_key s;
     client_over_head := client_over_head s;
     last_client_hash := last_client_hash s;
     last_server_hash := last_server_hash s;
     random_client := random_client s; random_server := random_server s;
     encryptor := encryptor s; new_send_tcp_mss := new_send_tcp_mss s;
     send_tcp_mss := send_tcp_mss s; recv_tcp_mss := recv_tcp_mss s;
     send_back_cmd := send_back_cmd s; server_info := server_info s;
     env := env s |}.

Definition with_user_id_num (v : Z) (s : t) : t :=
  {| method := method s; no_compatible_method := no_compatible_method s;
     overhead := overhead s; raw_trans := raw_trans s;
     recv_buf := recv_buf s; unit_len := unit_len s;
     has_sent_header := has_sent_header s;
     has_recv_header := has_recv_header s; client_id := client_id s;
     connection_id := connection_id s; max_time_dif := max_time_dif s;
     salt := salt s; pack_id := pack_id s; recv_id := recv_id s;
     user_id := user_id s; user_id_num := v; user_key := user_key s;
     client_over_head := client_over_head s;
     last_client_hash := last_client_hash s;
     last_server_hash := last_server_hash s;
     random_client := random_client s; random_server := random_server s;
     encryptor := encryptor s; new_send_tcp_mss := new_send_tcp_mss s;
     send_tcp_mss := send_tcp_mss s; recv_tcp_mss := recv_tcp_mss s;
     send_back_cmd := send_back_cmd s; server_info := server_info s;
     env := env s |}.

Definition with_user_key (v : option bytes) (s : t) : t :=
  {| method := method s; no_compatible_method := no_compatible_method s;
     overhead := overhead s; raw_trans := raw_trans s;
     recv_buf := recv_buf s; unit_len := unit_len s;
     has_sent_header := has_sent_header s;
     has_recv_header := has_recv_header s; client_id := client_id s;
     connection_id := connection_id s; max_time_dif := max_time_dif s;
     salt := salt s; pack_id := pack_id s; recv_id := recv_id s;
     user_id := user_id s; user_id_num := user_id_num s; user_key := v;
     client_over_head := client_over_head s;
     last_client_hash := last_client_hash s;
     last_server_hash := last_server_hash s;
     random_client := random_client s; random_server := random_server s;
     encryptor := encryptor s; new_send_tcp_mss := new_send_tcp_mss s;
     send_tcp_mss := send_tcp_mss s; recv_tcp_mss := recv_tcp_mss s;
     send_back_cmd := send_back_cmd s; server_info := server_info s;
     env := env s |}.

Definition with_client_over_head (v : Z) (s : t) : t :=
  {| method := method s; no_compatible_method := no_compatible_method s;
     overhead := overhead s; raw_trans := raw_trans s;
     recv_buf := recv_buf s; unit_len := unit_len s;
     has_sent_header := has_sent_header s;
     has_recv_header := has_recv_header s; client_id := client_id s;
     connection_id := connection_id s; max_time_dif := max_time_dif s;
     salt := salt s; pack_id := pack_id s; recv_id := recv_id s;
     user_id := user_id s; user_id_num := user_id_num s;
     user_key := user_key s; client_over_head := v;
     last_client_hash := last_client_hash s;
     last_server_hash := last_server_hash s;
     random_client := random_client s; random_server := random_server s;
     encryptor := encryptor s; new_send_tcp_mss := new_send_tcp_mss s;
     send_tcp_mss := send_tcp_mss s; recv_tcp_mss := recv_tcp_mss s;
     send_back_cmd := send_back_cmd s; server_info := server_info s;
     env := env s |}.

Definition with_last_client_hash (v : bytes) (s : t) : t :=
  {| method := method s; no_compatible_method := no_compatible_method s;
     overhead := overhead s; raw_trans := raw_trans s;
     recv_buf := recv_buf s; unit_len := unit_len s;
     has_sent_header := has_sent_header s;
     has_recv_header := has_recv_header s; client_id := client_id s;
     connection_id := connection_id s; max_time_dif := max_time_dif s;
     salt := salt s; pack_id := pack_id s; recv_id := recv_id s;
     user_id := user_id s; user_id_num := user_id_num s;
     user_key := user_key s; client_over_head := client_over_head s;
     last_client_hash := v; last_server_hash := last_server_hash s;
     random_client := random_client s; random_server := random_server s;
     encryptor := encryptor s; new_send_tcp_mss := new_send_tcp_mss s;
     send_tcp_mss := send_tcp_mss s; recv_tcp_mss := recv_tcp_mss s;
     send_back_cmd := send_back_cmd s; server_info := server_info s;
     env := env s |}.

Definition with_last_server_hash (v : bytes) (s : t) : t :=
  {| method := method s; no_compatible_method := no_compatible_method s;
     overhead := overhead s; raw_trans := raw_trans s;
     recv_buf := recv_buf s; unit_len := unit_len s;
     has_sent_header := has_sent_header s;
     has_recv_header := has_recv_header s; client_id := client_id s;
     connection_id := connection_id s; max_time_dif := max_time_dif s;
     salt := salt s; pack_id := pack_id s; recv_id := recv_id s;
     user_id := user_id s; user_id_num := user_id_num s;
     user_key := user_key s; client_over_head := client_over_head s;
     last_client_hash := last_client_hash s; last_server_hash := v;
     random_client := random_client s; random_server := random_server s;
     encryptor := encryptor s; new_send_tcp_mss := new_send_tcp_mss s;
     send_tcp_mss := send_tcp_mss s; recv_tcp_mss := recv_tcp_mss s;
     send_back_cmd := send_back_cmd s; server_info := server_info s;
     env := env s |}.

Definition with_random_client (v : xorshift128plus.t) (s : t) : t :=
  {| method := method s; no_compatible_method := no_compatible_method s;
     overhead := overhead s; raw_trans := raw_trans s;
     recv_buf := recv_buf s; unit_len := unit_len s;
     has_sent_header := has_sent_header s;
     has_recv_header := has_recv_header s; client_id := client_id s;
     connection_id := connection_id s; max_time_dif := max_time_dif s;
     salt := salt s; pack_id := pack_id s; recv_id := recv_id s;
     user_id := user_id s; user_id_num := user_id_num s;
     user_key := user_key s; client_over_head := client_over_head s;
     last_client_hash := last_client_hash s;
     last_server_hash := last_server_hash s; random_client := v;
     random_server := random_server s; encryptor := encryptor s;
     new_send_tcp_mss := new_send_tcp_mss s; send_tcp_mss := send_tcp_mss s;
     recv_tcp_mss := recv_tcp_mss s; send_back_cmd := send_back_cmd s;
     server_info := server_info s; env := env s |}.

Definition with_random_server (v : xorshift128plus.t) (s : t) : t :=
  {| method := method s; no_compatible_method := no_compatible_method s;
     overhead := overhead s; raw_trans := raw_trans s;
     recv_buf := recv_buf s; unit_len := unit_len s;
     has_sent_header := has_sent_header s;
     has_recv_header := has_recv_header s; client_id := client_id s;
     connection_id := connection_id s; max_time_dif := max_time_dif s;
     salt := salt s; pack_id := pack_id s; recv_id := recv_id s;
     user_id := user_id s; user_id_num := user_id_num s;
     user_key := user_key s; client_over_head := client_over_head s;
     last_client_hash := last_client_hash s;
     last_server_hash := last_server_hash s;
     random_client := random_client s; random_server := v;
     encryptor := encryptor s; new_send_tcp_mss := new_send_tcp_mss s;
     send_tcp_mss := send_tcp_mss s; recv_tcp_mss := recv_tcp_mss s;
     send_back_cmd := send_back_cmd s; server_info := server_info s;
     env := env s |}.

Definition with_encryptor (v : option Encryptor.t) (s : t) : t :=
  {| method := method s; no_compatible_method := no_compatible_method s;
     overhead := overhead s; raw_trans := raw_trans s;
     recv_buf := recv_buf s; unit_len := unit_len s;
     has_sent_header := has_sent_header s;
     has_recv_header := has_recv_header s; client_id := client_id s;
     connection_id := connection_id s; max_time_dif := max_time_dif s;
     salt := salt s; pack_id := pack_id s; recv_id := recv_id s;
     user_id := user_id s; user_id_num := user_id_num s;
     user_key := user_key s; client_over_head := client_over_head s;
     last_client_hash := last_client_hash s;
     last_server_hash := last_server_hash s;
     random_client := random_client s; random_server := random_server s;
     encryptor := v; new_send_tcp_mss := new_send_tcp_mss s;
     send_tcp_mss := send_tcp_mss s; recv_tcp_mss := recv_tcp_mss s;
     send_back_cmd := send_back_cmd s; server_info := server_info s;
     env := env s |}.

Definition with_new_send_tcp_mss (v : Z) (s : t) : t :=
  {| method := method s; no_compatible_method := no_compatible_method s;
     overhead := overhead s; raw_trans := raw_trans s;
     recv_buf := recv_buf s; unit_len := unit_len s;
     has_sent_header := has_sent_header s;
     has_recv_header := has_recv_header s; client_id := client_id s;
     connection_id := connection_id s; max_time_dif := max_time_dif s;
     salt := salt s; pack_id := pack_id s; recv_id := recv_id s;
     user_id := user_id s; user_id_num := user_id_num s;
     user_key := user_key s; client_over_head := client_over_head s;
     last_client_hash := last_client_hash s;
     last_server_hash := last_server_hash s;
     random_client := random_client s; random_server := random_server s;
     encryptor := encryptor s; new_send_tcp_mss := v;
     send_tcp_mss := send_tcp_mss s; recv_tcp_mss := recv_tcp_mss s;
     send_back_cmd := send_back_cmd s; server_info := server_info s;
     env := env s |}.

Definition with_send_tcp_mss (v : Z) (s : t) : t :=
  {| method := method s; no_compatible_method := no_compatible_method s;
     overhead := overhead s; raw_trans := raw_trans s;
     recv_buf := recv_buf s; unit_len := unit_len s;
     has_sent_header := has_sent_header s;
     has_recv_header := has_recv_header s; client_id := client_id s;
     connection_id := connection_id s; max_time_dif := max_time_dif s;
     salt := salt s; pack_id := pack_id s; recv_id := recv_id s;
     user_id := user_id s; user_id_num := user_id_num s;
     user_key := user_key s; client_over_head := client_over_head s;
     last_client_hash := last_client_hash s;
     last_server_hash := last_server_hash s;
     random_client := random_client s; random_server := random_server s;
     encryptor := encryptor s; new_send_tcp_mss := new_send_tcp_mss s;
     send_tcp_mss := v; recv_tcp_mss := recv_tcp_mss s;
     send_back_cmd := send_back_cmd s; server_info := server_info s;
     env := env s |}.

Definition with_recv_tcp_mss (v : Z) (s : t) : t :=
  {| method := method s; no_compatible_method := no_compatible_method s;
     overhead := overhead s; raw_trans := raw_trans s;
     recv_buf := recv_buf s; unit_len := unit_len s;
     has_sent_header := has_sent_header s;
     has_recv_header := has_recv_header s; client_id := client_id s;
     connection_id := connection_id s; max_time_dif := max_time_dif s;
     salt := salt s; pack_id := pack_id s; recv_id := recv_id s;
     user_id := user_id s; user_id_num := user_id_num s;
     user_key := user_key s; client_over_head := client_over_head s;
     last_client_hash := last_client_hash s;
     last_server_hash := last_server_hash s;
     random_client := random_client s; random_server := random_server s;
     encryptor := encryptor s; new_send_tcp_mss := new_send_tcp_mss s;
     send_tcp_mss := send_tcp_mss s; recv_tcp_mss := v;
     send_back_cmd := send_back_cmd s; server_info := server_info s;
     env := env s |}.

Definition with_send_back_cmd (v : list Z) (s : t) : t :=
  {| method := method s; no_compatible_method := no_compatible_method s;
     overhead := overhead s; raw_trans := raw_trans s;
     recv_buf := recv_buf s; unit_len := unit_len s;
     has_sent_header := has_sent_header s;
     has_recv_header := has_recv_header s; client_id := client_id s;
     connection_id := connection_id s; max_time_dif := max_time_dif s;
     salt := salt s; pack_id := pack_id s; recv_id := recv_id s;
     user_id := user_id s; user_id_num := user_id_num s;
     user_key := user_key s; client_over_head := client_over_head s;
     last_client_hash := last_client_hash s;
     last_server_hash := last_server_hash s;
     random_client := random_client s; random_server := random_server s;
     encryptor := encryptor s; new_send_tcp_mss := new_send_tcp_mss s;
     send_tcp_mss := send_tcp_mss s; recv_tcp_mss := recv_tcp_mss s;
     send_back_cmd := v; server_info := server_info s; env := env s |}.

Definition with_server_info (v : ServerInfo.t) (s : t) : t :=
  {| method := method s; no_compatible_method := no_compatible_method s;
     overhead := overhead s; raw_trans := raw_trans s;
     recv_buf := recv_buf s; unit_len := unit_len s;
     has_sent_header := has_sent_header s;
     has_recv_header := has_recv_header s; client_id := client_id s;
     connection_id := connection_id s; max_time_dif := max_time_dif s;
     salt := salt s; pack_id := pack_id s; recv_id := recv_id s;
     user_id := user_id s; user_id_num := user_id_num s;
     user_key := user_key s; client_over_head := client_over_head s;
     last_client_hash := last_client_hash s;
     last_server_hash := last_server_hash s;
     random_client := random_client s; random_server := random_server s;
     encryptor := encryptor s; new_send_tcp_mss := new_send_tcp_mss s;
     send_tcp_mss := send_tcp_mss s; recv_tcp_mss := recv_tcp_mss s;
     send_back_cmd := send_back_cmd s; server_info := v; env := env s |}.

Definition with_env (v : Env.t) (s : t) : t :=
  {| method := method s; no_compatible_method := no_compatible_method s;
     overhead := overhead s; raw_trans := raw_trans s;
     recv_buf := recv_buf s; unit_len := unit_len s;
     has_sent_header := has_sent_header s;
     has_recv_header := has_recv_header s; client_id := client_id s;
     connection_id := connection_id s; max_time_dif := max_time_dif s;
     salt := salt s; pack_id := pack_id s; recv_id := recv_id s;
     user_id := user_id s; user_id_num := user_id_num s;
     user_key := user_key s; client_over_head := client_over_head s;
     last_client_hash := last_client_hash s;
     last_server_hash := last_server_hash s;
     random_client := random_client s; random_server := random_server s;
     encryptor := encryptor s; new_send_tcp_mss := new_send_tcp_mss s;
     send_tcp_mss := send_tcp_mss s; recv_tcp_mss := recv_tcp_mss s;
     send_back_cmd := send_back_cmd s; server_info := server_info s; env := v |}.

(** How a turn of a receive loop ends: on to the next turn with what
    was decoded so far, out of the loop ([break]), or out of the method
    ([return]). *)
Inductive turn (A R : Type) : Type :=
| Next (acc : A)
| Break
| Return (r : R).
Arguments Next {A R} acc.
Arguments Break {A R}.
Arguments Return {A R} r.

Section with_primitives.
Context {prims : primitives}.

(** The session as the host makes it: [__init__(method)], with
    [server_info] as [set_server_info] leaves it. *)
Definition init (m : string) (info : ServerInfo.t) (e : Env.t) : t :=
  {| method := m; no_compatible_method := "auth_akarin_rand"; overhead := 4;
     raw_trans := false; recv_buf := []; unit_len := 2800;
     has_sent_header := false; has_recv_header := false;
     client_id := 0; connection_id := 0; max_time_dif := 60 * 60 * 24;
     salt := list_byte_of_string "auth_akarin_rand";
     pack_id := 1; recv_id := 1; user_id := None; user_id_num := 0;
     user_key := None; client_over_head := 4;
     last_client_hash := []; last_server_hash := [];
     random_client := xorshift128plus.init; random_server := xorshift128plus.init;
     encryptor := None;
     new_send_tcp_mss := 2000; send_tcp_mss := 2000; recv_tcp_mss := 2000;
     send_back_cmd := []; server_info := info; env := e |}.

(** [init_data()] *)
Definition init_data (s : t) : obfs_auth_akarin_data.t :=
  obfs_auth_akarin_data.init (method s).

Definition get_overhead (direction : bool) : M t Z := gets overhead.

(** [set_server_info(server_info)]: the leading number of
    [protocol_param] is the number of clients, 64 when there is none. *)
Definition set_server_info (info : ServerInfo.t) : M t unit :=
  let max_client :=
    match split_on hash_sign (ServerInfo.protocol_param info) with
    | w :: _ => match py_int w with Ok n => n | _ => 64 end
    | [] => 64
    end in
  modify (with_server_info
            (ServerInfo.set_data
               (obfs_auth_akarin_data.set_max_client max_client (ServerInfo.data info))
               info)).

(** [auth_base.not_match_return(buf)] *)
Definition not_match_return (buf : bytes) : M t (bytes * bool) :=
  modify (with_raw_trans true) ;;
  modify (with_overhead 0) ;;
  let* m := gets method in
  let* n := gets no_compatible_method in
  if String.eqb m n then ret (bytes_repeat "E" 2048, false)
  else ret (buf, false).

(** *** What the methods reach through [self] *)

(** The two generators: a method is handed [self.random_client] or
    [self.random_server] and changes it in place. *)
Inductive which_random : Type := RandomClient | RandomServer.

Definition get_random (w : which_random) (s : t) : xorshift128plus.t :=
  match w with RandomClient => random_client s | RandomServer => random_server s end.

Definition set_random (w : which_random) (r : xorshift128plus.t) (s : t) : t :=
  match w with
  | RandomClient => with_random_client r s
  | RandomServer => with_random_server r s
  end.

Definition random_init_from_bin (w : which_random) (bin : bytes) : M t unit :=
  let* r := lift (xorshift128plus.init_from_bin bin) in
  modify (set_random w r).

Definition random_init_from_bin_len (w : which_random) (bin : bytes) (length : Z)
  : M t unit :=
  let* r := lift (xorshift128plus.init_from_bin_len bin length) in
  modify (set_random w r).

Definition random_next (w : which_random) : M t Z :=
  fun s =>
    let '(v, r) := xorshift128plus.next (get_random w s) in
    (Ok v, set_random w r s).

Definition rand_bytes (n : Z) : M t bytes :=
  fun s => let '(b, e) := Env.rand_bytes n (env s) in (Ok b, with_env e s).

Definition randint_0_31 : M t Z :=
  fun s => let '(v, e) := Env.randint32 (env s) in (Ok v, with_env e s).

(** [int(time.time())] *)
Definition time_now : M t Z := gets (fun s => Env.clock (env s)).

(** [encrypt.Encryptor(key, method, iv)] *)
Definition new_encryptor (k : bytes) (m : string) (iv : option bytes) : M t Encryptor.t :=
  fun s => let '(c, e) := Encryptor.new k m iv (env s) in (Ok c, with_env e s).

(** [self.encryptor.encrypt(buf)] and [self.encryptor.decrypt(buf)] *)
Definition encryptor_encrypt (buf : bytes) : M t bytes :=
  fun s =>
    match encryptor s with
    | None => (Raise AttributeError, s)
    | Some c =>
        let '(o, c') := Encryptor.encrypt buf c in (Ok o, with_encryptor (Some c') s)
    end.

Definition encryptor_decrypt (buf : bytes) : M t bytes :=
  fun s =>
    match encryptor s with
    | None => (Raise AttributeError, s)
    | Some c =>
        let '(o, c') := Encryptor.decrypt buf c in (Ok o, with_encryptor (Some c') s)
    end.

(** [self.user_key] where bytes are needed. *)
Definition the_user_key : M t bytes :=
  fun s =>
    match user_key s with
    | Some k => (Ok k, s)
    | None => (Raise TypeError, s)
    end.

Definition info_overhead (s : t) : Z := ServerInfo.overhead (server_info s).

(** *** Padding lengths *)

Definition send_rnd_data_len (buf_size : Z) (last_hash : bytes) (random : which_random)
  : M t Z :=
  let* over := gets info_overhead in
  let* mss := gets send_tcp_mss in
  if mss <? buf_size + over then
    random_init_from_bin_len random last_hash buf_size ;;
    let* r := random_next random in lift (py_mod r 521)
  else if (1440 <=? buf_size) || (buf_size + over =? mss) then ret 0
  else
    random_init_from_bin_len random last_hash buf_size ;;
    if 1300 <? buf_size then
      let* r := random_next random in lift (py_mod r 31)
    else if 900 <? buf_size then
      let* r := random_next random in lift (py_mod r 127)
    else if 400 <? buf_size then
      let* r := random_next random in lift (py_mod r 521)
    else
      let* r := random_next random in
      lift (py_mod r (mss - buf_size - over)).

Definition recv_rnd_data_len (buf_size : Z) (last_hash : bytes) (random : which_random)
  : M t Z :=
  let* over := gets info_overhead in
  let* rmss := gets recv_tcp_mss in
  let* smss := gets send_tcp_mss in
  if rmss <? buf_size + over then
    random_init_from_bin_len random last_hash buf_size ;;
    let* r := random_next random in lift (py_mod r 521)
  else if (1440 <=? buf_size) || (buf_size + over =? smss) then ret 0
  else
    random_init_from_bin_len random last_hash buf_size ;;
    if 1300 <? buf_size then
      let* r := random_next random in lift (py_mod r 31)
    else if 900 <? buf_size then
      let* r := random_next random in lift (py_mod r 127)
    else if 400 <? buf_size then
      let* r := random_next random in lift (py_mod r 521)
    else
      let* r := random_next random in
      lift (py_mod r (rmss - buf_size - over)).

Definition udp_rnd_data_len (last_hash : bytes) (random : which_random) : M t Z :=
  random_init_from_bin random last_hash ;;
  let* r := random_next random in lift (py_mod r 127).

Definition rnd_data (buf_size : Z) (buf last_hash : bytes) (random : which_random)
  : M t bytes :=
  let* rand_len := send_rnd_data_len buf_size last_hash random in
  let* rnd_data_buf := rand_bytes rand_len in
  if buf_size =? 0 then ret rnd_data_buf
  else if 0 <? rand_len then ret (buf ++ rnd_data_buf)
  else ret buf.

(** *** Framing *)

Definition pack_client_data (buf : bytes) : M t bytes :=
  let* buf := encryptor_encrypt buf in
  let* cmds := gets send_back_cmd in
  let* data :=
    match cmds with
    | _ :: _ =>
        let cmd_len := 2 in
        let* rmss := gets recv_tcp_mss in
        modify (with_send_tcp_mss rmss) ;;
        let* h := gets last_client_hash in
        let* data := rnd_data (len buf + cmd_len) buf h RandomClient in
        let* m := lift (unpack_H h.[12:14]) in
        let* l := lift (pack_H (Z.lxor (len buf) m)) in
        let data := l ++ data in
        let* m := lift (unpack_H h.[14:]) in
        let* l := lift (pack_H (Z.lxor 0xff00 m)) in
        ret (l ++ data)
    | [] =>
        let* h := gets last_client_hash in
        let* data := rnd_data (len buf) buf h RandomClient in
        let* m := lift (unpack_H h.[14:]) in
        let* l := lift (pack_H (Z.lxor (len buf) m)) in
        ret (l ++ data)
    end in
  let* pid := gets pack_id in
  let* p := lift (pack_I pid) in
  let* uk := the_user_key in
  let mac_key := uk ++ p in
  let h := hmac_md5 mac_key data in
  modify (with_last_client_hash h) ;;
  let data := data ++ h.[:2] in
  modify (with_pack_id (Z.land (pid + 1) 0xFFFFFFFF)) ;;
  ret data.

Definition pack_server_data (buf : bytes) : M t bytes :=
  let* buf := encryptor_encrypt buf in
  let* h := gets last_server_hash in
  let* data := rnd_data (len buf) buf h RandomServer in
  let* pid := gets pack_id in
  let* p := lift (pack_I pid) in
  let* uk := the_user_key in
  let mac_key := uk ++ p in
  let* m := lift (unpack_H h.[14:]) in
  let* l := lift (pack_H (Z.lxor (len buf) m)) in
  let data := l ++ data in
  let h := hmac_md5 mac_key data in
  modify (with_last_server_hash h) ;;
  let data := data ++ h.[:2] in
  (if pid =? 1 then
     let* n := gets new_send_tcp_mss in modify (with_send_tcp_mss n)
   else ret tt) ;;
  modify (with_pack_id (Z.land (pid + 1) 0xFFFFFFFF)) ;;
  ret data.

(** *** The client's first packet *)

Definition info_data (s : t) : obfs_auth_akarin_data.t := ServerInfo.data (server_info s).

Definition set_info_data (d : obfs_auth_akarin_data.t) (s : t) : t :=
  with_server_info (ServerInfo.set_data d (server_info s)) s.

Definition auth_data : M t bytes :=
  let* now := time_now in
  let utc_time := Z.land now 0xFFFFFFFF in
  let* d := gets info_data in
  (if 0xFF000000 <? obfs_auth_akarin_data.connection_id d then
     modify (set_info_data (obfs_auth_akarin_data.set_local_client_id [] d))
   else ret tt) ;;
  let* d := gets info_data in
  (match obfs_auth_akarin_data.local_client_id d with
   | [] =>
       let* c := rand_bytes 4 in
       let* d := gets info_data in
       modify (set_info_data (obfs_auth_akarin_data.set_local_client_id c d)) ;;
       let* r := rand_bytes 4 in
       let* n := lift (unpack_I r) in
       let* d := gets info_data in
       modify (set_info_data
                 (obfs_auth_akarin_data.set_connection_id (Z.land n 0xFFFFFF) d))
   | _ :: _ => ret tt
   end) ;;
  let* d := gets info_data in
  modify (set_info_data
            (obfs_auth_akarin_data.set_connection_id
               (obfs_auth_akarin_data.connection_id d + 1) d)) ;;
  let* u := lift (pack_I utc_time) in
  let* d := gets info_data in
  let* c := lift (pack_I (obfs_auth_akarin_data.connection_id d)) in
  ret (u ++ obfs_auth_akarin_data.local_client_id d ++ c).

Definition on_recv_auth_data (utc_time : Z) : M t unit := ret tt.

Definition pack_auth_data (auth_data buf : bytes) : M t bytes :=
  let data := auth_data in
  let* r := rand_bytes 2 in
  let* n := lift (unpack_H_be r) in
  let* n := lift (py_mod n 1024) in
  modify (with_send_tcp_mss (n + 400)) ;;
  let* info := gets server_info in
  let* o := lift (pack_H (ServerInfo.overhead info)) in
  let* smss := gets send_tcp_mss in
  let* m := lift (pack_H smss) in
  let data := data ++ (o ++ m) in
  let mac_key := ServerInfo.iv info ++ ServerInfo.key info in
  let* check_head := rand_bytes 4 in
  let client_hash := hmac_md5 mac_key check_head in
  modify (with_last_client_hash client_hash) ;;
  let check_head := check_head ++ client_hash.[:8] in
  let* uid :=
    if contains_byte colon (ServerInfo.protocol_param info) then
      match split_on colon (ServerInfo.protocol_param info) with
      | item0 :: item1 :: _ =>
          modify (with_user_key (Some item1)) ;;
          match result_bind (py_int item0) pack_I with
          | Ok uid => ret uid
          | _ => rand_bytes 4
          end
      | _ => rand_bytes 4
      end
    else rand_bytes 4 in
  let* k := gets user_key in
  (match k with
   | None => modify (with_user_key (Some (ServerInfo.key info)))
   | Some _ => ret tt
   end) ;;
  let* uk := the_user_key in
  let* sl := gets salt in
  let* enc := new_encryptor (b64encode uk ++ sl) "aes-128-cbc" (Some (bytes_repeat x00 16)) in
  let* a := lift (unpack_I uid) in
  let* b := lift (unpack_I client_hash.[8:12]) in
  let* uid := lift (pack_I (Z.lxor a b)) in
  let data := uid ++ (fst (Encryptor.encrypt data enc)).[16:] in
  let server_hash := hmac_md5 uk data in
  modify (with_last_server_hash server_hash) ;;
  let data := check_head ++ data ++ server_hash.[:4] in
  let* enc := new_encryptor (b64encode uk ++ b64encode client_hash) "chacha20"
                (Some client_hash.[:8]) in
  modify (with_encryptor (Some enc)) ;;
  let* _ := encryptor_encrypt [] in
  let* _ := encryptor_decrypt server_hash.[:8] in
  let* p := pack_client_data buf in
  ret (data ++ p).

(** *** The four stream methods *)

(** The loop [while len(buf) > self.unit_len] that cuts [buf] into
    packets, run for at most [fuel] turns: what was packed and what is
    left of [buf].  [Hang] is the answer when the turns run out, which
    happens to a loop that never leaves ([unit_len] below 1). *)
Fixpoint chunk_loop (pack : bytes → M t bytes) (fuel : nat) (ret_ buf : bytes)
  : M t (bytes * bytes) :=
  fun s =>
    let n := unit_len s in
    if n <? len buf then
      match fuel with
      | O => (Hang, s)
      | S fuel' =>
          (let* d := pack buf.[:n] in
           chunk_loop pack fuel' (ret_ ++ d) buf.[n:]) s
      end
    else (Ok (ret_, buf), s).

Definition client_pre_encrypt (buf : bytes) : M t bytes :=
  let ret_ := [] in
  let* sent := gets has_sent_header in
  let* '(ret_, buf) :=
    if negb sent then
      let head_size := get_head_size buf 30 in
      let* r := randint_0_31 in
      let datalen := Z.min (len buf) (r + head_size) in
      let* a := auth_data in
      let* p := pack_auth_data a buf.[:datalen] in
      modify (with_has_sent_header true) ;;
      ret (ret_ ++ p, buf.[datalen:])
    else ret (ret_, buf) in
  let* '(ret_, buf) := chunk_loop pack_client_data (length buf) ret_ buf in
  let* p := pack_client_data buf in
  ret (ret_ ++ p).

(** [self.raw_trans = True; self.recv_buf = b''], then [raise]. *)
Definition fail_raise {A} (msg : string) : M t A :=
  modify (with_raw_trans true) ;;
  modify (with_recv_buf []) ;;
  raise (Exception msg).

(** The same on the server, where the first packet is answered with
    2048 bytes ['E'] instead:
    [if self.recv_id == 1: return (b'E' * 2048, False) else: raise]. *)
Definition fail_poison {A} (msg : string) : M t (turn A (bytes * bool)) :=
  modify (with_raw_trans true) ;;
  modify (with_recv_buf []) ;;
  let* rid := gets recv_id in
  if rid =? 1 then ret (Return (bytes_repeat "E" 2048, false))
  else raise (Exception msg).

(** The body of the loop of [client_post_decrypt], entered with more
    than 4 bytes in [recv_buf]. *)
Definition client_packet (out_buf : bytes) : M t (turn bytes bytes) :=
  let* rid := gets recv_id in
  let* p := lift (pack_I rid) in
  let* uk := the_user_key in
  let mac_key := uk ++ p in
  let* rb := gets recv_buf in
  let* h := gets last_server_hash in
  let* w := lift (unpack_H rb.[:2]) in
  let* m := lift (unpack_H h.[14:16]) in
  let data_len := Z.lxor w m in
  let* rand_len := recv_rnd_data_len data_len h RandomServer in
  let length := data_len + rand_len in
  if 4096 <=? length then fail_raise "client_post_decrypt data error"
  else if len rb <? length + 4 then ret Break
  else
    let server_hash := hmac_md5 mac_key rb.[:length + 2] in
    if negb (bytes_eqb server_hash.[:2] rb.[length + 2 : length + 4]) then
      fail_raise "client_post_decrypt data uncorrect checksum"
    else
      let pos := 2 in
      let* d := encryptor_decrypt rb.[pos : data_len + pos] in
      let out_buf := out_buf ++ d in
      modify (with_last_server_hash server_hash) ;;
      let* out_buf :=
        if rid =? 1 then
          let* mss := lift (unpack_H out_buf.[:2]) in
          let* info := gets server_info in
          modify (with_server_info (ServerInfo.set_tcp_mss mss info)) ;;
          modify (with_recv_tcp_mss mss) ;;
          let* cmds := gets send_back_cmd in
          modify (with_send_back_cmd (cmds ++ [0xff00])) ;;
          ret out_buf.[2:]
        else ret out_buf in
      modify (with_recv_id (Z.land (rid + 1) 0xFFFFFFFF)) ;;
      modify (with_recv_buf rb.[length + 4:]) ;;
      ret (Next out_buf).

(** [while len(self.recv_buf) > 4], for at most [fuel] turns. *)
Fixpoint recv_loop {A R} (body : A → M t (turn A R)) (fuel : nat) (acc : A)
  : M t (turn A R) :=
  fun s =>
    if 4 <? len (recv_buf s) then
      match fuel with
      | O => (Hang, s)
      | S fuel' =>
          (let* t := body acc in
           match t with
           | Next acc' => recv_loop body fuel' acc'
           | Break => ret (Next acc)
           | Return r => ret (Return r)
           end) s
      end
    else (Ok (Next acc), s).

Definition client_post_decrypt (buf : bytes) : M t bytes :=
  let* raw := gets raw_trans in
  if raw then ret buf
  else
    let* rb := gets recv_buf in
    modify (with_recv_buf (rb ++ buf)) ;;
    let* t := recv_loop client_packet (length (rb ++ buf)) [] in
    match t with
    | Next out_buf => ret out_buf
    | Break => ret []
    | Return r => ret r
    end.

Definition server_pre_encrypt (buf : bytes) : M t bytes :=
  let* raw := gets raw_trans in
  if raw then ret buf
  else
    let ret_ := [] in
    let* pid := gets pack_id in
    let* buf :=
      if pid =? 1 then
        let* info := gets server_info in
        let tcp_mss :=
          if ServerInfo.tcp_mss info <? 1500 then ServerInfo.tcp_mss info else 1500 in
        modify (with_server_info (ServerInfo.set_tcp_mss tcp_mss info)) ;;
        let* m := lift (pack_H tcp_mss) in
        let* coh := gets client_over_head in
        modify (with_unit_len (tcp_mss - coh)) ;;
        modify (with_new_send_tcp_mss tcp_mss) ;;
        ret (m ++ buf)
      else ret buf in
    let* '(ret_, buf) := chunk_loop pack_server_data (length buf) ret_ buf in
    let* p := pack_server_data buf in
    ret (ret_ ++ p).

(** The inner loop of [server_post_decrypt], [while data_len >= 0xff00],
    over the local [recv_buf]: the length, [cmd_len] and the local
    buffer it leaves with, or the way out of the method. *)
Fixpoint cmd_loop (fuel : nat) (data_len cmd_len : Z) (recv_buf_ : bytes)
  : M t (turn (Z * Z * bytes) (bytes * bool)) :=
  if 0xff00 <=? data_len then
    match fuel with
    | O => fun s => (Hang, s)
    | S fuel' =>
        if data_len =? 0xff00 then
          let cmd_len := cmd_len + 2 in
          let* smss := gets send_tcp_mss in
          modify (with_recv_tcp_mss smss) ;;
          let recv_buf_ := recv_buf_.[2:] in
          let* h := gets last_client_hash in
          let* w := lift (unpack_H recv_buf_.[:2]) in
          let* m := lift (unpack_H h.[12:14]) in
          cmd_loop fuel' (Z.lxor w m) cmd_len recv_buf_
        else fail_poison "server_post_decrype data error"
    end
  else ret (Next (data_len, cmd_len, recv_buf_)).

(** The body of the main loop of [server_post_decrypt]. *)
Definition server_packet (acc : bytes * bool)
  : M t (turn (bytes * bool) (bytes * bool)) :=
  let '(out_buf, sendback) := acc in
  let* rid := gets recv_id in
  let* p := lift (pack_I rid) in
  let* uk := the_user_key in
  let mac_key := uk ++ p in
  let* recv_buf_ := gets recv_buf in
  let* h := gets last_client_hash in
  let* w := lift (unpack_H recv_buf_.[:2]) in
  let* m := lift (unpack_H h.[14:16]) in
  let data_len := Z.lxor w m in
  let cmd_len := 0 in
  let* c := cmd_loop (length recv_buf_) data_len cmd_len recv_buf_ in
  match c with
  | Break => ret Break
  | Return r => ret (Return r)
  | Next (data_len, cmd_len, recv_buf_) =>
      let* rand_len := recv_rnd_data_len (data_len + cmd_len) h RandomClient in
      let length := data_len + rand_len in
      if 4096 <=? length then fail_poison "server_post_decrype data error"
      else if len recv_buf_ <? length + 4 then ret Break
      else
        let* rb := gets recv_buf in
        let client_hash := hmac_md5 mac_key rb.[:length + cmd_len + 2] in
        if negb (bytes_eqb client_hash.[:2]
                   rb.[length + cmd_len + 2 : length + cmd_len + 4]) then
          fail_poison "server_post_decrype data uncorrect checksum"
        else
          let* rid := gets recv_id in
          modify (with_recv_id (Z.land (rid + 1) 0xFFFFFFFF)) ;;
          let pos := 2 in
          let* d := encryptor_decrypt recv_buf_.[pos : data_len + pos] in
          let out_buf := out_buf ++ d in
          modify (with_last_client_hash client_hash) ;;
          modify (with_recv_buf recv_buf_.[length + 4:]) ;;
          let sendback := if data_len =? 0 then true else sendback in
          ret (Next (out_buf, sendback))
  end.

(** The first part of [server_post_decrypt], taken while
    [has_recv_header] is not set: the handshake.  [Next] goes on to the
    packets that follow the header, [Return] leaves the method. *)
Definition server_handshake : M t (turn unit (bytes * bool)) :=
  let* rb := gets recv_buf in
  let* info := gets server_info in
  let mac_key := ServerInfo.recv_iv info ++ ServerInfo.key info in
  let md5data := hmac_md5 mac_key rb.[:4] in
  let recv_len := Z.min (len rb) 12 in
  if ((12 <=? len rb) || (len rb =? 7) || (len rb =? 8))
     && negb (bytes_eqb md5data.[:recv_len - 4] rb.[4:recv_len]) then
    let* r := not_match_return rb in ret (Return r)
  else if len rb <? 12 + 24 then ret (Return ([], false))
  else
    modify (with_last_client_hash md5data) ;;
    let* a := lift (unpack_I rb.[12:16]) in
    let* b := lift (unpack_I md5data.[8:12]) in
    let uid := Z.lxor a b in
    modify (with_user_id_num uid) ;;
    let* uid := lift (pack_I uid) in
    (match ServerInfo.users_get uid (ServerInfo.users info) with
     | Some k =>
         modify (with_user_id (Some uid)) ;;
         modify (with_user_key (Some k))
     | None =>
         modify (with_user_id_num 0) ;;
         match ServerInfo.users info with
         | [] => modify (with_user_key (Some (ServerInfo.key info)))
         | _ :: _ => modify (with_user_key (Some (ServerInfo.recv_iv info)))
         end
     end) ;;
    let* uk := the_user_key in
    let md5data := hmac_md5 uk rb.[12 : 12 + 20] in
    if negb (bytes_eqb md5data.[:4] rb.[32:36]) then
      if len rb <? 36 then ret (Return ([], false))
      else let* r := not_match_return rb in ret (Return r)
    else
      modify (with_last_server_hash md5data) ;;
      let* sl := gets salt in
      let* enc := new_encryptor (b64encode uk ++ sl) "aes-128-cbc" None in
      let head :=
        fst (Encryptor.decrypt (bytes_repeat x00 16 ++ rb.[16:32] ++ [x00]) enc) in
      let* coh := lift (unpack_H head.[12:14]) in
      modify (with_client_over_head coh) ;;
      let* rmss := lift (unpack_H head.[14:16]) in
      modify (with_recv_tcp_mss rmss) ;;
      modify (with_send_tcp_mss rmss) ;;
      let* utc_time := lift (unpack_I head.[:4]) in
      let* client_id_ := lift (unpack_I head.[4:8]) in
      let* connection_id_ := lift (unpack_I head.[8:12]) in
      let* now := time_now in
      let time_dif := int32 (utc_time - Z.land now 0xffffffff) in
      let* mtd := gets max_time_dif in
      if (time_dif <? - mtd) || (mtd <? time_dif) then
        let* r := not_match_return rb in ret (Return r)
      else
        let* u := gets user_id in
        let* d := gets info_data in
        let '(accepted, d) :=
          obfs_auth_akarin_data.insert now u client_id_ connection_id_ d in
        modify (set_info_data d) ;;
        if accepted then
          modify (with_has_recv_header true) ;;
          modify (with_client_id client_id_) ;;
          modify (with_connection_id connection_id_) ;;
          on_recv_auth_data utc_time ;;
          let* ch := gets last_client_hash in
          let* sh := gets last_server_hash in
          let* enc := new_encryptor (b64encode uk ++ b64encode ch) "chacha20"
                        (Some sh.[:8]) in
          modify (with_encryptor (Some enc)) ;;
          let* _ := encryptor_encrypt [] in
          let* _ := encryptor_decrypt ch.[:8] in
          modify (with_recv_buf rb.[36:]) ;;
          modify (with_has_recv_header true) ;;
          ret (Next tt)
        else
          let* r := not_match_return rb in ret (Return r).

Definition server_post_decrypt (buf : bytes) : M t (bytes * bool) :=
  let* raw := gets raw_trans in
  if raw then ret (buf, false)
  else
    let* rb := gets recv_buf in
    modify (with_recv_buf (rb ++ buf)) ;;
    let out_buf := [] in
    let sendback := false in
    let* got := gets has_recv_header in
    let* hs :=
      if negb got then
        let* t := server_handshake in
        match t with
        | Next _ => ret (Next true)
        | Break => ret (Next true)
        | Return r => ret (Return r)
        end
      else ret (Next sendback) in
    match hs with
    | Return r => ret r
    | Break => ret (out_buf, sendback)
    | Next sendback =>
        let* rb := gets recv_buf in
        let* t := recv_loop server_packet (length rb) (out_buf, sendback) in
        match t with
        | Return r => ret r
        | Break => ret (out_buf, sendback)
        | Next (out_buf, sendback) =>
            (match out_buf with
             | _ :: _ =>
                 let* now := time_now in
                 let* u := gets user_id in
                 let* c := gets client_id in
                 let* n := gets connection_id in
                 let* d := gets info_data in
                 modify (set_info_data (obfs_auth_akarin_data.update now u c n d))
             | [] => ret tt
             end) ;;
            ret (out_buf, sendback)
        end
    end.

(** *** The datagram methods *)

(** What a datagram method hands back: a pair, as in [(b'', None)] and
    [(out_buf, uid)], or a bare [bytes] object. *)
Inductive udp_value : Type :=
| Pair (b : bytes) (uid : option bytes)
| Bare (b : bytes).

(** [client_udp_pre_encrypt(buf)].  Its [try] block splits a [bytes]
    object on the [str] [':'], which raises and is caught: a key that
    is not set yet is always taken from [server_info.key]. *)
Definition client_udp_pre_encrypt (buf : bytes) : M t bytes :=
  let* info := gets server_info in
  let* k := gets user_key in
  (match k with
   | None =>
       let* u := rand_bytes 4 in
       modify (with_user_id (Some u)) ;;
       modify (with_user_key (Some (ServerInfo.key info)))
   | Some _ => ret tt
   end) ;;
  let* authdata := rand_bytes 3 in
  let mac_key := ServerInfo.key info in
  let md5data := hmac_md5 mac_key authdata in
  let* u := gets user_id in
  let* u := match u with Some u => ret u | None => raise TypeError end in
  let* a := lift (unpack_I u) in
  let* b := lift (unpack_I md5data.[:4]) in
  let* uid := lift (pack_I (Z.lxor a b)) in
  let* rand_len := udp_rnd_data_len md5data RandomClient in
  let* uk := the_user_key in
  let* enc := new_encryptor (b64encode uk ++ b64encode md5data) "chacha20"
                (Some mac_key.[:8]) in
  let '(_, enc) := Encryptor.encrypt [] enc in
  let '(out_buf, _) := Encryptor.encrypt buf enc in
  let* pad := rand_bytes rand_len in
  let buf := out_buf ++ pad ++ authdata ++ uid in
  ret (buf ++ (hmac_md5 uk buf).[:1]).

Definition client_udp_post_decrypt (buf : bytes) : M t udp_value :=
  if len buf <=? 8 then ret (Pair [] None)
  else
    let* uk := the_user_key in
    if negb (bytes_eqb (hmac_md5 uk buf.[:-1]).[:1] buf.[-1:]) then ret (Pair [] None)
    else
      let* info := gets server_info in
      let mac_key := ServerInfo.key info in
      let md5data := hmac_md5 mac_key buf.[-8:-1] in
      let* rand_len := udp_rnd_data_len md5data RandomServer in
      let* enc := new_encryptor (b64encode uk ++ b64encode md5data) "chacha20" None in
      let '(_, enc) := Encryptor.decrypt mac_key.[:8] enc in
      let '(out, _) := Encryptor.decrypt buf.[:-8 - rand_len] enc in
      ret (Bare out).

(** The key of [uid] in [server_udp_pre_encrypt] and
    [server_udp_post_decrypt]: the user's, or the fallback with [uid]
    turned into [None]. *)
Definition udp_user_key (uid : option bytes) (info : ServerInfo.t)
  : option bytes * bytes :=
  match
    match uid with
    | Some u => ServerInfo.users_get u (ServerInfo.users info)
    | None => None
    end
  with
  | Some k => (uid, k)
  | None =>
      match ServerInfo.users info with
      | [] => (None, ServerInfo.key info)
      | _ :: _ => (None, ServerInfo.recv_iv info)
      end
  end.

Definition server_udp_pre_encrypt (buf : bytes) (uid : option bytes) : M t bytes :=
  let* info := gets server_info in
  let '(uid, user_key_) := udp_user_key uid info in
  let* authdata := rand_bytes 7 in
  let mac_key := ServerInfo.key info in
  let md5data := hmac_md5 mac_key authdata in
  let* rand_len := udp_rnd_data_len md5data RandomServer in
  let* enc := new_encryptor (b64encode user_key_ ++ b64encode md5data) "chacha20"
                (Some mac_key.[:8]) in
  let '(_, enc) := Encryptor.encrypt [] enc in
  let '(out_buf, _) := Encryptor.encrypt buf enc in
  let* pad := rand_bytes rand_len in
  let buf := out_buf ++ pad ++ authdata in
  ret (buf ++ (hmac_md5 user_key_ buf).[:1]).

Definition server_udp_post_decrypt (buf : bytes) : M t udp_value :=
  let* info := gets server_info in
  let mac_key := ServerInfo.key info in
  let md5data := hmac_md5 mac_key buf.[-8:-5] in
  let* a := lift (unpack_I buf.[-5:-1]) in
  let* b := lift (unpack_I md5data.[:4]) in
  let* uid := lift (pack_I (Z.lxor a b)) in
  let '(uid, user_key_) := udp_user_key (Some uid) info in
  if negb (bytes_eqb (hmac_md5 user_key_ buf.[:-1]).[:1] buf.[-1:]) then
    ret (Pair [] None)
  else
    let* rand_len := udp_rnd_data_len md5data RandomClient in
    let* enc := new_encryptor (b64encode user_key_ ++ b64encode md5data) "chacha20" None in
    let '(_, enc) := Encryptor.decrypt mac_key.[:8] enc in
    let '(out_buf, _) := Encryptor.decrypt buf.[:-8 - rand_len] enc in
    ret (Pair out_buf uid).

Definition dispose : M t unit :=
  let* u := gets user_id in
  let* c := gets client_id in
  let* d := gets info_data in
  modify (set_info_data (obfs_auth_akarin_data.remove u c d)).

(** *** The calls a host makes on a session *)

Inductive call : Type :=
| Get_overhead (direction : bool)
| Set_server_info (info : ServerInfo.t)
| Client_pre_encrypt (buf : bytes)
| Client_post_decrypt (buf : bytes)
| Server_pre_encrypt (buf : bytes)
| Server_post_decrypt (buf : bytes)
| Client_udp_pre_encrypt (buf : bytes)
| Client_udp_post_decrypt (buf : bytes)
| Server_udp_pre_encrypt (buf : bytes) (uid : option bytes)
| Server_udp_post_decrypt (buf : bytes)
| Dispose.

(** The session after a call, whatever the call gave back. *)
Definition after (c : call) (s : t) : t :=
  match c with
  | Get_overhead d => snd (get_overhead d s)
  | Set_server_info i => snd (set_server_info i s)
  | Client_pre_encrypt b => snd (client_pre_encrypt b s)
  | Client_post_decrypt b => snd (client_post_decrypt b s)
  | Server_pre_encrypt b => snd (server_pre_encrypt b s)
  | Server_post_decrypt b => snd (server_post_decrypt b s)
  | Client_udp_pre_encrypt b => snd (client_udp_pre_encrypt b s)
  | Client_udp_post_decrypt b => snd (client_udp_post_decrypt b s)
  | Server_udp_pre_encrypt b u => snd (server_udp_pre_encrypt b u s)
  | Server_udp_post_decrypt b => snd (server_udp_post_decrypt b s)
  | Dispose => snd (dispose s)
  end.

(** The session after a run of calls. *)
Fixpoint after_all (cs : list call) (s : t) : t :=
  match cs with
  | [] => s
  | c :: cs' => after_all cs' (after c s)
  end.

End with_primitives.
End auth_akarin_rand.
(* ===================================================================== *)
(** ** [match_begin] and the variant [auth_akarin_spec_a] *)
(* ===================================================================== *)

(** Equality of two [str] objects, as lists of characters. *)
Fixpoint chars_eqb (a b : list Ascii.ascii) : bool :=
  match a, b with
  | [], [] => true
  | x :: a', y :: b' => Ascii.eqb x y && chars_eqb a' b'
  | _, _ => false
  end.

(** [match_begin(str1, str2)] *)
Definition match_begin (str1 str2 : list Ascii.ascii) : bool :=
  if len str2 <=? len str1 then
    if chars_eqb str1.[:len str2] str2 then true else false
  else false.

Module auth_akarin_spec_a.

(** The object: the attributes of [auth_akarin_rand], and the two lists
    of packet sizes that [__init__] adds, empty at first. *)
Record t : Type := mk {
  base : auth_akarin_rand.t;
  data_size_list : list Z;
  data_size_list2 : list Z
}.

Definition with_base (b : auth_akarin_rand.t) (s : t) : t :=
  {| base := b; data_size_list := data_size_list s;
     data_size_list2 := data_size_list2 s |}.

(** [list.sort()] on integers. *)
Fixpoint insert_sorted (x : Z) (l : list Z) : list Z :=
  match l with
  | [] => [x]
  | y :: l' => if x <=? y then x :: l else y :: insert_sorted x l'
  end.

Definition sort (l : list Z) : list Z := fold_right insert_sorted [] l.

(** [bisect.bisect_left(a, x)]: the binary search of the library,
    [while lo < hi: mid = (lo + hi) // 2; if a[mid] < x: lo = mid + 1;
    else: hi = mid], for at most [fuel] turns. *)
Fixpoint bisect_loop (fuel : nat) (a : list Z) (x lo hi : Z) : Z :=
  match fuel with
  | O => lo
  | S fuel' =>
      if lo <? hi then
        let mid := (lo + hi) / 2 in
        if nth (Z.to_nat mid) a 0 <? x then bisect_loop fuel' a x (mid + 1) hi
        else bisect_loop fuel' a x lo mid
      else lo
  end.

Definition bisect_left (a : list Z) (x : Z) : Z := bisect_loop (length a) a x 0 (len a).

(** [for i in range(0, n): l.append(random.next() % 2340 % 2040 % 1440)]:
    the numbers appended and the generator afterwards. *)
Fixpoint draw_sizes (n : nat) (r : xorshift128plus.t) : list Z * xorshift128plus.t :=
  match n with
  | O => ([], r)
  | S n' =>
      let '(v, r) := xorshift128plus.next r in
      let '(l, r) := draw_sizes n' r in
      (((v mod 2340) mod 2040) mod 1440 :: l, r)
  end.

(** [init_data_size(key)] *)
Definition init_data_size (key : bytes) (s : t) : result t :=
  let '(l1, l2) :=
    match data_size_list s with
    | _ :: _ => ([], [])
    | [] => (data_size_list s, data_size_list2 s)
    end in
  result_bind (xorshift128plus.init_from_bin key) (fun random =>
  let '(v, random) := xorshift128plus.next random in
  let list_len := v mod 8 + 4 in
  let '(sizes, random) := draw_sizes (Z.to_nat list_len) random in
  let l1 := sort (l1 ++ sizes) in
  let '(v, random) := xorshift128plus.next random in
  let list_len := v mod 16 + 8 in
  let '(sizes, random) := draw_sizes (Z.to_nat list_len) random in
  let l2 := sort (l2 ++ sizes) in
  Ok {| base := base s; data_size_list := l1; data_size_list2 := l2 |}).

(** A method of [auth_akarin_rand] called on this object. *)
Definition on_base {A} (m : M auth_akarin_rand.t A) : M t A :=
  fun s => let '(r, b) := m (base s) in (r, with_base b s).

(** [set_server_info(server_info)] *)
Definition set_server_info (info : ServerInfo.t) : M t unit :=
  on_base (auth_akarin_rand.set_server_info info) ;;
  let* key := gets (fun s => ServerInfo.key (auth_akarin_rand.server_info (base s))) in
  fun s =>
    match init_data_size key s with
    | Ok s' => (Ok tt, s')
    | Raise e => (Raise e, s)
    | Hang => (Hang, s)
    end.

(** [self.data_size_list[i]] for an index that is not negative. *)
Definition item (l : list Z) (i : Z) : result Z :=
  match nth_error l (Z.to_nat i) with
  | Some v => Ok v
  | None => Raise IndexError
  end.

(** The part that [send_rnd_data_len] and [recv_rnd_data_len] share,
    from [random.init_from_bin_len] on. *)
Definition size_from_lists (buf_size : Z) (last_hash : bytes)
    (random : auth_akarin_rand.which_random) : M t Z :=
  let* over := gets (fun s => auth_akarin_rand.info_overhead (base s)) in
  on_base (auth_akarin_rand.random_init_from_bin_len random last_hash buf_size) ;;
  let* l1 := gets data_size_list in
  let pos := bisect_left l1 (buf_size + over) in
  let* r := on_base (auth_akarin_rand.random_next random) in
  let* r := lift (py_mod r (len l1)) in
  let final_pos := pos + r in
  if final_pos <? len l1 then
    let* v := lift (item l1 final_pos) in ret (v - buf_size - over)
  else
    let* l2 := gets data_size_list2 in
    let pos := bisect_left l2 (buf_size + over) in
    let* r := on_base (auth_akarin_rand.random_next random) in
    let* r := lift (py_mod r (len l2)) in
    let final_pos := pos + r in
    if final_pos <? len l2 then
      let* v := lift (item l2 final_pos) in ret (v - buf_size - over)
    else if final_pos <? pos + len l2 - 1 then ret 0
    else if 1300 <? buf_size then
      let* r := on_base (auth_akarin_rand.random_next random) in lift (py_mod r 31)
    else if 900 <? buf_size then
      let* r := on_base (auth_akarin_rand.random_next random) in lift (py_mod r 127)
    else if 400 <? buf_size then
      let* r := on_base (auth_akarin_rand.random_next random) in lift (py_mod r 521)
    else
      let* r := on_base (auth_akarin_rand.random_next random) in lift (py_mod r 1021).

Definition send_rnd_data_len (buf_size : Z) (last_hash : bytes)
    (random : auth_akarin_rand.which_random) : M t Z :=
  let* over := gets (fun s => auth_akarin_rand.info_overhead (base s)) in
  let* mss := gets (fun s => auth_akarin_rand.send_tcp_mss (base s)) in
  if mss <? buf_size + over then
    on_base (auth_akarin_rand.random_init_from_bin_len random last_hash buf_size) ;;
    let* r := on_base (auth_akarin_rand.random_next random) in lift (py_mod r 521)
  else if (1440 <=? buf_size) || (buf_size + over =? mss) then ret 0
  else size_from_lists buf_size last_hash random.

Definition recv_rnd_data_len (buf_size : Z) (last_hash : bytes)
    (random : auth_akarin_rand.which_random) : M t Z :=
  let* over := gets (fun s => auth_akarin_rand.info_overhead (base s)) in
  let* rmss := gets (fun s => auth_akarin_rand.recv_tcp_mss (base s)) in
  let* smss := gets (fun s => auth_akarin_rand.send_tcp_mss (base s)) in
  if rmss <? buf_size + over then
    on_base (auth_akarin_rand.random_init_from_bin_len random last_hash buf_size) ;;
    let* r := on_base (auth_akarin_rand.random_next random) in lift (py_mod r 521)
  else if (1440 <=? buf_size) || (buf_size + over =? smss) then ret 0
  else size_from_lists buf_size last_hash random.

(** The object as [__init__(method)] leaves it: what the [__init__] of
    [auth_akarin_rand] sets, then the salt, [no_compatible_method] and
    the two empty lists. *)
Definition init (m : string) (info : ServerInfo.t) (e : Env.t) : t :=
  let b := auth_akarin_rand.init m info e in
  {| base :=
       {| auth_akarin_rand.method := auth_akarin_rand.method b;
       auth_akarin_rand.no_compatible_method := "auth_akarin_spec_a";
       auth_akarin_rand.overhead := auth_akarin_rand.overhead b;
       auth_akarin_rand.raw_trans := auth_akarin_rand.raw_trans b;
       auth_akarin_rand.recv_buf := auth_akarin_rand.recv_buf b;
       auth_akarin_rand.unit_len := auth_akarin_rand.unit_len b;
       auth_akarin_rand.has_sent_header := auth_akarin_rand.has_sent_header b;
       auth_akarin_rand.has_recv_header := auth_akarin_rand.has_recv_header b;
       auth_akarin_rand.client_id := auth_akarin_rand.client_id b;
       auth_akarin_rand.connection_id := auth_akarin_rand.connection_id b;
       auth_akarin_rand.max_time_dif := auth_akarin_rand.max_time_dif b;
       auth_akarin_rand.salt := list_byte_of_string "auth_akarin_spec_a";
       auth_akarin_rand.pack_id := auth_akarin_rand.pack_id b;
       auth_akarin_rand.recv_id := auth_akarin_rand.recv_id b;
       auth_akarin_rand.user_id := auth_akarin_rand.user_id b;
       auth_akarin_rand.user_id_num := auth_akarin_rand.user_id_num b;
       auth_akarin_rand.user_key := auth_akarin_rand.user_key b;
       auth_akarin_rand.client_over_head := auth_akarin_rand.client_over_head b;
       auth_akarin_rand.last_client_hash := auth_akarin_rand.last_client_hash b;
       auth_akarin_rand.last_server_hash := auth_akarin_rand.last_server_hash b;
       auth_akarin_rand.random_client := auth_akarin_rand.random_client b;
       auth_akarin_rand.random_server := auth_akarin_rand.random_server b;
       auth_akarin_rand.encryptor := auth_akarin_rand.encryptor b;
       auth_akarin_rand.new_send_tcp_mss := auth_akarin_rand.new_send_tcp_mss b;
       auth_akarin_rand.send_tcp_mss := auth_akarin_rand.send_tcp_mss b;
       auth_akarin_rand.recv_tcp_mss := auth_akarin_rand.recv_tcp_mss b;
       auth_akarin_rand.send_back_cmd := auth_akarin_rand.send_back_cmd b;
       auth_akarin_rand.server_info := auth_akarin_rand.server_info b;
       auth_akarin_rand.env := auth_akarin_rand.env b |};
     data_size_list := [];
     data_size_list2 := [] |}.

(** A list in ascending order. *)
Fixpoint ascending (l : list Z) : Prop :=
  match l with
  | [] => True
  | x :: l' => Forall (Z.le x) l' ∧ ascending l'
  end.

(** The two lists as [init_data_size] leaves them: in ascending order,
    of sizes from 0 to 1439, 4 to 11 of them in the first and 8 to 23 in
    the second. *)
Definition sizes_ready (s : t) : Prop :=
  ascending (data_size_list s) ∧ ascending (data_size_list2 s)
  ∧ Forall (fun v => 0 ≤ v < 1440) (data_size_list s)
  ∧ Forall (fun v => 0 ≤ v < 1440) (data_size_list2 s)
  ∧ 4 ≤ len (data_size_list s) ≤ 11
  ∧ 8 ≤ len (data_size_list2 s) ≤ 23.

(** The lists and the overhead of [s'] are those of [s]. *)
Definition same_lists (s s' : t) : Prop :=
  data_size_list s' = data_size_list s
  ∧ data_size_list2 s' = data_size_list2 s
  ∧ auth_akarin_rand.info_overhead (base s') = auth_akarin_rand.info_overhead (base s).

End auth_akarin_spec_a.
(* ===================================================================== *)
(** ** Scenarios *)
(* ===================================================================== *)

Definition zero16 : bytes := bytes_repeat x00 16.

(** Closes a conjunction of closed facts by evaluating each. *)
Ltac by_computing :=
  repeat match goal with |- _ ∧ _ => split end; vm_compute; reflexivity.

Module PRNG.
Import xorshift128plus.

(** The first draw of a generator seeded by [seed], when the seeding
    went through. *)
Definition first_next (seed : result t) : result Z :=
  result_bind seed (fun r => Ok (fst (next r))).

End PRNG.

Module Replay.

(** The ids of the replay-guard scenario, in the order they are
    offered: 100 twice, 35, 0x4101, 101 to 164, then 36. *)
Definition scenario_ids : list Z :=
  [100; 100; 35; 0x4101] ++ map (fun k => 101 + Z.of_nat k) (seq 0 64) ++ [36].

(** Readings of the clock with less than ten minutes from each to the
    next: the queue they are offered to stays active once it is
    referenced. *)
Fixpoint calm (times : list Z) : bool :=
  match times with
  | t :: ((t' :: _) as rest) => (t' - t <? 60 * 10) && calm rest
  | _ => true
  end.

(** A run of [client_queue.insert] calls on one queue. *)
Fixpoint queue_answers (calls : list (Z * Z)) (q : client_queue.t) : list bool :=
  match calls with
  | [] => []
  | (connection_id, now) :: calls' =>
      let '(r, q) := client_queue.insert now connection_id q in
      r :: queue_answers calls' q
  end.

(** The queue with its [last_update] set to 0. *)
Definition at_time_0 (q : client_queue.t) : client_queue.t := client_queue.update 0 q.

(** The guard that holds one queue, for client [c] of user [u]. *)
Definition holding (nm : string) (u : option bytes) (c : Z) (q : client_queue.t)
  : obfs_auth_akarin_data.t :=
  obfs_auth_akarin_data.store_cache u [(c, q)] (obfs_auth_akarin_data.init nm).

End Replay.

(** Sessions and collaborators to run the methods on. *)
Module Fixtures.
Import auth_akarin_rand.

(** Stand-ins for the collaborators, as plain as they can be: every
    digest is sixteen zero bytes, [base64] and the ciphers leave the
    bytes as they are, IVs have 8 bytes for chacha20 and 16 otherwise,
    and the header parser answers its default. *)
Definition plain_primitives : primitives :=
  {| hmac_md5 := fun _ _ => zero16;
     md5 := fun _ => zero16;
     b64encode := fun b => b;
     cipher_iv_len := fun m => if String.eqb m "chacha20" then 8 else 16;
     cipher_update := fun _ _ _ _ _ buf => buf;
     get_head_size := fun _ default => default |}.

(** Surroundings in which the clock reads 1000 and every random byte
    is zero. *)
Definition quiet : Env.t :=
  {| Env.clock := 1000; Env.entropy := fun _ => x00; Env.drawn := 0 |}.

(** What a host with no user table gives a session: the same key and
    IV on both ends. *)
Definition host_info (over mss : Z) : ServerInfo.t :=
  {| ServerInfo.key := bytes_repeat "k" 16;
     ServerInfo.iv := bytes_repeat "i" 16;
     ServerInfo.recv_iv := bytes_repeat "i" 16;
     ServerInfo.overhead := over;
     ServerInfo.tcp_mss := mss;
     ServerInfo.protocol_param := [];
     ServerInfo.users := [];
     ServerInfo.data := obfs_auth_akarin_data.init "auth_akarin_rand" |}.

Definition fresh_session : t := init "auth_akarin_rand" (host_info 4 1460) quiet.

(** A server that took a handshake advertising an MSS of [rmss] and
    has sent its first reply, so that [send_tcp_mss] is its own 1500. *)
Definition server_after_first_reply (rmss : Z) : t :=
  with_recv_tcp_mss rmss (with_send_tcp_mss 1500 fresh_session).

(** A session with a user key, as a datagram method needs it. *)
Definition keyed_session : t := with_user_key (Some (bytes_repeat "u" 16)) fresh_session.

(** The bytes a call gave back, nothing if it raised. *)
Definition bytes_of (r : result bytes) : bytes :=
  match r with Ok b => b | _ => [] end.

(** *** A connection

    A client and a server made alike.  The client sends ["hello"]: the
    handshake, a packet with the five bytes and an empty packet. *)
Definition hello : bytes := list_byte_of_string "hello".

Definition first_flight : bytes :=
  bytes_of (fst (client_pre_encrypt (prims := plain_primitives) hello fresh_session)).

Definition client_sent : t :=
  after (prims := plain_primitives) (Client_pre_encrypt hello) fresh_session.

Definition server_got : t :=
  after (prims := plain_primitives) (Server_post_decrypt first_flight) fresh_session.

(** The server's first reply to it, carrying [payload]. *)
Definition first_reply (payload : bytes) : bytes :=
  bytes_of (fst (server_pre_encrypt (prims := plain_primitives) payload server_got)).

(** A reply of 500 bytes, which the client decodes. *)
Definition long_payload : bytes := bytes_repeat "r" 500.

Definition client_got : t :=
  after (prims := plain_primitives) (Client_post_decrypt (first_reply long_payload))
    client_sent.

(** Twelve bytes that are no handshake: the digest of the first four
    does not start with the eight that follow. *)
Definition probe : bytes := bytes_repeat x01 12.

(** A packet of no data and no padding whose tag is wrong. *)
Definition bad_tag : bytes := [x00; x00; x01; x01; x00; x00; x00; x00].

(** The client after it met [bad_tag]. *)
Definition client_failed : t :=
  after (prims := plain_primitives) (Client_post_decrypt bad_tag) client_sent.

End Fixtures.

(** What a method leaves as it was. *)
Module Frame.
Import auth_akarin_rand.

(** [m] keeps [R]: whatever the call gives back, the session after it
    is related by [R] to the session before it. *)
Definition keeps {A} (R : t → t → Prop) (m : M t A) : Prop :=
  ∀ s, R s (snd (m s)).

(** The attributes the properties below are about keep their values. *)
Definition same_watched (s s' : t) : Prop :=
  raw_trans s' = raw_trans s
  ∧ overhead s' = overhead s
  ∧ send_back_cmd s' = send_back_cmd s
  ∧ recv_id s' = recv_id s
  ∧ recv_buf s' = recv_buf s.

(** [raw_trans] stays set. *)
Definition raw_stays (s s' : t) : Prop :=
  raw_trans s = true → raw_trans s' = true.

(** [overhead] keeps its value. *)
Definition same_overhead (s s' : t) : Prop := overhead s' = overhead s.

(** [overhead] keeps its value, or the call set [raw_trans] and
    [overhead] is 0. *)
Definition overhead_or_refused (s s' : t) : Prop :=
  (raw_trans s = true → raw_trans s' = true)
  ∧ (overhead s' = overhead s ∨ (overhead s' = 0 ∧ raw_trans s' = true)).

(** [m] does not read [raw_trans]: on a session with the flag set to
    [b] it gives what it gives on the session as it is, and leaves the
    same session but for the flag. *)
Definition blind {A} (m : M t A) : Prop :=
  ∀ b s, m (with_raw_trans b s) = (fst (m s), with_raw_trans b (snd (m s))).

(** [m] leaves [overhead] as it was, or it leaves the method the way
    [not_match_return] does: with what [not_match_return(rb)] gives
    back, in the session it leaves. *)
Definition keeps_or_refuses {A} (m : M t (turn A (bytes * bool))) : Prop :=
  ∀ s, overhead (snd (m s)) = overhead s
       ∨ ∃ rb s1, m s = (let* r := not_match_return rb in ret (Return r)) s1.

(** [recv_id] keeps its value. *)
Definition same_recv_id (s s' : t) : Prop := recv_id s' = recv_id s.

(** [recv_buf] keeps its value. *)
Definition same_recv_buf (s s' : t) : Prop := recv_buf s' = recv_buf s.

(** A queued command stays queued. *)
Definition cmd_stays (s s' : t) : Prop :=
  send_back_cmd s ≠ [] → send_back_cmd s' ≠ [].

(** The session a receiver leaves when a packet fails its checks:
    [raw_trans] set and [recv_buf] emptied, [recv_id] as it was. *)
Definition failed (s : t) : t := with_recv_buf [] (with_raw_trans true s).

(** What the server's loop ends with then: 2048 bytes ['E'] with
    [sendback] false on the first packet, an exception after it. *)
Definition poison_or_raise {A} (rid : Z) (msg : string)
  : result (turn A (bytes * bool)) :=
  if rid =? 1 then Ok (Return (bytes_repeat "E" 2048, false))
  else Raise (Exception msg).

(** What the head of [recv_buf] reads as: the key and counter of the
    MAC, and the length word [w] to unmask with [m], the two bytes of
    [last_hash] the receiver takes. *)
Definition reads (s : t) (last_hash : bytes) (uk p : bytes) (w m : Z) : Prop :=
  user_key s = Some uk
  ∧ pack_I (recv_id s) = Ok p
  ∧ unpack_H (recv_buf s).[:2] = Ok w
  ∧ unpack_H last_hash.[14:16] = Ok m.

End Frame.

(** Runs of calls on one queue of the replay guard. *)
Module Guard.
Import client_queue.

(** The queue a run of [insert] calls leaves: the ids with the clock
    reading of each call. *)
Fixpoint inserted (calls : list (Z * Z)) (q : t) : t :=
  match calls with
  | [] => q
  | (connection_id, now) :: calls' => inserted calls' (snd (insert now connection_id q))
  end.

(** An id the queue has taken note of: it lies below the window or is
    allocated in it. *)
Definition seen (c : Z) (q : t) : Prop := c < front q ∨ is_Some (alloc q !! c).

End Guard.

Module Words.
Import xorshift128plus.

(** Both words of the generator are 64-bit words. *)
Definition in_64_bits (r : t) : Prop := 0 ≤ v0 r < 2 ^ 64 ∧ 0 ≤ v1 r < 2 ^ 64.

(** The sixteen bytes a seeding reads: the first of [bin], with zero
    bytes after them when there are fewer. *)
Definition seed_bytes (bin : bytes) : bytes := take 16 (bin ++ bytes_repeat x00 16).

End Words.

(** The two ends of a connection between two packets. *)
Module Pairing.
Import auth_akarin_rand.

(** A client [c] and a server [v] after the handshake, when the server
    has taken all the client sent: they hold the same key, the same
    [last_client_hash] [h], the same overhead, the server counts the
    packets it took as the client counts those it sent, and the server
    holds the client's [send_tcp_mss] in both of its MSS fields. *)
Definition client_to_server (c v : t) (uk h : bytes) : Prop :=
  user_key c = Some uk ∧ user_key v = Some uk
  ∧ last_client_hash c = h ∧ last_client_hash v = h ∧ length h = 16%nat
  ∧ recv_id v = pack_id c ∧ 0 ≤ pack_id c < 2 ^ 32
  ∧ info_overhead v = info_overhead c
  ∧ recv_tcp_mss v = send_tcp_mss c ∧ send_tcp_mss v = send_tcp_mss c
  ∧ raw_trans v = false ∧ has_recv_header v = true ∧ recv_buf v = [].

(** The same for a client with a command queued: it will pad for its
    [recv_tcp_mss], which the server holds as its [send_tcp_mss]. *)
Definition client_commands_server (c v : t) (uk h : bytes) : Prop :=
  user_key c = Some uk ∧ user_key v = Some uk
  ∧ last_client_hash c = h ∧ last_client_hash v = h ∧ length h = 16%nat
  ∧ recv_id v = pack_id c ∧ 0 ≤ pack_id c < 2 ^ 32
  ∧ info_overhead v = info_overhead c
  ∧ send_tcp_mss v = recv_tcp_mss c
  ∧ raw_trans v = false ∧ has_recv_header v = true ∧ recv_buf v = [].

(** The other direction, for a server [v] that has sent its first
    packet and a client [c] that has taken all the server sent. *)
Definition server_to_client (v c : t) (uk h : bytes) : Prop :=
  user_key v = Some uk ∧ user_key c = Some uk
  ∧ last_server_hash v = h ∧ last_server_hash c = h ∧ length h = 16%nat
  ∧ recv_id c = pack_id v ∧ 1 < pack_id v < 2 ^ 32
  ∧ info_overhead c = info_overhead v
  ∧ recv_tcp_mss c = send_tcp_mss v ∧ send_tcp_mss c = send_tcp_mss v
  ∧ raw_trans v = false ∧ raw_trans c = false ∧ recv_buf c = [].

End Pairing.

(** Calls that come back and leave the size of the chunks alone. *)
Module Steady.
Import auth_akarin_rand.

(** [m] leaves [unit_len] as it was, and its model does not run out of
    turns. *)
Definition steady {A} (m : M t A) : Prop :=
  ∀ s, unit_len (snd (m s)) = unit_len s ∧ fst (m s) ≠ Hang.

End Steady.

(** The first bytes a server is sent. *)
Module Opening.
Import auth_akarin_rand.
Section with_primitives.
Context {prims : primitives}.

(** The lengths at which [server_post_decrypt] looks at the head of a
    first flight: 7, 8, and 12 or more. *)
Definition head_is_checked (rb : bytes) : bool :=
  (12 <=? len rb) || (len rb =? 7) || (len rb =? 8).

(** The check: the bytes that follow the first four, up to the twelfth,
    are the first bytes of HMAC-MD5(recv_iv + key, the first four). *)
Definition head_matches (s : t) (rb : bytes) : bool :=
  bytes_eqb
    (hmac_md5 (ServerInfo.recv_iv (server_info s) ++ ServerInfo.key (server_info s))
       rb.[:4]).[:Z.min (len rb) 12 - 4]
    rb.[4:Z.min (len rb) 12].

(** The session after [not_match_return] on a buffer that was taken in. *)
Definition refused (rb : bytes) (s : t) : t :=
  with_overhead 0 (with_raw_trans true (with_recv_buf rb s)).

End with_primitives.
End Opening.

(** More sessions to run the methods on. *)
Module Connection.
Import auth_akarin_rand Fixtures.

(** A client sends forty bytes as its first flight: thirty go into the
    packet that follows the handshake and ten into the next, and the
    server takes both. *)
Definition greeting : bytes := bytes_repeat "g" 40.

Definition greeting_flight : bytes :=
  bytes_of (fst (client_pre_encrypt (prims := plain_primitives) greeting fresh_session)).

Definition client_greeted : t :=
  after (prims := plain_primitives) (Client_pre_encrypt greeting) fresh_session.

Definition server_greeted : t :=
  after (prims := plain_primitives) (Server_post_decrypt greeting_flight) fresh_session.

(** The server answers the greeting with a first reply of 500 bytes,
    which the client takes: the reply queues a command on the client. *)
Definition greeting_reply : bytes :=
  bytes_of (fst (server_pre_encrypt (prims := plain_primitives) long_payload
                   server_greeted)).

Definition server_replied : t :=
  after (prims := plain_primitives) (Server_pre_encrypt long_payload) server_greeted.

Definition client_replied : t :=
  after (prims := plain_primitives) (Client_post_decrypt greeting_reply) client_greeted.

(** The client has sent ["hello"] after that, with the command. *)
Definition client_answered : t :=
  after (prims := plain_primitives) (Client_pre_encrypt hello) client_replied.

(** Both ends are set up with an overhead of 1500, above the MSS of
    1460; the client sends its greeting and the server takes it. *)
Definition roomy_session : t := init "auth_akarin_rand" (host_info 1500 1460) quiet.

Definition roomy_flight : bytes :=
  bytes_of (fst (client_pre_encrypt (prims := plain_primitives) greeting roomy_session)).

Definition server_roomy : t :=
  after (prims := plain_primitives) (Server_post_decrypt roomy_flight) roomy_session.

(** The cipher of a session, a fresh one of the key ["k"] if it has none. *)
Definition cipher_of (s : t) : Encryptor.t :=
  match encryptor s with
  | Some c => c
  | None => fst (Encryptor.new (prims := plain_primitives) [] "chacha20" None quiet)
  end.

End Connection.

(** Objects of the variant [auth_akarin_spec_a]. *)
Module Variant.
Import auth_akarin_spec_a Fixtures.

Definition spec_a_fresh : t := init "auth_akarin_spec_a" (host_info 4 1460) quiet.

(** After [set_server_info] with a host whose key is sixteen ["k"]. *)
Definition spec_a_ready : t := snd (set_server_info (host_info 4 1460) spec_a_fresh).

End Variant.

(** The two ends of a datagram. *)
Module Datagram.
Import auth_akarin_rand.
Section with_primitives.
Context {prims : primitives}.

(** What the sender's cipher makes of [buf]:
    [Encryptor(key, 'chacha20', iv)], [encrypt(b'')], then
    [encrypt(buf)]. *)
Definition sealed (key iv buf : bytes) (e : Env.t) : bytes :=
  fst (Encryptor.encrypt buf
         (snd (Encryptor.encrypt []
                 (fst (Encryptor.new key "chacha20" (Some iv) e))))).

(** What the receiver's cipher makes of [data]:
    [Encryptor(key, 'chacha20')], [decrypt(iv)], then [decrypt(data)]. *)
Definition opened (key iv data : bytes) (e : Env.t) : bytes :=
  fst (Encryptor.decrypt data
         (snd (Encryptor.decrypt iv
                 (fst (Encryptor.new key "chacha20" None e))))).

(** With the IV [iv], the receiver's cipher gives back what the
    sender's was given, whatever the key. *)
Definition cipher_opens (iv buf : bytes) : Prop :=
  ∀ key e e', opened key iv (sealed key iv buf e) e' = buf.

(** The user id and key a client sends its datagram with: those it
    holds, or four random bytes and the key of [server_info] when it
    holds no key yet. *)
Definition client_identity (c : t) (u uk : bytes) : Prop :=
  match user_key c with
  | Some k => user_id c = Some u ∧ k = uk
  | None => u = fst (Env.rand_bytes 4 (env c)) ∧ uk = ServerInfo.key (server_info c)
  end.

End with_primitives.
End Datagram.

(** Sessions for the datagram methods. *)
Module Datagrams.
Import auth_akarin_rand Fixtures.

(** A client that has sent one datagram, and so holds a user id and
    the key of the host. *)
Definition client_sent_one : t :=
  after (prims := plain_primitives) (Client_udp_pre_encrypt hello) fresh_session.

End Datagrams.

(** A stream of packets from the server to the client. *)
Module Stream.
Import auth_akarin_rand.
Section with_primitives.
Context {prims : primitives}.

(** The pieces the loop [while len(buf) > unit_len] cuts [buf] into
    when [unit_len] is [n], and what it leaves of [buf] as the last
    of them. *)
Fixpoint chunks (fuel : nat) (n : Z) (buf : bytes) : list bytes :=
  if n <? len buf then
    match fuel with
    | O => []
    | S fuel' => buf.[:n] :: chunks fuel' n buf.[n:]
    end
  else [buf].

(** The sender's cipher [enc] and the receiver's [dec] are in step
    for the plaintexts [bufs]: each ciphertext is not empty, has at most
    3575 bytes, and is deciphered to its plaintext. *)
Fixpoint in_step (bufs : list bytes) (enc dec : Encryptor.t) : Prop :=
  match bufs with
  | [] => True
  | b :: bs =>
      fst (Encryptor.decrypt (fst (Encryptor.encrypt b enc)) dec) = b
      ∧ 0 < len (fst (Encryptor.encrypt b enc)) ≤ 3575
      ∧ in_step bs (snd (Encryptor.encrypt b enc))
          (snd (Encryptor.decrypt (fst (Encryptor.encrypt b enc)) dec))
  end.

(** The packets [ds] that [pack_server_data] makes of [bufs], one
    after the other, and the server [v'] they leave. *)
Fixpoint packed (bufs ds : list bytes) (v v' : t) : Prop :=
  match bufs, ds with
  | [], [] => v' = v
  | b :: bs, d :: ds' => ∃ v1, pack_server_data b v = (Ok d, v1) ∧ packed bs ds' v1 v'
  | _, _ => False
  end.

(** The same for any of the two packers, [pack_client_data] or
    [pack_server_data], on the session that sends. *)
Fixpoint packed_by (pack : bytes → M t bytes) (bufs ds : list bytes) (s s' : t) : Prop :=
  match bufs, ds with
  | [], [] => s' = s
  | b :: bs, d :: ds' => ∃ s1, pack b s = (Ok d, s1) ∧ packed_by pack bs ds' s1 s'
  | _, _ => False
  end.

(** What the client needs to pack while no command is queued: the key
    [uk], a hash of 16 bytes, a counter of 32 bits and an MSS at most
    4096 above the overhead. *)
Definition packs_plain (uk : bytes) (c : t) : Prop :=
  send_back_cmd c = []
  ∧ user_key c = Some uk
  ∧ length (last_client_hash c) = 16%nat
  ∧ 0 ≤ pack_id c < 2 ^ 32
  ∧ send_tcp_mss c - info_overhead c ≤ 4096.

(** The client and the server are paired as [client_to_server] says,
    whatever the server holds in [recv_buf]. *)
Definition upstream_plain (uk : bytes) (c v : t) : Prop :=
  packs_plain uk c
  ∧ Pairing.client_to_server c (with_recv_buf [] v) uk (last_client_hash c).

(** The same with a command queued on the client. *)
Definition packs_command (uk : bytes) (c : t) : Prop :=
  send_back_cmd c ≠ []
  ∧ user_key c = Some uk
  ∧ length (last_client_hash c) = 16%nat
  ∧ 0 ≤ pack_id c < 2 ^ 32
  ∧ recv_tcp_mss c - info_overhead c ≤ 4096.

Definition upstream_command (uk : bytes) (c v : t) : Prop :=
  packs_command uk c
  ∧ Pairing.client_commands_server c (with_recv_buf [] v) uk (last_client_hash c).

End with_primitives.
End Stream.

(** The first packet of a connection. *)
Module Handshake.
Import auth_akarin_rand.
Section with_primitives.
Context {prims : primitives}.

(** What the client's first cipher makes of the 16 bytes of its auth
    data: [Encryptor(key, 'aes-128-cbc', b'\x00' * 16).encrypt(data)[16:]]. *)
Definition head_sealed (key data : bytes) (e : Env.t) : bytes :=
  (fst (Encryptor.encrypt data
          (fst (Encryptor.new key "aes-128-cbc" (Some (bytes_repeat x00 16)) e)))).[16:].

(** What the server's makes of them:
    [Encryptor(key, 'aes-128-cbc').decrypt(b'\x00' * 16 + blob + b'\x00')]. *)
Definition head_opened (key blob : bytes) (e : Env.t) : bytes :=
  fst (Encryptor.decrypt (bytes_repeat x00 16 ++ blob ++ [x00])
         (fst (Encryptor.new key "aes-128-cbc" None e))).

(** The block cipher gives 16 bytes for 16 bytes, and the server reads
    back the 16 bytes the client sealed. *)
Definition head_opens : Prop :=
  ∀ key data e e',
    length data = 16%nat →
    length (head_sealed key data e) = 16%nat
    ∧ take 16 (head_opened key (head_sealed key data e) e') = data.

(** The cipher of a connection on one end:
    [Encryptor(key, 'chacha20', iv)], [encrypt(b'')], then
    [decrypt(peer_iv)]. *)
Definition session_cipher (key iv peer_iv : bytes) (e : Env.t) : Encryptor.t :=
  snd (Encryptor.decrypt peer_iv
         (snd (Encryptor.encrypt []
                 (fst (Encryptor.new key "chacha20" (Some iv) e))))).

(** The ciphers the two ends start with are in step for [buf],
    whatever the key and the two IVs of 8 bytes: the ciphertext of
    [buf] is not empty, has at most 3575 bytes, and is deciphered to
    [buf]. *)
Definition ciphers_start_in_step (buf : bytes) : Prop :=
  ∀ key a b e e',
    length a = 8%nat → length b = 8%nat →
    Stream.in_step [buf] (session_cipher key a b e) (session_cipher key b a e').

(** The time in the auth data [a] is within [max_time_dif] of the
    server's clock. *)
Definition in_time (a : bytes) (v : t) : Prop :=
  let time_dif := int32 (unpack_le a.[:4] - Z.land (Env.clock (env v)) 0xffffffff) in
  - max_time_dif v ≤ time_dif ≤ max_time_dif v.

(** The replay guard of the server takes the client id and the
    connection id of the auth data [a]. *)
Definition guard_accepts (a : bytes) (v : t) : Prop :=
  fst (obfs_auth_akarin_data.insert (Env.clock (env v)) (user_id v)
         (unpack_le a.[4:8]) (unpack_le a.[8:12]) (info_data v)) = true.

End with_primitives.
End Handshake.

(** A fresh client that has made its auth data, and the auth data. *)
Module Opening_flight.
Import auth_akarin_rand Fixtures.

Definition auth : bytes :=
  bytes_of (fst (auth_data fresh_session)).

Definition client : t := snd (auth_data fresh_session).

End Opening_flight.
(* ===================================================================== *)
(** ** Properties of the generator *)
(* ===================================================================== *)

Module PRNG_facts.
Import xorshift128plus PRNG.

(** C4, the scenario as it is written, fails on its last value: seeded
    with sixteen zero bytes and the length 1, the generator does not draw
    1 first but 0x800041. *)
Lemma C4_first_draw_with_length_1 :
  first_next (init_from_bin_len zero16 1) = Ok 0x800041
  ∧ (0x800041 =? 1) = false.
Proof. split; reflexivity. Qed.

(** C4, amended: after [init_from_bin] on sixteen zero bytes the first
    [next()] is 0; after [init_from_bin_len] on sixteen zero bytes with
    length 1 the word [v0] is 1 and the first [next()] is 0x800041. *)
Theorem C4_seeded_from_zero_bytes :
  first_next (init_from_bin zero16) = Ok 0
  ∧ (∃ r, init_from_bin_len zero16 1 = Ok r ∧ v0 r = 0x0000000000000001)
  ∧ first_next (init_from_bin_len zero16 1) = Ok 0x800041.
Proof.
  split; [reflexivity|].
  split; [|reflexivity].
  eexists. split; reflexivity.
Qed.

End PRNG_facts.

(* ===================================================================== *)
(** ** Properties of the replay guard *)
(* ===================================================================== *)

Module client_queue_facts.
Import client_queue.

Lemma allocated_true k q : allocated k q = true ↔ is_Some (alloc q !! k).
Proof.
  unfold allocated. destruct (alloc q !! k) eqn:E; split; intros Hx; auto.
  - discriminate.
  - destruct Hx; discriminate.
Qed.

Lemma allocated_false k q : allocated k q = false ↔ alloc q !! k = None.
Proof.
  unfold allocated. destruct (alloc q !! k) eqn:E; split; intros Hx; auto; discriminate.
Qed.

Lemma slide_step_fuel q :
  slide_cond q = true → (S (slide_fuel (slide_step q)) ≤ slide_fuel q)%nat.
Proof.
  unfold slide_cond, slide_fuel, slide_step. simpl. intros Hc.
  destruct (allocated (front q) q) eqn:Ha.
  - apply allocated_true in Ha. rewrite map_size_delete_Some by exact Ha.
    destruct Ha as [v Hv].
    assert (size (alloc q) ≠ 0%nat).
    { intros Hz. apply map_size_empty_inv in Hz. rewrite Hz in Hv.
      rewrite lookup_empty in Hv. discriminate. }
    lia.
  - simpl in Hc. apply Z.ltb_lt in Hc. lia.
Qed.

(** With [slide_fuel] turns the loop has left: its condition is false
    on the queue [slide] returns. *)
Lemma slide_leaves n q : (slide_fuel q ≤ n)%nat → slide_cond (slide n q) = false.
Proof.
  revert q. induction n as [|n IH]; intros q Hn; simpl.
  - unfold slide_fuel in Hn. unfold slide_cond.
    assert (Hs : size (alloc q) = 0%nat) by lia.
    apply map_size_empty_inv in Hs.
    assert (Ha : allocated (front q) q = false).
    { apply allocated_false. rewrite Hs. apply lookup_empty. }
    rewrite Ha. simpl. apply Z.ltb_ge. lia.
  - destruct (slide_cond q) eqn:Hc; [|exact Hc].
    apply IH. pose proof (slide_step_fuel q Hc). lia.
Qed.

Lemma slide_step_window q : slide_cond q = true → window_ok q → window_ok (slide_step q).
Proof.
  unfold slide_cond, window_ok, slide_step. simpl. intros Hc [Hfb Hal].
  destruct (allocated (front q) q) eqn:Ha.
  - apply allocated_true in Ha. destruct Ha as [v Hv].
    pose proof (Hal _ _ Hv). split; [lia|].
    intros k w Hk. apply lookup_delete_Some in Hk. destruct Hk as [Hne Hk].
    pose proof (Hal _ _ Hk). lia.
  - simpl in Hc. apply Z.ltb_lt in Hc. split; [lia|].
    intros k w Hk. pose proof (Hal _ _ Hk).
    apply allocated_false in Ha.
    assert (k ≠ front q) by (intros ->; congruence). lia.
Qed.

Lemma slide_window n q : window_ok q → window_ok (slide n q).
Proof.
  revert q. induction n as [|n IH]; intros q Hq; simpl; [exact Hq|].
  destruct (slide_cond q) eqn:Hc; [|exact Hq].
  apply IH. apply slide_step_window; assumption.
Qed.

Lemma re_enable_window c q : window_ok (re_enable c q).
Proof.
  unfold window_ok, re_enable. simpl. split; [lia|].
  intros k v Hk. rewrite lookup_empty in Hk. discriminate.
Qed.

Lemma at_checks_window now c q : window_ok q → window_ok (at_checks now c q).
Proof.
  intros Hq. unfold at_checks. destruct (negb (is_active now q)).
  - apply (re_enable_window c q).
  - exact Hq.
Qed.

Lemma allocate_window c q : front q ≤ c → window_ok q → window_ok (allocate c q).
Proof.
  intros Hc [Hfb Hal]. unfold window_ok, allocate. simpl. split.
  - destruct (back q <=? c) eqn:E; lia.
  - intros k v Hk. apply lookup_insert_Some in Hk.
    destruct Hk as [[<- _]|[_ Hk]].
    + destruct (back q <=? c) eqn:E; [lia|]. apply Z.leb_gt in E. lia.
    + pose proof (Hal _ _ Hk).
      destruct (back q <=? c) eqn:E; [|lia]. apply Z.leb_le in E. lia.
Qed.

(** What [insert] leaves behind is one of three queues. *)
Lemma insert_cases now c q :
  (enable q = false ∧ insert now c q = (false, q))
  ∨ insert now c q = (false, at_checks now c q)
  ∨ (front (at_checks now c q) ≤ c ≤ front (at_checks now c q) + 0x4000
     ∧ alloc (at_checks now c q) !! c = None
     ∧ enable q = true
     ∧ insert now c q
       = (true, addref (slide (slide_fuel (allocate c (at_checks now c q)))
                          (allocate c (at_checks now c q))))).
Proof.
  unfold insert.
  destruct (enable q); [|left; split; reflexivity]. cbn [negb].
  destruct (c <? front (at_checks now c q)) eqn:E1; [right; left; reflexivity|].
  destruct (front (at_checks now c q) + 0x4000 <? c) eqn:E2; [right; left; reflexivity|].
  destruct (allocated c (at_checks now c q)) eqn:E3; [right; left; reflexivity|].
  right; right. apply Z.ltb_ge in E1, E2. apply allocated_false in E3.
  repeat split; auto; lia.
Qed.

Lemma insert_window now c q : window_ok q → window_ok (snd (insert now c q)).
Proof.
  intros Hq.
  destruct (insert_cases now c q) as [[_ E]|[E|(Hc & _ & _ & E)]]; rewrite E; simpl.
  - exact Hq.
  - apply at_checks_window; exact Hq.
  - apply (slide_window _ (allocate c (at_checks now c q))).
    apply allocate_window; [lia|]. apply at_checks_window; exact Hq.
Qed.

Lemma reachable_window q : reachable q → window_ok q.
Proof.
  induction 1 as [now b|now q _ IH|q _ IH|q _ IH|c q _ IH|now c q _ IH].
  - unfold window_ok, init. simpl. split; [lia|].
    intros k v Hk. rewrite lookup_empty in Hk. discriminate.
  - exact IH.
  - exact IH.
  - unfold delref. destruct (0 <? ref q); exact IH.
  - apply re_enable_window.
  - apply insert_window. exact IH.
Qed.

(** An accepted id passed the three checks of [insert]. *)
Lemma insert_accepts now c q :
  fst (insert now c q) = true →
  front (at_checks now c q) ≤ c ≤ front (at_checks now c q) + 0x4000
  ∧ alloc (at_checks now c q) !! c = None.
Proof.
  destruct (insert_cases now c q) as [[_ E]|[E|(Hc & Ha & _ & E)]]; rewrite E; simpl.
  - discriminate.
  - discriminate.
  - intros _. split; assumption.
Qed.

(** C7: on every queue built by [__init__] and changed by its methods
    only, [front <= back]; so construction, [re_enable] and [insert],
    accepting or refusing, keep it.  An id that [insert] accepts lies in
    [front, front + 0x4000] when it is accepted, is not in [alloc] then,
    and is not below [front]. *)
Theorem C7_window_invariant (q : t) :
  reachable q →
  front q ≤ back q
  ∧ (∀ now b, front (init now b) ≤ back (init now b))
  ∧ (∀ c, front (re_enable c q) ≤ back (re_enable c q))
  ∧ (∀ now c, front (snd (insert now c q)) ≤ back (snd (insert now c q)))
  ∧ (∀ now c, fst (insert now c q) = true →
       front (at_checks now c q) ≤ c ≤ front (at_checks now c q) + 0x4000
       ∧ alloc (at_checks now c q) !! c = None).
Proof.
  intros Hq. split; [|split; [|split; [|split]]].
  - exact (proj1 (reachable_window q Hq)).
  - intros now b. exact (proj1 (reachable_window _ (reach_init now b))).
  - intros c. exact (proj1 (reachable_window _ (reach_re_enable c q Hq))).
  - intros now c. exact (proj1 (reachable_window _ (reach_insert now c q Hq))).
  - intros now c Ha. exact (insert_accepts now c q Ha).
Qed.

(** A queue to try it on: 100 offered to the queue made for it. *)
Lemma C7_window_invariant_witness :
  front (snd (insert 0 100 (init 0 100))) ≤ back (snd (insert 0 100 (init 0 100)))
  ∧ fst (insert 0 100 (snd (insert 0 100 (init 0 100)))) = false.
Proof.
  split.
  - exact (proj1 (C7_window_invariant _ (reach_insert 0 100 _ (reach_init 0 100)))).
  - vm_compute. reflexivity.
Defined.

End client_queue_facts.
Module Replay_facts.
Import Replay.

Lemma bytes_eqb_refl (b : bytes) : bytes_eqb b b = true.
Proof.
  induction b as [|x b IH]; simpl; [reflexivity|].
  rewrite IH. unfold byte_eqb. rewrite (Byte.byte_dec_lb (x:=x) (y:=x) eq_refl). reflexivity.
Qed.

Lemma uid_eqb_refl (u : option bytes) : uid_eqb u u = true.
Proof. destruct u; simpl; [apply bytes_eqb_refl|reflexivity]. Qed.

Lemma slide_keeps_enable n q :
  client_queue.enable (client_queue.slide n q) = client_queue.enable q.
Proof.
  revert q. induction n as [|n IH]; intros q; simpl; [reflexivity|].
  destruct (client_queue.slide_cond q); [|reflexivity].
  rewrite IH. reflexivity.
Qed.

Lemma slide_keeps_last_update n q :
  client_queue.last_update (client_queue.slide n q) = client_queue.last_update q.
Proof.
  revert q. induction n as [|n IH]; intros q; simpl; [reflexivity|].
  destruct (client_queue.slide_cond q); [|reflexivity].
  rewrite IH. reflexivity.
Qed.

Lemma at_checks_enable now c q :
  client_queue.enable q = true → client_queue.enable (client_queue.at_checks now c q) = true.
Proof.
  intros He. unfold client_queue.at_checks.
  destruct (negb (client_queue.is_active now q)); simpl; auto.
Qed.

Lemma insert_keeps_enable now c q :
  client_queue.enable q = true →
  client_queue.enable (snd (client_queue.insert now c q)) = true.
Proof.
  intros He.
  destruct (client_queue_facts.insert_cases now c q) as [[_ E]|[E|(_ & _ & _ & E)]];
    rewrite E; simpl.
  - exact He.
  - apply at_checks_enable; exact He.
  - rewrite slide_keeps_enable. simpl. apply at_checks_enable; exact He.
Qed.

(** The first [insert] for a user makes the queue of the client and
    offers it the id. *)
Lemma insert_into_empty nm now u c i :
  obfs_auth_akarin_data.insert now u c i (obfs_auth_akarin_data.init nm)
  = (fst (client_queue.insert now i (client_queue.init now i)),
     holding nm u c (snd (client_queue.insert now i (client_queue.init now i)))).
Proof.
  unfold obfs_auth_akarin_data.insert, obfs_auth_akarin_data.cache_of. simpl.
  unfold obfs_auth_akarin_data.install_and_insert. simpl.
  destruct (client_queue.insert now i (client_queue.init now i)) as [r q].
  reflexivity.
Qed.

(** A later one goes to the queue that is held. *)
Lemma insert_into_held nm now u c i q :
  client_queue.enable q = true →
  obfs_auth_akarin_data.insert now u c i (holding nm u c q)
  = (fst (client_queue.insert now i q),
     holding nm u c (snd (client_queue.insert now i q))).
Proof.
  intros He.
  unfold obfs_auth_akarin_data.insert, obfs_auth_akarin_data.cache_of, holding. simpl.
  rewrite uid_eqb_refl. simpl. rewrite !Z.eqb_refl. rewrite He. cbn [negb].
  destruct (client_queue.insert now i q) as [r q'].
  unfold obfs_auth_akarin_data.store_cache. simpl.
  rewrite uid_eqb_refl. reflexivity.
Qed.

Lemma insert_all_held nm u c calls q :
  client_queue.enable q = true →
  obfs_auth_akarin_data.insert_all u c calls (holding nm u c q) = queue_answers calls q.
Proof.
  revert q. induction calls as [|[i now] calls IH]; intros q He; simpl; [reflexivity|].
  rewrite insert_into_held by exact He.
  destruct (client_queue.insert now i q) as [r q'] eqn:E. simpl.
  f_equal. apply IH.
  pose proof (insert_keeps_enable now i q He) as Hk. rewrite E in Hk. exact Hk.
Qed.

(** The clock only matters to [insert] through [is_active]. *)
Lemma slide_at_time_0 n q :
  at_time_0 (client_queue.slide n q) = client_queue.slide n (at_time_0 q).
Proof.
  revert q. induction n as [|n IH]; intros q; simpl; [reflexivity|].
  change (client_queue.slide_cond (at_time_0 q)) with (client_queue.slide_cond q).
  destruct (client_queue.slide_cond q); [|reflexivity].
  rewrite IH. reflexivity.
Qed.

Lemma at_checks_at_time_0 now c q :
  now - client_queue.last_update q < 60 * 10 →
  at_time_0 (client_queue.at_checks now c q) = client_queue.at_checks 0 c (at_time_0 q).
Proof.
  intros Hc. unfold client_queue.at_checks.
  assert (Ha : client_queue.is_active now q = client_queue.is_active 0 (at_time_0 q)).
  { unfold client_queue.is_active. simpl.
    apply Z.ltb_lt in Hc. rewrite Hc. reflexivity. }
  rewrite Ha.
  destruct (negb (client_queue.is_active 0 (at_time_0 q))); reflexivity.
Qed.

Lemma insert_at_time_0 now c q :
  now - client_queue.last_update q < 60 * 10 →
  fst (client_queue.insert now c q) = fst (client_queue.insert 0 c (at_time_0 q))
  ∧ at_time_0 (snd (client_queue.insert now c q))
    = snd (client_queue.insert 0 c (at_time_0 q)).
Proof.
  intros Hc. unfold client_queue.insert.
  change (client_queue.enable (at_time_0 q)) with (client_queue.enable q).
  destruct (negb (client_queue.enable q)); [split; reflexivity|].
  rewrite <- (at_checks_at_time_0 now c q Hc).
  set (q1 := client_queue.at_checks now c q).
  change (client_queue.front (at_time_0 q1)) with (client_queue.front q1).
  change (client_queue.allocated c (at_time_0 q1)) with (client_queue.allocated c q1).
  destruct (c <? client_queue.front q1); [split; reflexivity|].
  destruct (client_queue.front q1 + 0x4000 <? c); [split; reflexivity|].
  destruct (client_queue.allocated c q1); [split; reflexivity|].
  cbn [fst snd]. split; [reflexivity|].
  change (client_queue.allocate c (at_time_0 q1))
    with (at_time_0 (client_queue.allocate c q1)).
  set (q2 := client_queue.allocate c q1).
  change (client_queue.slide_fuel (at_time_0 q2)) with (client_queue.slide_fuel q2).
  rewrite <- slide_at_time_0. reflexivity.
Qed.

Lemma insert_sets_last_update now c q :
  client_queue.enable q = true →
  client_queue.last_update (snd (client_queue.insert now c q)) = now.
Proof.
  intros He.
  destruct (client_queue_facts.insert_cases now c q) as [[Hd _]|[E|(_ & _ & _ & E)]].
  - congruence.
  - rewrite E. reflexivity.
  - rewrite E. simpl. rewrite slide_keeps_last_update. reflexivity.
Qed.

Lemma queue_answers_at_time_0 ids :
  ∀ times q,
    length times = length ids →
    client_queue.enable q = true →
    calm (client_queue.last_update q :: times) = true →
    queue_answers (combine ids times) q
    = queue_answers (combine ids (map (fun _ => 0) ids)) (at_time_0 q).
Proof.
  induction ids as [|i ids IH]; intros times q Hl He Hc; [reflexivity|].
  destruct times as [|now times]; [discriminate|].
  simpl in Hl. injection Hl as Hl.
  simpl in Hc. apply andb_prop in Hc. destruct Hc as [Hc1 Hc2].
  apply Z.ltb_lt in Hc1.
  destruct (insert_at_time_0 now i q Hc1) as [Hr Hq].
  pose proof (insert_keeps_enable now i q He) as Hk.
  pose proof (insert_sets_last_update now i q He) as Hu.
  simpl.
  destruct (client_queue.insert now i q) as [r q'].
  destruct (client_queue.insert 0 i (at_time_0 q)) as [r0 q0].
  simpl in *. subst r0 q0. f_equal.
  apply IH; [exact Hl|exact Hk|].
  rewrite Hu. exact Hc2.
Qed.

(** C5, the scenario as it is written, fails on its last answer: with
    100 and 101 to 164 allocated, [front] is still 36 and 36 is accepted. *)
Lemma C5_insert_36_is_accepted :
  obfs_auth_akarin_data.insert_all (Some [x01; x00; x00; x00]) 7
    (combine scenario_ids (repeat 0 69))
    (obfs_auth_akarin_data.init "auth_akarin_rand")
  = [true; false; false; false] ++ repeat true 64 ++ [true].
Proof. vm_compute. reflexivity. Qed.

(** C5, amended: for one (uid, client) pair and a guard that has not
    seen it, with less than ten minutes between the calls, insert(100)
    succeeds, a second insert(100) fails, insert(35) fails, insert(0x4101)
    fails, 101 to 164 in order all succeed, and insert(36) after them
    succeeds. *)
Theorem C5_replay_scenario (nm : string) (u : option bytes) (c : Z) (times : list Z) :
  length times = 69%nat →
  calm times = true →
  obfs_auth_akarin_data.insert_all u c (combine scenario_ids times)
    (obfs_auth_akarin_data.init nm)
  = [true; false; false; false] ++ repeat true 64 ++ [true].
Proof.
  intros Hl Hc.
  destruct times as [|t0 times]; [discriminate|].
  change scenario_ids with (100 :: tl scenario_ids).
  cbn [combine obfs_auth_akarin_data.insert_all].
  rewrite insert_into_empty.
  assert (He : client_queue.enable (client_queue.init t0 100) = true) by reflexivity.
  rewrite insert_all_held by (apply insert_keeps_enable; exact He).
  change (queue_answers (combine (100 :: tl scenario_ids) (t0 :: times))
            (client_queue.init t0 100)
          = [true; false; false; false] ++ repeat true 64 ++ [true]).
  rewrite queue_answers_at_time_0.
  - vm_compute. reflexivity.
  - exact Hl.
  - exact He.
  - simpl. rewrite Z.sub_diag. exact Hc.
Qed.

(** The scenario with a minute between the calls. *)
Lemma C5_replay_scenario_witness :
  obfs_auth_akarin_data.insert_all None 1
    (combine scenario_ids (map (fun k => 60 * Z.of_nat k) (seq 0 69)))
    (obfs_auth_akarin_data.init "auth_akarin_rand")
  = [true; false; false; false] ++ repeat true 64 ++ [true].
Proof.
  apply (C5_replay_scenario "auth_akarin_rand" None 1
           (map (fun k => 60 * Z.of_nat k) (seq 0 69))).
  - reflexivity.
  - vm_compute. reflexivity.
Defined.

End Replay_facts.
(* ===================================================================== *)
(** ** Properties of the session *)
(* ===================================================================== *)

Module bytes_facts.

Lemma len_nonneg {A} (l : list A) : 0 ≤ len l.
Proof. unfold len. lia. Qed.

(** The length of a slice between two indices inside the list. *)
Lemma length_pyslice {A} (l : list A) (a b : Z) :
  0 ≤ a ≤ b → b ≤ len l → length (l.[a:b]) = Z.to_nat (b - a).
Proof.
  intros Hab Hb. unfold pyslice, slice_index, len in *.
  destruct (a <? 0) eqn:Ea; [apply Z.ltb_lt in Ea; lia|].
  destruct (b <? 0) eqn:Eb; [apply Z.ltb_lt in Eb; lia|].
  rewrite length_take, length_drop. lia.
Qed.

Lemma length_pyslice_to {A} (l : list A) (b : Z) :
  0 ≤ b ≤ len l → length (l.[:b]) = Z.to_nat b.
Proof.
  intros Hb. unfold pyslice, slice_index, len in *.
  destruct (b <? 0) eqn:Eb; [apply Z.ltb_lt in Eb; lia|].
  rewrite length_take, length_drop. lia.
Qed.

Lemma len_pad16 (bin : bytes) : 16 ≤ len (xorshift128plus.pad16 bin).
Proof.
  unfold xorshift128plus.pad16.
  destruct (len bin <? 16) eqn:E.
  - unfold len, bytes_repeat. rewrite length_app, repeat_length. lia.
  - apply Z.ltb_ge in E. exact E.
Qed.

(** Seeding from any bytes goes through. *)
Lemma init_from_bin_ok (bin : bytes) :
  ∃ r, xorshift128plus.init_from_bin bin = Ok r.
Proof.
  unfold xorshift128plus.init_from_bin, unpack_Q, struct_unpack.
  pose proof (len_pad16 bin) as Hp.
  rewrite length_pyslice_to by lia.
  rewrite length_pyslice by lia.
  simpl. eexists. reflexivity.
Qed.

Lemma Z_of_byte_range (b : byte) : 0 ≤ Z_of_byte b < 256.
Proof.
  unfold Z_of_byte. pose proof (Byte.to_N_bounded b) as Hb.
  lia.
Qed.

Lemma unpack_le_range (b : bytes) : 0 ≤ unpack_le b < 2 ^ (8 * Z.of_nat (length b)).
Proof.
  induction b as [|x b IH]; simpl length; cbn [unpack_le].
  - simpl. lia.
  - pose proof (Z_of_byte_range x) as Hx.
    replace (8 * Z.of_nat (S (length b))) with (8 + 8 * Z.of_nat (length b)) by lia.
    rewrite Z.pow_add_r by lia. change (2 ^ 8) with 256. lia.
Qed.

Lemma unpack_H_range (b : bytes) (w : Z) : unpack_H b = Ok w → 0 ≤ w < 65536.
Proof.
  unfold unpack_H, struct_unpack. destruct (length b =? 2)%nat eqn:E; [|discriminate].
  intros [= <-]. apply Nat.eqb_eq in E. pose proof (unpack_le_range b) as Hr.
  rewrite E in Hr. exact Hr.
Qed.

(** The exclusive or of two 16-bit words is a 16-bit word. *)
Lemma lxor_u16 (a b : Z) : 0 ≤ a < 65536 → 0 ≤ b < 65536 → 0 ≤ Z.lxor a b < 65536.
Proof.
  intros Ha Hb. split.
  - apply Z.lxor_nonneg. lia.
  - destruct (Z.eq_dec (Z.lxor a b) 0) as [E|E]; [lia|].
    assert (Hpos : 0 < Z.lxor a b).
    { assert (0 ≤ Z.lxor a b) by (apply Z.lxor_nonneg; lia). lia. }
    change 65536 with (2 ^ 16). apply Z.log2_lt_pow2; [exact Hpos|].
    pose proof (Z.log2_lxor a b ltac:(lia) ltac:(lia)) as Hl.
    assert (Z.log2 a < 16).
    { destruct (Z.eq_dec a 0) as [->|]; [simpl; lia|].
      apply Z.log2_lt_pow2; lia. }
    assert (Z.log2 b < 16).
    { destruct (Z.eq_dec b 0) as [->|]; [simpl; lia|].
      apply Z.log2_lt_pow2; lia. }
    lia.
Qed.

Lemma length_pack_le (n : nat) (v : Z) : length (pack_le n v) = n.
Proof. revert v. induction n as [|n IH]; intros v; simpl; [reflexivity|]. rewrite IH. reflexivity. Qed.

Lemma pack_H_ok (v : Z) : 0 ≤ v < 65536 → pack_H v = Ok (pack_le 2 v).
Proof.
  intros Hv. unfold pack_H, struct_pack.
  assert (E1 : (0 <=? v) = true) by (apply Z.leb_le; lia).
  assert (E2 : (v <? 2 ^ (8 * Z.of_nat 2)) = true) by (apply Z.ltb_lt; simpl; lia).
  rewrite E1, E2. reflexivity.
Qed.

(** Seeding with a length that fits 16 bits goes through. *)
Lemma init_from_bin_len_ok (bin : bytes) (n : Z) :
  0 ≤ n < 65536 → ∃ r, xorshift128plus.init_from_bin_len bin n = Ok r.
Proof.
  intros Hn. unfold xorshift128plus.init_from_bin_len.
  rewrite (pack_H_ok n Hn). cbn [result_bind].
  unfold unpack_Q, struct_unpack.
  pose proof (len_pad16 bin) as Hp.
  rewrite length_app, length_pack_le.
  rewrite !length_pyslice by lia.
  simpl. eexists. reflexivity.
Qed.

End bytes_facts.

Module padding_facts.
Import auth_akarin_rand Fixtures.

(** C8 at the input that separates the code from the claim.  The
    server holds [recv_tcp_mss = 500], the MSS its peer pads for, and
    [send_tcp_mss = 1500].  For 496 bytes with an overhead of 4 the
    sender's [send_rnd_data_len] gives 0, since 496 + 4 is its MSS; the
    receiver's [recv_rnd_data_len] compares with [send_tcp_mss] instead,
    misses the case and draws 263.  For 396 bytes and an MSS of 400 it
    goes on to divide by [recv_tcp_mss - 396 - 4 = 0]. *)
Theorem C8_recv_rnd_data_len_off_the_sender :
  fst (send_rnd_data_len 496 zero16 RandomClient (with_send_tcp_mss 500 fresh_session))
  = Ok 0
  ∧ fst (recv_rnd_data_len 496 zero16 RandomClient (server_after_first_reply 500))
    = Ok 263
  ∧ fst (recv_rnd_data_len 396 zero16 RandomClient (server_after_first_reply 400))
    = Raise ZeroDivisionError.
Proof. by_computing. Qed.

(** What the second branch of [recv_rnd_data_len] compares with: the
    answer is 0, and nothing is drawn, when [buf_size + overhead] is
    [send_tcp_mss] and not above [recv_tcp_mss]. *)
Lemma recv_rnd_data_len_zero_branch (s : t) (B : Z) (h : bytes) (w : which_random) :
  B + info_overhead s ≤ recv_tcp_mss s →
  B + info_overhead s = send_tcp_mss s →
  recv_rnd_data_len B h w s = (Ok 0, s).
Proof.
  intros Hle Heq. unfold recv_rnd_data_len, bind, gets. simpl.
  destruct (recv_tcp_mss s <? B + info_overhead s) eqn:E1; [apply Z.ltb_lt in E1; lia|].
  apply Z.eqb_eq in Heq. rewrite Heq. rewrite orb_true_r. reflexivity.
Qed.

End padding_facts.

Module udp_facts.
Import auth_akarin_rand Fixtures bytes_facts.

Section with_primitives.
Context {prims : primitives}.

Lemma udp_rnd_data_len_ok (h : bytes) (w : which_random) (s : t) :
  ∃ n s', udp_rnd_data_len h w s = (Ok n, s').
Proof.
  unfold udp_rnd_data_len, random_init_from_bin, bind, lift, modify.
  destruct (init_from_bin_ok h) as [r Hr]. rewrite Hr.
  unfold random_next.
  destruct (xorshift128plus.next (get_random w (set_random w r s))) as [v r'].
  unfold py_mod. simpl. eexists. eexists. reflexivity.
Qed.

(** C10: [client_udp_post_decrypt] gives the pair [(b'', None)] and
    leaves the session as it was when the datagram has at most 8 bytes,
    or when its last byte is not the first byte of
    HMAC-MD5(user_key, datagram without its last byte); when the byte
    matches it gives a bare byte string, not a pair: what the chacha20
    cipher keyed with [b64(user_key) + b64(md5data)], with the IV
    [server_info.key[:8]], makes of the datagram without its last
    [8 + rand_len] bytes, where [md5data] is HMAC-MD5(server_info.key,
    buf[-8:-1]) and [rand_len] the first number of the generator seeded
    from [md5data], modulo 127. *)
Theorem C10_client_udp_post_decrypt_shapes (s : t) (buf : bytes) :
  (len buf ≤ 8 → client_udp_post_decrypt buf s = (Ok (Pair [] None), s))
  ∧ (∀ uk, 8 < len buf → user_key s = Some uk →
       bytes_eqb (hmac_md5 uk buf.[:-1]).[:1] buf.[-1:] = false →
       client_udp_post_decrypt buf s = (Ok (Pair [] None), s))
  ∧ (∀ uk, 8 < len buf → user_key s = Some uk →
       bytes_eqb (hmac_md5 uk buf.[:-1]).[:1] buf.[-1:] = true →
       ∃ r s',
         xorshift128plus.init_from_bin
           (hmac_md5 (ServerInfo.key (server_info s)) buf.[-8:-1]) = Ok r
         ∧ client_udp_post_decrypt buf s
           = (Ok (Bare (Datagram.opened
                          (b64encode uk
                           ++ b64encode
                                (hmac_md5 (ServerInfo.key (server_info s)) buf.[-8:-1]))
                          (ServerInfo.key (server_info s)).[:8]
                          buf.[:-8 - fst (xorshift128plus.next r) mod 127]
                          (env s))),
              s')).
Proof.
  split; [|split].
  - intros Hl. unfold client_udp_post_decrypt.
    apply Z.leb_le in Hl. rewrite Hl. reflexivity.
  - intros uk Hl Hk Ht. unfold client_udp_post_decrypt.
    apply Z.leb_gt in Hl. rewrite Hl.
    unfold bind, the_user_key. rewrite Hk. rewrite Ht. reflexivity.
  - intros uk Hl Hk Ht. unfold client_udp_post_decrypt.
    apply Z.leb_gt in Hl. rewrite Hl.
    unfold bind at 1. unfold the_user_key. rewrite Hk. rewrite Ht. cbn [negb].
    unfold bind at 1. unfold gets at 1.
    set (md5data := hmac_md5 (ServerInfo.key (server_info s)) buf.[-8:-1]).
    destruct (init_from_bin_ok md5data) as [r Hr].
    exists r.
    assert (Hn : udp_rnd_data_len md5data RandomServer s
                 = (Ok (fst (xorshift128plus.next r) mod 127),
                    set_random RandomServer (snd (xorshift128plus.next r)) s)).
    { unfold udp_rnd_data_len, random_init_from_bin, bind, lift, modify. rewrite Hr.
      unfold random_next. cbn [get_random set_random random_server with_random_server].
      destruct (xorshift128plus.next r) as [x g]. reflexivity. }
    unfold bind at 1. rewrite Hn.
    unfold bind, new_encryptor, Datagram.opened.
    cbn [set_random env with_random_server].
    destruct (Encryptor.new _ _ _ _) as [c e]. cbn [fst].
    destruct (Encryptor.decrypt _ c) as [o1 c1]. cbn [snd].
    destruct (Encryptor.decrypt _ c1) as [o2 c2]. cbn [fst].
    eexists. split; [exact Hr|reflexivity].
Qed.

End with_primitives.

(** The three cases on datagrams of 3 and of 9 bytes, with digests that
    start with a zero byte and a cipher that leaves the bytes as they
    are: the padding length is 0, and the datagram without its last
    eight bytes comes back bare. *)
Lemma C10_client_udp_post_decrypt_shapes_witness :
  client_udp_post_decrypt (prims := plain_primitives) [x01; x02; x03] keyed_session
  = (Ok (Pair [] None), keyed_session)
  ∧ client_udp_post_decrypt (prims := plain_primitives)
      [x01; x02; x03; x04; x05; x06; x07; x08; x09] keyed_session
    = (Ok (Pair [] None), keyed_session)
  ∧ fst (client_udp_post_decrypt (prims := plain_primitives)
           [x01; x02; x03; x04; x05; x06; x07; x08; x00] keyed_session)
    = Ok (Bare [x01]).
Proof.
  split; [|split].
  - apply (proj1 (C10_client_udp_post_decrypt_shapes (prims := plain_primitives)
                    keyed_session [x01; x02; x03])).
    vm_compute. discriminate.
  - apply (proj1 (proj2 (C10_client_udp_post_decrypt_shapes (prims := plain_primitives)
                    keyed_session [x01; x02; x03; x04; x05; x06; x07; x08; x09]))
             (bytes_repeat "u" 16)).
    + vm_compute. reflexivity.
    + reflexivity.
    + vm_compute. reflexivity.
  - destruct (proj2 (proj2 (C10_client_udp_post_decrypt_shapes (prims := plain_primitives)
                    keyed_session [x01; x02; x03; x04; x05; x06; x07; x08; x00]))
                (bytes_repeat "u" 16)) as (r & s' & Hr & Hc).
    + vm_compute. reflexivity.
    + reflexivity.
    + vm_compute. reflexivity.
    + rewrite Hc. cbn [fst].
      vm_compute in Hr. injection Hr as <-. vm_compute. reflexivity.
Defined.

End udp_facts.
Module Frame_facts.
Import auth_akarin_rand Frame.

Create HintDb keeps.

Section keeps.
Context {prims : primitives}.
Variable R : t → t → Prop.
Hypothesis R_refl : ∀ s, R s s.
Hypothesis R_trans : ∀ a b c, R a b → R b c → R a c.
Hypothesis R_frame : ∀ s s', same_watched s s' → R s s'.
Hypothesis R_raw : ∀ s, R s (with_raw_trans true s).
Hypothesis R_cmd : ∀ s l x, R s (with_send_back_cmd (l ++ [x]) s).
Hypothesis R_rid : ∀ s v, R s (with_recv_id v s).
Hypothesis R_rbuf : ∀ s v, R s (with_recv_buf v s).
Hypothesis R_refused : ∀ s, R s (with_overhead 0 (with_raw_trans true s)).

Lemma keeps_ret {A} (a : A) : keeps R (ret a).
Proof. intros s. apply R_refl. Qed.

Lemma keeps_lift {A} (r : result A) : keeps R (lift r).
Proof. intros s. apply R_refl. Qed.

Lemma keeps_raise {A} (e : exn) : keeps R (raise (A := A) e).
Proof. intros s. apply R_refl. Qed.

Lemma keeps_gets {A} (f : t → A) : keeps R (gets f).
Proof. intros s. apply R_refl. Qed.

Lemma keeps_modify (f : t → t) : (∀ s, R s (f s)) → keeps R (modify f).
Proof. intros Hf s. apply Hf. Qed.

Lemma keeps_bind {A B} (m : M t A) (k : A → M t B) :
  keeps R m → (∀ a, keeps R (k a)) → keeps R (bind m k).
Proof.
  intros Hm Hk s. unfold bind. pose proof (Hm s) as H1.
  destruct (m s) as [[a| |] s1]; simpl in *; [|exact H1|exact H1].
  apply (R_trans _ _ _ H1). apply Hk.
Qed.

(** One step on a goal [keeps R m], by the shape of [m]. *)
Ltac keeps_step :=
  match goal with
  | |- keeps _ (ret _) => apply keeps_ret
  | |- keeps _ (lift _) => apply keeps_lift
  | |- keeps _ (raise _) => apply keeps_raise
  | |- keeps _ (gets _) => apply keeps_gets
  | |- keeps _ (modify (with_raw_trans true)) => apply keeps_modify; exact R_raw
  | |- keeps _ (modify (with_recv_id _)) => apply keeps_modify; intros ?; apply R_rid
  | |- keeps _ (modify (with_recv_buf _)) => apply keeps_modify; intros ?; apply R_rbuf
  | |- keeps _ (modify (with_send_back_cmd (_ ++ [_]))) =>
      apply keeps_modify; intros ?; apply R_cmd
  | |- keeps _ (modify _) =>
      apply keeps_modify; intros ?; apply R_frame; repeat split; reflexivity
  | |- keeps _ (bind _ _) => apply keeps_bind; [|intros ?]
  | |- keeps _ (if ?b then _ else _) => destruct b
  | |- keeps _ (match ?x with _ => _ end) => destruct x
  | |- keeps _ _ => solve [auto with keeps]
  end.

Ltac keeps_all := repeat keeps_step.

Lemma keeps_set_random w r : ∀ s, R s (set_random w r s).
Proof. intros s. apply R_frame. destruct w; repeat split; reflexivity. Qed.

Lemma keeps_random_init_from_bin w bin : keeps R (random_init_from_bin w bin).
Proof.
  unfold random_init_from_bin. keeps_all.
  apply keeps_modify. apply keeps_set_random.
Qed.

Lemma keeps_random_init_from_bin_len w bin n : keeps R (random_init_from_bin_len w bin n).
Proof.
  unfold random_init_from_bin_len. keeps_all.
  apply keeps_modify. apply keeps_set_random.
Qed.

Lemma keeps_random_next w : keeps R (random_next w).
Proof.
  intros s. unfold random_next.
  destruct (xorshift128plus.next (get_random w s)) as [v r]. simpl.
  apply keeps_set_random.
Qed.

Lemma keeps_rand_bytes n : keeps R (rand_bytes n).
Proof.
  intros s. unfold rand_bytes. destruct (Env.rand_bytes n (env s)) as [b e]. simpl.
  apply R_frame. repeat split; reflexivity.
Qed.

Lemma keeps_randint_0_31 : keeps R randint_0_31.
Proof.
  intros s. unfold randint_0_31. destruct (Env.randint32 (env s)) as [b e]. simpl.
  apply R_frame. repeat split; reflexivity.
Qed.

Lemma keeps_new_encryptor k m iv : keeps R (new_encryptor k m iv).
Proof.
  intros s. unfold new_encryptor. destruct (Encryptor.new k m iv (env s)) as [c e]. simpl.
  apply R_frame. repeat split; reflexivity.
Qed.

Lemma keeps_encryptor_encrypt buf : keeps R (encryptor_encrypt buf).
Proof.
  intros s. unfold encryptor_encrypt. destruct (encryptor s) as [c|]; [|apply R_refl].
  destruct (Encryptor.encrypt buf c) as [o c']. simpl.
  apply R_frame. repeat split; reflexivity.
Qed.

Lemma keeps_encryptor_decrypt buf : keeps R (encryptor_decrypt buf).
Proof.
  intros s. unfold encryptor_decrypt. destruct (encryptor s) as [c|]; [|apply R_refl].
  destruct (Encryptor.decrypt buf c) as [o c']. simpl.
  apply R_frame. repeat split; reflexivity.
Qed.

Lemma keeps_the_user_key : keeps R the_user_key.
Proof.
  intros s. unfold the_user_key. destruct (user_key s); apply R_refl.
Qed.

Lemma keeps_time_now : keeps R time_now.
Proof. apply keeps_gets. Qed.

Lemma keeps_set_info_data d : ∀ s, R s (set_info_data d s).
Proof. intros s. apply R_frame. repeat split; reflexivity. Qed.

Hint Resolve keeps_random_init_from_bin keeps_random_init_from_bin_len
  keeps_random_next keeps_rand_bytes keeps_randint_0_31 keeps_new_encryptor
  keeps_encryptor_encrypt keeps_encryptor_decrypt keeps_the_user_key
  keeps_time_now : keeps.

Lemma keeps_send_rnd_data_len n h w : keeps R (send_rnd_data_len n h w).
Proof. unfold send_rnd_data_len. keeps_all. Qed.

Lemma keeps_recv_rnd_data_len n h w : keeps R (recv_rnd_data_len n h w).
Proof. unfold recv_rnd_data_len. keeps_all. Qed.

Lemma keeps_udp_rnd_data_len h w : keeps R (udp_rnd_data_len h w).
Proof. unfold udp_rnd_data_len. keeps_all. Qed.

Hint Resolve keeps_send_rnd_data_len keeps_recv_rnd_data_len keeps_udp_rnd_data_len
  : keeps.

Lemma keeps_rnd_data n b h w : keeps R (rnd_data n b h w).
Proof. unfold rnd_data. keeps_all. Qed.

Hint Resolve keeps_rnd_data : keeps.

Lemma keeps_pack_client_data buf : keeps R (pack_client_data buf).
Proof. unfold pack_client_data. keeps_all. Qed.

Lemma keeps_pack_server_data buf : keeps R (pack_server_data buf).
Proof. unfold pack_server_data. keeps_all. Qed.

Hint Resolve keeps_pack_client_data keeps_pack_server_data : keeps.

Lemma keeps_auth_data : keeps R auth_data.
Proof.
  unfold auth_data. keeps_all;
    try (apply keeps_modify; intros ?; apply keeps_set_info_data).
Qed.

Lemma keeps_pack_auth_data a buf : keeps R (pack_auth_data a buf).
Proof. unfold pack_auth_data. keeps_all. Qed.

Hint Resolve keeps_auth_data keeps_pack_auth_data : keeps.

Lemma keeps_chunk_loop (pack : bytes → M t bytes) :
  (∀ b, keeps R (pack b)) →
  ∀ fuel acc buf, keeps R (chunk_loop pack fuel acc buf).
Proof.
  intros Hp fuel. induction fuel as [|fuel IH]; intros acc buf s; simpl.
  - destruct (unit_len s <? len buf); apply R_refl.
  - destruct (unit_len s <? len buf); [|apply R_refl].
    apply (keeps_bind (pack _) (fun d => chunk_loop pack fuel (acc ++ d) _)).
    + apply Hp.
    + intros d. apply IH.
Qed.

Lemma keeps_client_pre_encrypt buf : keeps R (client_pre_encrypt buf).
Proof.
  unfold client_pre_encrypt. keeps_all;
    apply keeps_chunk_loop; apply keeps_pack_client_data.
Qed.

Lemma keeps_fail_raise {A} msg : keeps R (fail_raise (A := A) msg).
Proof. unfold fail_raise. keeps_all. Qed.

Lemma keeps_fail_poison {A} msg : keeps R (fail_poison (A := A) msg).
Proof. unfold fail_poison. keeps_all. Qed.

Hint Resolve keeps_fail_raise keeps_fail_poison : keeps.

Lemma keeps_client_packet out : keeps R (client_packet out).
Proof. unfold client_packet. keeps_all. Qed.

Lemma keeps_recv_loop {A B} (body : A → M t (turn A B)) :
  (∀ a, keeps R (body a)) →
  ∀ fuel acc, keeps R (recv_loop body fuel acc).
Proof.
  intros Hb fuel. induction fuel as [|fuel IH]; intros acc s; simpl.
  - destruct (4 <? len (recv_buf s)); apply R_refl.
  - destruct (4 <? len (recv_buf s)); [|apply R_refl].
    match goal with |- R s (snd (bind ?m ?k s)) => apply (keeps_bind m k) end.
    + apply Hb.
    + intros [a| |r]; [apply IH|apply keeps_ret|apply keeps_ret].
Qed.

Lemma keeps_client_post_decrypt buf : keeps R (client_post_decrypt buf).
Proof.
  unfold client_post_decrypt. keeps_all.
  apply keeps_recv_loop. apply keeps_client_packet.
Qed.

Lemma keeps_server_pre_encrypt buf : keeps R (server_pre_encrypt buf).
Proof.
  unfold server_pre_encrypt. keeps_all;
    apply keeps_chunk_loop; apply keeps_pack_server_data.
Qed.

Lemma keeps_cmd_loop fuel : ∀ dl cl rb, keeps R (cmd_loop fuel dl cl rb).
Proof.
  induction fuel as [|fuel IH]; intros dl cl rb; simpl.
  - destruct (0xff00 <=? dl); [intros s; apply R_refl|apply keeps_ret].
  - destruct (0xff00 <=? dl); [|apply keeps_ret].
    destruct (dl =? 0xff00); [|apply keeps_fail_poison].
    keeps_all.
Qed.

Hint Resolve keeps_cmd_loop : keeps.

Lemma keeps_server_packet acc : keeps R (server_packet acc).
Proof. unfold server_packet. destruct acc as [out sb]. keeps_all. Qed.

Lemma keeps_not_match_return buf : keeps R (not_match_return buf).
Proof.
  intros s. unfold not_match_return, bind, modify, gets. simpl.
  destruct (String.eqb (method s) (no_compatible_method s)); simpl; apply R_refused.
Qed.

Hint Resolve keeps_not_match_return : keeps.

Lemma keeps_server_handshake : keeps R server_handshake.
Proof.
  unfold server_handshake, on_recv_auth_data. keeps_all;
    try (apply keeps_modify; intros ?; apply keeps_set_info_data).
Qed.

Lemma keeps_server_post_decrypt buf : keeps R (server_post_decrypt buf).
Proof.
  unfold server_post_decrypt. keeps_all;
    try (apply keeps_modify; intros ?; apply keeps_set_info_data);
    try apply keeps_server_handshake;
    try (apply keeps_recv_loop; apply keeps_server_packet).
Qed.

Lemma keeps_client_udp_pre_encrypt buf : keeps R (client_udp_pre_encrypt buf).
Proof. unfold client_udp_pre_encrypt. keeps_all. Qed.

Lemma keeps_client_udp_post_decrypt buf : keeps R (client_udp_post_decrypt buf).
Proof. unfold client_udp_post_decrypt. keeps_all. Qed.

Lemma keeps_server_udp_pre_encrypt buf uid : keeps R (server_udp_pre_encrypt buf uid).
Proof. unfold server_udp_pre_encrypt. keeps_all. Qed.

Lemma keeps_server_udp_post_decrypt buf : keeps R (server_udp_post_decrypt buf).
Proof. unfold server_udp_post_decrypt. keeps_all. Qed.

Lemma keeps_dispose : keeps R dispose.
Proof.
  unfold dispose. keeps_all.
Qed.

Lemma keeps_set_server_info info : keeps R (set_server_info info).
Proof. unfold set_server_info. keeps_all. Qed.

Lemma keeps_get_overhead d : keeps R (get_overhead d).
Proof. apply keeps_gets. Qed.

End keeps.

(** Closes a goal [R s (snd (m s))] with a lemma of the section above,
    taking the facts about [R] it asks for from the context. *)
Ltac use_keeps lem :=
  let K := fresh "K" in
  pose proof lem as K;
  repeat match type of K with
         | ?P → _ =>
             match type of P with
             | Prop => let H := fresh in assert (H : P) by assumption; specialize (K H)
             end
         end;
  unfold keeps in K; apply K.

End Frame_facts.
Module sticky_facts.
Import auth_akarin_rand Frame Frame_facts Fixtures bytes_facts.

Section with_primitives.
Context {prims : primitives}.

Lemma raw_stays_after (c : call) (s : t) : raw_stays s (after c s).
Proof.
  assert (Hrefl : ∀ s, raw_stays s s) by (intros ? ?; assumption).
  assert (Htrans : ∀ a b c, raw_stays a b → raw_stays b c → raw_stays a c)
    by (unfold raw_stays; auto).
  assert (Hframe : ∀ s s', same_watched s s' → raw_stays s s')
    by (intros ? ? (Hr & _) Ht; rewrite Hr; exact Ht).
  assert (Hraw : ∀ s, raw_stays s (with_raw_trans true s)) by (intros ? ?; reflexivity).
  assert (Hcmd : ∀ s l x, raw_stays s (with_send_back_cmd (l ++ [x]) s))
    by (intros ? ? ? Ht; exact Ht).
  assert (Hrid : ∀ s v, raw_stays s (with_recv_id v s)) by (intros ? ? Ht; exact Ht).
  assert (Hrbuf : ∀ s v, raw_stays s (with_recv_buf v s)) by (intros ? ? Ht; exact Ht).
  assert (Href : ∀ s, raw_stays s (with_overhead 0 (with_raw_trans true s)))
    by (intros ? ?; reflexivity).
  destruct c; cbn [after].
  - apply Hrefl.
  - use_keeps (keeps_set_server_info raw_stays).
  - use_keeps (keeps_client_pre_encrypt raw_stays).
  - use_keeps (keeps_client_post_decrypt raw_stays).
  - use_keeps (keeps_server_pre_encrypt raw_stays).
  - use_keeps (keeps_server_post_decrypt raw_stays).
  - use_keeps (keeps_client_udp_pre_encrypt raw_stays).
  - use_keeps (keeps_client_udp_post_decrypt raw_stays).
  - use_keeps (keeps_server_udp_pre_encrypt raw_stays).
  - use_keeps (keeps_server_udp_post_decrypt raw_stays).
  - use_keeps (keeps_dispose raw_stays).
Qed.

Lemma raw_stays_after_all (cs : list call) (s : t) :
  raw_trans s = true → raw_trans (after_all cs s) = true.
Proof.
  revert s. induction cs as [|c cs IH]; intros s Hs; simpl; [exact Hs|].
  apply IH. apply (raw_stays_after c s Hs).
Qed.

(** *** What [client_pre_encrypt] does not read *)

Lemma blind_ret {A} (a : A) : blind (ret a).
Proof. intros b s. reflexivity. Qed.

Lemma blind_lift {A} (r : result A) : blind (lift r).
Proof. intros b s. reflexivity. Qed.

Lemma blind_raise {A} (e : exn) : blind (raise (A := A) e).
Proof. intros b s. reflexivity. Qed.

Lemma blind_gets {A} (f : t → A) :
  (∀ b s, f (with_raw_trans b s) = f s) → blind (gets f).
Proof. intros Hf b s. unfold gets. rewrite Hf. reflexivity. Qed.

Lemma blind_modify (f : t → t) :
  (∀ b s, f (with_raw_trans b s) = with_raw_trans b (f s)) → blind (modify f).
Proof. intros Hf b s. unfold modify. rewrite Hf. reflexivity. Qed.

Lemma blind_bind {A B} (m : M t A) (k : A → M t B) :
  blind m → (∀ a, blind (k a)) → blind (bind m k).
Proof.
  intros Hm Hk b s. unfold bind. rewrite Hm.
  destruct (m s) as [[a| |] s1]; cbn [fst snd]; [apply Hk|reflexivity|reflexivity].
Qed.

Lemma blind_random_next w : blind (random_next w).
Proof.
  intros b s. unfold random_next.
  replace (get_random w (with_raw_trans b s)) with (get_random w s)
    by (destruct w; reflexivity).
  destruct (xorshift128plus.next (get_random w s)) as [v r].
  destruct w; reflexivity.
Qed.

Lemma blind_set_random w r : blind (modify (set_random w r)).
Proof. apply blind_modify. intros b s. destruct w; reflexivity. Qed.

Lemma blind_rand_bytes n : blind (rand_bytes n).
Proof.
  intros b s. unfold rand_bytes. cbn [env with_raw_trans].
  destruct (Env.rand_bytes n (env s)) as [x e]. reflexivity.
Qed.

Lemma blind_randint_0_31 : blind randint_0_31.
Proof.
  intros b s. unfold randint_0_31. cbn [env with_raw_trans].
  destruct (Env.randint32 (env s)) as [x e]. reflexivity.
Qed.

Lemma blind_new_encryptor k m iv : blind (new_encryptor k m iv).
Proof.
  intros b s. unfold new_encryptor. cbn [env with_raw_trans].
  destruct (Encryptor.new k m iv (env s)) as [c e]. reflexivity.
Qed.

Lemma blind_encryptor_encrypt buf : blind (encryptor_encrypt buf).
Proof.
  intros b s. unfold encryptor_encrypt. cbn [encryptor with_raw_trans].
  destruct (encryptor s) as [c|]; [|reflexivity].
  destruct (Encryptor.encrypt buf c) as [o c']. reflexivity.
Qed.

Lemma blind_encryptor_decrypt buf : blind (encryptor_decrypt buf).
Proof.
  intros b s. unfold encryptor_decrypt. cbn [encryptor with_raw_trans].
  destruct (encryptor s) as [c|]; [|reflexivity].
  destruct (Encryptor.decrypt buf c) as [o c']. reflexivity.
Qed.

Lemma blind_the_user_key : blind the_user_key.
Proof.
  intros b s. unfold the_user_key. cbn [user_key with_raw_trans].
  destruct (user_key s); reflexivity.
Qed.

(** One step on a goal [blind m], by the shape of [m]. *)
Ltac blind_step :=
  match goal with
  | |- blind (ret _) => apply blind_ret
  | |- blind (lift _) => apply blind_lift
  | |- blind (raise _) => apply blind_raise
  | |- blind (gets _) => apply blind_gets; intros ? ?; reflexivity
  | |- blind (modify (set_random _ _)) => apply blind_set_random
  | |- blind (modify _) => apply blind_modify; intros ? ?; reflexivity
  | |- blind (bind _ _) => apply blind_bind; [|intros ?]
  | |- blind (random_next _) => apply blind_random_next
  | |- blind (rand_bytes _) => apply blind_rand_bytes
  | |- blind randint_0_31 => apply blind_randint_0_31
  | |- blind (new_encryptor _ _ _) => apply blind_new_encryptor
  | |- blind (encryptor_encrypt _) => apply blind_encryptor_encrypt
  | |- blind (encryptor_decrypt _) => apply blind_encryptor_decrypt
  | |- blind the_user_key => apply blind_the_user_key
  | |- blind (if ?b then _ else _) => destruct b
  | |- blind (match ?x with _ => _ end) => destruct x
  end.

Ltac blind_all := repeat blind_step.

Lemma blind_send_rnd_data_len n h w : blind (send_rnd_data_len n h w).
Proof. unfold send_rnd_data_len, random_init_from_bin_len. blind_all. Qed.

Lemma blind_rnd_data n buf h w : blind (rnd_data n buf h w).
Proof.
  unfold rnd_data. apply blind_bind; [apply blind_send_rnd_data_len|intros ?].
  blind_all.
Qed.

Lemma blind_pack_client_data buf : blind (pack_client_data buf).
Proof.
  unfold pack_client_data.
  repeat first [apply blind_rnd_data | blind_step].
Qed.

Lemma blind_auth_data : blind auth_data.
Proof. unfold auth_data, time_now. blind_all. Qed.

Lemma blind_pack_auth_data a buf : blind (pack_auth_data a buf).
Proof.
  unfold pack_auth_data.
  repeat first [apply blind_pack_client_data | blind_step].
Qed.

Lemma blind_chunk_loop (pack : bytes → M t bytes) :
  (∀ buf, blind (pack buf)) →
  ∀ fuel ret_ buf, blind (chunk_loop pack fuel ret_ buf).
Proof.
  intros Hp. induction fuel as [|fuel IH]; intros ret_ buf b s; cbn [chunk_loop];
    cbn [unit_len with_raw_trans]; destruct (unit_len s <? len buf); try reflexivity.
  apply (blind_bind _ _ (Hp _)). intros d. apply IH.
Qed.

Lemma blind_client_pre_encrypt buf : blind (client_pre_encrypt buf).
Proof.
  unfold client_pre_encrypt.
  repeat first [apply blind_pack_client_data | apply blind_auth_data
               | apply blind_pack_auth_data
               | apply (blind_chunk_loop _ blind_pack_client_data)
               | blind_step].
Qed.

(** *** What [client_pre_encrypt] returns *)

Lemma bound_Ok {A B} (m : M t A) (k : A → M t B) (s : t) (b : B) (s' : t) :
  bind m k s = (Ok b, s') → ∃ a s1, m s = (Ok a, s1) ∧ k a s1 = (Ok b, s').
Proof.
  unfold bind. destruct (m s) as [[a| |] s1]; intros H; try discriminate.
  exists a, s1. split; [reflexivity|exact H].
Qed.

Lemma lifted_Ok {A} (r : result A) (s : t) (a : A) (s' : t) :
  lift r s = (Ok a, s') → r = Ok a.
Proof. unfold lift. intros [= -> _]. reflexivity. Qed.

Lemma len_pack_H (v : Z) (l : bytes) : pack_H v = Ok l → len l = 2.
Proof.
  unfold pack_H, struct_pack. destruct (_ && _); [|discriminate].
  intros H. replace l with (pack_le 2 v) by congruence.
  unfold len. rewrite length_pack_le. reflexivity.
Qed.

(** A packet of the client is a body of two bytes or more, which
    starts with a length word, and the first two bytes of the HMAC-MD5
    of the body behind it. *)
Lemma pack_client_data_frames (buf : bytes) (s : t) (p : bytes) (s' : t) :
  pack_client_data buf s = (Ok p, s') →
  ∃ body mac_key, p = body ++ (hmac_md5 mac_key body).[:2] ∧ 2 ≤ len body.
Proof.
  unfold pack_client_data. intros H.
  apply bound_Ok in H as (e & s1 & _ & H).
  apply bound_Ok in H as (cmds & s2 & _ & H).
  apply bound_Ok in H as (data & s3 & Hd & H).
  apply bound_Ok in H as (pid & s4 & _ & H).
  apply bound_Ok in H as (pk & s5 & _ & H).
  apply bound_Ok in H as (uk & s6 & _ & H).
  cbv zeta in H.
  apply bound_Ok in H as (u1 & s7 & _ & H).
  apply bound_Ok in H as (u2 & s8 & _ & H).
  injection H as <- _.
  exists data, (uk ++ pk). split; [reflexivity|].
  assert (Hl : ∀ (l rest : bytes), len l = 2 → 2 ≤ len (l ++ rest)).
  { intros l rest Hl. unfold len in *. rewrite length_app. lia. }
  destruct cmds as [|c cmds].
  - apply bound_Ok in Hd as (h & t1 & _ & Hd).
    apply bound_Ok in Hd as (d0 & t2 & _ & Hd).
    apply bound_Ok in Hd as (m & t3 & _ & Hd).
    apply bound_Ok in Hd as (l & t4 & Hp & Hd).
    apply lifted_Ok in Hp. apply len_pack_H in Hp.
    injection Hd as <- _. apply Hl. exact Hp.
  - cbv zeta in Hd.
    apply bound_Ok in Hd as (rmss & t1 & _ & Hd).
    apply bound_Ok in Hd as (u & t2 & _ & Hd).
    apply bound_Ok in Hd as (h & t3 & _ & Hd).
    apply bound_Ok in Hd as (d0 & t4 & _ & Hd).
    apply bound_Ok in Hd as (m & t5 & _ & Hd).
    apply bound_Ok in Hd as (l0 & t6 & _ & Hd).
    apply bound_Ok in Hd as (m2 & t7 & _ & Hd).
    apply bound_Ok in Hd as (l & t8 & Hp & Hd).
    apply lifted_Ok in Hp. apply len_pack_H in Hp.
    injection Hd as <- _. apply Hl. exact Hp.
Qed.

(** What [client_pre_encrypt] returns ends with such a packet. *)
Lemma client_pre_encrypt_frames (buf : bytes) (s : t) (out : bytes) (s' : t) :
  client_pre_encrypt buf s = (Ok out, s') →
  ∃ front body mac_key,
    out = front ++ body ++ (hmac_md5 mac_key body).[:2] ∧ 2 ≤ len body.
Proof.
  unfold client_pre_encrypt. intros H. cbv zeta in H.
  apply bound_Ok in H as (sent & s1 & _ & H).
  apply bound_Ok in H as ([r1 b1] & s2 & _ & H).
  apply bound_Ok in H as ([r2 b2] & s3 & _ & H).
  apply bound_Ok in H as (p & s4 & Hp & H).
  injection H as <- _.
  destruct (pack_client_data_frames _ _ _ _ Hp) as (body & mk & -> & Hb).
  exists r2, body, mk. split; [reflexivity|exact Hb].
Qed.

Lemma with_raw_trans_set (s : t) : raw_trans s = true → with_raw_trans true s = s.
Proof. destruct s. cbn. intros ->. reflexivity. Qed.

(** C6, amended: once [raw_trans] is set no later call clears it, and
    [client_post_decrypt], [server_pre_encrypt] and [server_post_decrypt]
    hand their input back unchanged ([server_post_decrypt] with [False])
    and leave the session as it is.  [client_pre_encrypt] does not read
    the flag: whatever the flag is set to, it gives what it gives on
    the session as it is, and so with the flag set it frames its input
    as it does on the same session with the flag clear.  What it
    returns then ends with a packet: a body of two bytes or more and
    the first two bytes of an HMAC-MD5 of that body. *)
Theorem C6_raw_trans_is_sticky (s : t) :
  raw_trans s = true →
  (∀ calls, raw_trans (after_all calls s) = true)
  ∧ (∀ buf, client_post_decrypt buf s = (Ok buf, s))
  ∧ (∀ buf, server_pre_encrypt buf s = (Ok buf, s))
  ∧ (∀ buf, server_post_decrypt buf s = (Ok (buf, false), s))
  ∧ (∀ buf, blind (client_pre_encrypt buf))
  ∧ (∀ buf,
       client_pre_encrypt buf s
       = (fst (client_pre_encrypt buf (with_raw_trans false s)),
          with_raw_trans true (snd (client_pre_encrypt buf (with_raw_trans false s)))))
  ∧ (∀ buf out s',
       client_pre_encrypt buf s = (Ok out, s') →
       ∃ front body mac_key,
         out = front ++ body ++ (hmac_md5 mac_key body).[:2] ∧ 2 ≤ len body).
Proof.
  intros Hs. split; [|split; [|split; [|split; [|split; [|split]]]]].
  - intros calls. apply raw_stays_after_all. exact Hs.
  - intros buf. unfold client_post_decrypt, bind, gets. rewrite Hs. reflexivity.
  - intros buf. unfold server_pre_encrypt, bind, gets. rewrite Hs. reflexivity.
  - intros buf. unfold server_post_decrypt, bind, gets. rewrite Hs. reflexivity.
  - apply blind_client_pre_encrypt.
  - intros buf.
    rewrite <- (with_raw_trans_set s Hs) at 1.
    change (with_raw_trans true s) with (with_raw_trans true (with_raw_trans false s)).
    apply blind_client_pre_encrypt.
  - intros buf out s'. apply client_pre_encrypt_frames.
Qed.

Lemma same_overhead_after (c : call) (s : t) :
  (∀ buf, c ≠ Server_post_decrypt buf) → same_overhead s (after c s).
Proof.
  intros Hc.
  assert (Hrefl : ∀ s, same_overhead s s) by (intros ?; reflexivity).
  assert (Htrans : ∀ a b c, same_overhead a b → same_overhead b c → same_overhead a c)
    by (unfold same_overhead; intros; congruence).
  assert (Hframe : ∀ s s', same_watched s s' → same_overhead s s')
    by (intros ? ? (_ & Ho & _); exact Ho).
  assert (Hraw : ∀ s, same_overhead s (with_raw_trans true s)) by (intros ?; reflexivity).
  assert (Hcmd : ∀ s l x, same_overhead s (with_send_back_cmd (l ++ [x]) s))
    by (intros ? ? ?; reflexivity).
  assert (Hrid : ∀ s v, same_overhead s (with_recv_id v s)) by (intros ? ?; reflexivity).
  assert (Hrbuf : ∀ s v, same_overhead s (with_recv_buf v s)) by (intros ? ?; reflexivity).
  destruct c; cbn [after].
  - apply Hrefl.
  - use_keeps (keeps_set_server_info same_overhead).
  - use_keeps (keeps_client_pre_encrypt same_overhead).
  - use_keeps (keeps_client_post_decrypt same_overhead).
  - use_keeps (keeps_server_pre_encrypt same_overhead).
  - exfalso. apply (Hc buf). reflexivity.
  - use_keeps (keeps_client_udp_pre_encrypt same_overhead).
  - use_keeps (keeps_client_udp_post_decrypt same_overhead).
  - use_keeps (keeps_server_udp_pre_encrypt same_overhead).
  - use_keeps (keeps_server_udp_post_decrypt same_overhead).
  - use_keeps (keeps_dispose same_overhead).
Qed.

Lemma overhead_or_refused_server_post_decrypt (buf : bytes) (s : t) :
  overhead_or_refused s (snd (server_post_decrypt buf s)).
Proof.
  assert (Hrefl : ∀ s, overhead_or_refused s s)
    by (intros ?; split; [auto|left; reflexivity]).
  assert (Htrans : ∀ a b c, overhead_or_refused a b → overhead_or_refused b c →
                            overhead_or_refused a c).
  { unfold overhead_or_refused. intros a b c [H1 H2] [H3 H4]. split; [auto|].
    destruct H4 as [H4|[H4 H5]]; [|right; auto].
    destruct H2 as [H2|[H2 H6]]; [left; congruence|right; split; [congruence|auto]]. }
  assert (Hframe : ∀ s s', same_watched s s' → overhead_or_refused s s').
  { intros a b (Hr & Ho & _). split; [rewrite Hr; auto|left; exact Ho]. }
  assert (Hraw : ∀ s, overhead_or_refused s (with_raw_trans true s))
    by (intros ?; split; [reflexivity|left; reflexivity]).
  assert (Hrid : ∀ s v, overhead_or_refused s (with_recv_id v s))
    by (intros ? ?; split; [auto|left; reflexivity]).
  assert (Hrbuf : ∀ s v, overhead_or_refused s (with_recv_buf v s))
    by (intros ? ?; split; [auto|left; reflexivity]).
  assert (Href : ∀ s, overhead_or_refused s (with_overhead 0 (with_raw_trans true s)))
    by (intros ?; split; [reflexivity|right; split; reflexivity]).
  use_keeps (keeps_server_post_decrypt overhead_or_refused).
Qed.

End with_primitives.

(** C6 as it is written fails for [client_pre_encrypt], which never
    reads [raw_trans]: on the client that set it after a packet with a
    wrong tag, the byte 01 comes back framed, 63 bytes that start with
    the length word 01 00. *)
Lemma C6_client_pre_encrypt_still_frames :
  raw_trans client_failed = true
  ∧ ∃ out, fst (client_pre_encrypt (prims := plain_primitives) [x01] client_failed)
           = Ok out
           ∧ len out = 63 ∧ out.[:3] = [x01; x00; x01] ∧ bytes_eqb out [x01] = false.
Proof.
  split; [vm_compute; reflexivity|].
  eexists. split; [vm_compute; reflexivity|].
  by_computing.
Qed.

(** A session with the flag set, and some calls on it. *)
Lemma C6_raw_trans_is_sticky_witness :
  raw_trans (after_all (prims := plain_primitives)
               [Client_pre_encrypt [x01]; Server_post_decrypt probe; Dispose]
               client_failed) = true
  ∧ client_post_decrypt (prims := plain_primitives) hello client_failed
    = (Ok hello, client_failed).
Proof.
  pose proof (C6_raw_trans_is_sticky (prims := plain_primitives) client_failed) as H.
  assert (Hs : raw_trans client_failed = true) by (vm_compute; reflexivity).
  destruct (H Hs) as (H1 & H2 & _).
  split; [apply H1|apply H2].
Defined.

End sticky_facts.
Module failure_facts.
Import auth_akarin_rand Frame Frame_facts Fixtures.

Section with_primitives.
Context {prims : primitives}.

(** How a bound call runs, by what its first part is. *)
Lemma bind_gets {A B} (f : t → A) (k : A → M t B) s : bind (gets f) k s = k (f s) s.
Proof. reflexivity. Qed.

Lemma bind_modify {B} (f : t → t) (k : unit → M t B) s :
  bind (modify f) k s = k tt (f s).
Proof. reflexivity. Qed.

Lemma bind_lift_Ok {A B} (r : result A) (a : A) (k : A → M t B) s :
  r = Ok a → bind (lift r) k s = k a s.
Proof. intros ->. reflexivity. Qed.

Lemma bind_Ok {A B} (m : M t A) (k : A → M t B) s a s' :
  m s = (Ok a, s') → bind m k s = k a s'.
Proof. intros Hm. unfold bind. rewrite Hm. reflexivity. Qed.

Lemma bind_the_user_key {B} (k : bytes → M t B) s uk :
  user_key s = Some uk → bind the_user_key k s = k uk s.
Proof. intros Hk. unfold bind, the_user_key. rewrite Hk. reflexivity. Qed.

Lemma fail_poison_runs {A} msg s :
  fail_poison (A := A) msg s = (poison_or_raise (recv_id s) msg, failed s).
Proof.
  unfold fail_poison, poison_or_raise, failed, bind, modify, gets. simpl.
  destruct (recv_id s =? 1); reflexivity.
Qed.

Lemma fail_raise_runs {A} msg s :
  fail_raise (A := A) msg s = (Raise (Exception msg), failed s).
Proof. reflexivity. Qed.

Lemma same_recv_id_refl s : same_recv_id s s.
Proof. reflexivity. Qed.

Lemma same_recv_id_trans a b c : same_recv_id a b → same_recv_id b c → same_recv_id a c.
Proof. unfold same_recv_id. congruence. Qed.

Lemma same_recv_id_frame s s' : same_watched s s' → same_recv_id s s'.
Proof. intros (_ & _ & _ & Hr & _). exact Hr. Qed.

Lemma recv_rnd_data_len_recv_id n h w s r s' :
  recv_rnd_data_len n h w s = (r, s') → recv_id s' = recv_id s.
Proof.
  intros Hr.
  assert (Hk : same_recv_id s (snd (recv_rnd_data_len n h w s))).
  { pose proof same_recv_id_refl. pose proof same_recv_id_trans.
    pose proof same_recv_id_frame.
    use_keeps (keeps_recv_rnd_data_len same_recv_id). }
  rewrite Hr in Hk. exact Hk.
Qed.

Lemma cmd_loop_recv_id fuel dl cl rb s r s' :
  cmd_loop fuel dl cl rb s = (r, s') → recv_id s' = recv_id s.
Proof.
  intros Hr.
  assert (Hk : same_recv_id s (snd (cmd_loop fuel dl cl rb s))).
  { pose proof same_recv_id_refl. pose proof same_recv_id_trans.
    pose proof same_recv_id_frame.
    assert (∀ s, same_recv_id s (with_raw_trans true s)) by (intros ?; reflexivity).
    assert (∀ s v, same_recv_id s (with_recv_buf v s)) by (intros ? ?; reflexivity).
    use_keeps (keeps_cmd_loop same_recv_id). }
  rewrite Hr in Hk. exact Hk.
Qed.

Lemma recv_rnd_data_len_recv_buf n h w s r s' :
  recv_rnd_data_len n h w s = (r, s') → recv_buf s' = recv_buf s.
Proof.
  intros Hr.
  assert (Hk : same_recv_buf s (snd (recv_rnd_data_len n h w s))).
  { assert (∀ s, same_recv_buf s s) by (intros ?; reflexivity).
    assert (∀ a b c, same_recv_buf a b → same_recv_buf b c → same_recv_buf a c)
      by (unfold same_recv_buf; intros; congruence).
    assert (∀ s s', same_watched s s' → same_recv_buf s s')
      by (intros ? ? (_ & _ & _ & _ & Hb); exact Hb).
    use_keeps (keeps_recv_rnd_data_len same_recv_buf). }
  rewrite Hr in Hk. exact Hk.
Qed.

Lemma cmd_loop_next_recv_buf fuel :
  ∀ dl cl rb s x s',
    cmd_loop fuel dl cl rb s = (Ok (Next x), s') → recv_buf s' = recv_buf s.
Proof.
  induction fuel as [|fuel IH]; intros dl cl rb s x s'; cbn [cmd_loop].
  - destruct (0xff00 <=? dl); [discriminate|]. intros [= _ <-]. reflexivity.
  - destruct (0xff00 <=? dl); [|intros [= _ <-]; reflexivity].
    destruct (dl =? 0xff00).
    + rewrite bind_gets, bind_modify, bind_gets.
      unfold bind at 1, lift at 1.
      destruct (unpack_H _) as [w| |]; [|discriminate|discriminate].
      unfold bind at 1, lift at 1.
      destruct (unpack_H _) as [m| |]; [|discriminate|discriminate].
      intros Hc. apply IH in Hc. exact Hc.
    + rewrite fail_poison_runs. unfold poison_or_raise.
      destruct (recv_id s =? 1); discriminate.
Qed.

(** The server meets a length word above 0xff00, at the head of the
    packet or after commands. *)
Lemma cmd_loop_bad_length fuel dl cl rb s :
  0xff00 < dl →
  cmd_loop (S fuel) dl cl rb s
  = (poison_or_raise (recv_id s) "server_post_decrype data error", failed s).
Proof.
  intros Hd. cbn [cmd_loop].
  assert (E1 : (0xff00 <=? dl) = true) by (apply Z.leb_le; lia).
  assert (E2 : (dl =? 0xff00) = false) by (apply Z.eqb_neq; lia).
  rewrite E1, E2. apply fail_poison_runs.
Qed.

Lemma server_packet_bad_length acc s uk p w m :
  reads s (last_client_hash s) uk p w m →
  4 < len (recv_buf s) →
  0xff00 < Z.lxor w m →
  server_packet acc s
  = (poison_or_raise (recv_id s) "server_post_decrype data error", failed s).
Proof.
  intros (Hk & Hp & Hw & Hm) Hl Hd. unfold server_packet. destruct acc as [out sb].
  rewrite bind_gets. rewrite (bind_lift_Ok _ _ _ _ Hp).
  rewrite (bind_the_user_key _ _ _ Hk). rewrite !bind_gets.
  rewrite (bind_lift_Ok _ _ _ _ Hw). rewrite (bind_lift_Ok _ _ _ _ Hm).
  destruct (length (recv_buf s)) as [|n] eqn:En.
  { unfold len in Hl. rewrite En in Hl. simpl in Hl. lia. }
  unfold bind at 1. rewrite (cmd_loop_bad_length n _ 0 (recv_buf s) s Hd).
  unfold poison_or_raise. destruct (recv_id s =? 1); reflexivity.
Qed.

(** The server finds [data_len] plus padding at 4096 or above. *)
Lemma server_packet_oversize acc s uk p w m dl cl rb s1 rl s2 :
  reads s (last_client_hash s) uk p w m →
  cmd_loop (length (recv_buf s)) (Z.lxor w m) 0 (recv_buf s) s
  = (Ok (Next (dl, cl, rb)), s1) →
  recv_rnd_data_len (dl + cl) (last_client_hash s) RandomClient s1 = (Ok rl, s2) →
  4096 ≤ dl + rl →
  server_packet acc s
  = (poison_or_raise (recv_id s) "server_post_decrype data error", failed s2).
Proof.
  intros (Hk & Hp & Hw & Hm) Hc Hr Hd. unfold server_packet. destruct acc as [out sb].
  rewrite bind_gets. rewrite (bind_lift_Ok _ _ _ _ Hp).
  rewrite (bind_the_user_key _ _ _ Hk). rewrite !bind_gets.
  rewrite (bind_lift_Ok _ _ _ _ Hw). rewrite (bind_lift_Ok _ _ _ _ Hm).
  rewrite (bind_Ok _ _ _ _ _ Hc). rewrite (bind_Ok _ _ _ _ _ Hr).
  assert (E : (4096 <=? dl + rl) = true) by (apply Z.leb_le; exact Hd).
  rewrite E. rewrite fail_poison_runs.
  rewrite (recv_rnd_data_len_recv_id _ _ _ _ _ _ Hr).
  rewrite (cmd_loop_recv_id _ _ _ _ _ _ _ Hc). reflexivity.
Qed.

(** The server finds a tag that is not the first two bytes of the
    HMAC. *)
Lemma server_packet_bad_tag acc s uk p w m dl cl rb s1 rl s2 :
  reads s (last_client_hash s) uk p w m →
  cmd_loop (length (recv_buf s)) (Z.lxor w m) 0 (recv_buf s) s
  = (Ok (Next (dl, cl, rb)), s1) →
  recv_rnd_data_len (dl + cl) (last_client_hash s) RandomClient s1 = (Ok rl, s2) →
  dl + rl < 4096 →
  dl + rl + 4 ≤ len rb →
  bytes_eqb (hmac_md5 (uk ++ p) (recv_buf s).[:dl + rl + cl + 2]).[:2]
    (recv_buf s).[dl + rl + cl + 2 : dl + rl + cl + 4] = false →
  server_packet acc s
  = (poison_or_raise (recv_id s) "server_post_decrype data uncorrect checksum",
     failed s2).
Proof.
  intros (Hk & Hp & Hw & Hm) Hc Hr Hd Hl Ht. unfold server_packet.
  rewrite <- (cmd_loop_next_recv_buf _ _ _ _ _ _ _ Hc) in Ht.
  rewrite <- (recv_rnd_data_len_recv_buf _ _ _ _ _ _ Hr) in Ht.
  destruct acc as [out sb].
  rewrite bind_gets. rewrite (bind_lift_Ok _ _ _ _ Hp).
  rewrite (bind_the_user_key _ _ _ Hk). rewrite !bind_gets.
  rewrite (bind_lift_Ok _ _ _ _ Hw). rewrite (bind_lift_Ok _ _ _ _ Hm).
  rewrite (bind_Ok _ _ _ _ _ Hc). rewrite (bind_Ok _ _ _ _ _ Hr).
  assert (E1 : (4096 <=? dl + rl) = false) by (apply Z.leb_gt; exact Hd).
  assert (E2 : (len rb <? dl + rl + 4) = false) by (apply Z.ltb_ge; exact Hl).
  rewrite E1, E2. rewrite bind_gets. rewrite Ht. cbn [negb].
  rewrite fail_poison_runs.
  rewrite (recv_rnd_data_len_recv_id _ _ _ _ _ _ Hr).
  rewrite (cmd_loop_recv_id _ _ _ _ _ _ _ Hc). reflexivity.
Qed.

(** The client finds [data_len] plus padding at 4096 or above. *)
Lemma client_packet_oversize out s uk p w m rl s2 :
  reads s (last_server_hash s) uk p w m →
  recv_rnd_data_len (Z.lxor w m) (last_server_hash s) RandomServer s = (Ok rl, s2) →
  4096 ≤ Z.lxor w m + rl →
  client_packet out s
  = (Raise (Exception "client_post_decrypt data error"), failed s2).
Proof.
  intros (Hk & Hp & Hw & Hm) Hr Hd. unfold client_packet.
  rewrite bind_gets. rewrite (bind_lift_Ok _ _ _ _ Hp).
  rewrite (bind_the_user_key _ _ _ Hk). rewrite !bind_gets.
  rewrite (bind_lift_Ok _ _ _ _ Hw). rewrite (bind_lift_Ok _ _ _ _ Hm).
  rewrite (bind_Ok _ _ _ _ _ Hr).
  assert (E : (4096 <=? Z.lxor w m + rl) = true) by (apply Z.leb_le; exact Hd).
  rewrite E. apply fail_raise_runs.
Qed.

(** The client finds a wrong tag. *)
Lemma client_packet_bad_tag out s uk p w m rl s2 :
  reads s (last_server_hash s) uk p w m →
  recv_rnd_data_len (Z.lxor w m) (last_server_hash s) RandomServer s = (Ok rl, s2) →
  Z.lxor w m + rl < 4096 →
  Z.lxor w m + rl + 4 ≤ len (recv_buf s) →
  bytes_eqb (hmac_md5 (uk ++ p) (recv_buf s).[:Z.lxor w m + rl + 2]).[:2]
    (recv_buf s).[Z.lxor w m + rl + 2 : Z.lxor w m + rl + 4] = false →
  client_packet out s
  = (Raise (Exception "client_post_decrypt data uncorrect checksum"), failed s2).
Proof.
  intros (Hk & Hp & Hw & Hm) Hr Hd Hl Ht. unfold client_packet.
  rewrite bind_gets. rewrite (bind_lift_Ok _ _ _ _ Hp).
  rewrite (bind_the_user_key _ _ _ Hk). rewrite !bind_gets.
  rewrite (bind_lift_Ok _ _ _ _ Hw). rewrite (bind_lift_Ok _ _ _ _ Hm).
  rewrite (bind_Ok _ _ _ _ _ Hr).
  assert (E1 : (4096 <=? Z.lxor w m + rl) = false) by (apply Z.leb_gt; exact Hd).
  assert (E2 : (len (recv_buf s) <? Z.lxor w m + rl + 4) = false)
    by (apply Z.ltb_ge; exact Hl).
  rewrite E1, E2. rewrite Ht. cbn [negb]. apply fail_raise_runs.
Qed.

(** On the client every length word from 0xff00 on is an oversize
    packet: the padding computed for it is 0 or a remainder by 521. *)
Lemma recv_rnd_data_len_long n h w s :
  1440 ≤ n < 65536 →
  ∃ rl s', recv_rnd_data_len n h w s = (Ok rl, s') ∧ 0 ≤ rl.
Proof.
  intros Hn. unfold recv_rnd_data_len. rewrite !bind_gets.
  destruct (recv_tcp_mss s <? n + info_overhead s).
  - unfold random_init_from_bin_len.
    destruct (bytes_facts.init_from_bin_len_ok h n ltac:(lia)) as [r Hr].
    unfold bind at 1. unfold bind at 1. unfold lift at 1. rewrite Hr.
    unfold modify at 1. unfold bind at 1. unfold random_next at 1.
    destruct (xorshift128plus.next _) as [v r'].
    unfold lift, py_mod. simpl. eexists. eexists. split; [reflexivity|].
    apply Z.mod_pos_bound. lia.
  - assert (E : (1440 <=? n) = true) by (apply Z.leb_le; lia).
    rewrite E. simpl. eexists. eexists. split; [reflexivity|lia].
Qed.

Lemma client_packet_long_word out s uk p w m :
  reads s (last_server_hash s) uk p w m →
  0xff00 ≤ Z.lxor w m →
  ∃ s2, client_packet out s
        = (Raise (Exception "client_post_decrypt data error"), failed s2)
        ∧ recv_id s2 = recv_id s.
Proof.
  intros Hrd Hd. pose proof Hrd as (Hk & Hp & Hw & Hm).
  pose proof (bytes_facts.lxor_u16 w m (bytes_facts.unpack_H_range _ _ Hw)
                (bytes_facts.unpack_H_range _ _ Hm)) as Hx.
  destruct (recv_rnd_data_len_long (Z.lxor w m) (last_server_hash s) RandomServer s
              ltac:(lia)) as (rl & s2 & Hr & Hrl).
  exists s2. split.
  - apply (client_packet_oversize out s uk p w m rl s2 Hrd Hr). lia.
  - apply (recv_rnd_data_len_recv_id _ _ _ _ _ _ Hr).
Qed.

(** A packet that fails at the head of the buffer ends the method. *)
Lemma recv_loop_leaves {A B} (body : A → M t (turn A B)) fuel acc s r s' :
  4 < len (recv_buf s) →
  body acc s = (r, s') →
  (∀ x, r ≠ Ok (Next x)) → r ≠ Ok Break →
  recv_loop body (S fuel) acc s = (r, s').
Proof.
  intros Hl Hb Hn Hk. cbn [recv_loop].
  assert (E : (4 <? len (recv_buf s)) = true) by (apply Z.ltb_lt; exact Hl).
  rewrite E. unfold bind. rewrite Hb.
  destruct r as [[x| |x]| |]; try reflexivity.
  - exfalso. apply (Hn x). reflexivity.
  - exfalso. apply Hk. reflexivity.
Qed.

Lemma server_post_decrypt_poisoned buf s s' :
  raw_trans s = false → has_recv_header s = true →
  4 < len (recv_buf s ++ buf) →
  server_packet ([], false) (with_recv_buf (recv_buf s ++ buf) s)
  = (Ok (Return (bytes_repeat "E" 2048, false)), s') →
  server_post_decrypt buf s = (Ok (bytes_repeat "E" 2048, false), s').
Proof.
  intros Hraw Hh Hl Hp. unfold server_post_decrypt.
  rewrite bind_gets, Hraw. rewrite bind_gets, bind_modify, bind_gets.
  change (has_recv_header (with_recv_buf (recv_buf s ++ buf) s)) with (has_recv_header s).
  rewrite Hh. cbn [negb]. unfold bind at 1. unfold ret at 1.
  rewrite bind_gets.
  change (recv_buf (with_recv_buf (recv_buf s ++ buf) s)) with (recv_buf s ++ buf).
  destruct (length (recv_buf s ++ buf)) as [|n] eqn:En.
  { unfold len in Hl. rewrite En in Hl. simpl in Hl. lia. }
  unfold bind.
  rewrite (recv_loop_leaves server_packet n _ (with_recv_buf (recv_buf s ++ buf) s) _ _
             Hl Hp);
    [reflexivity|intros x; discriminate|discriminate].
Qed.

Lemma server_post_decrypt_raises buf s e s' :
  raw_trans s = false → has_recv_header s = true →
  4 < len (recv_buf s ++ buf) →
  server_packet ([], false) (with_recv_buf (recv_buf s ++ buf) s) = (Raise e, s') →
  server_post_decrypt buf s = (Raise e, s').
Proof.
  intros Hraw Hh Hl Hp. unfold server_post_decrypt.
  rewrite bind_gets, Hraw. rewrite bind_gets, bind_modify, bind_gets.
  change (has_recv_header (with_recv_buf (recv_buf s ++ buf) s)) with (has_recv_header s).
  rewrite Hh. cbn [negb]. unfold bind at 1. unfold ret at 1.
  rewrite bind_gets.
  change (recv_buf (with_recv_buf (recv_buf s ++ buf) s)) with (recv_buf s ++ buf).
  destruct (length (recv_buf s ++ buf)) as [|n] eqn:En.
  { unfold len in Hl. rewrite En in Hl. simpl in Hl. lia. }
  unfold bind.
  rewrite (recv_loop_leaves server_packet n _ (with_recv_buf (recv_buf s ++ buf) s) _ _
             Hl Hp);
    [reflexivity|intros x; discriminate|discriminate].
Qed.

Lemma client_post_decrypt_raises buf s e s' :
  raw_trans s = false →
  4 < len (recv_buf s ++ buf) →
  client_packet [] (with_recv_buf (recv_buf s ++ buf) s) = (Raise e, s') →
  client_post_decrypt buf s = (Raise e, s').
Proof.
  intros Hraw Hl Hp. unfold client_post_decrypt.
  rewrite bind_gets, Hraw. rewrite bind_gets, bind_modify.
  destruct (length (recv_buf s ++ buf)) as [|n] eqn:En.
  { unfold len in Hl. rewrite En in Hl. simpl in Hl. lia. }
  unfold bind.
  rewrite (recv_loop_leaves client_packet n _ (with_recv_buf (recv_buf s ++ buf) s) _ _
             Hl Hp);
    [reflexivity|intros x; discriminate|discriminate].
Qed.

(** C2: after the handshake a packet fails its checks when its
    unmasked length word is above 0xff00 (the server, at the head of the
    packet or after commands), when [data_len] plus the padding computed
    for it is 4096 or more, or when its tag is not the first two bytes of
    the HMAC.  The receiver then leaves [failed s2], with [raw_trans] set,
    [recv_buf] empty and [recv_id] as before the packet; the server gives
    back 2048 bytes ['E'] and [False] when [recv_id] is 1 and raises
    otherwise, the client always raises.  On the client a length word of
    0xff00 or more is always such an oversize packet. *)
Theorem C2_failed_verification :
  (∀ s, raw_trans (failed s) = true ∧ recv_buf (failed s) = []
        ∧ recv_id (failed s) = recv_id s)
  ∧ (∀ msg,
       poison_or_raise (A := bytes * bool) 1 msg
       = Ok (Return (bytes_repeat "E" 2048, false))
       ∧ ∀ rid, rid ≠ 1 →
           poison_or_raise (A := bytes * bool) rid msg = Raise (Exception msg))
  ∧ (∀ acc s uk p w m,
       reads s (last_client_hash s) uk p w m →
       4 < len (recv_buf s) →
       0xff00 < Z.lxor w m →
       server_packet acc s
       = (poison_or_raise (recv_id s) "server_post_decrype data error", failed s))
  ∧ (∀ fuel dl cl rb s,
       0xff00 < dl →
       cmd_loop (S fuel) dl cl rb s
       = (poison_or_raise (recv_id s) "server_post_decrype data error", failed s))
  ∧ (∀ acc s uk p w m dl cl rb s1 rl s2,
       reads s (last_client_hash s) uk p w m →
       cmd_loop (length (recv_buf s)) (Z.lxor w m) 0 (recv_buf s) s
       = (Ok (Next (dl, cl, rb)), s1) →
       recv_rnd_data_len (dl + cl) (last_client_hash s) RandomClient s1 = (Ok rl, s2) →
       4096 ≤ dl + rl →
       server_packet acc s
       = (poison_or_raise (recv_id s) "server_post_decrype data error", failed s2)
       ∧ recv_id s2 = recv_id s)
  ∧ (∀ acc s uk p w m dl cl rb s1 rl s2,
       reads s (last_client_hash s) uk p w m →
       cmd_loop (length (recv_buf s)) (Z.lxor w m) 0 (recv_buf s) s
       = (Ok (Next (dl, cl, rb)), s1) →
       recv_rnd_data_len (dl + cl) (last_client_hash s) RandomClient s1 = (Ok rl, s2) →
       dl + rl < 4096 →
       dl + rl + 4 ≤ len rb →
       bytes_eqb (hmac_md5 (uk ++ p) (recv_buf s).[:dl + rl + cl + 2]).[:2]
         (recv_buf s).[dl + rl + cl + 2 : dl + rl + cl + 4] = false →
       server_packet acc s
       = (poison_or_raise (recv_id s) "server_post_decrype data uncorrect checksum",
          failed s2)
       ∧ recv_id s2 = recv_id s)
  ∧ (∀ buf s s',
       raw_trans s = false → has_recv_header s = true →
       4 < len (recv_buf s ++ buf) →
       server_packet ([], false) (with_recv_buf (recv_buf s ++ buf) s)
       = (Ok (Return (bytes_repeat "E" 2048, false)), s') →
       server_post_decrypt buf s = (Ok (bytes_repeat "E" 2048, false), s'))
  ∧ (∀ buf s e s',
       raw_trans s = false → has_recv_header s = true →
       4 < len (recv_buf s ++ buf) →
       server_packet ([], false) (with_recv_buf (recv_buf s ++ buf) s) = (Raise e, s') →
       server_post_decrypt buf s = (Raise e, s'))
  ∧ (∀ out s uk p w m rl s2,
       reads s (last_server_hash s) uk p w m →
       recv_rnd_data_len (Z.lxor w m) (last_server_hash s) RandomServer s = (Ok rl, s2) →
       4096 ≤ Z.lxor w m + rl →
       client_packet out s
       = (Raise (Exception "client_post_decrypt data error"), failed s2)
       ∧ recv_id s2 = recv_id s)
  ∧ (∀ out s uk p w m,
       reads s (last_server_hash s) uk p w m →
       0xff00 ≤ Z.lxor w m →
       ∃ s2, client_packet out s
             = (Raise (Exception "client_post_decrypt data error"), failed s2)
             ∧ recv_id s2 = recv_id s)
  ∧ (∀ out s uk p w m rl s2,
       reads s (last_server_hash s) uk p w m →
       recv_rnd_data_len (Z.lxor w m) (last_server_hash s) RandomServer s = (Ok rl, s2) →
       Z.lxor w m + rl < 4096 →
       Z.lxor w m + rl + 4 ≤ len (recv_buf s) →
       bytes_eqb (hmac_md5 (uk ++ p) (recv_buf s).[:Z.lxor w m + rl + 2]).[:2]
         (recv_buf s).[Z.lxor w m + rl + 2 : Z.lxor w m + rl + 4] = false →
       client_packet out s
       = (Raise (Exception "client_post_decrypt data uncorrect checksum"), failed s2)
       ∧ recv_id s2 = recv_id s)
  ∧ (∀ buf s e s',
       raw_trans s = false →
       4 < len (recv_buf s ++ buf) →
       client_packet [] (with_recv_buf (recv_buf s ++ buf) s) = (Raise e, s') →
       client_post_decrypt buf s = (Raise e, s')).
Proof.
  split; [intros s; repeat split; reflexivity|].
  split.
  { intros msg. split; [reflexivity|].
    intros rid Hr. unfold poison_or_raise.
    apply Z.eqb_neq in Hr. rewrite Hr. reflexivity. }
  split; [intros; eapply server_packet_bad_length; eassumption|].
  split; [intros; apply cmd_loop_bad_length; assumption|].
  split.
  { intros acc s uk p w m dl cl rb s1 rl s2 Hrd Hc Hr Hd. split.
    - eapply server_packet_oversize; eassumption.
    - rewrite (recv_rnd_data_len_recv_id _ _ _ _ _ _ Hr).
      apply (cmd_loop_recv_id _ _ _ _ _ _ _ Hc). }
  split.
  { intros acc s uk p w m dl cl rb s1 rl s2 Hrd Hc Hr Hd Hl Ht. split.
    - eapply server_packet_bad_tag; eassumption.
    - rewrite (recv_rnd_data_len_recv_id _ _ _ _ _ _ Hr).
      apply (cmd_loop_recv_id _ _ _ _ _ _ _ Hc). }
  split; [intros; apply server_post_decrypt_poisoned; assumption|].
  split; [intros; apply server_post_decrypt_raises; assumption|].
  split.
  { intros out s uk p w m rl s2 Hrd Hr Hd. split.
    - eapply client_packet_oversize; eassumption.
    - apply (recv_rnd_data_len_recv_id _ _ _ _ _ _ Hr). }
  split; [intros; eapply client_packet_long_word; eassumption|].
  split.
  { intros out s uk p w m rl s2 Hrd Hr Hd Hl Ht. split.
    - eapply client_packet_bad_tag; eassumption.
    - apply (recv_rnd_data_len_recv_id _ _ _ _ _ _ Hr). }
  intros; apply client_post_decrypt_raises; assumption.
Qed.

End with_primitives.

(** The client of the connection meets [bad_tag]; a server meets the
    same packet right after the handshake, its first, and again as a
    later one. *)
Lemma C2_failed_verification_witness :
  client_post_decrypt (prims := plain_primitives) bad_tag client_sent
  = (Raise (Exception "client_post_decrypt data uncorrect checksum"),
     failed (snd (recv_rnd_data_len 0 zero16 RandomServer
                    (with_recv_buf bad_tag client_sent))))
  ∧ fst (server_post_decrypt (prims := plain_primitives)
           (first_flight.[:36] ++ bad_tag) fresh_session)
    = Ok (bytes_repeat "E" 2048, false)
  ∧ fst (server_post_decrypt (prims := plain_primitives) bad_tag server_got)
    = Raise (Exception "server_post_decrype data uncorrect checksum").
Proof.
  destruct (C2_failed_verification (prims := plain_primitives))
    as (_ & _ & _ & _ & _ & _ & _ & _ & _ & _ & Htag & Hmeth).
  split; [|split].
  - apply Hmeth.
    + reflexivity.
    + vm_compute. reflexivity.
    + apply (proj1 (Htag [] (with_recv_buf bad_tag client_sent)
                      (bytes_repeat "k" 16) (pack_le 4 1) 0 0 0
                      (snd (recv_rnd_data_len 0 zero16 RandomServer
                              (with_recv_buf bad_tag client_sent)))
                      ltac:(unfold reads; by_computing)
                      ltac:(vm_compute; reflexivity)
                      ltac:(vm_compute; reflexivity)
                      ltac:(vm_compute; discriminate)
                      ltac:(vm_compute; reflexivity))).
  - vm_compute. reflexivity.
  - vm_compute. reflexivity.
Defined.

End failure_facts.
Module command_facts.
Import auth_akarin_rand Frame Frame_facts Fixtures failure_facts.

Section with_primitives.
Context {prims : primitives}.

(** A bound call that gave a value: its first part gave one too. *)
Lemma bind_inv {A B} (m : M t A) (k : A → M t B) s b s' :
  bind m k s = (Ok b, s') → ∃ a s1, m s = (Ok a, s1) ∧ k a s1 = (Ok b, s').
Proof.
  unfold bind. destruct (m s) as [[a| |] s1]; intros H; try discriminate.
  exists a, s1. split; [reflexivity|exact H].
Qed.

Lemma lift_inv {A} (r : result A) (s : t) a s' :
  lift r s = (Ok a, s') → r = Ok a ∧ s' = s.
Proof. unfold lift. intros [= -> <-]. split; reflexivity. Qed.

(** Computing a padding length changes the generator it was given and
    nothing else. *)
Lemma recv_rnd_data_len_frame n h w s r s' :
  recv_rnd_data_len n h w s = (r, s') → s' = s ∨ ∃ g, s' = set_random w g s.
Proof.
  unfold recv_rnd_data_len. rewrite !bind_gets.
  assert (Hdraw : ∀ d r s',
            bind (random_init_from_bin_len w h n)
              (fun _ => bind (random_next w) (fun x => lift (py_mod x d))) s = (r, s') →
            s' = s ∨ ∃ g, s' = set_random w g s).
  { intros d r0 s0. unfold random_init_from_bin_len, bind, lift, modify, random_next.
    destruct (xorshift128plus.init_from_bin_len h n) as [g| |];
      [|intros [= _ <-]; left; reflexivity|intros [= _ <-]; left; reflexivity].
    destruct (xorshift128plus.next (get_random w (set_random w g s))) as [v g'].
    intros H. right. exists g'.
    destruct (py_mod v d); injection H as _ <-; destruct w; reflexivity. }
  destruct (recv_tcp_mss s <? n + info_overhead s); [apply Hdraw|].
  destruct ((1440 <=? n) || (n + info_overhead s =? send_tcp_mss s));
    [intros [= _ <-]; left; reflexivity|].
  destruct (1300 <? n); [apply Hdraw|].
  destruct (900 <? n); [apply Hdraw|].
  destruct (400 <? n); [apply Hdraw|].
  apply Hdraw.
Qed.

(** The client takes the first packet of the server: what it finds
    when the packet passes the checks and carries [d], two bytes or
    more. *)
Lemma client_packet_first out s uk p w m rl s2 enc d enc' mss :
  reads s (last_server_hash s) uk p w m →
  recv_id s = 1 →
  recv_rnd_data_len (Z.lxor w m) (last_server_hash s) RandomServer s = (Ok rl, s2) →
  Z.lxor w m + rl < 4096 →
  Z.lxor w m + rl + 4 ≤ len (recv_buf s) →
  bytes_eqb (hmac_md5 (uk ++ p) (recv_buf s).[:Z.lxor w m + rl + 2]).[:2]
    (recv_buf s).[Z.lxor w m + rl + 2 : Z.lxor w m + rl + 4] = true →
  encryptor s = Some enc →
  Encryptor.decrypt (recv_buf s).[2 : Z.lxor w m + 2] enc = (d, enc') →
  unpack_H (out ++ d).[:2] = Ok mss →
  ∃ s', client_packet out s = (Ok (Next (out ++ d).[2:]), s')
        ∧ recv_tcp_mss s' = mss
        ∧ ServerInfo.tcp_mss (server_info s') = mss
        ∧ send_back_cmd s' = send_back_cmd s ++ [0xff00]
        ∧ recv_id s' = 2.
Proof.
  intros (Hk & Hp & Hw & Hm) Hid Hr Hd Hl Ht He Hdec Hmss.
  assert (He2 : encryptor s2 = Some enc).
  { destruct (recv_rnd_data_len_frame _ _ _ _ _ _ Hr) as [->|[g ->]]; exact He. }
  assert (Hc2 : send_back_cmd s2 = send_back_cmd s).
  { destruct (recv_rnd_data_len_frame _ _ _ _ _ _ Hr) as [->|[g ->]]; reflexivity. }
  unfold client_packet.
  rewrite bind_gets. rewrite (bind_lift_Ok _ _ _ _ Hp).
  rewrite (bind_the_user_key _ _ _ Hk). rewrite !bind_gets.
  rewrite (bind_lift_Ok _ _ _ _ Hw). rewrite (bind_lift_Ok _ _ _ _ Hm).
  rewrite (bind_Ok _ _ _ _ _ Hr).
  assert (E1 : (4096 <=? Z.lxor w m + rl) = false) by (apply Z.leb_gt; exact Hd).
  assert (E2 : (len (recv_buf s) <? Z.lxor w m + rl + 4) = false)
    by (apply Z.ltb_ge; exact Hl).
  rewrite E1, E2, Ht. cbn [negb].
  unfold bind at 1. unfold encryptor_decrypt at 1. rewrite He2, Hdec.
  rewrite bind_modify. rewrite Hid. cbn [Z.eqb Pos.eqb].
  unfold bind at 1. unfold bind at 1. unfold lift at 1. rewrite Hmss.
  rewrite bind_gets, bind_modify, bind_modify, bind_gets, bind_modify.
  unfold ret at 1. rewrite bind_modify, bind_modify. unfold ret.
  eexists. split; [reflexivity|]. simpl. rewrite Hc2. repeat split; reflexivity.
Qed.

(** The frame of a packet the client sends while a command is queued:
    the command word masked with [last_client_hash[14:16]], then the
    length of the ciphertext masked with [last_client_hash[12:14]]; the
    queue is left as it was. *)
Lemma pack_client_data_with_cmd buf s data s' :
  send_back_cmd s ≠ [] →
  pack_client_data buf s = (Ok data, s') →
  ∃ enc m12 m14 rest,
    encryptor s = Some enc
    ∧ unpack_H (last_client_hash s).[12:14] = Ok m12
    ∧ unpack_H (last_client_hash s).[14:] = Ok m14
    ∧ data = pack_le 2 (Z.lxor 0xff00 m14)
             ++ pack_le 2 (Z.lxor (len (fst (Encryptor.encrypt buf enc))) m12) ++ rest
    ∧ send_back_cmd s' = send_back_cmd s.
Proof.
  intros Hc H. unfold pack_client_data in H.
  apply bind_inv in H. destruct H as (e & s1 & He & H).
  unfold encryptor_encrypt in He.
  destruct (encryptor s) as [enc|] eqn:Eenc; [|discriminate].
  destruct (Encryptor.encrypt buf enc) as [e0 enc'] eqn:Ee.
  injection He as <- <-.
  rewrite bind_gets in H.
  change (send_back_cmd (with_encryptor (Some enc') s)) with (send_back_cmd s) in H.
  destruct (send_back_cmd s) as [|c cs] eqn:Ecmd; [exfalso; apply Hc; reflexivity|].
  apply bind_inv in H. destruct H as (framed & s2 & Hf & H).
  rewrite bind_gets, bind_modify, bind_gets in Hf.
  apply bind_inv in Hf. destruct Hf as (body & s3 & Hb & Hf).
  apply bind_inv in Hf. destruct Hf as (m12 & s4 & H12 & Hf).
  apply lift_inv in H12. destruct H12 as [H12 ->].
  apply bind_inv in Hf. destruct Hf as (l1 & s4 & Hl1 & Hf).
  apply lift_inv in Hl1. destruct Hl1 as [Hl1 ->].
  apply bind_inv in Hf. destruct Hf as (m14 & s4 & H14 & Hf).
  apply lift_inv in H14. destruct H14 as [H14 ->].
  apply bind_inv in Hf. destruct Hf as (l2 & s4 & Hl2 & Hf).
  apply lift_inv in Hl2. destruct Hl2 as [Hl2 ->].
  injection Hf as <- <-.
  assert (Hs3 : send_back_cmd s3 = c :: cs).
  { rewrite <- Ecmd.
    set (R := fun a b : t => send_back_cmd b = send_back_cmd a).
    assert (∀ s, R s s) by (intros ?; reflexivity).
    assert (∀ a b c, R a b → R b c → R a c) by (unfold R; intros; congruence).
    assert (∀ s s', same_watched s s' → R s s')
      by (intros ? ? (_ & _ & Hx & _); exact Hx).
    match type of Hb with
    | rnd_data ?n ?b ?h ?w ?s0 = _ =>
        assert (Hkeep : R s0 (snd (rnd_data n b h w s0)))
          by use_keeps (keeps_rnd_data R)
    end.
    rewrite Hb in Hkeep. exact Hkeep. }
  unfold pack_H, struct_pack in Hl1, Hl2.
  destruct ((0 <=? _) && _) in Hl1; [|discriminate]. injection Hl1 as <-.
  destruct ((0 <=? _) && _) in Hl2; [|discriminate]. injection Hl2 as <-.
  apply bind_inv in H. destruct H as (pid & s5 & Hpid & H).
  injection Hpid as <- <-.
  apply bind_inv in H. destruct H as (pk & s5 & Hpk & H).
  apply lift_inv in Hpk. destruct Hpk as [Hpk ->].
  apply bind_inv in H. destruct H as (uk & s5 & Huk & H).
  unfold the_user_key in Huk. destruct (user_key s3); [|discriminate].
  injection Huk as <- <-.
  rewrite bind_modify, bind_modify in H. injection H as <- <-.
  exists enc, m12, m14. eexists.
  rewrite Ee. cbn [fst].
  split; [reflexivity|]. split; [exact H12|]. split; [exact H14|].
  split; [reflexivity|].
  simpl. exact Hs3.
Qed.

(** The same while no command is queued: the length word is masked
    with [last_client_hash[14:16]] and comes first. *)
Lemma pack_client_data_without_cmd buf s data s' :
  send_back_cmd s = [] →
  pack_client_data buf s = (Ok data, s') →
  ∃ enc m14 rest,
    encryptor s = Some enc
    ∧ unpack_H (last_client_hash s).[14:] = Ok m14
    ∧ data = pack_le 2 (Z.lxor (len (fst (Encryptor.encrypt buf enc))) m14) ++ rest
    ∧ send_back_cmd s' = [].
Proof.
  intros Hc H. unfold pack_client_data in H.
  apply bind_inv in H. destruct H as (e & s1 & He & H).
  unfold encryptor_encrypt in He.
  destruct (encryptor s) as [enc|] eqn:Eenc; [|discriminate].
  destruct (Encryptor.encrypt buf enc) as [e0 enc'] eqn:Ee.
  injection He as <- <-.
  rewrite bind_gets in H.
  change (send_back_cmd (with_encryptor (Some enc') s)) with (send_back_cmd s) in H.
  rewrite Hc in H.
  apply bind_inv in H. destruct H as (framed & s2 & Hf & H).
  rewrite bind_gets in Hf.
  apply bind_inv in Hf. destruct Hf as (body & s3 & Hb & Hf).
  apply bind_inv in Hf. destruct Hf as (m14 & s4 & H14 & Hf).
  apply lift_inv in H14. destruct H14 as [H14 ->].
  apply bind_inv in Hf. destruct Hf as (l2 & s4 & Hl2 & Hf).
  apply lift_inv in Hl2. destruct Hl2 as [Hl2 ->].
  injection Hf as <- <-.
  assert (Hs3 : send_back_cmd s3 = []).
  { rewrite <- Hc.
    set (R := fun a b : t => send_back_cmd b = send_back_cmd a).
    assert (∀ s, R s s) by (intros ?; reflexivity).
    assert (∀ a b c, R a b → R b c → R a c) by (unfold R; intros; congruence).
    assert (∀ s s', same_watched s s' → R s s')
      by (intros ? ? (_ & _ & Hx & _); exact Hx).
    match type of Hb with
    | rnd_data ?n ?b ?h ?w ?s0 = _ =>
        assert (Hkeep : R s0 (snd (rnd_data n b h w s0)))
          by use_keeps (keeps_rnd_data R)
    end.
    rewrite Hb in Hkeep. exact Hkeep. }
  unfold pack_H, struct_pack in Hl2.
  destruct ((0 <=? _) && _) in Hl2; [|discriminate]. injection Hl2 as <-.
  apply bind_inv in H. destruct H as (pid & s5 & Hpid & H).
  injection Hpid as <- <-.
  apply bind_inv in H. destruct H as (pk & s5 & Hpk & H).
  apply lift_inv in Hpk. destruct Hpk as [Hpk ->].
  apply bind_inv in H. destruct H as (uk & s5 & Huk & H).
  unfold the_user_key in Huk. destruct (user_key s3); [|discriminate].
  injection Huk as <- <-.
  rewrite bind_modify, bind_modify in H. injection H as <- <-.
  exists enc, m14. eexists.
  rewrite Ee. cbn [fst].
  split; [reflexivity|]. split; [exact H14|].
  split; [reflexivity|].
  simpl. exact Hs3.
Qed.

(** The sender's padding length is always there to be had. *)
Lemma send_rnd_data_len_returns n h w s :
  0 ≤ n < 65536 →
  ∃ rl s', send_rnd_data_len n h w s = (Ok rl, s')
           ∧ (s' = s ∨ ∃ g, s' = set_random w g s).
Proof.
  intros Hn. unfold send_rnd_data_len. rewrite !bind_gets.
  destruct (bytes_facts.init_from_bin_len_ok h n Hn) as [g Hg].
  assert (Hdraw : ∀ d, d ≠ 0 →
            ∃ rl s',
              bind (random_init_from_bin_len w h n)
                (fun _ => bind (random_next w) (fun x => lift (py_mod x d))) s
              = (Ok rl, s')
              ∧ (s' = s ∨ ∃ g, s' = set_random w g s)).
  { intros d Hd. unfold random_init_from_bin_len, bind, lift, modify, random_next.
    rewrite Hg.
    destruct (xorshift128plus.next (get_random w (set_random w g s))) as [v g'].
    unfold py_mod. apply Z.eqb_neq in Hd. rewrite Hd.
    eexists. eexists. split; [reflexivity|].
    right. exists g'. destruct w; reflexivity. }
  destruct (send_tcp_mss s <? n + info_overhead s) eqn:E1; [apply Hdraw; lia|].
  destruct ((1440 <=? n) || (n + info_overhead s =? send_tcp_mss s)) eqn:E2.
  { eexists. eexists. split; [reflexivity|left; reflexivity]. }
  destruct (1300 <? n); [apply Hdraw; lia|].
  destruct (900 <? n); [apply Hdraw; lia|].
  destruct (400 <? n); [apply Hdraw; lia|].
  apply Hdraw. apply Z.ltb_ge in E1. apply orb_false_iff in E2. destruct E2 as [_ E2].
  apply Z.eqb_neq in E2. lia.
Qed.

Lemma rnd_data_returns n b h w s :
  0 ≤ n < 65536 →
  ∃ body s', rnd_data n b h w s = (Ok body, s')
             ∧ user_key s' = user_key s ∧ pack_id s' = pack_id s.
Proof.
  intros Hn. unfold rnd_data.
  destruct (send_rnd_data_len_returns n h w s Hn) as (rl & s1 & Hr & Hs1).
  rewrite (bind_Ok _ _ _ _ _ Hr).
  unfold bind at 1. unfold rand_bytes at 1.
  destruct (Env.rand_bytes rl (env s1)) as [pad e].
  assert (Hk : user_key (with_env e s1) = user_key s ∧ pack_id (with_env e s1) = pack_id s).
  { destruct Hs1 as [->|[g ->]]; [|destruct w]; split; reflexivity. }
  destruct (n =? 0); [|destruct (0 <? rl)]; eexists; eexists; (split; [reflexivity|exact Hk]).
Qed.

(** A client that went through the handshake gets a packet out of
    [pack_client_data]: with a cipher, a key, a 16-byte
    [last_client_hash], a [pack_id] of 32 bits and a ciphertext short
    enough for the length word, the call gives bytes back. *)
Lemma pack_client_data_returns buf s enc uk :
  encryptor s = Some enc →
  user_key s = Some uk →
  length (last_client_hash s) = 16%nat →
  0 ≤ pack_id s < 2 ^ 32 →
  len (fst (Encryptor.encrypt buf enc)) + 2 < 65536 →
  ∃ data s', pack_client_data buf s = (Ok data, s').
Proof.
  intros He Hk Hh Hp Hl. unfold pack_client_data.
  unfold bind at 1. unfold encryptor_encrypt at 1. rewrite He.
  destruct (Encryptor.encrypt buf enc) as [e0 enc'] eqn:Ee. cbn [fst] in Hl.
  rewrite bind_gets.
  change (send_back_cmd (with_encryptor (Some enc') s)) with (send_back_cmd s).
  pose proof (bytes_facts.len_nonneg e0) as Hl0.
  assert (H12 : ∃ m12, unpack_H (last_client_hash s).[12:14] = Ok m12).
  { unfold unpack_H, struct_unpack.
    rewrite bytes_facts.length_pyslice by (unfold len; lia).
    simpl. eexists. reflexivity. }
  assert (H14 : ∃ m14, unpack_H (last_client_hash s).[14:] = Ok m14).
  { unfold unpack_H, struct_unpack, pyslice, slice_index, len.
    rewrite Hh. simpl. rewrite length_take, length_drop, Hh.
    simpl. eexists. reflexivity. }
  destruct H12 as [m12 H12]. destruct H14 as [m14 H14].
  pose proof (bytes_facts.unpack_H_range _ _ H12) as R12.
  pose proof (bytes_facts.unpack_H_range _ _ H14) as R14.
  assert (Hpk : pack_I (pack_id s) = Ok (pack_le 4 (pack_id s))).
  { unfold pack_I, struct_pack.
    assert (E1 : (0 <=? pack_id s) = true) by (apply Z.leb_le; lia).
    assert (E2 : (pack_id s <? 2 ^ (8 * Z.of_nat 4)) = true) by (apply Z.ltb_lt; simpl; lia).
    rewrite E1, E2. reflexivity. }
  assert (Hin : ∃ framed s3,
            match send_back_cmd s with
            | [] =>
                let* h := gets last_client_hash in
                let* data := rnd_data (len e0) e0 h RandomClient in
                let* m := lift (unpack_H h.[14:]) in
                let* l := lift (pack_H (Z.lxor (len e0) m)) in
                ret (l ++ data)
            | _ :: _ =>
                let* rmss := gets recv_tcp_mss in
                modify (with_send_tcp_mss rmss) ;;
                let* h := gets last_client_hash in
                let* data := rnd_data (len e0 + 2) e0 h RandomClient in
                let* m := lift (unpack_H h.[12:14]) in
                let* l := lift (pack_H (Z.lxor (len e0) m)) in
                let data := l ++ data in
                let* m := lift (unpack_H h.[14:]) in
                let* l := lift (pack_H (Z.lxor 0xff00 m)) in
                ret (l ++ data)
            end (with_encryptor (Some enc') s) = (Ok framed, s3)
            ∧ user_key s3 = Some uk ∧ pack_id s3 = pack_id s).
  { destruct (send_back_cmd s) as [|c cs].
    - rewrite bind_gets.
      destruct (rnd_data_returns (len e0) e0
                  (last_client_hash (with_encryptor (Some enc') s)) RandomClient
                  (with_encryptor (Some enc') s) ltac:(lia))
        as (body & s3 & Hb & Hk3 & Hp3).
      rewrite (bind_Ok _ _ _ _ _ Hb).
      change (last_client_hash (with_encryptor (Some enc') s)) with (last_client_hash s).
      rewrite (bind_lift_Ok _ _ _ _ H14).
      rewrite (bind_lift_Ok _ _ _ _
                 (bytes_facts.pack_H_ok _ (bytes_facts.lxor_u16 (len e0) m14
                                             ltac:(lia) R14))).
      eexists. eexists. split; [reflexivity|].
      split; [rewrite Hk3; exact Hk|rewrite Hp3; reflexivity].
    - rewrite bind_gets, bind_modify, bind_gets.
      destruct (rnd_data_returns (len e0 + 2) e0
                  (last_client_hash
                     (with_send_tcp_mss (recv_tcp_mss (with_encryptor (Some enc') s))
                        (with_encryptor (Some enc') s)))
                  RandomClient
                  (with_send_tcp_mss (recv_tcp_mss (with_encryptor (Some enc') s))
                     (with_encryptor (Some enc') s)) ltac:(lia))
        as (body & s3 & Hb & Hk3 & Hp3).
      rewrite (bind_Ok _ _ _ _ _ Hb).
      change (last_client_hash
                (with_send_tcp_mss (recv_tcp_mss (with_encryptor (Some enc') s))
                   (with_encryptor (Some enc') s))) with (last_client_hash s).
      rewrite (bind_lift_Ok _ _ _ _ H12).
      rewrite (bind_lift_Ok _ _ _ _
                 (bytes_facts.pack_H_ok _ (bytes_facts.lxor_u16 (len e0) m12
                                             ltac:(lia) R12))).
      rewrite (bind_lift_Ok _ _ _ _ H14).
      rewrite (bind_lift_Ok _ _ _ _
                 (bytes_facts.pack_H_ok _ (bytes_facts.lxor_u16 0xff00 m14
                                             ltac:(lia) R14))).
      eexists. eexists. split; [reflexivity|].
      split; [rewrite Hk3; exact Hk|rewrite Hp3; reflexivity]. }
  destruct Hin as (framed & s3 & Hin & Hk3 & Hp3).
  rewrite (bind_Ok _ _ _ _ _ Hin).
  rewrite bind_gets. rewrite Hp3.
  rewrite (bind_lift_Ok _ _ _ _ Hpk).
  rewrite (bind_the_user_key _ _ uk Hk3).
  rewrite !bind_modify. eexists. eexists. reflexivity.
Qed.

(** Whatever is called, a queued command stays queued. *)
Lemma cmd_stays_after (c : call) (s : t) : cmd_stays s (after c s).
Proof.
  assert (Hrefl : ∀ s, cmd_stays s s) by (intros ? ?; assumption).
  assert (Htrans : ∀ a b c, cmd_stays a b → cmd_stays b c → cmd_stays a c)
    by (unfold cmd_stays; auto).
  assert (Hframe : ∀ s s', same_watched s s' → cmd_stays s s')
    by (intros ? ? (_ & _ & Hx & _) Hn; rewrite Hx; exact Hn).
  assert (Hraw : ∀ s, cmd_stays s (with_raw_trans true s)) by (intros ? Hn; exact Hn).
  assert (Hcmd : ∀ s l x, cmd_stays s (with_send_back_cmd (l ++ [x]) s)).
  { intros ? l x _. simpl. destruct l; discriminate. }
  assert (Hrid : ∀ s v, cmd_stays s (with_recv_id v s)) by (intros ? ? Hn; exact Hn).
  assert (Hrbuf : ∀ s v, cmd_stays s (with_recv_buf v s)) by (intros ? ? Hn; exact Hn).
  assert (Href : ∀ s, cmd_stays s (with_overhead 0 (with_raw_trans true s)))
    by (intros ? Hn; exact Hn).
  destruct c; cbn [after].
  - apply Hrefl.
  - use_keeps (keeps_set_server_info cmd_stays).
  - use_keeps (keeps_client_pre_encrypt cmd_stays).
  - use_keeps (keeps_client_post_decrypt cmd_stays).
  - use_keeps (keeps_server_pre_encrypt cmd_stays).
  - use_keeps (keeps_server_post_decrypt cmd_stays).
  - use_keeps (keeps_client_udp_pre_encrypt cmd_stays).
  - use_keeps (keeps_client_udp_post_decrypt cmd_stays).
  - use_keeps (keeps_server_udp_pre_encrypt cmd_stays).
  - use_keeps (keeps_server_udp_post_decrypt cmd_stays).
  - use_keeps (keeps_dispose cmd_stays).
Qed.

Lemma cmd_stays_after_all (cs : list call) (s : t) :
  send_back_cmd s ≠ [] → send_back_cmd (after_all cs s) ≠ [].
Proof.
  revert s. induction cs as [|c cs IH]; intros s Hs; simpl; [exact Hs|].
  apply IH. apply (cmd_stays_after c s Hs).
Qed.

(** C3, amended: taking the server's first packet ([recv_id = 1]) the
    client sets [recv_tcp_mss] to the MSS in the first two bytes of the
    payload and appends 0xff00 to [send_back_cmd].  Nothing takes a
    command off that list again: the next packet the client sends, and
    every one after it, starts with the command word 0xff00 XOR
    u16_le(last_client_hash[14:16]) followed by the length word masked
    with last_client_hash[12:14].  The framing without a command, whose
    length word is masked with last_client_hash[14:16], is the one used
    while the list is empty. *)
Theorem C3_command_after_first_reply :
  (∀ out s uk p w m rl s2 enc d enc' mss,
     reads s (last_server_hash s) uk p w m →
     recv_id s = 1 →
     recv_rnd_data_len (Z.lxor w m) (last_server_hash s) RandomServer s = (Ok rl, s2) →
     Z.lxor w m + rl < 4096 →
     Z.lxor w m + rl + 4 ≤ len (recv_buf s) →
     bytes_eqb (hmac_md5 (uk ++ p) (recv_buf s).[:Z.lxor w m + rl + 2]).[:2]
       (recv_buf s).[Z.lxor w m + rl + 2 : Z.lxor w m + rl + 4] = true →
     encryptor s = Some enc →
     Encryptor.decrypt (recv_buf s).[2 : Z.lxor w m + 2] enc = (d, enc') →
     unpack_H (out ++ d).[:2] = Ok mss →
     ∃ s', client_packet out s = (Ok (Next (out ++ d).[2:]), s')
           ∧ recv_tcp_mss s' = mss
           ∧ ServerInfo.tcp_mss (server_info s') = mss
           ∧ send_back_cmd s' = send_back_cmd s ++ [0xff00]
           ∧ recv_id s' = 2)
  ∧ (∀ calls s, send_back_cmd s ≠ [] → send_back_cmd (after_all calls s) ≠ [])
  ∧ (∀ buf s data s',
       send_back_cmd s ≠ [] →
       pack_client_data buf s = (Ok data, s') →
       ∃ enc m12 m14 rest,
         encryptor s = Some enc
         ∧ unpack_H (last_client_hash s).[12:14] = Ok m12
         ∧ unpack_H (last_client_hash s).[14:] = Ok m14
         ∧ data = pack_le 2 (Z.lxor 0xff00 m14)
                  ++ pack_le 2 (Z.lxor (len (fst (Encryptor.encrypt buf enc))) m12)
                  ++ rest
         ∧ send_back_cmd s' = send_back_cmd s)
  ∧ (∀ buf s data s',
       send_back_cmd s = [] →
       pack_client_data buf s = (Ok data, s') →
       ∃ enc m14 rest,
         encryptor s = Some enc
         ∧ unpack_H (last_client_hash s).[14:] = Ok m14
         ∧ data = pack_le 2 (Z.lxor (len (fst (Encryptor.encrypt buf enc))) m14) ++ rest
         ∧ send_back_cmd s' = [])
  ∧ (∀ buf s enc uk,
       encryptor s = Some enc →
       user_key s = Some uk →
       length (last_client_hash s) = 16%nat →
       0 ≤ pack_id s < 2 ^ 32 →
       len (fst (Encryptor.encrypt buf enc)) + 2 < 65536 →
       ∃ data s', pack_client_data buf s = (Ok data, s')).
Proof.
  split; [|split; [|split; [|split]]].
  - intros. eapply client_packet_first; eassumption.
  - intros calls s. apply cmd_stays_after_all.
  - intros buf s data s'. apply pack_client_data_with_cmd.
  - intros buf s data s'. apply pack_client_data_without_cmd.
  - intros buf s enc uk. apply pack_client_data_returns.
Qed.

End with_primitives.

(** The client of the connection takes the reply of 500 bytes: the MSS
    in front of them is 1460. *)
Lemma C3_command_after_first_reply_witness :
  ∃ s', client_packet (prims := plain_primitives) []
          (with_recv_buf (first_reply long_payload) client_sent)
        = (Ok (Next long_payload), s')
        ∧ recv_tcp_mss s' = 1460
        ∧ send_back_cmd s' = [0xff00].
Proof.
  destruct (C3_command_after_first_reply (prims := plain_primitives)) as (H1 & _).
  edestruct (H1 [] (with_recv_buf (first_reply long_payload) client_sent)
               (bytes_repeat "k" 16) (pack_le 4 1) 502 0)
    as (s' & Hp & Hm & _ & Hc & _).
  - unfold reads. by_computing.
  - vm_compute. reflexivity.
  - vm_compute. reflexivity.
  - vm_compute. reflexivity.
  - vm_compute. discriminate.
  - vm_compute. reflexivity.
  - vm_compute. reflexivity.
  - vm_compute. reflexivity.
  - vm_compute. reflexivity.
  - exists s'. split; [|split].
    + rewrite Hp. vm_compute. reflexivity.
    + exact Hm.
    + exact Hc.
Defined.

(** C3 as it is written fails on the packet after the next.  The
    client that took a reply of 500 bytes sends the byte 01 and then the
    byte 02: both packets start with the command word 00 ff and the
    length word 01 00, where a packet without a command would start with
    01 00 and its byte. *)
Lemma C3_second_packet_keeps_the_command :
  send_back_cmd client_got = [0xff00]
  ∧ last_client_hash client_got = zero16
  ∧ (bytes_of (fst (client_pre_encrypt (prims := plain_primitives) [x01] client_got))).[:5]
    = [x00; "255"%byte; x01; x00; x01]
  ∧ last_client_hash
      (after (prims := plain_primitives) (Client_pre_encrypt [x01]) client_got) = zero16
  ∧ (bytes_of (fst (client_pre_encrypt (prims := plain_primitives) [x02]
                      (after (prims := plain_primitives) (Client_pre_encrypt [x01])
                         client_got)))).[:5]
    = [x00; "255"%byte; x01; x00; x02].
Proof. by_computing. Qed.

End command_facts.
Module roundtrip_facts.
Import auth_akarin_rand Frame Frame_facts Fixtures failure_facts.

(** The padding of a short packet as the sender and as the receiver
    compute it: the same draw, reduced by the sender's [send_tcp_mss] on
    one side and by the receiver's [recv_tcp_mss] on the other. *)
Lemma padding_of_a_short_packet (sender receiver : t) (B : Z) (h : bytes)
    (w : which_random) (g : xorshift128plus.t) :
  B ≤ 400 →
  xorshift128plus.init_from_bin_len h B = Ok g →
  info_overhead receiver = info_overhead sender →
  send_tcp_mss receiver = send_tcp_mss sender →
  B + info_overhead sender < send_tcp_mss sender →
  send_tcp_mss sender ≤ recv_tcp_mss receiver →
  fst (send_rnd_data_len B h w sender)
  = Ok (fst (xorshift128plus.next g) mod (send_tcp_mss sender - B - info_overhead sender))
  ∧ fst (recv_rnd_data_len B h w receiver)
    = Ok (fst (xorshift128plus.next g)
          mod (recv_tcp_mss receiver - B - info_overhead sender)).
Proof.
  intros HB Hg Ho Hs Hlt Hle. split.
  - unfold send_rnd_data_len. rewrite !bind_gets.
    assert (E1 : (send_tcp_mss sender <? B + info_overhead sender) = false)
      by (apply Z.ltb_ge; lia).
    assert (E2 : (1440 <=? B) = false) by (apply Z.leb_gt; lia).
    assert (E3 : (B + info_overhead sender =? send_tcp_mss sender) = false)
      by (apply Z.eqb_neq; lia).
    assert (E4 : (1300 <? B) = false) by (apply Z.ltb_ge; lia).
    assert (E5 : (900 <? B) = false) by (apply Z.ltb_ge; lia).
    assert (E6 : (400 <? B) = false) by (apply Z.ltb_ge; lia).
    rewrite E1, E2, E3, E4, E5, E6. cbn [orb].
    unfold random_init_from_bin_len, bind, lift, modify, random_next. rewrite Hg.
    assert (Hget : get_random w (set_random w g sender) = g) by (destruct w; reflexivity).
    rewrite Hget. destruct (xorshift128plus.next g) as [v g'].
    unfold py_mod.
    assert (E7 : (send_tcp_mss sender - B - info_overhead sender =? 0) = false)
      by (apply Z.eqb_neq; lia).
    rewrite E7. reflexivity.
  - unfold recv_rnd_data_len. rewrite !bind_gets. rewrite Ho, Hs.
    assert (E1 : (recv_tcp_mss receiver <? B + info_overhead sender) = false)
      by (apply Z.ltb_ge; lia).
    assert (E2 : (1440 <=? B) = false) by (apply Z.leb_gt; lia).
    assert (E3 : (B + info_overhead sender =? send_tcp_mss sender) = false)
      by (apply Z.eqb_neq; lia).
    assert (E4 : (1300 <? B) = false) by (apply Z.ltb_ge; lia).
    assert (E5 : (900 <? B) = false) by (apply Z.ltb_ge; lia).
    assert (E6 : (400 <? B) = false) by (apply Z.ltb_ge; lia).
    rewrite E1, E2, E3, E4, E5, E6. cbn [orb].
    unfold random_init_from_bin_len, bind, lift, modify, random_next. rewrite Hg.
    assert (Hget : get_random w (set_random w g receiver) = g) by (destruct w; reflexivity).
    rewrite Hget. destruct (xorshift128plus.next g) as [v g'].
    unfold py_mod.
    assert (E7 : (recv_tcp_mss receiver - B - info_overhead sender =? 0) = false)
      by (apply Z.eqb_neq; lia).
    rewrite E7. reflexivity.
Qed.

(** C1 where it fails.  The client's ["hello"] reaches the server:
    [server_post_decrypt] gives [("hello", True)].  The server answers
    with the byte 01: its first packet carries 3 bytes, the MSS and the
    byte, padded for the MSS of 400 that the client advertised, 264
    bytes.  The client still holds [recv_tcp_mss = 2000], expects 408
    bytes of padding, waits for more and gives back nothing: the byte is
    not delivered and [recv_id] stays 1. *)
Theorem C1_first_reply_is_not_decoded :
  fst (server_post_decrypt (prims := plain_primitives) first_flight fresh_session)
  = Ok (hello, true)
  ∧ send_tcp_mss server_got = 400
  ∧ recv_tcp_mss client_sent = 2000
  ∧ fst (send_rnd_data_len 3 (last_server_hash server_got) RandomServer server_got)
    = Ok 264
  ∧ fst (recv_rnd_data_len 3 (last_server_hash client_sent) RandomServer client_sent)
    = Ok 408
  ∧ len (first_reply [x01]) = 2 + 3 + 264 + 2
  ∧ (first_reply [x01]).[:5] = [x03; x00; "180"%byte; x05; x01]
  ∧ fst (client_post_decrypt (prims := plain_primitives) (first_reply [x01]) client_sent)
    = Ok []
  ∧ recv_id (after (prims := plain_primitives)
               (Client_post_decrypt (first_reply [x01])) client_sent) = 1
  ∧ recv_buf (after (prims := plain_primitives)
                (Client_post_decrypt (first_reply [x01])) client_sent)
    = first_reply [x01].
Proof. by_computing. Qed.

End roundtrip_facts.
(* ===================================================================== *)
(** ** More on the replay guard *)
(* ===================================================================== *)

Module guard_facts.
Import client_queue Replay Guard client_queue_facts Replay_facts.

Lemma slide_keeps_ref n q : ref (slide n q) = ref q.
Proof.
  revert q. induction n as [|n IH]; intros q; simpl; [reflexivity|].
  destruct (slide_cond q); [|reflexivity].
  rewrite IH. reflexivity.
Qed.

Lemma at_checks_ref now c q : ref (at_checks now c q) = ref q.
Proof. unfold at_checks. destruct (negb (is_active now q)); reflexivity. Qed.

Lemma insert_ref now c q :
  ref (snd (insert now c q)) = ref q + (if fst (insert now c q) then 1 else 0).
Proof.
  destruct (insert_cases now c q) as [[_ E]|[E|(_ & _ & _ & E)]]; rewrite E; cbn [fst snd].
  - lia.
  - rewrite at_checks_ref. lia.
  - unfold addref. cbn [ref]. rewrite slide_keeps_ref. unfold allocate. cbn [ref].
    rewrite at_checks_ref. reflexivity.
Qed.

Lemma reachable_ref q : reachable q → 0 ≤ ref q.
Proof.
  induction 1 as [now b|now q _ IH|q _ IH|q _ IH|c q _ IH|now c q _ IH]; simpl; try lia.
  - unfold delref. destruct (0 <? ref q) eqn:E; simpl; [apply Z.ltb_lt in E|]; lia.
  - rewrite insert_ref. destruct (fst (insert now c q)); lia.
Qed.

Lemma reachable_enable q : reachable q → enable q = true.
Proof.
  induction 1 as [now b|now q _ IH|q _ IH|q _ IH|c q _ IH|now c q _ IH]; simpl; auto.
  - unfold delref. destruct (0 <? ref q); simpl; exact IH.
  - apply insert_keeps_enable. exact IH.
Qed.

(** *** Ids that were seen *)

Lemma slide_step_seen c q : seen c q → seen c (slide_step q).
Proof.
  unfold seen, slide_step. simpl. intros [Hlt|Hin]; [left; lia|].
  destruct (Z.eq_dec c (front q)) as [->|Hne]; [left; lia|].
  right. destruct (allocated (front q) q); [|exact Hin].
  rewrite lookup_delete_ne by congruence. exact Hin.
Qed.

Lemma slide_seen n c q : seen c q → seen c (slide n q).
Proof.
  revert q. induction n as [|n IH]; intros q Hs; simpl; [exact Hs|].
  destruct (slide_cond q); [|exact Hs].
  apply IH. apply slide_step_seen. exact Hs.
Qed.

Lemma allocate_seen c c' q : seen c q → seen c (allocate c' q).
Proof.
  unfold seen, allocate. simpl. intros [Hlt|Hin]; [left; exact Hlt|right].
  destruct (Z.eq_dec c' c) as [->|Hne].
  - rewrite lookup_insert_eq. eexists. reflexivity.
  - rewrite lookup_insert_ne by exact Hne. exact Hin.
Qed.

Lemma allocate_sees c q : seen c (allocate c q).
Proof.
  unfold seen, allocate. simpl. right. rewrite lookup_insert_eq. eexists. reflexivity.
Qed.

Lemma at_checks_active now c q : is_active now q = true → at_checks now c q = update now q.
Proof. intros Ha. unfold at_checks. rewrite Ha. reflexivity. Qed.

(** An accepted id is seen by the queue that accepted it. *)
Lemma insert_sees now c q : fst (insert now c q) = true → seen c (snd (insert now c q)).
Proof.
  destruct (insert_cases now c q) as [[_ E]|[E|(_ & _ & _ & E)]]; rewrite E; simpl;
    try discriminate.
  intros _.
  apply (slide_seen _ c (allocate c (at_checks now c q))). apply allocate_sees.
Qed.

(** An active queue goes on seeing what it saw. *)
Lemma insert_keeps_seen now c c' q :
  is_active now q = true → seen c q → seen c (snd (insert now c' q)).
Proof.
  intros Ha Hs.
  destruct (insert_cases now c' q) as [[_ E]|[E|(_ & _ & _ & E)]]; rewrite E; simpl.
  - exact Hs.
  - rewrite (at_checks_active _ _ _ Ha). exact Hs.
  - rewrite (at_checks_active _ _ _ Ha).
    apply (slide_seen _ c (allocate c' (update now q))).
    apply allocate_seen. exact Hs.
Qed.

(** And refuses it. *)
Lemma insert_refuses_seen now c q :
  is_active now q = true → seen c q → fst (insert now c q) = false.
Proof.
  intros Ha Hs.
  destruct (insert_cases now c q) as [[_ E]|[E|(Hc & Hn & _ & E)]]; rewrite E; simpl;
    try reflexivity.
  rewrite (at_checks_active _ _ _ Ha) in Hc, Hn. simpl in Hc, Hn.
  destruct Hs as [Hlt|[v Hin]]; [lia|congruence].
Qed.

Lemma accepted_enabled now c q : fst (insert now c q) = true → enable q = true.
Proof.
  destruct (insert_cases now c q) as [[_ E]|[E|(_ & _ & He & _)]];
    [rewrite E; discriminate|rewrite E; discriminate|intros _; exact He].
Qed.

Lemma refused_after_run c calls :
  ∀ q t now',
    enable q = true → 0 < ref q → last_update q = t → seen c q →
    calm (t :: map snd calls ++ [now']) = true →
    fst (insert now' c (inserted calls q)) = false.
Proof.
  induction calls as [|[c' t'] calls IH]; intros q t now' He Hr Hu Hs Hc.
  - simpl in Hc. rewrite andb_true_r in Hc. apply Z.ltb_lt in Hc.
    cbn [inserted].
    apply insert_refuses_seen; [|exact Hs].
    unfold is_active. rewrite Hu.
    apply andb_true_intro. split; [apply Z.ltb_lt; lia|apply Z.ltb_lt; lia].
  - cbn [map snd app] in Hc. cbn [calm] in Hc.
    destruct (map snd calls ++ [now']) as [|t'' rest] eqn:Erest.
    { destruct (map snd calls); discriminate. }
    apply andb_prop in Hc. destruct Hc as [Hc1 Hc2]. apply Z.ltb_lt in Hc1.
    assert (Ha : is_active t' q = true).
    { unfold is_active. rewrite Hu.
      apply andb_true_intro. split; apply Z.ltb_lt; lia. }
    cbn [inserted].
    apply (IH _ t').
    + apply insert_keeps_enable. exact He.
    + rewrite insert_ref. destruct (fst (insert t' c' q)); lia.
    + apply insert_sets_last_update. exact He.
    + apply insert_keeps_seen; assumption.
    + rewrite Erest. exact Hc2.
Qed.

(** No replay while the queue is in use: an id that [insert] accepted
    is refused by every later [insert] on the queue, whatever ids were
    offered in between, as long as less than ten minutes pass from each
    call to the next. *)
Theorem accepted_id_is_refused_later (q : t) (c now : Z) (calls : list (Z * Z))
    (now' : Z) :
  0 ≤ ref q →
  fst (insert now c q) = true →
  calm (now :: map snd calls ++ [now']) = true →
  fst (insert now' c (inserted calls (snd (insert now c q)))) = false.
Proof.
  intros Hr Hacc Hc.
  pose proof (accepted_enabled _ _ _ Hacc) as He.
  apply (refused_after_run c calls _ now).
  - apply insert_keeps_enable. exact He.
  - rewrite insert_ref, Hacc. lia.
  - apply insert_sets_last_update. exact He.
  - apply insert_sees. exact Hacc.
  - exact Hc.
Qed.

(** 100 is accepted, 101 and 102 follow a minute apart, and 100 is
    offered again. *)
Lemma accepted_id_is_refused_later_witness :
  fst (insert 180 100 (inserted [(101, 60); (102, 120)] (snd (insert 0 100 (init 0 100)))))
  = false.
Proof.
  apply (accepted_id_is_refused_later (init 0 100) 100 0 [(101, 60); (102, 120)] 180).
  - simpl. lia.
  - vm_compute. reflexivity.
  - vm_compute. reflexivity.
Defined.

(** A queue that is not active starts over at whatever id it is
    offered: [insert] re-enables it around the id and accepts the id.  A
    queue stops being active when its last reference is dropped or when
    ten minutes went by since its last [insert], and what it had seen
    until then is forgotten. *)
Theorem idle_queue_restarts_at_any_id (q : t) (now c : Z) :
  enable q = true →
  is_active now q = false →
  insert now c q
  = (true, {| front := c - 64; back := c + 1; alloc := {[ c := 1 ]};
              enable := true; last_update := now; ref := ref q + 1 |}).
Proof.
  intros He Ha.
  assert (Hat : at_checks now c q
                = {| front := c - 64; back := c + 1; alloc := ∅;
                     enable := true; last_update := now; ref := ref q |}).
  { unfold at_checks. rewrite Ha. reflexivity. }
  unfold insert. rewrite He. cbn [negb]. rewrite Hat.
  cbn [front].
  assert (E1 : (c <? c - 64) = false) by (apply Z.ltb_ge; lia).
  assert (E2 : (c - 64 + 0x4000 <? c) = false) by (apply Z.ltb_ge; lia).
  rewrite E1, E2.
  assert (E0 : allocated c {| front := c - 64; back := c + 1; alloc := ∅;
                              enable := true; last_update := now; ref := ref q |} = false).
  { apply allocated_false. apply lookup_empty. }
  rewrite E0.
  unfold allocate. cbn [front back alloc enable last_update ref].
  assert (E3 : (c + 1 <=? c) = false) by (apply Z.leb_gt; lia).
  rewrite E3.
  set (q1 := {| front := c - 64; back := c + 1; alloc := <[c:=1]> ∅;
                enable := true; last_update := now; ref := ref q |}).
  assert (Hs : slide_cond q1 = false).
  { unfold slide_cond, allocated. cbn [q1 front back alloc].
    rewrite lookup_insert_ne by lia. rewrite lookup_empty. cbn [orb].
    apply Z.ltb_ge. lia. }
  assert (Hq : slide (slide_fuel q1) q1 = q1).
  { destruct (slide_fuel q1); simpl; [reflexivity|]. rewrite Hs. reflexivity. }
  rewrite Hq. unfold addref, q1. cbn [front back alloc enable last_update ref].
  rewrite insert_empty. reflexivity.
Qed.

(** The connection that brought 100 is closed, which drops the only
    reference, and 100 is offered again a second later: it is accepted. *)
Lemma idle_queue_restarts_at_any_id_witness :
  fst (insert 1 100 (delref (snd (insert 0 100 (init 0 100))))) = true.
Proof.
  rewrite (idle_queue_restarts_at_any_id (delref (snd (insert 0 100 (init 0 100)))) 1 100).
  - reflexivity.
  - vm_compute. reflexivity.
  - vm_compute. reflexivity.
Defined.

(** *** The width of the window *)

Lemma insert_narrow now c q :
  back q - front q ≤ 0x1000 →
  back (snd (insert now c q)) - front (snd (insert now c q)) ≤ 0x1000.
Proof.
  intros Hq.
  assert (Hat : back (at_checks now c q) - front (at_checks now c q) ≤ 0x1000).
  { unfold at_checks. destruct (negb (is_active now q)); simpl; lia. }
  destruct (insert_cases now c q) as [[_ E]|[E|(_ & _ & _ & E)]]; rewrite E; simpl.
  - exact Hq.
  - exact Hat.
  - set (q2 := allocate c (at_checks now c q)).
    pose proof (slide_leaves (slide_fuel q2) q2 ltac:(lia)) as Hl.
    unfold slide_cond in Hl. apply orb_false_iff in Hl. destruct Hl as [_ Hl].
    apply Z.ltb_ge in Hl. lia.
Qed.

Lemma reachable_narrow q : reachable q → back q - front q ≤ 0x1000.
Proof.
  induction 1 as [now b|now q _ IH|q _ IH|q _ IH|c q _ IH|now c q _ IH]; simpl; try lia.
  - unfold delref. destruct (0 <? ref q); simpl; exact IH.
  - apply insert_narrow. exact IH.
Qed.

(** A table whose keys lie in [lo, hi) has at most [hi - lo] of them. *)
Lemma size_within (m : gmap Z Z) (lo hi : Z) :
  (∀ k v, m !! k = Some v → lo ≤ k < hi) → (size m ≤ Z.to_nat (hi - lo))%nat.
Proof.
  intros Hk.
  rewrite <- size_dom.
  assert (Hsub : dom m ⊆ (list_to_set (seqZ lo (hi - lo)) : gset Z)).
  { intros k Hin. apply elem_of_dom in Hin. destruct Hin as [v Hv].
    apply elem_of_list_to_set. apply elem_of_seqZ. pose proof (Hk k v Hv). lia. }
  apply subseteq_size in Hsub.
  rewrite size_list_to_set in Hsub by apply NoDup_seqZ.
  rewrite length_seqZ in Hsub. exact Hsub.
Qed.

(** The window of a queue never spans more than 0x1000 ids and the queue
    never holds more than 0x1000 of them; after an [insert] that
    accepted, the id at [front] is free. *)
Theorem window_is_bounded (q : t) :
  reachable q →
  back q - front q ≤ 0x1000
  ∧ (size (alloc q) ≤ 0x1000)%nat
  ∧ (∀ now c, fst (insert now c q) = true →
       alloc (snd (insert now c q)) !! front (snd (insert now c q)) = None).
Proof.
  intros Hq. pose proof (reachable_narrow q Hq) as Hn.
  destruct (reachable_window q Hq) as [Hfb Hal].
  split; [exact Hn|]. split.
  - pose proof (size_within (alloc q) (front q) (back q) Hal). lia.
  - intros now c Hacc.
    destruct (insert_cases now c q) as [[_ E]|[E|(_ & _ & _ & E)]];
      rewrite E in Hacc |- *; simpl in Hacc |- *; try discriminate.
    set (q2 := allocate c (at_checks now c q)).
    pose proof (slide_leaves (slide_fuel q2) q2 ltac:(lia)) as Hl.
    unfold slide_cond in Hl. apply orb_false_iff in Hl. destruct Hl as [Hl _].
    apply allocated_false in Hl. exact Hl.
Qed.

(** The queue made for 100, offered 100 and then 5000: the window moved
    up to end at 5001. *)
Lemma window_is_bounded_witness :
  back (inserted [(100, 0); (5000, 1)] (init 0 100))
  - front (inserted [(100, 0); (5000, 1)] (init 0 100)) ≤ 0x1000
  ∧ front (inserted [(100, 0); (5000, 1)] (init 0 100)) = 905.
Proof.
  split.
  - apply (window_is_bounded (inserted [(100, 0); (5000, 1)] (init 0 100))).
    apply (reach_insert 1 5000). apply (reach_insert 0 100). apply reach_init.
  - vm_compute. reflexivity.
Defined.

(** [insert] takes a reference exactly when it accepts. *)
Theorem insert_takes_a_reference_when_it_accepts (q : t) (now c : Z) :
  ref (snd (insert now c q)) = ref q + (if fst (insert now c q) then 1 else 0).
Proof. apply insert_ref. Qed.

(** No method clears [enable] and none takes [ref] below zero: a queue
    is always enabled, so [insert] never leaves by its first test, and
    its count of references is never negative. *)
Theorem queue_stays_enabled_and_counted (q : t) :
  reachable q → enable q = true ∧ 0 ≤ ref q.
Proof.
  intros Hq. split; [apply reachable_enable|apply reachable_ref]; exact Hq.
Qed.

(** A queue that accepted an id and lost its two references, one more
    than it had. *)
Lemma queue_stays_enabled_and_counted_witness :
  enable (delref (delref (snd (insert 0 100 (init 0 100))))) = true
  ∧ 0 ≤ ref (delref (delref (snd (insert 0 100 (init 0 100))))).
Proof.
  apply (queue_stays_enabled_and_counted (delref (delref (snd (insert 0 100 (init 0 100)))))).
  apply reach_delref. apply reach_delref. apply (reach_insert 0 100). apply reach_init.
Defined.

End guard_facts.
(* ===================================================================== *)
(** ** More on the bytes and on the generator *)
(* ===================================================================== *)

Module codec_facts.
Import bytes_facts.

Lemma Z_of_byte_of_Z (v : Z) : Z_of_byte (byte_of_Z v) = v mod 256.
Proof.
  unfold byte_of_Z, Z_of_byte.
  pose proof (Z.mod_pos_bound v 256 ltac:(lia)) as Hv.
  destruct (Byte.of_N (Z.to_N (v mod 256))) as [b|] eqn:E.
  - apply Byte.to_of_N in E. rewrite E. lia.
  - apply Byte.of_N_None_iff in E. lia.
Qed.

Lemma unpack_le_app (a b : bytes) :
  unpack_le (a ++ b) = unpack_le a + 2 ^ (8 * Z.of_nat (length a)) * unpack_le b.
Proof.
  induction a as [|x a IH]; cbn [app unpack_le length].
  - simpl. lia.
  - rewrite IH.
    replace (8 * Z.of_nat (S (length a))) with (8 + 8 * Z.of_nat (length a)) by lia.
    rewrite Z.pow_add_r by lia. change (2 ^ 8) with 256. ring.
Qed.

(** What was packed on [n] bytes is unpacked as it was. *)
Lemma unpack_pack_le (n : nat) (v : Z) :
  0 ≤ v < 2 ^ (8 * Z.of_nat n) → unpack_le (pack_le n v) = v.
Proof.
  revert v. induction n as [|n IH]; intros v Hv; cbn [pack_le unpack_le].
  - simpl in Hv. lia.
  - rewrite Z_of_byte_of_Z.
    replace (8 * Z.of_nat (S n)) with (8 + 8 * Z.of_nat n) in Hv by lia.
    rewrite Z.pow_add_r in Hv by lia. change (2 ^ 8) with 256 in Hv.
    rewrite IH.
    + pose proof (Z.div_mod v 256 ltac:(lia)). lia.
    + split; [apply Z.div_pos; lia|].
      apply Z.div_lt_upper_bound; lia.
Qed.

Lemma byte_of_Z_of_byte (b : byte) : byte_of_Z (Z_of_byte b) = b.
Proof.
  unfold byte_of_Z, Z_of_byte.
  pose proof (Byte.to_N_bounded b) as Hb.
  rewrite Z.mod_small by lia. rewrite N2Z.id. rewrite Byte.of_to_N. reflexivity.
Qed.

(** And the other way round. *)
Lemma pack_unpack_le (b : bytes) : pack_le (length b) (unpack_le b) = b.
Proof.
  induction b as [|x b IH]; cbn [length pack_le unpack_le]; [reflexivity|].
  pose proof (Z_of_byte_range x) as Hx.
  f_equal.
  - unfold byte_of_Z.
    replace ((Z_of_byte x + 256 * unpack_le b) mod 256) with (Z_of_byte x).
    + unfold Z_of_byte. rewrite N2Z.id. rewrite Byte.of_to_N. reflexivity.
    + replace (Z_of_byte x + 256 * unpack_le b) with (Z_of_byte x + unpack_le b * 256)
        by ring.
      rewrite Z.mod_add by lia. rewrite Z.mod_small by lia. reflexivity.
  - replace ((Z_of_byte x + 256 * unpack_le b) / 256) with (unpack_le b); [exact IH|].
    replace (Z_of_byte x + 256 * unpack_le b) with (Z_of_byte x + unpack_le b * 256)
      by ring.
    rewrite Z.div_add by lia. rewrite Z.div_small by lia. lia.
Qed.

(** The exclusive or of two [n]-bit words is an [n]-bit word. *)
Lemma lxor_range (n a b : Z) :
  0 ≤ n → 0 ≤ a < 2 ^ n → 0 ≤ b < 2 ^ n → 0 ≤ Z.lxor a b < 2 ^ n.
Proof.
  intros Hn Ha Hb. split.
  - apply Z.lxor_nonneg. lia.
  - destruct (Z.eq_dec (Z.lxor a b) 0) as [E|E].
    + rewrite E. apply Z.pow_pos_nonneg; lia.
    + assert (Hpos : 0 < Z.lxor a b).
      { assert (0 ≤ Z.lxor a b) by (apply Z.lxor_nonneg; lia). lia. }
      assert (Hn0 : 0 < n).
      { destruct (Z.eq_dec n 0) as [->|]; [|lia].
        change (2 ^ 0) with 1 in Ha, Hb.
        assert (a = 0) by lia. assert (b = 0) by lia. subst a b.
        exfalso. apply E. reflexivity. }
      apply Z.log2_lt_pow2; [exact Hpos|].
      pose proof (Z.log2_lxor a b ltac:(lia) ltac:(lia)) as Hl.
      assert (Z.log2 a < n).
      { destruct (Z.eq_dec a 0) as [->|]; [simpl; lia|].
        apply Z.log2_lt_pow2; lia. }
      assert (Z.log2 b < n).
      { destruct (Z.eq_dec b 0) as [->|]; [simpl; lia|].
        apply Z.log2_lt_pow2; lia. }
      lia.
Qed.

(** A slice between two indices inside the list, by [take] and [drop]. *)
Lemma pyslice_inside {A} (l : list A) (a b : Z) :
  0 ≤ a ≤ b → b ≤ len l → l.[a:b] = take (Z.to_nat (b - a)) (drop (Z.to_nat a) l).
Proof.
  intros Hab Hb. unfold pyslice, slice_index.
  destruct (a <? 0) eqn:Ea; [apply Z.ltb_lt in Ea; lia|].
  destruct (b <? 0) eqn:Eb; [apply Z.ltb_lt in Eb; lia|].
  rewrite (Z.min_l a) by lia. rewrite (Z.min_l b) by lia. reflexivity.
Qed.

Lemma pyslice_to_inside {A} (l : list A) (b : Z) :
  0 ≤ b ≤ len l → l.[:b] = take (Z.to_nat b) l.
Proof.
  intros Hb. unfold pyslice, slice_index.
  destruct (b <? 0) eqn:Eb; [apply Z.ltb_lt in Eb; lia|].
  rewrite (Z.min_l b) by lia. rewrite Z.sub_0_r. reflexivity.
Qed.

Lemma pyslice_from_inside {A} (l : list A) (a : Z) :
  0 ≤ a ≤ len l → l.[a:] = drop (Z.to_nat a) l.
Proof.
  intros Ha. unfold pyslice, slice_index.
  destruct (a <? 0) eqn:Ea; [apply Z.ltb_lt in Ea; lia|].
  rewrite (Z.min_l a) by lia.
  apply take_ge. rewrite length_drop. unfold len. lia.
Qed.

End codec_facts.

Module generator_facts.
Import xorshift128plus Words bytes_facts codec_facts.

Lemma max_int_ones : max_int = Z.ones 64.
Proof. reflexivity. Qed.

Lemma mov_mask_ones : mov_mask = Z.ones 41.
Proof. reflexivity. Qed.

Lemma next_in_64_bits (r : t) :
  in_64_bits r → in_64_bits (snd (next r)) ∧ 0 ≤ fst (next r) < 2 ^ 64.
Proof.
  intros [H0 H1]. unfold next, in_64_bits. cbn [fst snd v0 v1].
  rewrite max_int_ones, mov_mask_ones, !Z.land_ones by lia.
  rewrite Z.shiftl_mul_pow2 by lia. rewrite !Z.shiftr_div_pow2 by lia.
  set (x := v0 r) in *. set (y := v1 r) in *.
  assert (Hm : 0 ≤ x mod 2 ^ 41 * 2 ^ 23 < 2 ^ 64).
  { pose proof (Z.mod_pos_bound x (2 ^ 41) ltac:(lia)). lia. }
  pose proof (lxor_range 64 x (x mod 2 ^ 41 * 2 ^ 23) ltac:(lia) H0 Hm) as Hx1.
  set (x1 := Z.lxor x (x mod 2 ^ 41 * 2 ^ 23)) in *.
  assert (Hs1 : 0 ≤ x1 / 2 ^ 17 < 2 ^ 64).
  { split; [apply Z.div_pos; lia|]. apply Z.div_lt_upper_bound; lia. }
  assert (Hs2 : 0 ≤ y / 2 ^ 26 < 2 ^ 64).
  { split; [apply Z.div_pos; lia|]. apply Z.div_lt_upper_bound; lia. }
  pose proof (lxor_range 64 y (x1 / 2 ^ 17) ltac:(lia) H1 Hs1) as Hx2.
  pose proof (lxor_range 64 _ (y / 2 ^ 26) ltac:(lia) Hx2 Hs2) as Hx3.
  pose proof (lxor_range 64 x1 _ ltac:(lia) Hx1 Hx3) as Hx4.
  split; [split; [exact H1|exact Hx4]|].
  apply Z.mod_pos_bound. lia.
Qed.

Lemma unpack_le_8 (b : bytes) : length b = 8%nat → 0 ≤ unpack_le b < 2 ^ 64.
Proof. intros Hl. pose proof (unpack_le_range b) as Hr. rewrite Hl in Hr. exact Hr. Qed.

Lemma len_seed_bytes (bin : bytes) : length (seed_bytes bin) = 16%nat.
Proof.
  unfold seed_bytes, bytes_repeat. rewrite length_take, length_app, repeat_length. lia.
Qed.

(** The two slices a seeding takes from the padded bytes. *)
Lemma pad16_slices (bin : bytes) :
  (pad16 bin).[:8] = take 8 (seed_bytes bin)
  ∧ (pad16 bin).[2:8] = take 6 (drop 2 (seed_bytes bin))
  ∧ (pad16 bin).[8:16] = drop 8 (seed_bytes bin).
Proof.
  pose proof (len_pad16 bin) as Hp.
  assert (Hs : seed_bytes bin = take 16 (pad16 bin)).
  { unfold seed_bytes, pad16. destruct (len bin <? 16) eqn:E; [reflexivity|].
    apply Z.ltb_ge in E. rewrite take_app_le by (unfold len in E; lia). reflexivity. }
  rewrite Hs.
  rewrite pyslice_to_inside by lia. rewrite !pyslice_inside by lia.
  change (Z.to_nat 8) with 8%nat. change (Z.to_nat (8 - 2)) with 6%nat.
  change (Z.to_nat 2) with 2%nat. change (Z.to_nat (16 - 8)) with 8%nat.
  rewrite take_take. rewrite !take_drop_commute. rewrite take_take.
  repeat split; reflexivity.
Qed.

Lemma init_from_bin_reads (bin : bytes) :
  init_from_bin bin
  = Ok {| v0 := unpack_le (take 8 (seed_bytes bin));
          v1 := unpack_le (drop 8 (seed_bytes bin)) |}.
Proof.
  unfold init_from_bin.
  destruct (pad16_slices bin) as (E1 & _ & E3). rewrite E1, E3.
  pose proof (len_seed_bytes bin) as Hl.
  unfold unpack_Q, struct_unpack.
  rewrite length_take, length_drop, Hl. reflexivity.
Qed.

Lemma init_from_bin_len_reads (bin : bytes) (n : Z) :
  0 ≤ n < 65536 →
  init_from_bin_len bin n
  = Ok {| v0 := n + 65536 * (unpack_le (take 8 (seed_bytes bin)) / 65536);
          v1 := unpack_le (drop 8 (seed_bytes bin)) |}.
Proof.
  intros Hn. unfold init_from_bin_len.
  destruct (pad16_slices bin) as (_ & E2 & E3). rewrite E2, E3.
  pose proof (len_seed_bytes bin) as Hl.
  rewrite (pack_H_ok n Hn). cbn [result_bind].
  unfold unpack_Q, struct_unpack.
  rewrite length_app, length_pack_le, length_take, !length_drop, Hl. cbn [Nat.eqb Nat.add Nat.sub Nat.min result_bind].
  f_equal. f_equal.
  rewrite unpack_le_app, length_pack_le.
  rewrite unpack_pack_le by (simpl; lia).
  change (2 ^ (8 * Z.of_nat 2)) with 65536.
  f_equal. f_equal.
  rewrite <- (take_drop 2 (take 8 (seed_bytes bin))).
  rewrite unpack_le_app.
  rewrite take_take. change (2 `min` 8)%nat with 2%nat.
  rewrite (take_drop_commute (seed_bytes bin) 6 2). change (2 + 6)%nat with 8%nat.
  assert (H2 : length (take 2 (seed_bytes bin)) = 2%nat) by (rewrite length_take; lia).
  rewrite H2. change (2 ^ (8 * Z.of_nat 2)) with 65536.
  pose proof (unpack_le_range (take 2 (seed_bytes bin))) as Hr. rewrite H2 in Hr.
  change (2 ^ (8 * Z.of_nat 2)) with 65536 in Hr.
  set (lo := unpack_le (take 2 (seed_bytes bin))) in *.
  set (hi := unpack_le (drop 2 (take 8 (seed_bytes bin)))).
  replace (lo + 65536 * hi) with (lo + hi * 65536) by ring.
  rewrite Z.div_add by lia. rewrite Z.div_small by lia. lia.
Qed.

Lemma init_from_bin_len_refuses (bin : bytes) (n : Z) :
  ¬ 0 ≤ n < 65536 → init_from_bin_len bin n = Raise StructError.
Proof.
  intros Hn. unfold init_from_bin_len, pack_H, struct_pack.
  destruct ((0 <=? n) && (n <? 2 ^ (8 * Z.of_nat 2))) eqn:E; [|reflexivity].
  apply andb_prop in E. destruct E as [E1 E2].
  apply Z.leb_le in E1. apply Z.ltb_lt in E2. simpl in E2. lia.
Qed.

(** Only the return value of [next] is masked, and still the two words
    of the generator never outgrow 64 bits: they are 64-bit words after
    every seeding, and [next] turns 64-bit words into 64-bit words and
    returns one. *)
Theorem words_stay_in_64_bits :
  (∀ bin r, init_from_bin bin = Ok r → in_64_bits r)
  ∧ (∀ bin n r, init_from_bin_len bin n = Ok r → in_64_bits r)
  ∧ (∀ r, in_64_bits r → in_64_bits (snd (next r)) ∧ 0 ≤ fst (next r) < 2 ^ 64).
Proof.
  assert (Hhi : ∀ bin, 0 ≤ unpack_le (drop 8 (seed_bytes bin)) < 2 ^ 64).
  { intros bin. apply unpack_le_8. rewrite length_drop, len_seed_bytes. reflexivity. }
  assert (Hlo : ∀ bin, 0 ≤ unpack_le (take 8 (seed_bytes bin)) < 2 ^ 64).
  { intros bin. apply unpack_le_8. rewrite length_take, len_seed_bytes. reflexivity. }
  split; [|split].
  - intros bin r. rewrite init_from_bin_reads. intros [= <-].
    split; cbn [v0 v1]; [apply Hlo|apply Hhi].
  - intros bin n r Hr.
    destruct (Z_le_dec 0 n) as [Hn0|Hn0];
      [destruct (Z_lt_dec n 65536) as [Hn1|Hn1]|];
      try (rewrite init_from_bin_len_refuses in Hr by lia; discriminate).
    rewrite init_from_bin_len_reads in Hr by lia. injection Hr as <-.
    split; cbn [v0 v1]; [|apply Hhi].
    pose proof (Hlo bin) as Hl.
    set (u := unpack_le (take 8 (seed_bytes bin))) in *.
    pose proof (Z.div_mod u 65536 ltac:(lia)).
    pose proof (Z.mod_pos_bound u 65536 ltac:(lia)).
    assert (0 ≤ u / 65536) by (apply Z.div_pos; lia).
    assert (u / 65536 < 2 ^ 48) by (apply Z.div_lt_upper_bound; lia).
    lia.
  - apply next_in_64_bits.
Qed.

(** A seeding reads sixteen bytes: the first sixteen of what it is
    given, with zero bytes after them when it is given fewer.
    [init_from_bin] never fails.  [init_from_bin_len] puts [length] in
    the place of the low 16 bits of [v0] and is otherwise the same; it
    raises [struct.error] when [length] does not fit 16 bits. *)
Theorem seeding_reads_sixteen_bytes (bin : bytes) (n : Z) :
  init_from_bin bin
  = Ok {| v0 := unpack_le (take 8 (seed_bytes bin));
          v1 := unpack_le (drop 8 (seed_bytes bin)) |}
  ∧ (0 ≤ n < 65536 →
     init_from_bin_len bin n
     = Ok {| v0 := n + 65536 * (unpack_le (take 8 (seed_bytes bin)) / 65536);
             v1 := unpack_le (drop 8 (seed_bytes bin)) |})
  ∧ (¬ 0 ≤ n < 65536 → init_from_bin_len bin n = Raise StructError).
Proof.
  split; [apply init_from_bin_reads|].
  split; [apply init_from_bin_len_reads|apply init_from_bin_len_refuses].
Qed.

End generator_facts.
(* ===================================================================== *)
(** ** The padding lengths *)
(* ===================================================================== *)

Module padding_more_facts.
Import auth_akarin_rand Frame Frame_facts Fixtures failure_facts bytes_facts.

Section with_primitives.
Context {prims : primitives}.

(** A draw: the generator is seeded from the hash and the size, and its
    first number is reduced. *)
Lemma draw_runs (w : which_random) (h : bytes) (n d : Z) (s : t) (g : xorshift128plus.t) :
  xorshift128plus.init_from_bin_len h n = Ok g →
  d ≠ 0 →
  bind (random_init_from_bin_len w h n)
    (fun _ => bind (random_next w) (fun x => lift (py_mod x d))) s
  = (Ok (fst (xorshift128plus.next g) mod d),
     set_random w (snd (xorshift128plus.next g)) s).
Proof.
  intros Hg Hd. unfold random_init_from_bin_len, bind, lift, modify, random_next.
  rewrite Hg.
  assert (Hget : get_random w (set_random w g s) = g) by (destruct w; reflexivity).
  rewrite Hget. destruct (xorshift128plus.next g) as [v g'].
  unfold py_mod. apply Z.eqb_neq in Hd. rewrite Hd. cbn [fst snd].
  f_equal. destruct w; reflexivity.
Qed.

(** What a draw gives does not depend on the session it is made in. *)
Lemma draw_fst (w w' : which_random) (h : bytes) (n d : Z) (s s' : t) :
  fst (bind (random_init_from_bin_len w h n)
         (fun _ => bind (random_next w) (fun x => lift (py_mod x d))) s)
  = fst (bind (random_init_from_bin_len w' h n)
           (fun _ => bind (random_next w') (fun x => lift (py_mod x d))) s').
Proof.
  unfold random_init_from_bin_len, bind, lift, modify, random_next.
  destruct (xorshift128plus.init_from_bin_len h n) as [g| |]; try reflexivity.
  assert (Hget : get_random w (set_random w g s) = g) by (destruct w; reflexivity).
  assert (Hget' : get_random w' (set_random w' g s') = g) by (destruct w'; reflexivity).
  rewrite Hget, Hget'. destruct (xorshift128plus.next g) as [v g'].
  destruct (py_mod v d); reflexivity.
Qed.

Lemma send_rnd_data_len_bounds (n : Z) (h : bytes) (w : which_random) (s : t) :
  0 ≤ n < 65536 →
  ∃ rl s',
    send_rnd_data_len n h w s = (Ok rl, s')
    ∧ (s' = s ∨ ∃ g, s' = set_random w g s)
    ∧ 0 ≤ rl
    ∧ (send_tcp_mss s < n + info_overhead s → rl < 521)
    ∧ (n + info_overhead s ≤ send_tcp_mss s →
       1440 ≤ n ∨ n + info_overhead s = send_tcp_mss s → rl = 0)
    ∧ (1300 < n → rl < 521 ∧ (n + info_overhead s < send_tcp_mss s → rl < 31))
    ∧ (900 < n → rl < 521 ∧ (n + info_overhead s < send_tcp_mss s → rl < 127))
    ∧ (400 < n → rl < 521)
    ∧ (n ≤ 400 → n + info_overhead s < send_tcp_mss s →
       n + info_overhead s + rl < send_tcp_mss s).
Proof.
  intros Hn. unfold send_rnd_data_len. rewrite !bind_gets.
  destruct (init_from_bin_len_ok h n Hn) as [g Hg].
  set (v := fst (xorshift128plus.next g)).
  assert (Hb : ∀ d, 0 < d → 0 ≤ v mod d < d) by (intros d Hd; apply Z.mod_pos_bound; lia).
  destruct (send_tcp_mss s <? n + info_overhead s) eqn:E1.
  { apply Z.ltb_lt in E1. rewrite (draw_runs w h n 521 s g Hg) by lia.
    pose proof (Hb 521 ltac:(lia)).
    eexists. eexists. split; [reflexivity|]. split; [right; eexists; reflexivity|].
    fold v. repeat split; intros; lia. }
  apply Z.ltb_ge in E1.
  destruct ((1440 <=? n) || (n + info_overhead s =? send_tcp_mss s)) eqn:E2.
  { eexists. eexists. split; [reflexivity|]. split; [left; reflexivity|].
    repeat split; intros; lia. }
  apply orb_false_iff in E2. destruct E2 as [E2 E3].
  apply Z.leb_gt in E2. apply Z.eqb_neq in E3.
  destruct (1300 <? n) eqn:E4.
  { apply Z.ltb_lt in E4. rewrite (draw_runs w h n 31 s g Hg) by lia.
    pose proof (Hb 31 ltac:(lia)).
    eexists. eexists. split; [reflexivity|]. split; [right; eexists; reflexivity|].
    fold v. repeat split; intros; lia. }
  apply Z.ltb_ge in E4.
  destruct (900 <? n) eqn:E5.
  { apply Z.ltb_lt in E5. rewrite (draw_runs w h n 127 s g Hg) by lia.
    pose proof (Hb 127 ltac:(lia)).
    eexists. eexists. split; [reflexivity|]. split; [right; eexists; reflexivity|].
    fold v. repeat split; intros; lia. }
  apply Z.ltb_ge in E5.
  destruct (400 <? n) eqn:E6.
  { apply Z.ltb_lt in E6. rewrite (draw_runs w h n 521 s g Hg) by lia.
    pose proof (Hb 521 ltac:(lia)).
    eexists. eexists. split; [reflexivity|]. split; [right; eexists; reflexivity|].
    fold v. repeat split; intros; lia. }
  apply Z.ltb_ge in E6.
  rewrite (draw_runs w h n (send_tcp_mss s - n - info_overhead s) s g Hg) by lia.
  pose proof (Hb (send_tcp_mss s - n - info_overhead s) ltac:(lia)).
  eexists. eexists. split; [reflexivity|]. split; [right; eexists; reflexivity|].
  fold v. repeat split; intros; lia.
Qed.

(** The sender's padding length is always there and is never negative,
    for every size that a length word can hold: no division by zero and
    no [struct.error].  It is 0 when the packet fills the MSS exactly or
    has 1440 bytes or more and fits; it is below 521 when the packet has
    more than 400 bytes or does not fit; and a packet of at most 400 bytes
    that fits stays below the MSS with its padding. *)
Theorem send_rnd_data_len_is_total_and_bounded (n : Z) (h : bytes) (w : which_random)
    (s : t) :
  0 ≤ n < 65536 →
  ∃ rl s',
    send_rnd_data_len n h w s = (Ok rl, s')
    ∧ 0 ≤ rl
    ∧ (n + info_overhead s ≤ send_tcp_mss s →
       1440 ≤ n ∨ n + info_overhead s = send_tcp_mss s → rl = 0)
    ∧ (400 < n ∨ send_tcp_mss s < n + info_overhead s → rl < 521)
    ∧ (n ≤ 400 → n + info_overhead s < send_tcp_mss s →
       n + info_overhead s + rl < send_tcp_mss s).
Proof.
  intros Hn.
  destruct (send_rnd_data_len_bounds n h w s Hn)
    as (rl & s' & Hr & _ & H0 & H1 & H2 & _ & _ & H5 & H6).
  exists rl, s'. split; [exact Hr|]. split; [exact H0|]. split; [exact H2|].
  split; [|exact H6].
  intros [Hbig|Hover]; [apply H5; exact Hbig|apply H1; exact Hover].
Qed.

End with_primitives.

(** A packet of 100 bytes under a [send_tcp_mss] of 2000 with an overhead
    of 4, after a hash of zero bytes. *)
Lemma send_rnd_data_len_is_total_and_bounded_witness :
  ∃ rl s',
    send_rnd_data_len 100 zero16 RandomClient fresh_session = (Ok rl, s')
    ∧ 0 ≤ rl ∧ 100 + 4 + rl < 2000.
Proof.
  destruct (send_rnd_data_len_is_total_and_bounded 100 zero16 RandomClient fresh_session)
    as (rl & s' & Hr & H0 & _ & _ & H3).
  - lia.
  - exists rl, s'. split; [exact Hr|]. split; [exact H0|].
    apply H3; [lia|vm_compute; reflexivity].
Defined.

Section with_primitives.
Context {prims : primitives}.

Lemma recv_matches_send (sender receiver : t) (n : Z) (h : bytes)
    (w w' : which_random) :
  info_overhead receiver = info_overhead sender →
  recv_tcp_mss receiver = send_tcp_mss sender →
  (n + info_overhead sender = send_tcp_mss receiver
   ↔ n + info_overhead sender = send_tcp_mss sender) →
  fst (recv_rnd_data_len n h w' receiver) = fst (send_rnd_data_len n h w sender).
Proof.
  intros Ho Hm He. unfold recv_rnd_data_len, send_rnd_data_len. rewrite !bind_gets.
  rewrite Ho, Hm.
  assert (E : (n + info_overhead sender =? send_tcp_mss receiver)
              = (n + info_overhead sender =? send_tcp_mss sender)).
  { destruct (n + info_overhead sender =? send_tcp_mss sender) eqn:E1.
    - apply Z.eqb_eq in E1. apply Z.eqb_eq. apply He. exact E1.
    - apply Z.eqb_neq in E1. apply Z.eqb_neq. intros Hx. apply E1. apply He. exact Hx. }
  rewrite E.
  destruct (send_tcp_mss sender <? n + info_overhead sender); [apply draw_fst|].
  destruct ((1440 <=? n) || (n + info_overhead sender =? send_tcp_mss sender));
    [reflexivity|].
  destruct (1300 <? n); [apply draw_fst|].
  destruct (900 <? n); [apply draw_fst|].
  destruct (400 <? n); [apply draw_fst|].
  apply draw_fst.
Qed.

(** The receiver computes the padding the sender used, whichever
    generator each of them uses and whatever was drawn from it before,
    when it holds the sender's [send_tcp_mss] as its [recv_tcp_mss], the
    same overhead, and a [send_tcp_mss] of its own that is the packet's
    size with overhead exactly when the sender's is. *)
Theorem receiver_finds_the_padding_of_the_sender (sender receiver : t) (n : Z) (h : bytes)
    (w w' : which_random) :
  info_overhead receiver = info_overhead sender →
  recv_tcp_mss receiver = send_tcp_mss sender →
  (n + info_overhead sender = send_tcp_mss receiver
   ↔ n + info_overhead sender = send_tcp_mss sender) →
  fst (recv_rnd_data_len n h w' receiver) = fst (send_rnd_data_len n h w sender).
Proof. apply recv_matches_send. Qed.

End with_primitives.

(** A server that holds the MSS of 1460 its peer pads for, in both of
    its fields, and a packet of 100 bytes. *)
Lemma receiver_finds_the_padding_of_the_sender_witness :
  fst (recv_rnd_data_len 100 zero16 RandomClient
         (with_recv_tcp_mss 1460 (with_send_tcp_mss 1460 fresh_session)))
  = fst (send_rnd_data_len 100 zero16 RandomClient (with_send_tcp_mss 1460 fresh_session)).
Proof.
  apply (receiver_finds_the_padding_of_the_sender
           (with_send_tcp_mss 1460 fresh_session)
           (with_recv_tcp_mss 1460 (with_send_tcp_mss 1460 fresh_session))
           100 zero16 RandomClient RandomClient).
  - reflexivity.
  - reflexivity.
  - split; intros H; exact H.
Defined.

End padding_more_facts.
(* ===================================================================== *)
(** ** A packet from one end to the other *)
(* ===================================================================== *)

Module packet_facts.
Import auth_akarin_rand Frame Frame_facts Fixtures failure_facts command_facts.
Import bytes_facts codec_facts padding_more_facts Pairing.

(** *** Slices of a buffer put together from parts *)

Lemma len_app {A} (a b : list A) : len (a ++ b) = len a + len b.
Proof. unfold len. rewrite length_app. lia. Qed.

Lemma pyslice_to_app {A} (a b : list A) (n : Z) : n = len a → (a ++ b).[:n] = a.
Proof.
  intros ->. rewrite pyslice_to_inside by (rewrite len_app; unfold len; lia).
  unfold len. rewrite Nat2Z.id. rewrite take_app_length. reflexivity.
Qed.

Lemma pyslice_from_app {A} (a b : list A) (n : Z) : n = len a → (a ++ b).[n:] = b.
Proof.
  intros ->. rewrite pyslice_from_inside by (rewrite len_app; unfold len; lia).
  unfold len. rewrite Nat2Z.id. rewrite drop_app_length. reflexivity.
Qed.

Lemma pyslice_mid_app {A} (a b c : list A) (n m : Z) :
  n = len a → m = len a + len b → (a ++ b ++ c).[n:m] = b.
Proof.
  intros -> ->. rewrite pyslice_inside by (rewrite ?len_app; unfold len; lia).
  unfold len. rewrite Nat2Z.id. rewrite drop_app_length.
  replace (Z.to_nat (Z.of_nat (length a) + Z.of_nat (length b) - Z.of_nat (length a)))
    with (length b) by lia.
  rewrite take_app_length. reflexivity.
Qed.

Lemma lxor_unmasks (a m : Z) : Z.lxor (Z.lxor a m) m = a.
Proof. rewrite Z.lxor_assoc, Z.lxor_nilpotent, Z.lxor_0_r. reflexivity. Qed.

Lemma unpack_H_pack_le (v : Z) : 0 ≤ v < 65536 → unpack_H (pack_le 2 v) = Ok v.
Proof.
  intros Hv. unfold unpack_H, struct_unpack. rewrite length_pack_le. cbn [Nat.eqb].
  rewrite unpack_pack_le by (simpl; lia). reflexivity.
Qed.

Lemma pack_I_ok (v : Z) : 0 ≤ v < 2 ^ 32 → pack_I v = Ok (pack_le 4 v).
Proof.
  intros Hv. unfold pack_I, struct_pack.
  assert (E1 : (0 <=? v) = true) by (apply Z.leb_le; lia).
  assert (E2 : (v <? 2 ^ (8 * Z.of_nat 4)) = true) by (apply Z.ltb_lt; simpl; lia).
  rewrite E1, E2. reflexivity.
Qed.

(** The mask a 16-byte hash gives, read as [h[14:]] or as [h[14:16]]. *)
Lemma mask_of_hash (h : bytes) :
  length h = 16%nat →
  ∃ m, unpack_H h.[14:] = Ok m ∧ unpack_H h.[14:16] = Ok m ∧ 0 ≤ m < 65536.
Proof.
  intros Hh.
  assert (E : h.[14:] = h.[14:16]).
  { rewrite pyslice_from_inside by (unfold len; lia).
    rewrite pyslice_inside by (unfold len; lia).
    symmetry. apply take_ge. rewrite length_drop. lia. }
  assert (Hl : length h.[14:16] = 2%nat)
    by (rewrite length_pyslice by (unfold len; lia); reflexivity).
  exists (unpack_le h.[14:16]). rewrite E.
  unfold unpack_H, struct_unpack. rewrite Hl. cbn [Nat.eqb].
  split; [reflexivity|]. split; [reflexivity|].
  pose proof (unpack_le_range h.[14:16]) as Hr. rewrite Hl in Hr. exact Hr.
Qed.

Lemma mask12_of_hash (h : bytes) :
  length h = 16%nat → ∃ m, unpack_H h.[12:14] = Ok m ∧ 0 ≤ m < 65536.
Proof.
  intros Hh.
  assert (Hl : length h.[12:14] = 2%nat)
    by (rewrite length_pyslice by (unfold len; lia); reflexivity).
  exists (unpack_le h.[12:14]).
  unfold unpack_H, struct_unpack. rewrite Hl. cbn [Nat.eqb].
  split; [reflexivity|].
  pose proof (unpack_le_range h.[12:14]) as Hr. rewrite Hl in Hr. exact Hr.
Qed.

Lemma len_rand_bytes (n : Z) (e : Env.t) : 0 ≤ n → len (fst (Env.rand_bytes n e)) = n.
Proof.
  intros Hn. unfold Env.rand_bytes, len. cbn [fst].
  rewrite length_map, length_seq. lia.
Qed.

Section with_primitives.
Context {prims : primitives}.
Hypothesis hmac_md5_length : ∀ k d, length (hmac_md5 k d) = 16%nat.

Lemma tag_of_hmac (k d : bytes) : length (hmac_md5 k d).[:2] = 2%nat.
Proof.
  rewrite length_pyslice_to; [reflexivity|].
  unfold len. rewrite hmac_md5_length. lia.
Qed.

(** *** What the sender puts together *)

(** [rnd_data] for a buffer that is not empty: the buffer, then the
    padding. *)
Lemma rnd_data_appends (n : Z) (b h : bytes) (w : which_random) (s s1 : t) (rl : Z) :
  n ≠ 0 → 0 ≤ rl →
  send_rnd_data_len n h w s = (Ok rl, s1) →
  rnd_data n b h w s
  = (Ok (b ++ fst (Env.rand_bytes rl (env s1))),
     with_env (snd (Env.rand_bytes rl (env s1))) s1).
Proof.
  intros Hn Hrl Hr. unfold rnd_data. rewrite (bind_Ok _ _ _ _ _ Hr).
  unfold bind at 1. unfold rand_bytes at 1.
  destruct (Env.rand_bytes rl (env s1)) as [pad e'] eqn:Ep. cbn [fst snd].
  apply Z.eqb_neq in Hn. rewrite Hn.
  destruct (0 <? rl) eqn:E; [reflexivity|].
  apply Z.ltb_ge in E. assert (rl = 0) by lia. subst rl.
  unfold Env.rand_bytes in Ep. simpl in Ep. injection Ep as <- <-.
  rewrite app_nil_r. reflexivity.
Qed.

Lemma bind_assoc {A B C} (m : M t A) (k1 : A → M t B) (k2 : B → M t C) (s : t) :
  bind (bind m k1) k2 s = bind m (fun x => bind (k1 x) k2) s.
Proof. unfold bind. destruct (m s) as [[a| |] s1]; reflexivity. Qed.

Lemma bind_ret {A B} (a : A) (k : A → M t B) (s : t) : bind (ret a) k s = k a s.
Proof. reflexivity. Qed.

(** The packet [pack_client_data] makes while no command is queued:
    the masked length of the ciphertext [e], [e], the padding, and the
    first two bytes of the HMAC of all that. *)
Lemma pack_client_data_plain (buf : bytes) (c : t) (ec ec' : Encryptor.t) (e uk : bytes)
    (m14 rl : Z) (c1 : t) :
  encryptor c = Some ec →
  Encryptor.encrypt buf ec = (e, ec') →
  send_back_cmd c = [] →
  user_key c = Some uk →
  unpack_H (last_client_hash c).[14:] = Ok m14 →
  0 ≤ m14 < 65536 →
  0 < len e < 65536 →
  0 ≤ pack_id c < 2 ^ 32 →
  send_rnd_data_len (len e) (last_client_hash c) RandomClient
    (with_encryptor (Some ec') c) = (Ok rl, c1) →
  0 ≤ rl →
  pack_client_data buf c
  = (Ok ((pack_le 2 (Z.lxor (len e) m14) ++ e ++ fst (Env.rand_bytes rl (env c1)))
         ++ (hmac_md5 (uk ++ pack_le 4 (pack_id c))
               (pack_le 2 (Z.lxor (len e) m14) ++ e
                ++ fst (Env.rand_bytes rl (env c1)))).[:2]),
     with_pack_id (Z.land (pack_id c + 1) 0xFFFFFFFF)
       (with_last_client_hash
          (hmac_md5 (uk ++ pack_le 4 (pack_id c))
             (pack_le 2 (Z.lxor (len e) m14) ++ e ++ fst (Env.rand_bytes rl (env c1))))
          (with_env (snd (Env.rand_bytes rl (env c1))) c1))).
Proof.
  intros He Hee Hcmd Hk Hm Hm14 Hl Hp Hr Hrl.
  assert (Hfr : c1 = with_encryptor (Some ec') c
                ∨ ∃ g, c1 = set_random RandomClient g (with_encryptor (Some ec') c)).
  { destruct (send_rnd_data_len_bounds (len e) (last_client_hash c) RandomClient
                (with_encryptor (Some ec') c) ltac:(lia))
      as (rl0 & c10 & Hr0 & Hf & _).
    rewrite Hr in Hr0. injection Hr0 as <- <-. exact Hf. }
  assert (Hk1 : user_key c1 = Some uk ∧ pack_id c1 = pack_id c).
  { destruct Hfr as [->|[g ->]]; split; assumption || reflexivity. }
  destruct Hk1 as [Hk1 Hp1].
  unfold pack_client_data.
  unfold bind at 1. unfold encryptor_encrypt at 1. rewrite He, Hee.
  rewrite bind_gets.
  change (send_back_cmd (with_encryptor (Some ec') c)) with (send_back_cmd c).
  rewrite Hcmd. cbv iota.
  rewrite bind_assoc, bind_gets.
  change (last_client_hash (with_encryptor (Some ec') c)) with (last_client_hash c).
  rewrite bind_assoc.
  rewrite (bind_Ok _ _ _ _ _
             (rnd_data_appends (len e) e (last_client_hash c) RandomClient _ c1 rl
                ltac:(lia) Hrl Hr)).
  rewrite bind_assoc. rewrite (bind_lift_Ok _ _ _ _ Hm).
  rewrite bind_assoc.
  rewrite (bind_lift_Ok _ _ _ _ (pack_H_ok _ (lxor_u16 (len e) m14 ltac:(lia) Hm14))).
  rewrite bind_ret. rewrite bind_gets.
  change (pack_id (with_env (snd (Env.rand_bytes rl (env c1))) c1)) with (pack_id c1).
  rewrite Hp1.
  rewrite (bind_lift_Ok _ _ _ _ (pack_I_ok _ Hp)).
  rewrite (bind_the_user_key _ (with_env (snd (Env.rand_bytes rl (env c1))) c1) uk Hk1).
  rewrite !bind_modify. reflexivity.
Qed.

(** *** What the server takes *)

Lemma cmd_loop_passes (fuel : nat) (dl cl : Z) (rb : bytes) (s : t) :
  dl < 0xff00 → cmd_loop fuel dl cl rb s = (Ok (Next (dl, cl, rb)), s).
Proof.
  intros Hd. assert (E : (0xff00 <=? dl) = false) by (apply Z.leb_gt; exact Hd).
  destruct fuel; cbn [cmd_loop]; rewrite E; reflexivity.
Qed.

(** A packet without a command at the head of [recv_buf], made with
    the key, the counter and the hash the server holds. *)
Lemma server_packet_takes (out : bytes) (sb : bool) (v : t) (ev ev' : Encryptor.t)
    (uk e pad rest d framed tag : bytes) (m14 rl : Z) (v2 : t) :
  user_key v = Some uk →
  length (last_client_hash v) = 16%nat →
  unpack_H (last_client_hash v).[14:16] = Ok m14 →
  0 ≤ m14 < 65536 →
  0 ≤ recv_id v < 2 ^ 32 →
  framed = pack_le 2 (Z.lxor (len e) m14) ++ e ++ pad →
  tag = hmac_md5 (uk ++ pack_le 4 (recv_id v)) framed →
  recv_buf v = framed ++ tag.[:2] ++ rest →
  0 ≤ len e < 0xff00 →
  len pad = rl →
  len e + rl < 4096 →
  recv_rnd_data_len (len e + 0) (last_client_hash v) RandomClient v = (Ok rl, v2) →
  encryptor v = Some ev →
  Encryptor.decrypt e ev = (d, ev') →
  server_packet (out, sb) v
  = (Ok (Next (out ++ d, if len e =? 0 then true else sb)),
     with_recv_buf rest
       (with_last_client_hash tag
          (with_encryptor (Some ev')
             (with_recv_id (Z.land (recv_id v + 1) 0xFFFFFFFF) v2)))).
Proof.
  intros Hk Hh Hm Hm14 Hid Hframed Htag Hrb Hl Hpad Hlen Hr He Hdec.
  assert (F : recv_buf v2 = recv_buf v ∧ recv_id v2 = recv_id v
              ∧ encryptor v2 = encryptor v).
  { destruct (recv_rnd_data_len_frame _ _ _ _ _ _ Hr) as [->|[g ->]];
      repeat split; reflexivity. }
  destruct F as (Fb & Fi & Fe).
  pose proof (lxor_u16 (len e) m14 ltac:(lia) Hm14) as Hx.
  assert (Hl2 : len (pack_le 2 (Z.lxor (len e) m14)) = 2)
    by (unfold len; rewrite length_pack_le; reflexivity).
  assert (Hlf : len framed = 2 + len e + rl).
  { rewrite Hframed, !len_app, Hl2, Hpad. lia. }
  assert (Hlt : len tag.[:2] = 2).
  { unfold len. rewrite Htag, tag_of_hmac. reflexivity. }
  assert (Hw : unpack_H (recv_buf v).[:2] = Ok (Z.lxor (len e) m14)).
  { rewrite Hrb, Hframed. rewrite <- !app_assoc.
    rewrite pyslice_to_app by (rewrite Hl2; reflexivity).
    apply unpack_H_pack_le. exact Hx. }
  assert (Hhead : (recv_buf v).[:len e + rl + 0 + 2] = framed).
  { rewrite Hrb. apply pyslice_to_app. lia. }
  assert (Htail : (recv_buf v).[len e + rl + 0 + 2 : len e + rl + 0 + 4] = tag.[:2]).
  { rewrite Hrb. apply pyslice_mid_app; lia. }
  assert (Hbody : (recv_buf v).[2 : len e + 2] = e).
  { rewrite Hrb, Hframed. rewrite <- !app_assoc.
    apply pyslice_mid_app; lia. }
  assert (Hrest : (recv_buf v).[len e + rl + 4:] = rest).
  { rewrite Hrb. rewrite app_assoc. apply pyslice_from_app.
    rewrite len_app. lia. }
  assert (Hlen_rb : len (recv_buf v) = len e + rl + 4 + len rest).
  { rewrite Hrb, !len_app. lia. }
  unfold server_packet.
  rewrite bind_gets. rewrite (bind_lift_Ok _ _ _ _ (pack_I_ok _ Hid)).
  rewrite (bind_the_user_key _ _ _ Hk). rewrite !bind_gets.
  rewrite (bind_lift_Ok _ _ _ _ Hw). rewrite (bind_lift_Ok _ _ _ _ Hm).
  rewrite lxor_unmasks.
  rewrite (bind_Ok _ _ _ _ _ (cmd_loop_passes _ (len e) 0 (recv_buf v) v ltac:(lia))).
  rewrite (bind_Ok _ _ _ _ _ Hr).
  assert (E1 : (4096 <=? len e + rl) = false) by (apply Z.leb_gt; exact Hlen).
  assert (E2 : (len (recv_buf v) <? len e + rl + 4) = false).
  { apply Z.ltb_ge. pose proof (len_nonneg rest). lia. }
  rewrite E1, E2. rewrite bind_gets. rewrite Fb, Hhead, Htail, <- Htag.
  rewrite Replay_facts.bytes_eqb_refl. cbn [negb].
  rewrite bind_gets, bind_modify. rewrite Fi.
  unfold bind at 1. unfold encryptor_decrypt at 1.
  change (encryptor (with_recv_id (Z.land (recv_id v + 1) 0xFFFFFFFF) v2))
    with (encryptor v2).
  rewrite Fe, He, Hbody, Hdec.
  rewrite !bind_modify. rewrite Hrest. reflexivity.
Qed.

(** One packet in [recv_buf] and nothing behind it: the loop takes it
    and leaves. *)
Lemma recv_loop_once {A B} (body : A → M t (turn A B)) (fuel : nat) (acc acc' : A)
    (s s' : t) :
  4 < len (recv_buf s) →
  body acc s = (Ok (Next acc'), s') →
  len (recv_buf s') ≤ 4 →
  recv_loop body (S fuel) acc s = (Ok (Next acc'), s').
Proof.
  intros Hl Hb Hl'. cbn [recv_loop].
  assert (E : (4 <? len (recv_buf s)) = true) by (apply Z.ltb_lt; exact Hl).
  assert (E' : (4 <? len (recv_buf s')) = false) by (apply Z.ltb_ge; exact Hl').
  rewrite E. unfold bind. rewrite Hb.
  destruct fuel; cbn [recv_loop]; rewrite E'; reflexivity.
Qed.

Lemma client_to_server_packet (c v : t) (uk h buf e : bytes)
    (ec ec' ev ev' : Encryptor.t) :
  client_to_server c v uk h →
  send_back_cmd c = [] →
  encryptor c = Some ec →
  encryptor v = Some ev →
  Encryptor.encrypt buf ec = (e, ec') →
  Encryptor.decrypt e ev = (buf, ev') →
  0 < len e ≤ 3575 →
  send_tcp_mss c - info_overhead c ≤ 4096 →
  ∃ data c' v',
    pack_client_data buf c = (Ok data, c')
    ∧ server_post_decrypt data v = (Ok (buf, false), v')
    ∧ client_to_server c' v' uk (last_client_hash c')
    ∧ send_back_cmd c' = []
    ∧ encryptor c' = Some ec'
    ∧ encryptor v' = Some ev'.
Proof.
  intros (Hkc & Hkv & Hhc & Hhv & Hh & Hid & Hp & Ho & Hrm & Hsm & Hraw & Hhdr & Hrb)
    Hcmd Hec Hev Henc Hdec Hl Hmss.
  subst h.
  destruct (mask_of_hash _ Hh) as (m14 & Hm & Hm' & Hm14).
  destruct (send_rnd_data_len_bounds (len e) (last_client_hash c) RandomClient
              (with_encryptor (Some ec') c) ltac:(lia))
    as (rl & c1 & Hr & Hf & H0 & H1 & H2 & _ & _ & H5 & H6).
  change (send_tcp_mss (with_encryptor (Some ec') c)) with (send_tcp_mss c) in *.
  change (info_overhead (with_encryptor (Some ec') c)) with (info_overhead c) in *.
  assert (Hlen : len e + rl < 4096).
  { destruct (Z_lt_dec 400 (len e)) as [Hbig|Hsmall]; [pose proof (H5 Hbig); lia|].
    destruct (Z_lt_dec (send_tcp_mss c) (len e + info_overhead c)) as [Hov|Hfit];
      [pose proof (H1 Hov); lia|].
    destruct (Z.eq_dec (len e + info_overhead c) (send_tcp_mss c)) as [Heq|Hne].
    - pose proof (H2 ltac:(lia) (or_intror Heq)). lia.
    - pose proof (H6 ltac:(lia) ltac:(lia)). lia. }
  pose proof (pack_client_data_plain buf c ec ec' e uk m14 rl c1
                Hec Henc Hcmd Hkc Hm Hm14 ltac:(lia) Hp Hr H0) as Hpack.
  set (pad := fst (Env.rand_bytes rl (env c1))) in *.
  set (framed := pack_le 2 (Z.lxor (len e) m14) ++ e ++ pad) in *.
  set (tag := hmac_md5 (uk ++ pack_le 4 (pack_id c)) framed) in *.
  set (data := framed ++ tag.[:2]) in *.
  set (v0 := with_recv_buf (recv_buf v ++ data) v).
  assert (Hrl : fst (recv_rnd_data_len (len e + 0) (last_client_hash v0) RandomClient v0)
                = Ok rl).
  { rewrite Z.add_0_r.
    rewrite (recv_matches_send (with_encryptor (Some ec') c) v0 (len e)
               (last_client_hash v0) RandomClient RandomClient).
    - change (last_client_hash v0) with (last_client_hash v). rewrite Hhv, Hr. reflexivity.
    - exact Ho.
    - exact Hrm.
    - change (send_tcp_mss v0) with (send_tcp_mss v). rewrite Hsm.
      split; intros H; exact H. }
  destruct (recv_rnd_data_len (len e + 0) (last_client_hash v0) RandomClient v0)
    as [r2 v2] eqn:Hr2.
  cbn [fst] in Hrl. subst r2.
  assert (Hpk : server_packet ([], false) v0
                = (Ok (Next ([] ++ buf, if len e =? 0 then true else false)),
                   with_recv_buf []
                     (with_last_client_hash tag
                        (with_encryptor (Some ev')
                           (with_recv_id (Z.land (recv_id v0 + 1) 0xFFFFFFFF) v2))))).
  { apply (server_packet_takes [] false v0 ev ev' uk e pad [] buf framed tag m14 rl v2).
    - exact Hkv.
    - change (last_client_hash v0) with (last_client_hash v). rewrite Hhv. exact Hh.
    - change (last_client_hash v0) with (last_client_hash v). rewrite Hhv. exact Hm'.
    - exact Hm14.
    - change (recv_id v0) with (recv_id v). rewrite Hid. exact Hp.
    - reflexivity.
    - change (recv_id v0) with (recv_id v). rewrite Hid. reflexivity.
    - change (recv_buf v0) with (recv_buf v ++ data). rewrite Hrb.
      unfold data. rewrite app_nil_r. reflexivity.
    - lia.
    - apply len_rand_bytes. exact H0.
    - exact Hlen.
    - exact Hr2.
    - exact Hev.
    - exact Hdec. }
  assert (E0 : (len e =? 0) = false) by (apply Z.eqb_neq; lia).
  rewrite E0 in Hpk. cbn [app] in Hpk.
  assert (Hld : 4 < len (recv_buf v0)).
  { change (recv_buf v0) with (recv_buf v ++ data). rewrite Hrb. cbn [app].
    unfold data, framed. rewrite !len_app.
    pose proof (len_nonneg pad).
    assert (len tag.[:2] = 2) by (unfold len, tag; rewrite tag_of_hmac; reflexivity).
    assert (len (pack_le 2 (Z.lxor (len e) m14)) = 2)
      by (unfold len; rewrite length_pack_le; reflexivity).
    lia. }
  assert (Hrun : ∃ v', server_post_decrypt data v = (Ok (buf, false), v')
                 ∧ (v' = with_recv_buf []
                           (with_last_client_hash tag
                              (with_encryptor (Some ev')
                                 (with_recv_id (Z.land (recv_id v0 + 1) 0xFFFFFFFF) v2)))
                    ∨ ∃ d, v' = set_info_data d
                           (with_recv_buf []
                              (with_last_client_hash tag
                                 (with_encryptor (Some ev')
                                    (with_recv_id (Z.land (recv_id v0 + 1) 0xFFFFFFFF)
                                       v2)))))).
  { unfold server_post_decrypt.
    rewrite bind_gets, Hraw. rewrite bind_gets, bind_modify, bind_gets.
    fold v0. change (has_recv_header v0) with (has_recv_header v).
    rewrite Hhdr. cbn [negb]. rewrite bind_ret. rewrite bind_gets.
    destruct (length (recv_buf v0)) as [|fuel] eqn:En.
    { unfold len in Hld. rewrite En in Hld. simpl in Hld. lia. }
    pose proof (recv_loop_once server_packet fuel _ _ v0 _ Hld Hpk) as Hloop.
    cbn [recv_buf with_recv_buf] in Hloop.
    specialize (Hloop ltac:(unfold len; simpl; lia)).
    rewrite (bind_Ok _ _ _ _ _ Hloop).
    destruct buf as [|b0 buf'].
    - rewrite bind_ret. eexists. split; [reflexivity|left; reflexivity].
    - eexists. split; [reflexivity|right; eexists; reflexivity]. }
  destruct Hrun as (v' & Hrun & Hv').
  eexists. eexists. exists v'.
  split; [exact Hpack|]. split; [exact Hrun|].
  assert (Hf2 : v2 = v0 ∨ ∃ g, v2 = set_random RandomClient g v0)
    by (apply (recv_rnd_data_len_frame _ _ _ _ _ _ Hr2)).
  assert (Hlt : length tag = 16%nat) by (unfold tag; apply hmac_md5_length).
  assert (Hpid : 0 ≤ Z.land (pack_id c + 1) 0xFFFFFFFF < 2 ^ 32).
  { change 0xFFFFFFFF with (Z.ones 32). rewrite Z.land_ones by lia.
    apply Z.mod_pos_bound. lia. }
  unfold client_to_server.
  destruct Hf as [->|[g ->]]; destruct Hf2 as [->|[g2 ->]];
    destruct Hv' as [->|[d ->]];
    cbn; rewrite ?Hid; repeat split; try assumption; try reflexivity; try lia.
Qed.

(** A data packet goes through from the client to the server.  The two
    are paired as [client_to_server] says, no command is queued on the
    client, the server's cipher deciphers what the client's enciphers,
    the ciphertext [e] is not empty and has at most 3575 bytes, and the
    MSS is at most 4096 above the overhead.  Then [pack_client_data]
    gives a packet, [server_post_decrypt] gives back the plaintext with
    [sendback] false, and the two are paired again, under the HMAC of the
    packet. *)
Theorem server_takes_what_the_client_packs (c v : t) (uk h buf e : bytes)
    (ec ec' ev ev' : Encryptor.t) :
  client_to_server c v uk h →
  send_back_cmd c = [] →
  encryptor c = Some ec →
  encryptor v = Some ev →
  Encryptor.encrypt buf ec = (e, ec') →
  Encryptor.decrypt e ev = (buf, ev') →
  0 < len e ≤ 3575 →
  send_tcp_mss c - info_overhead c ≤ 4096 →
  ∃ data c' v',
    pack_client_data buf c = (Ok data, c')
    ∧ server_post_decrypt data v = (Ok (buf, false), v')
    ∧ client_to_server c' v' uk (last_client_hash c')
    ∧ send_back_cmd c' = []
    ∧ encryptor c' = Some ec'
    ∧ encryptor v' = Some ev'.
Proof. apply client_to_server_packet. Qed.

(** *** With a command *)

(** The packet [pack_client_data] makes while a command is queued. *)
Lemma pack_client_data_command (buf : bytes) (c : t) (ec ec' : Encryptor.t) (e uk : bytes)
    (m12 m14 rl : Z) (c1 : t) :
  encryptor c = Some ec →
  Encryptor.encrypt buf ec = (e, ec') →
  send_back_cmd c ≠ [] →
  user_key c = Some uk →
  unpack_H (last_client_hash c).[12:14] = Ok m12 →
  0 ≤ m12 < 65536 →
  unpack_H (last_client_hash c).[14:] = Ok m14 →
  0 ≤ m14 < 65536 →
  0 ≤ len e < 65534 →
  0 ≤ pack_id c < 2 ^ 32 →
  send_rnd_data_len (len e + 2) (last_client_hash c) RandomClient
    (with_send_tcp_mss (recv_tcp_mss c) (with_encryptor (Some ec') c)) = (Ok rl, c1) →
  0 ≤ rl →
  pack_client_data buf c
  = (Ok ((pack_le 2 (Z.lxor 0xff00 m14) ++ pack_le 2 (Z.lxor (len e) m12) ++ e
          ++ fst (Env.rand_bytes rl (env c1)))
         ++ (hmac_md5 (uk ++ pack_le 4 (pack_id c))
               (pack_le 2 (Z.lxor 0xff00 m14) ++ pack_le 2 (Z.lxor (len e) m12) ++ e
                ++ fst (Env.rand_bytes rl (env c1)))).[:2]),
     with_pack_id (Z.land (pack_id c + 1) 0xFFFFFFFF)
       (with_last_client_hash
          (hmac_md5 (uk ++ pack_le 4 (pack_id c))
             (pack_le 2 (Z.lxor 0xff00 m14) ++ pack_le 2 (Z.lxor (len e) m12) ++ e
              ++ fst (Env.rand_bytes rl (env c1))))
          (with_env (snd (Env.rand_bytes rl (env c1))) c1))).
Proof.
  intros He Hee Hcmd Hk Hm12 Hr12 Hm Hm14 Hl Hp Hr Hrl.
  set (cs := with_send_tcp_mss (recv_tcp_mss c) (with_encryptor (Some ec') c)) in *.
  assert (Hfr : c1 = cs ∨ ∃ g, c1 = set_random RandomClient g cs).
  { destruct (send_rnd_data_len_bounds (len e + 2) (last_client_hash c) RandomClient
                cs ltac:(lia))
      as (rl0 & c10 & Hr0 & Hf & _).
    rewrite Hr in Hr0. injection Hr0 as <- <-. exact Hf. }
  assert (Hk1 : user_key c1 = Some uk ∧ pack_id c1 = pack_id c).
  { destruct Hfr as [->|[g ->]]; split; assumption || reflexivity. }
  destruct Hk1 as [Hk1 Hp1].
  unfold pack_client_data.
  unfold bind at 1. unfold encryptor_encrypt at 1. rewrite He, Hee.
  rewrite bind_gets.
  change (send_back_cmd (with_encryptor (Some ec') c)) with (send_back_cmd c).
  destruct (send_back_cmd c) as [|c0 cmds] eqn:Ecmd; [exfalso; apply Hcmd; reflexivity|].
  cbv iota.
  rewrite bind_assoc, bind_gets, bind_assoc, bind_modify, bind_assoc, bind_gets.
  change (recv_tcp_mss (with_encryptor (Some ec') c)) with (recv_tcp_mss c).
  fold cs. change (last_client_hash cs) with (last_client_hash c).
  rewrite bind_assoc.
  rewrite (bind_Ok _ _ _ _ _
             (rnd_data_appends (len e + 2) e (last_client_hash c) RandomClient cs c1 rl
                ltac:(lia) Hrl Hr)).
  rewrite bind_assoc. rewrite (bind_lift_Ok _ _ _ _ Hm12).
  rewrite bind_assoc.
  rewrite (bind_lift_Ok _ _ _ _ (pack_H_ok _ (lxor_u16 (len e) m12 ltac:(lia) Hr12))).
  rewrite bind_assoc. rewrite (bind_lift_Ok _ _ _ _ Hm).
  rewrite bind_assoc.
  rewrite (bind_lift_Ok _ _ _ _ (pack_H_ok _ (lxor_u16 0xff00 m14 ltac:(lia) Hm14))).
  rewrite bind_ret. rewrite bind_gets.
  change (pack_id (with_env (snd (Env.rand_bytes rl (env c1))) c1)) with (pack_id c1).
  rewrite Hp1.
  rewrite (bind_lift_Ok _ _ _ _ (pack_I_ok (pack_id c) Hp)).
  rewrite (bind_the_user_key _ (with_env (snd (Env.rand_bytes rl (env c1))) c1) uk Hk1).
  rewrite !bind_modify. reflexivity.
Qed.

(** The inner loop on a length word that unmasks to 0xff00: it takes
    the MSS over, steps over the word and unmasks the next with
    [last_client_hash[12:14]]. *)
Lemma cmd_loop_steps (fuel : nat) (cl : Z) (rb : bytes) (s : t) (w m12 : Z) :
  unpack_H rb.[2:].[:2] = Ok w →
  unpack_H (last_client_hash s).[12:14] = Ok m12 →
  Z.lxor w m12 < 0xff00 →
  cmd_loop (S fuel) 0xff00 cl rb s
  = (Ok (Next (Z.lxor w m12, cl + 2, rb.[2:])), with_recv_tcp_mss (send_tcp_mss s) s).
Proof.
  intros Hw Hm Hlt. cbn [cmd_loop].
  change (0xff00 <=? 0xff00) with true. change (0xff00 =? 0xff00) with true. cbv iota.
  rewrite bind_gets, bind_modify, bind_gets.
  change (last_client_hash (with_recv_tcp_mss (send_tcp_mss s) s))
    with (last_client_hash s).
  rewrite (bind_lift_Ok _ _ _ _ Hw). rewrite (bind_lift_Ok _ _ _ _ Hm).
  apply cmd_loop_passes. exact Hlt.
Qed.

(** A packet with a command at the head of [recv_buf]. *)
Lemma server_packet_takes_command (out : bytes) (sb : bool) (v : t)
    (ev ev' : Encryptor.t) (uk e pad rest d framed tag : bytes) (m12 m14 rl : Z)
    (v2 : t) :
  user_key v = Some uk →
  length (last_client_hash v) = 16%nat →
  unpack_H (last_client_hash v).[12:14] = Ok m12 →
  0 ≤ m12 < 65536 →
  unpack_H (last_client_hash v).[14:16] = Ok m14 →
  0 ≤ m14 < 65536 →
  0 ≤ recv_id v < 2 ^ 32 →
  framed = pack_le 2 (Z.lxor 0xff00 m14) ++ pack_le 2 (Z.lxor (len e) m12) ++ e ++ pad →
  tag = hmac_md5 (uk ++ pack_le 4 (recv_id v)) framed →
  recv_buf v = framed ++ tag.[:2] ++ rest →
  0 ≤ len e < 0xff00 →
  len pad = rl →
  len e + rl < 4096 →
  recv_rnd_data_len (len e + (0 + 2)) (last_client_hash v) RandomClient
    (with_recv_tcp_mss (send_tcp_mss v) v) = (Ok rl, v2) →
  encryptor v = Some ev →
  Encryptor.decrypt e ev = (d, ev') →
  server_packet (out, sb) v
  = (Ok (Next (out ++ d, if len e =? 0 then true else sb)),
     with_recv_buf rest
       (with_last_client_hash tag
          (with_encryptor (Some ev')
             (with_recv_id (Z.land (recv_id v + 1) 0xFFFFFFFF) v2)))).
Proof.
  intros Hk Hh Hm12 Hr12 Hm Hm14 Hid Hframed Htag Hrb Hl Hpad Hlen Hr He Hdec.
  set (vs := with_recv_tcp_mss (send_tcp_mss v) v) in *.
  assert (F : recv_buf v2 = recv_buf v ∧ recv_id v2 = recv_id v
              ∧ encryptor v2 = encryptor v).
  { destruct (recv_rnd_data_len_frame _ _ _ _ _ _ Hr) as [->|[g ->]];
      repeat split; reflexivity. }
  destruct F as (Fb & Fi & Fe).
  pose proof (lxor_u16 (len e) m12 ltac:(lia) Hr12) as Hx.
  pose proof (lxor_u16 0xff00 m14 ltac:(lia) Hm14) as Hx14.
  set (l1 := pack_le 2 (Z.lxor 0xff00 m14)) in *.
  set (l2 := pack_le 2 (Z.lxor (len e) m12)) in *.
  assert (Hl1 : len l1 = 2) by (unfold len, l1; rewrite length_pack_le; reflexivity).
  assert (Hl2 : len l2 = 2) by (unfold len, l2; rewrite length_pack_le; reflexivity).
  assert (Hlf : len framed = 4 + len e + rl).
  { rewrite Hframed, !len_app, Hl1, Hl2, Hpad. lia. }
  assert (Hlt : len tag.[:2] = 2).
  { unfold len. rewrite Htag, tag_of_hmac. reflexivity. }
  assert (Hw : unpack_H (recv_buf v).[:2] = Ok (Z.lxor 0xff00 m14)).
  { rewrite Hrb, Hframed. rewrite <- !app_assoc.
    rewrite pyslice_to_app by (rewrite Hl1; reflexivity).
    apply unpack_H_pack_le. exact Hx14. }
  assert (Hlocal : (recv_buf v).[2:] = (l2 ++ e ++ pad) ++ tag.[:2] ++ rest).
  { rewrite Hrb, Hframed. rewrite <- !app_assoc.
    apply pyslice_from_app. rewrite Hl1. reflexivity. }
  assert (Hw2 : unpack_H (recv_buf v).[2:].[:2] = Ok (Z.lxor (len e) m12)).
  { rewrite Hlocal. rewrite <- !app_assoc.
    rewrite pyslice_to_app by (rewrite Hl2; reflexivity).
    apply unpack_H_pack_le. exact Hx. }
  assert (Hhead : (recv_buf v).[:len e + rl + (0 + 2) + 2] = framed).
  { rewrite Hrb. apply pyslice_to_app. lia. }
  assert (Htail : (recv_buf v).[len e + rl + (0 + 2) + 2 : len e + rl + (0 + 2) + 4]
                  = tag.[:2]).
  { rewrite Hrb. apply pyslice_mid_app; lia. }
  assert (Hbody : (recv_buf v).[2:].[2 : len e + 2] = e).
  { rewrite Hlocal. rewrite <- !app_assoc. apply pyslice_mid_app; lia. }
  assert (Hrest : (recv_buf v).[2:].[len e + rl + 4:] = rest).
  { rewrite Hlocal. rewrite app_assoc. apply pyslice_from_app.
    rewrite !len_app. lia. }
  assert (Hlen_rb : len (recv_buf v).[2:] = len e + rl + 4 + len rest).
  { rewrite Hlocal, !len_app. lia. }
  assert (Hfuel : ∃ fuel, length (recv_buf v) = S fuel).
  { destruct (length (recv_buf v)) as [|n] eqn:En; [|exists n; reflexivity].
    assert (Hz : len (recv_buf v) = 0) by (unfold len; rewrite En; reflexivity).
    rewrite Hrb, len_app in Hz. pose proof (len_nonneg (tag.[:2] ++ rest)).
    pose proof (len_nonneg pad). lia. }
  destruct Hfuel as [fuel Hfuel].
  unfold server_packet.
  rewrite bind_gets. rewrite (bind_lift_Ok _ _ _ _ (pack_I_ok (recv_id v) Hid)).
  rewrite (bind_the_user_key _ _ _ Hk). rewrite !bind_gets.
  rewrite (bind_lift_Ok _ _ _ _ Hw). rewrite (bind_lift_Ok _ _ _ _ Hm).
  rewrite lxor_unmasks. rewrite Hfuel.
  pose proof (cmd_loop_steps fuel 0 (recv_buf v) v (Z.lxor (len e) m12) m12 Hw2 Hm12
                ltac:(rewrite lxor_unmasks; lia)) as Hcmd.
  rewrite lxor_unmasks in Hcmd.
  rewrite (bind_Ok _ _ _ _ _ Hcmd).
  fold vs.
  rewrite (bind_Ok _ _ _ _ _ Hr).
  assert (E1 : (4096 <=? len e + rl) = false) by (apply Z.leb_gt; exact Hlen).
  assert (E2 : (len (recv_buf v).[2:] <? len e + rl + 4) = false).
  { apply Z.ltb_ge. pose proof (len_nonneg rest). lia. }
  rewrite E1, E2. rewrite bind_gets. rewrite Fb, Hhead, Htail, <- Htag.
  rewrite Replay_facts.bytes_eqb_refl. cbn [negb].
  rewrite bind_gets, bind_modify. rewrite Fi.
  unfold bind at 1. unfold encryptor_decrypt at 1.
  change (encryptor (with_recv_id (Z.land (recv_id v + 1) 0xFFFFFFFF) v2))
    with (encryptor v2).
  rewrite Fe.
  change (encryptor vs) with (encryptor v). rewrite He, Hbody, Hdec.
  rewrite !bind_modify. rewrite Hrest. reflexivity.
Qed.

Lemma client_commands_server_packet (c v : t) (uk h buf e : bytes)
    (ec ec' ev ev' : Encryptor.t) :
  client_commands_server c v uk h →
  send_back_cmd c ≠ [] →
  encryptor c = Some ec →
  encryptor v = Some ev →
  Encryptor.encrypt buf ec = (e, ec') →
  Encryptor.decrypt e ev = (buf, ev') →
  0 ≤ len e ≤ 3575 →
  recv_tcp_mss c - info_overhead c ≤ 4096 →
  ∃ data c' v',
    pack_client_data buf c = (Ok data, c')
    ∧ server_post_decrypt data v = (Ok (buf, len e =? 0), v')
    ∧ client_to_server c' v' uk (last_client_hash c')
    ∧ client_commands_server c' v' uk (last_client_hash c')
    ∧ send_back_cmd c' = send_back_cmd c
    ∧ encryptor c' = Some ec'
    ∧ encryptor v' = Some ev'.
Proof.
  intros (Hkc & Hkv & Hhc & Hhv & Hh & Hid & Hp & Ho & Hsm & Hraw & Hhdr & Hrb)
    Hcmd Hec Hev Henc Hdec Hl Hmss.
  subst h.
  destruct (mask_of_hash _ Hh) as (m14 & Hm & Hm' & Hm14).
  destruct (mask12_of_hash _ Hh) as (m12 & Hm12 & Hr12).
  set (cs := with_send_tcp_mss (recv_tcp_mss c) (with_encryptor (Some ec') c)).
  destruct (send_rnd_data_len_bounds (len e + 2) (last_client_hash c) RandomClient
              cs ltac:(lia))
    as (rl & c1 & Hr & Hf & H0 & H1 & H2 & _ & _ & H5 & H6).
  change (send_tcp_mss cs) with (recv_tcp_mss c) in *.
  change (info_overhead cs) with (info_overhead c) in *.
  assert (Hlen : len e + rl < 4096).
  { destruct (Z_lt_dec 400 (len e + 2)) as [Hbig|Hsmall]; [pose proof (H5 Hbig); lia|].
    destruct (Z_lt_dec (recv_tcp_mss c) (len e + 2 + info_overhead c)) as [Hov|Hfit];
      [pose proof (H1 Hov); lia|].
    destruct (Z.eq_dec (len e + 2 + info_overhead c) (recv_tcp_mss c)) as [Heq|Hne].
    - pose proof (H2 ltac:(lia) (or_intror Heq)). lia.
    - pose proof (H6 ltac:(lia) ltac:(lia)). lia. }
  pose proof (pack_client_data_command buf c ec ec' e uk m12 m14 rl c1
                Hec Henc Hcmd Hkc Hm12 Hr12 Hm Hm14 ltac:(lia) Hp Hr H0) as Hpack.
  set (pad := fst (Env.rand_bytes rl (env c1))) in *.
  set (framed := pack_le 2 (Z.lxor 0xff00 m14) ++ pack_le 2 (Z.lxor (len e) m12)
                 ++ e ++ pad) in *.
  set (tag := hmac_md5 (uk ++ pack_le 4 (pack_id c)) framed) in *.
  set (data := framed ++ tag.[:2]) in *.
  set (v0 := with_recv_buf (recv_buf v ++ data) v).
  set (vs := with_recv_tcp_mss (send_tcp_mss v0) v0).
  assert (Hrl : fst (recv_rnd_data_len (len e + (0 + 2)) (last_client_hash v0)
                       RandomClient vs) = Ok rl).
  { change (len e + (0 + 2)) with (len e + 2).
    rewrite (recv_matches_send cs vs (len e + 2) (last_client_hash v0)
               RandomClient RandomClient).
    - change (last_client_hash v0) with (last_client_hash v). rewrite Hhv, Hr. reflexivity.
    - exact Ho.
    - exact Hsm.
    - change (send_tcp_mss vs) with (send_tcp_mss v). rewrite Hsm.
      split; intros H; exact H. }
  destruct (recv_rnd_data_len (len e + (0 + 2)) (last_client_hash v0) RandomClient vs)
    as [r2 v2] eqn:Hr2.
  cbn [fst] in Hrl. subst r2.
  assert (Hpk : server_packet ([], false) v0
                = (Ok (Next ([] ++ buf, if len e =? 0 then true else false)),
                   with_recv_buf []
                     (with_last_client_hash tag
                        (with_encryptor (Some ev')
                           (with_recv_id (Z.land (recv_id v0 + 1) 0xFFFFFFFF) v2))))).
  { apply (server_packet_takes_command [] false v0 ev ev' uk e pad [] buf framed tag
             m12 m14 rl v2).
    - exact Hkv.
    - change (last_client_hash v0) with (last_client_hash v). rewrite Hhv. exact Hh.
    - change (last_client_hash v0) with (last_client_hash v). rewrite Hhv. exact Hm12.
    - exact Hr12.
    - change (last_client_hash v0) with (last_client_hash v). rewrite Hhv. exact Hm'.
    - exact Hm14.
    - change (recv_id v0) with (recv_id v). rewrite Hid. exact Hp.
    - reflexivity.
    - change (recv_id v0) with (recv_id v). rewrite Hid. reflexivity.
    - change (recv_buf v0) with (recv_buf v ++ data). rewrite Hrb.
      unfold data. rewrite app_nil_r. reflexivity.
    - lia.
    - apply len_rand_bytes. exact H0.
    - exact Hlen.
    - exact Hr2.
    - exact Hev.
    - exact Hdec. }
  cbn [app] in Hpk.
  assert (Hsb : (if len e =? 0 then true else false) = (len e =? 0))
    by (destruct (len e =? 0); reflexivity).
  rewrite Hsb in Hpk.
  assert (Hld : 4 < len (recv_buf v0)).
  { change (recv_buf v0) with (recv_buf v ++ data). rewrite Hrb. cbn [app].
    unfold data, framed. rewrite !len_app.
    pose proof (len_nonneg pad).
    assert (len tag.[:2] = 2) by (unfold len, tag; rewrite tag_of_hmac; reflexivity).
    assert (len (pack_le 2 (Z.lxor 0xff00 m14)) = 2)
      by (unfold len; rewrite length_pack_le; reflexivity).
    assert (len (pack_le 2 (Z.lxor (len e) m12)) = 2)
      by (unfold len; rewrite length_pack_le; reflexivity).
    lia. }
  assert (Hrun : ∃ v', server_post_decrypt data v = (Ok (buf, len e =? 0), v')
                 ∧ (v' = with_recv_buf []
                           (with_last_client_hash tag
                              (with_encryptor (Some ev')
                                 (with_recv_id (Z.land (recv_id v0 + 1) 0xFFFFFFFF) v2)))
                    ∨ ∃ d, v' = set_info_data d
                           (with_recv_buf []
                              (with_last_client_hash tag
                                 (with_encryptor (Some ev')
                                    (with_recv_id (Z.land (recv_id v0 + 1) 0xFFFFFFFF)
                                       v2)))))).
  { unfold server_post_decrypt.
    rewrite bind_gets, Hraw. rewrite bind_gets, bind_modify, bind_gets.
    fold v0. change (has_recv_header v0) with (has_recv_header v).
    rewrite Hhdr. cbn [negb]. rewrite bind_ret. rewrite bind_gets.
    destruct (length (recv_buf v0)) as [|fuel] eqn:En.
    { unfold len in Hld. rewrite En in Hld. simpl in Hld. lia. }
    pose proof (recv_loop_once server_packet fuel _ _ v0 _ Hld Hpk) as Hloop.
    cbn [recv_buf with_recv_buf] in Hloop.
    specialize (Hloop ltac:(unfold len; simpl; lia)).
    rewrite (bind_Ok _ _ _ _ _ Hloop).
    destruct buf as [|b0 buf'].
    - rewrite bind_ret. eexists. split; [reflexivity|left; reflexivity].
    - eexists. split; [reflexivity|right; eexists; reflexivity]. }
  destruct Hrun as (v' & Hrun & Hv').
  eexists. eexists. exists v'.
  split; [exact Hpack|]. split; [exact Hrun|].
  assert (Hf2 : v2 = vs ∨ ∃ g, v2 = set_random RandomClient g vs)
    by (apply (recv_rnd_data_len_frame _ _ _ _ _ _ Hr2)).
  assert (Hlt : length tag = 16%nat) by (unfold tag; apply hmac_md5_length).
  assert (Hpid : 0 ≤ Z.land (pack_id c + 1) 0xFFFFFFFF < 2 ^ 32).
  { change 0xFFFFFFFF with (Z.ones 32). rewrite Z.land_ones by lia.
    apply Z.mod_pos_bound. lia. }
  unfold client_to_server, client_commands_server.
  destruct Hf as [->|[g ->]]; destruct Hf2 as [->|[g2 ->]];
    destruct Hv' as [->|[d ->]];
    cbn; rewrite ?Hid; repeat split; try assumption; try reflexivity; try lia.
Qed.

(** A data packet with a command goes through from the client to the
    server.  A client with a command queued pads for its [recv_tcp_mss];
    when the server holds that value as its [send_tcp_mss], the ciphers
    are in step, the ciphertext [e] has at most 3575 bytes and the MSS is
    at most 4096 above the overhead, [server_post_decrypt] gives back the
    plaintext of what [pack_client_data] made, with [sendback] set when
    the ciphertext is empty.  Afterwards the two are paired for packets
    of either kind and the command is still queued. *)
Theorem server_takes_a_packet_with_a_command (c v : t) (uk h buf e : bytes)
    (ec ec' ev ev' : Encryptor.t) :
  client_commands_server c v uk h →
  send_back_cmd c ≠ [] →
  encryptor c = Some ec →
  encryptor v = Some ev →
  Encryptor.encrypt buf ec = (e, ec') →
  Encryptor.decrypt e ev = (buf, ev') →
  0 ≤ len e ≤ 3575 →
  recv_tcp_mss c - info_overhead c ≤ 4096 →
  ∃ data c' v',
    pack_client_data buf c = (Ok data, c')
    ∧ server_post_decrypt data v = (Ok (buf, len e =? 0), v')
    ∧ client_to_server c' v' uk (last_client_hash c')
    ∧ client_commands_server c' v' uk (last_client_hash c')
    ∧ send_back_cmd c' = send_back_cmd c
    ∧ encryptor c' = Some ec'
    ∧ encryptor v' = Some ev'.
Proof. apply client_commands_server_packet. Qed.

(** *** The other direction *)

(** The packet [pack_server_data] makes after the first. *)
Lemma pack_server_data_plain (buf : bytes) (v : t) (ev ev' : Encryptor.t) (e uk : bytes)
    (m14 rl : Z) (v1 : t) :
  encryptor v = Some ev →
  Encryptor.encrypt buf ev = (e, ev') →
  user_key v = Some uk →
  unpack_H (last_server_hash v).[14:] = Ok m14 →
  0 ≤ m14 < 65536 →
  0 < len e < 65536 →
  1 < pack_id v < 2 ^ 32 →
  send_rnd_data_len (len e) (last_server_hash v) RandomServer
    (with_encryptor (Some ev') v) = (Ok rl, v1) →
  0 ≤ rl →
  pack_server_data buf v
  = (Ok ((pack_le 2 (Z.lxor (len e) m14) ++ e ++ fst (Env.rand_bytes rl (env v1)))
         ++ (hmac_md5 (uk ++ pack_le 4 (pack_id v))
               (pack_le 2 (Z.lxor (len e) m14) ++ e
                ++ fst (Env.rand_bytes rl (env v1)))).[:2]),
     with_pack_id (Z.land (pack_id v + 1) 0xFFFFFFFF)
       (with_last_server_hash
          (hmac_md5 (uk ++ pack_le 4 (pack_id v))
             (pack_le 2 (Z.lxor (len e) m14) ++ e ++ fst (Env.rand_bytes rl (env v1))))
          (with_env (snd (Env.rand_bytes rl (env v1))) v1))).
Proof.
  intros He Hee Hk Hm Hm14 Hl Hp Hr Hrl.
  assert (Hfr : v1 = with_encryptor (Some ev') v
                ∨ ∃ g, v1 = set_random RandomServer g (with_encryptor (Some ev') v)).
  { destruct (send_rnd_data_len_bounds (len e) (last_server_hash v) RandomServer
                (with_encryptor (Some ev') v) ltac:(lia))
      as (rl0 & v10 & Hr0 & Hf & _).
    rewrite Hr in Hr0. injection Hr0 as <- <-. exact Hf. }
  assert (Hk1 : user_key v1 = Some uk ∧ pack_id v1 = pack_id v).
  { destruct Hfr as [->|[g ->]]; split; assumption || reflexivity. }
  destruct Hk1 as [Hk1 Hp1].
  unfold pack_server_data.
  unfold bind at 1. unfold encryptor_encrypt at 1. rewrite He, Hee.
  rewrite bind_gets.
  change (last_server_hash (with_encryptor (Some ev') v)) with (last_server_hash v).
  rewrite (bind_Ok _ _ _ _ _
             (rnd_data_appends (len e) e (last_server_hash v) RandomServer _ v1 rl
                ltac:(lia) Hrl Hr)).
  rewrite bind_gets.
  change (pack_id (with_env (snd (Env.rand_bytes rl (env v1))) v1)) with (pack_id v1).
  rewrite Hp1.
  rewrite (bind_lift_Ok _ _ _ _ (pack_I_ok (pack_id v) ltac:(lia))).
  rewrite (bind_the_user_key _ (with_env (snd (Env.rand_bytes rl (env v1))) v1) uk Hk1).
  rewrite (bind_lift_Ok _ _ _ _ Hm).
  rewrite (bind_lift_Ok _ _ _ _ (pack_H_ok _ (lxor_u16 (len e) m14 ltac:(lia) Hm14))).
  rewrite bind_modify.
  assert (E : (pack_id v =? 1) = false) by (apply Z.eqb_neq; lia).
  rewrite E. rewrite bind_ret, bind_modify. reflexivity.
Qed.

(** A packet after the first at the head of the client's [recv_buf]. *)
Lemma client_packet_takes (out : bytes) (c : t) (ec ec' : Encryptor.t)
    (uk e pad rest d framed tag : bytes) (m14 rl : Z) (c2 : t) :
  user_key c = Some uk →
  length (last_server_hash c) = 16%nat →
  unpack_H (last_server_hash c).[14:16] = Ok m14 →
  0 ≤ m14 < 65536 →
  1 < recv_id c < 2 ^ 32 →
  framed = pack_le 2 (Z.lxor (len e) m14) ++ e ++ pad →
  tag = hmac_md5 (uk ++ pack_le 4 (recv_id c)) framed →
  recv_buf c = framed ++ tag.[:2] ++ rest →
  0 ≤ len e < 65536 →
  len pad = rl →
  len e + rl < 4096 →
  recv_rnd_data_len (len e) (last_server_hash c) RandomServer c = (Ok rl, c2) →
  encryptor c = Some ec →
  Encryptor.decrypt e ec = (d, ec') →
  client_packet out c
  = (Ok (Next (out ++ d)),
     with_recv_buf rest
       (with_recv_id (Z.land (recv_id c + 1) 0xFFFFFFFF)
          (with_last_server_hash tag (with_encryptor (Some ec') c2)))).
Proof.
  intros Hk Hh Hm Hm14 Hid Hframed Htag Hrb Hl Hpad Hlen Hr He Hdec.
  assert (F : recv_buf c2 = recv_buf c ∧ recv_id c2 = recv_id c
              ∧ encryptor c2 = encryptor c).
  { destruct (recv_rnd_data_len_frame _ _ _ _ _ _ Hr) as [->|[g ->]];
      repeat split; reflexivity. }
  destruct F as (Fb & Fi & Fe).
  pose proof (lxor_u16 (len e) m14 ltac:(lia) Hm14) as Hx.
  assert (Hl2 : len (pack_le 2 (Z.lxor (len e) m14)) = 2)
    by (unfold len; rewrite length_pack_le; reflexivity).
  assert (Hlf : len framed = 2 + len e + rl).
  { rewrite Hframed, !len_app, Hl2, Hpad. lia. }
  assert (Hlt : len tag.[:2] = 2).
  { unfold len. rewrite Htag, tag_of_hmac. reflexivity. }
  assert (Hw : unpack_H (recv_buf c).[:2] = Ok (Z.lxor (len e) m14)).
  { rewrite Hrb, Hframed. rewrite <- !app_assoc.
    rewrite pyslice_to_app by (rewrite Hl2; reflexivity).
    apply unpack_H_pack_le. exact Hx. }
  assert (Hhead : (recv_buf c).[:len e + rl + 2] = framed).
  { rewrite Hrb. apply pyslice_to_app. lia. }
  assert (Htail : (recv_buf c).[len e + rl + 2 : len e + rl + 4] = tag.[:2]).
  { rewrite Hrb. apply pyslice_mid_app; lia. }
  assert (Hbody : (recv_buf c).[2 : len e + 2] = e).
  { rewrite Hrb, Hframed. rewrite <- !app_assoc.
    apply pyslice_mid_app; lia. }
  assert (Hrest : (recv_buf c).[len e + rl + 4:] = rest).
  { rewrite Hrb. rewrite app_assoc. apply pyslice_from_app.
    rewrite len_app. lia. }
  assert (Hlen_rb : len (recv_buf c) = len e + rl + 4 + len rest).
  { rewrite Hrb, !len_app. lia. }
  unfold client_packet.
  rewrite bind_gets. rewrite (bind_lift_Ok _ _ _ _ (pack_I_ok (recv_id c) ltac:(lia))).
  rewrite (bind_the_user_key _ _ _ Hk). rewrite !bind_gets.
  rewrite (bind_lift_Ok _ _ _ _ Hw). rewrite (bind_lift_Ok _ _ _ _ Hm).
  rewrite lxor_unmasks.
  rewrite (bind_Ok _ _ _ _ _ Hr).
  assert (E1 : (4096 <=? len e + rl) = false) by (apply Z.leb_gt; exact Hlen).
  assert (E2 : (len (recv_buf c) <? len e + rl + 4) = false).
  { apply Z.ltb_ge. pose proof (len_nonneg rest). lia. }
  rewrite E1, E2. rewrite Hhead, Htail, <- Htag.
  rewrite Replay_facts.bytes_eqb_refl. cbn [negb].
  unfold bind at 1. unfold encryptor_decrypt at 1.
  rewrite Fe, He, Hbody, Hdec.
  rewrite bind_modify.
  assert (E3 : (recv_id c =? 1) = false) by (apply Z.eqb_neq; lia).
  rewrite E3. rewrite bind_ret, !bind_modify. rewrite Hrest. reflexivity.
Qed.

Lemma server_to_client_packet (v c : t) (uk h buf e : bytes)
    (ev ev' ec ec' : Encryptor.t) :
  server_to_client v c uk h →
  encryptor v = Some ev →
  encryptor c = Some ec →
  Encryptor.encrypt buf ev = (e, ev') →
  Encryptor.decrypt e ec = (buf, ec') →
  0 < len e ≤ 3575 →
  send_tcp_mss v - info_overhead v ≤ 4096 →
  ∃ data v' c',
    pack_server_data buf v = (Ok data, v')
    ∧ client_post_decrypt data c = (Ok buf, c')
    ∧ (pack_id v + 1 < 2 ^ 32 → server_to_client v' c' uk (last_server_hash v'))
    ∧ encryptor v' = Some ev'
    ∧ encryptor c' = Some ec'.
Proof.
  intros (Hkv & Hkc & Hhv & Hhc & Hh & Hid & Hp & Ho & Hrm & Hsm & Hrawv & Hraw & Hrb)
    Hev Hec Henc Hdec Hl Hmss.
  subst h.
  destruct (mask_of_hash _ Hh) as (m14 & Hm & Hm' & Hm14).
  destruct (send_rnd_data_len_bounds (len e) (last_server_hash v) RandomServer
              (with_encryptor (Some ev') v) ltac:(lia))
    as (rl & v1 & Hr & Hf & H0 & H1 & H2 & _ & _ & H5 & H6).
  change (send_tcp_mss (with_encryptor (Some ev') v)) with (send_tcp_mss v) in *.
  change (info_overhead (with_encryptor (Some ev') v)) with (info_overhead v) in *.
  assert (Hlen : len e + rl < 4096).
  { destruct (Z_lt_dec 400 (len e)) as [Hbig|Hsmall]; [pose proof (H5 Hbig); lia|].
    destruct (Z_lt_dec (send_tcp_mss v) (len e + info_overhead v)) as [Hov|Hfit];
      [pose proof (H1 Hov); lia|].
    destruct (Z.eq_dec (len e + info_overhead v) (send_tcp_mss v)) as [Heq|Hne].
    - pose proof (H2 ltac:(lia) (or_intror Heq)). lia.
    - pose proof (H6 ltac:(lia) ltac:(lia)). lia. }
  pose proof (pack_server_data_plain buf v ev ev' e uk m14 rl v1
                Hev Henc Hkv Hm Hm14 ltac:(lia) Hp Hr H0) as Hpack.
  set (pad := fst (Env.rand_bytes rl (env v1))) in *.
  set (framed := pack_le 2 (Z.lxor (len e) m14) ++ e ++ pad) in *.
  set (tag := hmac_md5 (uk ++ pack_le 4 (pack_id v)) framed) in *.
  set (data := framed ++ tag.[:2]) in *.
  set (c0 := with_recv_buf (recv_buf c ++ data) c).
  assert (Hrl : fst (recv_rnd_data_len (len e) (last_server_hash c0) RandomServer c0)
                = Ok rl).
  { rewrite (recv_matches_send (with_encryptor (Some ev') v) c0 (len e)
               (last_server_hash c0) RandomServer RandomServer).
    - change (last_server_hash c0) with (last_server_hash c). rewrite Hhc, Hr. reflexivity.
    - exact Ho.
    - exact Hrm.
    - change (send_tcp_mss c0) with (send_tcp_mss c). rewrite Hsm.
      split; intros H; exact H. }
  destruct (recv_rnd_data_len (len e) (last_server_hash c0) RandomServer c0)
    as [r2 c2] eqn:Hr2.
  cbn [fst] in Hrl. subst r2.
  assert (Hpk : client_packet [] c0
                = (Ok (Next ([] ++ buf)),
                   with_recv_buf []
                     (with_recv_id (Z.land (recv_id c0 + 1) 0xFFFFFFFF)
                        (with_last_server_hash tag (with_encryptor (Some ec') c2))))).
  { apply (client_packet_takes [] c0 ec ec' uk e pad [] buf framed tag m14 rl c2).
    - exact Hkc.
    - change (last_server_hash c0) with (last_server_hash c). rewrite Hhc. exact Hh.
    - change (last_server_hash c0) with (last_server_hash c). rewrite Hhc. exact Hm'.
    - exact Hm14.
    - change (recv_id c0) with (recv_id c). rewrite Hid. exact Hp.
    - reflexivity.
    - change (recv_id c0) with (recv_id c). rewrite Hid. reflexivity.
    - change (recv_buf c0) with (recv_buf c ++ data). rewrite Hrb.
      unfold data. rewrite app_nil_r. reflexivity.
    - lia.
    - apply len_rand_bytes. exact H0.
    - exact Hlen.
    - exact Hr2.
    - exact Hec.
    - exact Hdec. }
  cbn [app] in Hpk.
  assert (Hld : 4 < len (recv_buf c0)).
  { change (recv_buf c0) with (recv_buf c ++ data). rewrite Hrb. cbn [app].
    unfold data, framed. rewrite !len_app.
    pose proof (len_nonneg pad).
    assert (len tag.[:2] = 2) by (unfold len, tag; rewrite tag_of_hmac; reflexivity).
    assert (len (pack_le 2 (Z.lxor (len e) m14)) = 2)
      by (unfold len; rewrite length_pack_le; reflexivity).
    lia. }
  assert (Hrun : client_post_decrypt data c
                 = (Ok buf,
                    with_recv_buf []
                      (with_recv_id (Z.land (recv_id c0 + 1) 0xFFFFFFFF)
                         (with_last_server_hash tag (with_encryptor (Some ec') c2))))).
  { unfold client_post_decrypt.
    rewrite bind_gets, Hraw. rewrite bind_gets, bind_modify.
    fold c0. change (recv_buf c ++ data) with (recv_buf c0).
    destruct (length (recv_buf c0)) as [|fuel] eqn:En.
    { unfold len in Hld. rewrite En in Hld. simpl in Hld. lia. }
    pose proof (recv_loop_once client_packet fuel _ _ c0 _ Hld Hpk) as Hloop.
    cbn [recv_buf with_recv_buf] in Hloop.
    specialize (Hloop ltac:(unfold len; simpl; lia)).
    rewrite (bind_Ok _ _ _ _ _ Hloop). reflexivity. }
  eexists. eexists. eexists.
  split; [exact Hpack|]. split; [exact Hrun|].
  assert (Hf2 : c2 = c0 ∨ ∃ g, c2 = set_random RandomServer g c0)
    by (apply (recv_rnd_data_len_frame _ _ _ _ _ _ Hr2)).
  assert (Hlt : length tag = 16%nat) by (unfold tag; apply hmac_md5_length).
  split; [|destruct Hf as [->|[g ->]]; destruct Hf2 as [->|[g2 ->]];
           split; reflexivity || assumption].
  intros Hnext.
  assert (Hpid : Z.land (pack_id v + 1) 0xFFFFFFFF = pack_id v + 1).
  { change 0xFFFFFFFF with (Z.ones 32). rewrite Z.land_ones by lia.
    apply Z.mod_small. lia. }
  unfold server_to_client.
  destruct Hf as [->|[g ->]]; destruct Hf2 as [->|[g2 ->]];
    cbn; rewrite ?Hid, ?Hpid; repeat split; try assumption; try reflexivity; try lia.
Qed.

(** A data packet after the first goes through from the server to the
    client: for a server and a client paired as [server_to_client] says,
    with ciphers in step, a ciphertext [e] that is not empty and has at
    most 3575 bytes and an MSS at most 4096 above the overhead,
    [pack_server_data] gives a packet and [client_post_decrypt] gives
    back the plaintext; the two are paired again unless [pack_id] wraps. *)
Theorem client_takes_what_the_server_packs (v c : t) (uk h buf e : bytes)
    (ev ev' ec ec' : Encryptor.t) :
  server_to_client v c uk h →
  encryptor v = Some ev →
  encryptor c = Some ec →
  Encryptor.encrypt buf ev = (e, ev') →
  Encryptor.decrypt e ec = (buf, ec') →
  0 < len e ≤ 3575 →
  send_tcp_mss v - info_overhead v ≤ 4096 →
  ∃ data v' c',
    pack_server_data buf v = (Ok data, v')
    ∧ client_post_decrypt data c = (Ok buf, c')
    ∧ (pack_id v + 1 < 2 ^ 32 → server_to_client v' c' uk (last_server_hash v'))
    ∧ encryptor v' = Some ev'
    ∧ encryptor c' = Some ec'.
Proof. apply server_to_client_packet. Qed.

End with_primitives.

(** The server that sent its first reply sends ["hello"] to the client
    that took the reply and answered it. *)
Lemma client_takes_what_the_server_packs_witness :
  ∃ data,
    fst (pack_server_data (prims := plain_primitives) hello Connection.server_replied)
    = Ok data
    ∧ fst (client_post_decrypt (prims := plain_primitives) data Connection.client_answered)
      = Ok hello.
Proof.
  destruct (client_takes_what_the_server_packs (prims := plain_primitives)
              (fun _ _ => eq_refl)
              Connection.server_replied Connection.client_answered
              (bytes_repeat "k" 16) zero16 hello hello
              (Connection.cipher_of Connection.server_replied)
              (snd (Encryptor.encrypt (prims := plain_primitives) hello
                      (Connection.cipher_of Connection.server_replied)))
              (Connection.cipher_of Connection.client_answered)
              (snd (Encryptor.decrypt (prims := plain_primitives) hello
                      (Connection.cipher_of Connection.client_answered))))
    as (data & v' & c' & Hp & Hs & _).
  - unfold server_to_client.
    repeat match goal with |- _ ∧ _ => split end;
      vm_compute; first [reflexivity|discriminate].
  - vm_compute. reflexivity.
  - vm_compute. reflexivity.
  - vm_compute. reflexivity.
  - vm_compute. reflexivity.
  - vm_compute. split; [reflexivity|discriminate].
  - vm_compute. discriminate.
  - exists data. rewrite Hp, Hs. split; reflexivity.
Defined.

(** The client that took the first reply, and so has a command queued,
    sends ["hello"] to the server that sent the reply. *)
Lemma server_takes_a_packet_with_a_command_witness :
  ∃ data,
    fst (pack_client_data (prims := plain_primitives) hello Connection.client_replied)
    = Ok data
    ∧ data.[:2] = [x00; "255"%byte]
    ∧ fst (server_post_decrypt (prims := plain_primitives) data Connection.server_replied)
      = Ok (hello, false).
Proof.
  destruct (server_takes_a_packet_with_a_command (prims := plain_primitives)
              (fun _ _ => eq_refl)
              Connection.client_replied Connection.server_replied
              (bytes_repeat "k" 16) zero16 hello hello
              (Connection.cipher_of Connection.client_replied)
              (snd (Encryptor.encrypt (prims := plain_primitives) hello
                      (Connection.cipher_of Connection.client_replied)))
              (Connection.cipher_of Connection.server_replied)
              (snd (Encryptor.decrypt (prims := plain_primitives) hello
                      (Connection.cipher_of Connection.server_replied))))
    as (data & c' & v' & Hp & Hs & _).
  - unfold client_commands_server.
    repeat match goal with |- _ ∧ _ => split end;
      vm_compute; first [reflexivity|discriminate].
  - vm_compute. discriminate.
  - vm_compute. reflexivity.
  - vm_compute. reflexivity.
  - vm_compute. reflexivity.
  - vm_compute. reflexivity.
  - vm_compute. split; discriminate.
  - vm_compute. discriminate.
  - exists data. rewrite Hs. split; [rewrite Hp; reflexivity|].
    split; [|reflexivity].
    assert (Hd : fst (pack_client_data (prims := plain_primitives) hello
                        Connection.client_replied) = Ok data)
      by (rewrite Hp; reflexivity).
    vm_compute in Hd. injection Hd as <-. reflexivity.
Defined.

(** The client that sent its greeting sends ["hello"] to the server
    that took the greeting. *)
Lemma server_takes_what_the_client_packs_witness :
  ∃ data,
    fst (pack_client_data (prims := plain_primitives) hello Connection.client_greeted)
    = Ok data
    ∧ fst (server_post_decrypt (prims := plain_primitives) data Connection.server_greeted)
      = Ok (hello, false).
Proof.
  destruct (server_takes_what_the_client_packs (prims := plain_primitives)
              (fun _ _ => eq_refl)
              Connection.client_greeted Connection.server_greeted
              (bytes_repeat "k" 16) zero16 hello hello
              (Connection.cipher_of Connection.client_greeted)
              (snd (Encryptor.encrypt (prims := plain_primitives) hello
                      (Connection.cipher_of Connection.client_greeted)))
              (Connection.cipher_of Connection.server_greeted)
              (snd (Encryptor.decrypt (prims := plain_primitives) hello
                      (Connection.cipher_of Connection.server_greeted))))
    as (data & c' & v' & Hp & Hs & _).
  - unfold client_to_server.
    repeat match goal with |- _ ∧ _ => split end;
      vm_compute; first [reflexivity|discriminate].
  - vm_compute. reflexivity.
  - vm_compute. reflexivity.
  - vm_compute. reflexivity.
  - vm_compute. reflexivity.
  - vm_compute. reflexivity.
  - vm_compute. split; [reflexivity|discriminate].
  - vm_compute. discriminate.
  - exists data. rewrite Hp, Hs. split; reflexivity.
Defined.

End packet_facts.
(* ===================================================================== *)
(** ** The loops that cut a buffer into packets *)
(* ===================================================================== *)

Module chunk_facts.
Import auth_akarin_rand Steady Fixtures failure_facts bytes_facts codec_facts packet_facts.

Create HintDb steady.

Lemma struct_pack_returns (n : nat) (v : Z) : struct_pack n v ≠ Hang.
Proof. unfold struct_pack. destruct (_ && _); discriminate. Qed.

Lemma struct_unpack_returns (n : nat) (b : bytes) : struct_unpack n b ≠ Hang.
Proof. unfold struct_unpack. destruct (_ =? _)%nat; discriminate. Qed.

Lemma py_mod_returns (a b : Z) : py_mod a b ≠ Hang.
Proof. unfold py_mod. destruct (b =? 0); discriminate. Qed.

Lemma result_bind_returns {A B} (r : result A) (k : A → result B) :
  r ≠ Hang → (∀ a, k a ≠ Hang) → result_bind r k ≠ Hang.
Proof.
  intros Hr Hk. destruct r as [a| |]; simpl; [apply Hk|discriminate|].
  exfalso. apply Hr. reflexivity.
Qed.

Lemma init_from_bin_returns (bin : bytes) : xorshift128plus.init_from_bin bin ≠ Hang.
Proof.
  unfold xorshift128plus.init_from_bin.
  repeat (apply result_bind_returns; [apply struct_unpack_returns|intros ?]).
  discriminate.
Qed.

Lemma init_from_bin_len_returns (bin : bytes) (n : Z) :
  xorshift128plus.init_from_bin_len bin n ≠ Hang.
Proof.
  unfold xorshift128plus.init_from_bin_len.
  apply result_bind_returns; [apply struct_pack_returns|intros ?].
  repeat (apply result_bind_returns; [apply struct_unpack_returns|intros ?]).
  discriminate.
Qed.

Lemma py_int_returns (b : bytes) : py_int b ≠ Hang.
Proof. unfold py_int. destruct (match b with [] => _ | _ => _ end); discriminate. Qed.

Section steady.
Context {prims : primitives}.

Lemma steady_ret {A} (a : A) : steady (ret a).
Proof. intros s. split; [reflexivity|discriminate]. Qed.

Lemma steady_lift {A} (r : result A) : r ≠ Hang → steady (lift r).
Proof. intros Hr s. split; [reflexivity|exact Hr]. Qed.

Lemma steady_raise {A} (e : exn) : steady (raise (A := A) e).
Proof. intros s. split; [reflexivity|discriminate]. Qed.

Lemma steady_gets {A} (f : t → A) : steady (gets f).
Proof. intros s. split; [reflexivity|discriminate]. Qed.

Lemma steady_modify (f : t → t) : (∀ s, unit_len (f s) = unit_len s) → steady (modify f).
Proof. intros Hf s. split; [apply Hf|discriminate]. Qed.

Lemma steady_bind {A B} (m : M t A) (k : A → M t B) :
  steady m → (∀ a, steady (k a)) → steady (bind m k).
Proof.
  intros Hm Hk s. unfold bind. destruct (Hm s) as [H1 H2].
  destruct (m s) as [[a| |] s1]; cbn [fst snd] in *.
  - destruct (Hk a s1) as [H3 H4]. split; [congruence|exact H4].
  - split; [exact H1|discriminate].
  - exfalso. apply H2. reflexivity.
Qed.

(** One step on a goal [steady m], by the shape of [m]. *)
Ltac steady_step :=
  match goal with
  | |- steady (ret _) => apply steady_ret
  | |- steady (lift _) =>
      apply steady_lift;
      first [apply struct_pack_returns | apply struct_unpack_returns
            | apply py_mod_returns | apply init_from_bin_returns
            | apply init_from_bin_len_returns]
  | |- steady (raise _) => apply steady_raise
  | |- steady (gets _) => apply steady_gets
  | |- steady (modify _) => apply steady_modify; intros ?; reflexivity
  | |- steady (bind _ _) => apply steady_bind; [|intros ?]
  | |- steady (if ?b then _ else _) => destruct b
  | |- steady (match ?x with _ => _ end) => destruct x
  | |- steady _ => solve [auto with steady]
  end.

Ltac steady_all := repeat steady_step.

Lemma steady_set_random w r : steady (modify (set_random w r)).
Proof. apply steady_modify. intros s. destruct w; reflexivity. Qed.

Lemma steady_random_init_from_bin w bin : steady (random_init_from_bin w bin).
Proof. unfold random_init_from_bin. steady_all. apply steady_set_random. Qed.

Lemma steady_random_init_from_bin_len w bin n : steady (random_init_from_bin_len w bin n).
Proof. unfold random_init_from_bin_len. steady_all. apply steady_set_random. Qed.

Lemma steady_random_next w : steady (random_next w).
Proof.
  intros s. unfold random_next.
  destruct (xorshift128plus.next (get_random w s)) as [v r]. cbn [fst snd].
  split; [destruct w; reflexivity|discriminate].
Qed.

Lemma steady_rand_bytes n : steady (rand_bytes n).
Proof.
  intros s. unfold rand_bytes. destruct (Env.rand_bytes n (env s)) as [b e].
  split; [reflexivity|discriminate].
Qed.

Lemma steady_randint_0_31 : steady randint_0_31.
Proof.
  intros s. unfold randint_0_31. destruct (Env.randint32 (env s)) as [b e].
  split; [reflexivity|discriminate].
Qed.

Lemma steady_new_encryptor k m iv : steady (new_encryptor k m iv).
Proof.
  intros s. unfold new_encryptor. destruct (Encryptor.new k m iv (env s)) as [c e].
  split; [reflexivity|discriminate].
Qed.

Lemma steady_encryptor_encrypt buf : steady (encryptor_encrypt buf).
Proof.
  intros s. unfold encryptor_encrypt. destruct (encryptor s) as [c|].
  - destruct (Encryptor.encrypt buf c) as [o c']. split; [reflexivity|discriminate].
  - split; [reflexivity|discriminate].
Qed.

Lemma steady_encryptor_decrypt buf : steady (encryptor_decrypt buf).
Proof.
  intros s. unfold encryptor_decrypt. destruct (encryptor s) as [c|].
  - destruct (Encryptor.decrypt buf c) as [o c']. split; [reflexivity|discriminate].
  - split; [reflexivity|discriminate].
Qed.

Lemma steady_the_user_key : steady the_user_key.
Proof.
  intros s. unfold the_user_key. destruct (user_key s); split; reflexivity || discriminate.
Qed.

Lemma steady_time_now : steady time_now.
Proof. apply steady_gets. Qed.

Hint Resolve steady_random_init_from_bin steady_random_init_from_bin_len
  steady_random_next steady_rand_bytes steady_randint_0_31 steady_new_encryptor
  steady_encryptor_encrypt steady_encryptor_decrypt steady_the_user_key
  steady_time_now : steady.

Lemma steady_send_rnd_data_len n h w : steady (send_rnd_data_len n h w).
Proof. unfold send_rnd_data_len. steady_all. Qed.

Hint Resolve steady_send_rnd_data_len : steady.

Lemma steady_rnd_data n b h w : steady (rnd_data n b h w).
Proof. unfold rnd_data. steady_all. Qed.

Hint Resolve steady_rnd_data : steady.

Lemma steady_pack_client_data buf : steady (pack_client_data buf).
Proof. unfold pack_client_data. steady_all. Qed.

Lemma steady_pack_server_data buf : steady (pack_server_data buf).
Proof. unfold pack_server_data. steady_all. Qed.

Hint Resolve steady_pack_client_data steady_pack_server_data : steady.

Lemma steady_auth_data : steady auth_data.
Proof. unfold auth_data. steady_all. Qed.

Lemma steady_pack_auth_data a buf : steady (pack_auth_data a buf).
Proof.
  unfold pack_auth_data. steady_all;
    try (apply steady_lift; unfold unpack_H_be; apply struct_unpack_returns).
Qed.

Hint Resolve steady_auth_data steady_pack_auth_data : steady.

(** With chunks of one byte or more the loop is through after at
    most [length buf] turns. *)
Lemma chunk_loop_steady (pack : bytes → M t bytes) :
  (∀ b, steady (pack b)) →
  ∀ fuel acc buf s,
    1 ≤ unit_len s → (length buf ≤ fuel)%nat →
    unit_len (snd (chunk_loop pack fuel acc buf s)) = unit_len s
    ∧ fst (chunk_loop pack fuel acc buf s) ≠ Hang.
Proof.
  intros Hp fuel. induction fuel as [|fuel IH]; intros acc buf s Hn Hf; cbn [chunk_loop].
  - destruct (unit_len s <? len buf) eqn:E.
    + apply Z.ltb_lt in E. unfold len in E. lia.
    + split; [reflexivity|discriminate].
  - destruct (unit_len s <? len buf) eqn:E; [|split; [reflexivity|discriminate]].
    apply Z.ltb_lt in E. unfold bind.
    destruct (Hp buf.[:unit_len s] s) as [H1 H2].
    destruct (pack buf.[:unit_len s] s) as [[d| |] s1]; cbn [fst snd] in *.
    + destruct (IH (acc ++ d) buf.[unit_len s:] s1) as [H3 H4].
      * lia.
      * rewrite pyslice_from_inside by lia. rewrite length_drop. unfold len in E. lia.
      * split; [rewrite H3; exact H1|exact H4].
    + split; [exact H1|discriminate].
    + exfalso. apply H2. reflexivity.
Qed.

(** With chunks of no byte, or of less, it is never through. *)
Lemma chunk_loop_spins (pack : bytes → M t bytes) :
  (∀ b, steady (pack b)) →
  ∀ fuel acc buf s x s',
    unit_len s ≤ 0 → (unit_len s = 0 → buf ≠ []) →
    chunk_loop pack fuel acc buf s ≠ (Ok x, s').
Proof.
  intros Hp fuel. induction fuel as [|fuel IH]; intros acc buf s x s' Hn Hb;
    cbn [chunk_loop].
  - assert (E : (unit_len s <? len buf) = true).
    { apply Z.ltb_lt. pose proof (len_nonneg buf).
      destruct (Z.eq_dec (unit_len s) 0) as [Hz|Hz]; [|lia].
      destruct buf; [exfalso; apply (Hb Hz); reflexivity|].
      unfold len. simpl length. lia. }
    rewrite E. discriminate.
  - assert (E : (unit_len s <? len buf) = true).
    { apply Z.ltb_lt. pose proof (len_nonneg buf).
      destruct (Z.eq_dec (unit_len s) 0) as [Hz|Hz]; [|lia].
      destruct buf; [exfalso; apply (Hb Hz); reflexivity|].
      unfold len. simpl length. lia. }
    rewrite E. unfold bind.
    destruct (Hp buf.[:unit_len s] s) as [H1 H2].
    destruct (pack buf.[:unit_len s] s) as [[d| |] s1]; cbn [fst snd] in *;
      [|discriminate|discriminate].
    apply IH.
    + lia.
    + intros Hz. rewrite H1 in Hz. rewrite Hz.
      rewrite pyslice_from_inside by (pose proof (len_nonneg buf); lia).
      simpl. apply Hb. exact Hz.
Qed.

Lemma bind_comes_back {A B} (m : M t A) (k : A → M t B) (s : t) :
  fst (m s) ≠ Hang →
  (∀ a s1, m s = (Ok a, s1) → fst (k a s1) ≠ Hang) →
  fst (bind m k s) ≠ Hang.
Proof.
  intros Hm Hk. unfold bind. destruct (m s) as [[a| |] s1] eqn:E; cbn [fst] in *.
  - apply (Hk a s1). reflexivity.
  - discriminate.
  - exfalso. apply Hm. reflexivity.
Qed.

Lemma client_pre_encrypt_comes_back (buf : bytes) (s : t) :
  1 ≤ unit_len s → fst (client_pre_encrypt buf s) ≠ Hang.
Proof.
  intros Hn. unfold client_pre_encrypt. rewrite bind_gets.
  match goal with
  | |- fst (bind ?m _ s) ≠ Hang => assert (Hhead : steady m) by (cbv zeta; steady_all)
  end.
  apply bind_comes_back; [apply Hhead|].
  intros [r0 b0] s1 Hm.
  assert (Hu : unit_len s1 = unit_len s).
  { destruct (Hhead s) as [H1 _]. rewrite Hm in H1. exact H1. }
  apply bind_comes_back.
  - apply (chunk_loop_steady pack_client_data steady_pack_client_data); lia.
  - intros [r1 b1] s2 Hc.
    apply bind_comes_back; [apply steady_pack_client_data|].
    intros p s3 _. discriminate.
Qed.

Lemma server_pre_encrypt_comes_back (buf : bytes) (s : t) :
  (if pack_id s =? 1
   then client_over_head s < Z.min (ServerInfo.tcp_mss (server_info s)) 1500
   else 1 ≤ unit_len s) →
  fst (server_pre_encrypt buf s) ≠ Hang.
Proof.
  intros Hn. unfold server_pre_encrypt. rewrite bind_gets.
  destruct (raw_trans s); [discriminate|].
  rewrite bind_gets.
  apply bind_comes_back.
  - destruct (pack_id s =? 1); [|discriminate].
    rewrite bind_gets. cbv zeta. rewrite bind_modify.
    apply bind_comes_back; [apply struct_pack_returns|].
    intros m s1 _. rewrite bind_gets, bind_modify, bind_modify. discriminate.
  - intros b0 s1 Hm.
    assert (Hu : 1 ≤ unit_len s1).
    { destruct (pack_id s =? 1).
      - rewrite bind_gets in Hm. cbv zeta in Hm. rewrite bind_modify in Hm.
        unfold bind at 1 in Hm. unfold lift at 1 in Hm.
        destruct (pack_H _) as [m| |]; [|discriminate|discriminate].
        rewrite bind_gets, bind_modify, bind_modify in Hm.
        injection Hm as _ <-.
        cbn [unit_len with_new_send_tcp_mss with_unit_len client_over_head
               with_server_info].
        destruct (ServerInfo.tcp_mss (server_info s) <? 1500) eqn:E;
          [apply Z.ltb_lt in E|apply Z.ltb_ge in E]; lia.
      - injection Hm as _ <-. exact Hn. }
    apply bind_comes_back.
    + apply (chunk_loop_steady pack_server_data steady_pack_server_data); lia.
    + intros [r1 b1] s2 Hc.
      apply bind_comes_back; [apply steady_pack_server_data|].
      intros p s3 _. discriminate.
Qed.

(** The loop that cuts a buffer into packets ends.  With a [unit_len]
    of at least 1, [len(buf)] turns are enough for [client_pre_encrypt]
    to be through its loop, and for [server_pre_encrypt]; on its first
    packet the server sets [unit_len] itself, to the MSS less the
    client's overhead, which has to be below the MSS. *)
Theorem the_chunk_loops_end (buf : bytes) (s : t) :
  (1 ≤ unit_len s → fst (client_pre_encrypt buf s) ≠ Hang)
  ∧ (pack_id s ≠ 1 → 1 ≤ unit_len s → fst (server_pre_encrypt buf s) ≠ Hang)
  ∧ (pack_id s = 1 →
     client_over_head s < Z.min (ServerInfo.tcp_mss (server_info s)) 1500 →
     fst (server_pre_encrypt buf s) ≠ Hang).
Proof.
  split; [apply client_pre_encrypt_comes_back|]. split.
  - intros Hp Hn. apply server_pre_encrypt_comes_back.
    apply Z.eqb_neq in Hp. rewrite Hp. exact Hn.
  - intros Hp Hn. apply server_pre_encrypt_comes_back.
    apply Z.eqb_eq in Hp. rewrite Hp. exact Hn.
Qed.

Lemma server_pre_encrypt_spins (buf : bytes) (s : t) (x : bytes) (s' : t) :
  raw_trans s = false →
  pack_id s = 1 →
  Z.min (ServerInfo.tcp_mss (server_info s)) 1500 ≤ client_over_head s →
  server_pre_encrypt buf s ≠ (Ok x, s').
Proof.
  intros Hraw Hp Hn. unfold server_pre_encrypt. rewrite bind_gets, Hraw.
  rewrite bind_gets, Hp. change (1 =? 1) with true. cbv iota.
  rewrite bind_assoc, bind_gets. cbv zeta. rewrite bind_assoc, bind_modify.
  rewrite bind_assoc. unfold bind at 1. unfold lift at 1.
  destruct (pack_H _) as [m| |] eqn:Em; [|discriminate|discriminate].
  rewrite bind_assoc, bind_gets, bind_assoc, bind_modify, bind_assoc, bind_modify.
  rewrite bind_ret.
  assert (Hm : length m = 2%nat).
  { unfold pack_H, struct_pack in Em. destruct (_ && _) in Em; [|discriminate].
    injection Em as <-. reflexivity. }
  unfold bind at 1.
  match goal with
  | |- context [chunk_loop ?p ?f ?a ?b ?s0] =>
      pose proof (chunk_loop_spins p steady_pack_server_data f a b s0) as Hspin;
      destruct (chunk_loop p f a b s0) as [[[r1 b1]| |] s2] eqn:Ec
  end; [|discriminate|discriminate].
  exfalso. apply (Hspin (r1, b1) s2); [| |reflexivity].
  - cbn [unit_len with_new_send_tcp_mss with_unit_len client_over_head with_server_info].
    destruct (ServerInfo.tcp_mss (server_info s) <? 1500) eqn:E;
      [apply Z.ltb_lt in E|apply Z.ltb_ge in E]; lia.
  - intros _. destruct m; [discriminate|]. discriminate.
Qed.

(** With a [unit_len] of 0 or less the loop never ends: whatever number
    of turns it is given, it has not returned.  The server computes
    [unit_len] as its MSS, at most 1500, less the overhead that the
    client named in its handshake: when that overhead is the MSS or more,
    the first [server_pre_encrypt] of the connection does not return. *)
Theorem server_pre_encrypt_never_returns_on_a_large_overhead (buf : bytes) (s : t) :
  raw_trans s = false →
  pack_id s = 1 →
  Z.min (ServerInfo.tcp_mss (server_info s)) 1500 ≤ client_over_head s →
  (∀ x s', server_pre_encrypt buf s ≠ (Ok x, s'))
  ∧ (∀ fuel acc b s0 x s',
       unit_len s0 ≤ 0 → (unit_len s0 = 0 → b ≠ []) →
       chunk_loop pack_server_data fuel acc b s0 ≠ (Ok x, s')).
Proof.
  intros Hraw Hp Hn. split.
  - intros x s'. apply server_pre_encrypt_spins; assumption.
  - intros fuel acc b s0 x s'. apply chunk_loop_spins. apply steady_pack_server_data.
Qed.

(** The parts of the two receive methods that have no loop. *)
Lemma steady_recv_rnd_data_len n h w : steady (recv_rnd_data_len n h w).
Proof. unfold recv_rnd_data_len. steady_all. Qed.

Lemma steady_fail_raise {A} msg : steady (fail_raise (A := A) msg).
Proof. unfold fail_raise. steady_all. Qed.

Lemma steady_fail_poison {A} msg : steady (fail_poison (A := A) msg).
Proof. unfold fail_poison. steady_all. Qed.

Lemma steady_not_match_return buf : steady (not_match_return buf).
Proof. unfold not_match_return. steady_all. Qed.

Hint Resolve steady_recv_rnd_data_len steady_fail_raise steady_fail_poison
  steady_not_match_return : steady.

Lemma steady_client_packet out : steady (client_packet out).
Proof. unfold client_packet. steady_all. Qed.

Lemma steady_server_handshake : steady server_handshake.
Proof. unfold server_handshake, on_recv_auth_data. steady_all. Qed.

End steady.

(** The forty bytes of the greeting from a fresh client, and ["hello"]
    from the server that took them. *)
Lemma the_chunk_loops_end_witness :
  fst (client_pre_encrypt (prims := plain_primitives) Connection.greeting fresh_session)
  ≠ Hang
  ∧ fst (server_pre_encrypt (prims := plain_primitives) hello Connection.server_greeted)
    ≠ Hang.
Proof.
  split.
  - apply (proj1 (the_chunk_loops_end (prims := plain_primitives)
                    Connection.greeting fresh_session)).
    vm_compute. discriminate.
  - apply (proj2 (proj2 (the_chunk_loops_end (prims := plain_primitives)
                           hello Connection.server_greeted))).
    + vm_compute. reflexivity.
    + vm_compute. reflexivity.
Defined.

(** The server that took a handshake naming an overhead of 1500, with
    an MSS of 1460, is asked to send ["hello"]. *)
Lemma server_pre_encrypt_never_returns_on_a_large_overhead_witness :
  client_over_head Connection.server_roomy = 1500
  ∧ ∀ x s', server_pre_encrypt (prims := plain_primitives) hello Connection.server_roomy
            ≠ (Ok x, s').
Proof.
  split; [vm_compute; reflexivity|].
  apply (server_pre_encrypt_never_returns_on_a_large_overhead (prims := plain_primitives)
           hello Connection.server_roomy).
  - vm_compute. reflexivity.
  - vm_compute. reflexivity.
  - vm_compute. discriminate.
Defined.

End chunk_facts.
(* ===================================================================== *)
(** ** [match_begin] and the lists of [auth_akarin_spec_a] *)
(* ===================================================================== *)

Module prefix_facts.
Import bytes_facts codec_facts.

Lemma chars_eqb_eq (a b : list Ascii.ascii) : chars_eqb a b = true ↔ a = b.
Proof.
  revert b. induction a as [|x a IH]; intros [|y b]; simpl; split; intros H;
    try reflexivity; try discriminate.
  - apply andb_prop in H. destruct H as [H1 H2].
    apply Ascii.eqb_eq in H1. apply IH in H2. subst. reflexivity.
  - injection H as -> ->. apply andb_true_intro. split.
    + apply Ascii.eqb_eq. reflexivity.
    + apply IH. reflexivity.
Qed.

(** [match_begin(str1, str2)] tells whether [str1] starts with [str2]. *)
Theorem match_begin_is_the_prefix_test (str1 str2 : list Ascii.ascii) :
  match_begin str1 str2 = true ↔ ∃ rest, str1 = str2 ++ rest.
Proof.
  unfold match_begin. split.
  - destruct (len str2 <=? len str1) eqn:E; [|discriminate].
    apply Z.leb_le in E.
    destruct (chars_eqb str1.[:len str2] str2) eqn:Ec; [|discriminate].
    intros _. apply chars_eqb_eq in Ec.
    rewrite pyslice_to_inside in Ec by (pose proof (len_nonneg str2); lia).
    exists (drop (Z.to_nat (len str2)) str1).
    rewrite <- Ec at 1. symmetry. apply take_drop.
  - intros [rest ->].
    assert (E : (len str2 <=? len (str2 ++ rest)) = true).
    { apply Z.leb_le. unfold len. rewrite length_app. lia. }
    rewrite E.
    assert (Ec : chars_eqb (str2 ++ rest).[:len str2] str2 = true).
    { apply chars_eqb_eq.
      rewrite pyslice_to_inside by (unfold len; rewrite length_app; lia).
      unfold len. rewrite Nat2Z.id. apply take_app_length. }
    rewrite Ec. reflexivity.
Qed.

End prefix_facts.

Module spec_a_facts.
Import auth_akarin_spec_a bytes_facts codec_facts.

(** *** Sorting *)

Lemma insert_sorted_perm (x : Z) (l : list Z) : Permutation (insert_sorted x l) (x :: l).
Proof.
  induction l as [|y l IH]; simpl; [reflexivity|].
  destruct (x <=? y); [reflexivity|].
  rewrite IH. apply perm_swap.
Qed.

Lemma sort_perm (l : list Z) : Permutation (sort l) l.
Proof.
  induction l as [|x l IH]; simpl; [reflexivity|].
  rewrite insert_sorted_perm. rewrite IH. reflexivity.
Qed.

Lemma insert_sorted_ascending (x : Z) (l : list Z) :
  ascending l → ascending (insert_sorted x l).
Proof.
  induction l as [|y l IH]; simpl; intros Hl.
  - split; [constructor|exact I].
  - destruct Hl as [Hy Hl]. destruct (x <=? y) eqn:E.
    + apply Z.leb_le in E. simpl. split; [|split; assumption].
      constructor; [exact E|].
      eapply Forall_impl; [exact Hy|]. simpl. intros z Hz. lia.
    + apply Z.leb_gt in E. simpl. split; [|apply IH; exact Hl].
      rewrite (insert_sorted_perm x l). constructor; [lia|exact Hy].
Qed.

Lemma sort_ascending (l : list Z) : ascending (sort l).
Proof.
  induction l as [|x l IH]; simpl; [exact I|].
  apply insert_sorted_ascending. exact IH.
Qed.

Lemma ascending_nth (l : list Z) :
  ascending l → ∀ i j, (i ≤ j < length l)%nat → nth i l 0 ≤ nth j l 0.
Proof.
  induction l as [|x l IH]; intros Hl i j Hij; simpl in Hij; [lia|].
  destruct Hl as [Hx Hl].
  destruct j as [|j]; [assert (i = 0%nat) by lia; subst; simpl; lia|].
  destruct i as [|i].
  - simpl. rewrite Forall_forall in Hx. apply Hx.
    apply list_elem_of_In. apply nth_In. lia.
  - simpl. apply IH; [exact Hl|lia].
Qed.

(** *** The binary search *)

Lemma bisect_loop_spec (a : list Z) (x : Z) :
  ascending a →
  ∀ fuel lo hi,
    0 ≤ lo ≤ hi → hi ≤ len a → hi - lo ≤ Z.of_nat fuel →
    (∀ i, (i < Z.to_nat lo)%nat → nth i a 0 < x) →
    (∀ i, (Z.to_nat hi ≤ i < length a)%nat → x ≤ nth i a 0) →
    lo ≤ bisect_loop fuel a x lo hi ≤ hi
    ∧ (∀ i, (i < Z.to_nat (bisect_loop fuel a x lo hi))%nat → nth i a 0 < x)
    ∧ (∀ i, (Z.to_nat (bisect_loop fuel a x lo hi) ≤ i < length a)%nat → x ≤ nth i a 0).
Proof.
  intros Ha fuel. induction fuel as [|fuel IH]; intros lo hi Hlh Hhi Hf Hlo Hup;
    cbn [bisect_loop].
  - assert (lo = hi) by lia. subst hi. split; [lia|]. split; assumption.
  - destruct (lo <? hi) eqn:E.
    + apply Z.ltb_lt in E.
      assert (Hmid : lo ≤ (lo + hi) / 2 < hi).
      { split; [apply Z.div_le_lower_bound; lia|apply Z.div_lt_upper_bound; lia]. }
      set (mid := (lo + hi) / 2) in *.
      destruct (nth (Z.to_nat mid) a 0 <? x) eqn:Em.
      * apply Z.ltb_lt in Em.
        destruct (IH (mid + 1) hi) as (H1 & H2 & H3); try lia.
        { intros i Hi.
          pose proof (ascending_nth a Ha i (Z.to_nat mid)) as Hn.
          unfold len in Hhi. specialize (Hn ltac:(lia)). lia. }
        { exact Hup. }
        split; [lia|]. split; assumption.
      * apply Z.ltb_ge in Em.
        destruct (IH lo mid) as (H1 & H2 & H3); try lia.
        { exact Hlo. }
        { intros i Hi.
          pose proof (ascending_nth a Ha (Z.to_nat mid) i) as Hn.
          specialize (Hn ltac:(lia)). lia. }
        split; [lia|]. split; assumption.
    + apply Z.ltb_ge in E. assert (lo = hi) by lia. subst hi.
      split; [lia|]. split; assumption.
Qed.

(** On a list in ascending order [bisect_left] finds the place where
    the values turn from below [x] to [x] or more. *)
Lemma bisect_left_spec (a : list Z) (x : Z) :
  ascending a →
  0 ≤ bisect_left a x ≤ len a
  ∧ (∀ i, (i < Z.to_nat (bisect_left a x))%nat → nth i a 0 < x)
  ∧ (∀ i, (Z.to_nat (bisect_left a x) ≤ i < length a)%nat → x ≤ nth i a 0).
Proof.
  intros Ha. unfold bisect_left.
  apply (bisect_loop_spec a x Ha (length a) 0 (len a)).
  - pose proof (len_nonneg a). lia.
  - lia.
  - unfold len. lia.
  - intros i Hi. simpl in Hi. lia.
  - intros i Hi. unfold len in Hi. lia.
Qed.

(** *** The lists *)

Lemma draw_sizes_spec (n : nat) (r : xorshift128plus.t) :
  length (fst (draw_sizes n r)) = n
  ∧ Forall (fun v => 0 ≤ v < 1440) (fst (draw_sizes n r)).
Proof.
  revert r. induction n as [|n IH]; intros r; cbn [draw_sizes].
  - split; [reflexivity|constructor].
  - destruct (xorshift128plus.next r) as [v r1].
    destruct (IH r1) as [H1 H2]. destruct (draw_sizes n r1) as [l r2].
    cbn [fst] in *. split; [simpl; congruence|].
    constructor; [apply Z.mod_pos_bound; lia|exact H2].
Qed.

Lemma sizes_sorted (l : list Z) (n : nat) :
  length l = n → Forall (fun v => 0 ≤ v < 1440) l →
  ascending (sort l) ∧ Forall (fun v => 0 ≤ v < 1440) (sort l) ∧ length (sort l) = n.
Proof.
  intros Hl Hf. split; [apply sort_ascending|]. split.
  - rewrite (sort_perm l). exact Hf.
  - rewrite (Permutation_length (sort_perm l)). exact Hl.
Qed.

Lemma init_data_size_fresh (key : bytes) (b : auth_akarin_rand.t) :
  ∃ s', init_data_size key {| base := b; data_size_list := []; data_size_list2 := [] |}
        = Ok s'
        ∧ base s' = b ∧ sizes_ready s'.
Proof.
  unfold init_data_size. cbn [data_size_list data_size_list2 base app].
  rewrite generator_facts.init_from_bin_reads. cbn [result_bind].
  destruct (xorshift128plus.next _) as [v1 r1].
  pose proof (Z.mod_pos_bound v1 8 ltac:(lia)) as Hv1.
  destruct (draw_sizes_spec (Z.to_nat (v1 mod 8 + 4)) r1) as [Hl1 Hf1].
  destruct (draw_sizes (Z.to_nat (v1 mod 8 + 4)) r1) as [l1 r2]. cbn [fst] in *.
  destruct (xorshift128plus.next r2) as [v2 r3].
  pose proof (Z.mod_pos_bound v2 16 ltac:(lia)) as Hv2.
  destruct (draw_sizes_spec (Z.to_nat (v2 mod 16 + 8)) r3) as [Hl2 Hf2].
  destruct (draw_sizes (Z.to_nat (v2 mod 16 + 8)) r3) as [l2 r4]. cbn [fst] in *.
  eexists. split; [reflexivity|]. split; [reflexivity|].
  destruct (sizes_sorted l1 _ Hl1 Hf1) as (A1 & F1 & L1).
  destruct (sizes_sorted l2 _ Hl2 Hf2) as (A2 & F2 & L2).
  unfold sizes_ready. cbn [data_size_list data_size_list2].
  unfold len. rewrite L1, L2.
  repeat split; try assumption; lia.
Qed.

Lemma init_data_size_again (key : bytes) (s : t) :
  (data_size_list s = [] → data_size_list2 s = []) →
  init_data_size key s
  = init_data_size key {| base := base s; data_size_list := []; data_size_list2 := [] |}.
Proof.
  intros He. unfold init_data_size. cbn [data_size_list data_size_list2 base].
  destruct (data_size_list s) as [|x l]; [|reflexivity].
  rewrite (He eq_refl). reflexivity.
Qed.

(** [init_data_size] leaves two lists in ascending order, the first of
    4 to 11 sizes and the second of 8 to 23, each size from 0 to 1439.
    The lists are made from the key alone: what the object held before
    is dropped, so that calling it again with the same key changes
    nothing. *)
Theorem init_data_size_makes_the_lists (key : bytes) (s : t) :
  (data_size_list s = [] → data_size_list2 s = []) →
  ∃ s',
    init_data_size key s = Ok s'
    ∧ base s' = base s
    ∧ sizes_ready s'
    ∧ init_data_size key s' = Ok s'.
Proof.
  intros He. rewrite (init_data_size_again key s He).
  destruct (init_data_size_fresh key (base s)) as (s' & Hs & Hb & Hr).
  exists s'. split; [exact Hs|]. split; [exact Hb|]. split; [exact Hr|].
  rewrite init_data_size_again.
  - rewrite Hb. exact Hs.
  - intros Hn. destruct Hr as (_ & _ & _ & _ & Hl & _).
    rewrite Hn in Hl. unfold len in Hl. simpl in Hl. lia.
Qed.

(** *** The padding lengths *)

Lemma gbind_gets {S A B} (f : S → A) (k : A → M S B) (s : S) :
  bind (gets f) k s = k (f s) s.
Proof. reflexivity. Qed.

Lemma gbind_Ok {S A B} (m : M S A) (k : A → M S B) (s : S) (a : A) (s' : S) :
  m s = (Ok a, s') → bind m k s = k a s'.
Proof. intros Hm. unfold bind. rewrite Hm. reflexivity. Qed.

Lemma gbind_lift_Ok {S A B} (r : result A) (a : A) (k : A → M S B) (s : S) :
  r = Ok a → bind (lift r) k s = k a s.
Proof. intros ->. reflexivity. Qed.

Lemma on_base_seed (w : auth_akarin_rand.which_random) (h : bytes) (n : Z) (s : t)
    (g : xorshift128plus.t) :
  xorshift128plus.init_from_bin_len h n = Ok g →
  on_base (auth_akarin_rand.random_init_from_bin_len w h n) s
  = (Ok tt, with_base (auth_akarin_rand.set_random w g (base s)) s).
Proof.
  intros Hg. unfold on_base, auth_akarin_rand.random_init_from_bin_len, bind, lift, modify.
  rewrite Hg. reflexivity.
Qed.

Lemma on_base_draw (w : auth_akarin_rand.which_random) (s : t) :
  ∃ v g, on_base (auth_akarin_rand.random_next w) s
         = (Ok v, with_base (auth_akarin_rand.set_random w g (base s)) s).
Proof.
  unfold on_base, auth_akarin_rand.random_next.
  destruct (xorshift128plus.next _) as [v g]. exists v, g. reflexivity.
Qed.

Lemma same_lists_set_random w g s :
  same_lists s (with_base (auth_akarin_rand.set_random w g (base s)) s).
Proof. destruct w; repeat split; reflexivity. Qed.

Lemma same_lists_trans a b c : same_lists a b → same_lists b c → same_lists a c.
Proof. intros (H1 & H2 & H3) (H4 & H5 & H6). repeat split; congruence. Qed.

(** An item of a list at or after the place [bisect_left] finds. *)
Lemma item_after_bisect (l : list Z) (x r : Z) :
  ascending l → 0 ≤ r → bisect_left l x + r < len l →
  ∃ v, item l (bisect_left l x + r) = Ok v ∧ x ≤ v ∧ In v l.
Proof.
  intros Ha Hr Hlt. destruct (bisect_left_spec l x Ha) as (Hp & _ & Hup).
  unfold item, len in *.
  assert (Hi : (Z.to_nat (bisect_left l x + r) < length l)%nat) by lia.
  rewrite (nth_error_nth' l 0 Hi).
  eexists. split; [reflexivity|]. split.
  - apply Hup. lia.
  - apply nth_In. exact Hi.
Qed.

Lemma size_from_lists_ok (n : Z) (h : bytes) (w : auth_akarin_rand.which_random) (s : t) :
  sizes_ready s → 0 ≤ n < 65536 →
  ∃ rl s',
    size_from_lists n h w s = (Ok rl, s')
    ∧ 0 ≤ rl
    ∧ same_lists s s'
    ∧ (In (n + auth_akarin_rand.info_overhead (base s) + rl) (data_size_list s)
       ∨ In (n + auth_akarin_rand.info_overhead (base s) + rl) (data_size_list2 s)
       ∨ rl < 1021).
Proof.
  intros (A1 & A2 & _ & _ & L1 & L2) Hn.
  set (over := auth_akarin_rand.info_overhead (base s)).
  unfold size_from_lists. rewrite gbind_gets. fold over.
  destruct (init_from_bin_len_ok h n Hn) as [g Hg].
  rewrite (gbind_Ok _ _ _ _ _ (on_base_seed w h n s g Hg)).
  set (s1 := with_base (auth_akarin_rand.set_random w g (base s)) s).
  assert (S1 : same_lists s s1) by apply same_lists_set_random.
  rewrite gbind_gets. change (data_size_list s1) with (data_size_list s). cbv zeta.
  destruct (on_base_draw w s1) as (v1 & g1 & Hd1).
  rewrite (gbind_Ok _ _ _ _ _ Hd1).
  set (s2 := with_base (auth_akarin_rand.set_random w g1 (base s1)) s1) in *.
  assert (S2 : same_lists s s2)
    by (apply (same_lists_trans _ _ _ S1); apply same_lists_set_random).
  assert (E1 : py_mod v1 (len (data_size_list s)) = Ok (v1 mod len (data_size_list s))).
  { unfold py_mod. destruct (len (data_size_list s) =? 0) eqn:E; [|reflexivity].
    apply Z.eqb_eq in E. lia. }
  rewrite (gbind_lift_Ok _ _ _ _ E1).
  pose proof (Z.mod_pos_bound v1 (len (data_size_list s)) ltac:(lia)) as Hr1.
  destruct (bisect_left (data_size_list s) (n + over) + v1 mod len (data_size_list s)
            <? len (data_size_list s)) eqn:Ef1.
  { apply Z.ltb_lt in Ef1.
    destruct (item_after_bisect _ (n + over) _ A1 (proj1 Hr1) Ef1) as (v & Hv & Hge & Hin).
    rewrite (gbind_lift_Ok _ _ _ _ Hv).
    exists (v - n - over), s2. split; [reflexivity|]. split; [lia|]. split; [exact S2|].
    left. replace (n + over + (v - n - over)) with v by lia. exact Hin. }
  rewrite gbind_gets. change (data_size_list2 s2) with (data_size_list2 s).
  destruct (on_base_draw w s2) as (v2 & g2 & Hd2).
  rewrite (gbind_Ok _ _ _ _ _ Hd2).
  set (s3 := with_base (auth_akarin_rand.set_random w g2 (base s2)) s2) in *.
  assert (S3 : same_lists s s3)
    by (apply (same_lists_trans _ _ _ S2); apply same_lists_set_random).
  assert (E2 : py_mod v2 (len (data_size_list2 s)) = Ok (v2 mod len (data_size_list2 s))).
  { unfold py_mod. destruct (len (data_size_list2 s) =? 0) eqn:E; [|reflexivity].
    apply Z.eqb_eq in E. lia. }
  rewrite (gbind_lift_Ok _ _ _ _ E2).
  pose proof (Z.mod_pos_bound v2 (len (data_size_list2 s)) ltac:(lia)) as Hr2.
  destruct (bisect_left (data_size_list2 s) (n + over) + v2 mod len (data_size_list2 s)
            <? len (data_size_list2 s)) eqn:Ef2.
  { apply Z.ltb_lt in Ef2.
    destruct (item_after_bisect _ (n + over) _ A2 (proj1 Hr2) Ef2) as (v & Hv & Hge & Hin).
    rewrite (gbind_lift_Ok _ _ _ _ Hv).
    exists (v - n - over), s3. split; [reflexivity|]. split; [lia|]. split; [exact S3|].
    right. left. replace (n + over + (v - n - over)) with v by lia. exact Hin. }
  destruct (_ <? _ + len (data_size_list2 s) - 1).
  { exists 0, s3. split; [reflexivity|]. split; [lia|]. split; [exact S3|].
    right. right. lia. }
  destruct (on_base_draw w s3) as (v3 & g3 & Hd3).
  assert (S4 : same_lists s (with_base (auth_akarin_rand.set_random w g3 (base s3)) s3))
    by (apply (same_lists_trans _ _ _ S3); apply same_lists_set_random).
  assert (Hm : ∀ d, 0 < d ≤ 1021 →
            ∃ rl s',
              bind (on_base (auth_akarin_rand.random_next w))
                (fun r => lift (py_mod r d)) s3 = (Ok rl, s')
              ∧ 0 ≤ rl
              ∧ same_lists s s'
              ∧ (In (n + over + rl) (data_size_list s)
                 ∨ In (n + over + rl) (data_size_list2 s) ∨ rl < 1021)).
  { intros d Hd. rewrite (gbind_Ok _ _ _ _ _ Hd3).
    unfold lift, py_mod. destruct (d =? 0) eqn:E; [apply Z.eqb_eq in E; lia|].
    pose proof (Z.mod_pos_bound v3 d ltac:(lia)).
    eexists. eexists. split; [reflexivity|]. split; [lia|]. split; [exact S4|].
    right. right. lia. }
  destruct (1300 <? n); [apply Hm; lia|].
  destruct (900 <? n); [apply Hm; lia|].
  destruct (400 <? n); [apply Hm; lia|].
  apply Hm; lia.
Qed.

Lemma send_rnd_data_len_ok (n : Z) (h : bytes) (w : auth_akarin_rand.which_random)
    (s : t) :
  sizes_ready s → 0 ≤ n < 65536 →
  ∃ rl s',
    send_rnd_data_len n h w s = (Ok rl, s')
    ∧ 0 ≤ rl
    ∧ data_size_list s' = data_size_list s
    ∧ data_size_list2 s' = data_size_list2 s
    ∧ (In (n + auth_akarin_rand.info_overhead (base s) + rl) (data_size_list s)
       ∨ In (n + auth_akarin_rand.info_overhead (base s) + rl) (data_size_list2 s)
       ∨ rl < 1021).
Proof.
  intros Hr Hn. unfold send_rnd_data_len. rewrite !gbind_gets.
  destruct (_ <? _).
  { destruct (init_from_bin_len_ok h n Hn) as [g Hg].
    rewrite (gbind_Ok _ _ _ _ _ (on_base_seed w h n s g Hg)).
    destruct (on_base_draw w (with_base (auth_akarin_rand.set_random w g (base s)) s))
      as (v & g1 & Hd).
    rewrite (gbind_Ok _ _ _ _ _ Hd).
    pose proof (Z.mod_pos_bound v 521 ltac:(lia)).
    eexists. eexists. split; [reflexivity|]. split; [lia|].
    split; [reflexivity|]. split; [reflexivity|]. right. right. lia. }
  destruct (_ || _).
  { exists 0, s. split; [reflexivity|]. split; [lia|].
    split; [reflexivity|]. split; [reflexivity|]. right. right. lia. }
  destruct (size_from_lists_ok n h w s Hr Hn) as (rl & s' & Hs & H0 & (S1 & S2 & _) & Hin).
  exists rl, s'. repeat split; assumption.
Qed.

(** With the lists that [init_data_size] made, the variant's
    [send_rnd_data_len] gives a padding length for every size that fits a
    length word, without an error, and never a negative one: the size of
    the packet with its overhead and its padding is one of the sizes in
    the two lists, or else the padding is below 1021.  The lists are left
    as they were. *)
Theorem spec_a_padding_is_from_the_lists (n : Z) (h : bytes)
    (w : auth_akarin_rand.which_random) (s : t) :
  sizes_ready s → 0 ≤ n < 65536 →
  ∃ rl s',
    send_rnd_data_len n h w s = (Ok rl, s')
    ∧ 0 ≤ rl
    ∧ data_size_list s' = data_size_list s
    ∧ data_size_list2 s' = data_size_list2 s
    ∧ (In (n + auth_akarin_rand.info_overhead (base s) + rl) (data_size_list s)
       ∨ In (n + auth_akarin_rand.info_overhead (base s) + rl) (data_size_list2 s)
       ∨ rl < 1021).
Proof. apply send_rnd_data_len_ok. Qed.

(** An object of the variant with the key of sixteen ["k"]: the lists
    its [init_data_size] makes. *)
Lemma init_data_size_makes_the_lists_witness :
  ∃ s',
    init_data_size (bytes_repeat "k" 16) Variant.spec_a_fresh = Ok s'
    ∧ data_size_list s' = [128; 163; 214; 339; 420; 512]
    ∧ data_size_list2 s'
      = [53; 60; 76; 177; 254; 261; 264; 398; 599; 616; 692; 971; 1101; 1298].
Proof.
  destruct (init_data_size_makes_the_lists (bytes_repeat "k" 16) Variant.spec_a_fresh)
    as (s' & Hs & _).
  - intros _. reflexivity.
  - exists s'. split; [exact Hs|].
    vm_compute in Hs. injection Hs as <-. split; reflexivity.
Defined.

(** The same object after [set_server_info], and a packet of 100 bytes:
    with the overhead of 4 and the padding it has one of the sizes of the
    first list. *)
Lemma spec_a_padding_is_from_the_lists_witness :
  ∃ rl s',
    send_rnd_data_len 100 zero16 auth_akarin_rand.RandomClient Variant.spec_a_ready
    = (Ok rl, s')
    ∧ 0 ≤ rl.
Proof.
  destruct (spec_a_padding_is_from_the_lists 100 zero16 auth_akarin_rand.RandomClient
              Variant.spec_a_ready) as (rl & s' & Hs & H0 & _).
  - destruct (init_data_size_fresh (bytes_repeat "k" 16)
                (base (snd (set_server_info (Fixtures.host_info 4 1460)
                              Variant.spec_a_fresh))))
      as (s1 & Hs1 & _ & Hr).
    vm_compute in Hs1. injection Hs1 as <-. exact Hr.
  - lia.
  - exists rl, s'. split; [exact Hs|exact H0].
Defined.

End spec_a_facts.
(* ===================================================================== *)
(** ** The first packet of the client *)
(* ===================================================================== *)

Module handshake_facts.
Import auth_akarin_rand Fixtures failure_facts bytes_facts codec_facts packet_facts.

Section with_primitives.
Context {prims : primitives}.

(** The end of [auth_data]: the connection id goes up by one and the
    three fields are put together. *)
Lemma auth_data_tail (utc : Z) (s : t) :
  0 ≤ utc < 2 ^ 32 →
  0 ≤ obfs_auth_akarin_data.connection_id (info_data s) < 2 ^ 32 - 1 →
  (let* d := gets info_data in
   modify (set_info_data
             (obfs_auth_akarin_data.set_connection_id
                (obfs_auth_akarin_data.connection_id d + 1) d)) ;;
   let* u := lift (pack_I utc) in
   let* d := gets info_data in
   let* c := lift (pack_I (obfs_auth_akarin_data.connection_id d)) in
   ret (u ++ obfs_auth_akarin_data.local_client_id d ++ c)) s
  = (Ok (pack_le 4 utc
         ++ obfs_auth_akarin_data.local_client_id (info_data s)
         ++ pack_le 4 (obfs_auth_akarin_data.connection_id (info_data s) + 1)),
     set_info_data
       (obfs_auth_akarin_data.set_connection_id
          (obfs_auth_akarin_data.connection_id (info_data s) + 1) (info_data s)) s).
Proof.
  intros Hu Hc. rewrite bind_gets, bind_modify.
  rewrite (bind_lift_Ok _ _ _ _ (pack_I_ok utc Hu)).
  rewrite bind_gets.
  cbn [info_data set_info_data server_info with_server_info ServerInfo.data
         ServerInfo.set_data obfs_auth_akarin_data.connection_id
         obfs_auth_akarin_data.local_client_id obfs_auth_akarin_data.set_connection_id].
  rewrite (bind_lift_Ok _ _ _ _
             (pack_I_ok (obfs_auth_akarin_data.connection_id (info_data s) + 1)
                ltac:(lia))).
  reflexivity.
Qed.

Lemma time_is_32_bits (now : Z) : 0 ≤ Z.land now 0xFFFFFFFF < 2 ^ 32.
Proof.
  change 0xFFFFFFFF with (Z.ones 32). rewrite Z.land_ones by lia.
  apply Z.mod_pos_bound. lia.
Qed.

(** [auth_data] when a new client id is drawn. *)
Lemma auth_data_draws (s : t) :
  obfs_auth_akarin_data.local_client_id (info_data s) = [] →
  ∃ out s',
    (let* d := gets info_data in
     (match obfs_auth_akarin_data.local_client_id d with
      | [] =>
          let* c := rand_bytes 4 in
          let* d := gets info_data in
          modify (set_info_data (obfs_auth_akarin_data.set_local_client_id c d)) ;;
          let* r := rand_bytes 4 in
          let* n := lift (unpack_I r) in
          let* d := gets info_data in
          modify (set_info_data
                    (obfs_auth_akarin_data.set_connection_id (Z.land n 0xFFFFFF) d))
      | _ :: _ => ret tt
      end) ;;
     let* d := gets info_data in
     modify (set_info_data
               (obfs_auth_akarin_data.set_connection_id
                  (obfs_auth_akarin_data.connection_id d + 1) d)) ;;
     let* u := lift (pack_I (Z.land (Env.clock (env s)) 0xFFFFFFFF)) in
     let* d := gets info_data in
     let* c := lift (pack_I (obfs_auth_akarin_data.connection_id d)) in
     ret (u ++ obfs_auth_akarin_data.local_client_id d ++ c)) s = (Ok out, s')
    ∧ length out = 12%nat
    ∧ 1 ≤ obfs_auth_akarin_data.connection_id (info_data s') ≤ 0x1000000
    ∧ length (obfs_auth_akarin_data.local_client_id (info_data s')) = 4%nat
    ∧ out = pack_le 4 (Z.land (Env.clock (env s)) 0xFFFFFFFF)
            ++ obfs_auth_akarin_data.local_client_id (info_data s')
            ++ pack_le 4 (obfs_auth_akarin_data.connection_id (info_data s')).
Proof.
  intros Hl. rewrite bind_gets, Hl.
  rewrite bind_assoc. unfold bind at 1. unfold rand_bytes at 1.
  destruct (Env.rand_bytes 4 (env s)) as [c e1] eqn:Ec.
  assert (Hc : length c = 4%nat).
  { pose proof (len_rand_bytes 4 (env s) ltac:(lia)) as H. rewrite Ec in H.
    unfold len in H. simpl in H. lia. }
  rewrite bind_assoc, bind_gets, bind_assoc, bind_modify.
  rewrite bind_assoc. unfold bind at 1. unfold rand_bytes at 1.
  match goal with
  | |- context [Env.rand_bytes 4 (env ?s0)] =>
      destruct (Env.rand_bytes 4 (env s0)) as [r e2] eqn:Er;
      pose proof (len_rand_bytes 4 (env s0) ltac:(lia)) as Hr
  end.
  rewrite Er in Hr. unfold len in Hr. cbn [fst] in Hr.
  assert (Hr4 : length r = 4%nat) by lia.
  assert (Hn : unpack_I r = Ok (unpack_le r)).
  { unfold unpack_I, struct_unpack. rewrite Hr4. reflexivity. }
  rewrite bind_assoc. rewrite (bind_lift_Ok _ _ _ _ Hn).
  rewrite bind_assoc, bind_gets, bind_modify.
  assert (Hrange : 0 ≤ Z.land (unpack_le r) 0xFFFFFF < 2 ^ 24).
  { change 0xFFFFFF with (Z.ones 24). rewrite Z.land_ones by lia.
    apply Z.mod_pos_bound. lia. }
  rewrite auth_data_tail.
  - eexists. eexists. split; [reflexivity|].
    cbn [info_data set_info_data server_info with_server_info with_env
           ServerInfo.data ServerInfo.set_data obfs_auth_akarin_data.connection_id
           obfs_auth_akarin_data.local_client_id
           obfs_auth_akarin_data.set_connection_id
           obfs_auth_akarin_data.set_local_client_id].
    split; [rewrite !length_app, !length_pack_le, Hc; reflexivity|].
    split; [lia|]. split; [exact Hc|reflexivity].
  - apply time_is_32_bits.
  - cbn [info_data set_info_data server_info with_server_info with_env
           ServerInfo.data ServerInfo.set_data obfs_auth_akarin_data.connection_id
           obfs_auth_akarin_data.set_connection_id].
    lia.
Qed.

Lemma auth_data_runs (s : t) :
  0 ≤ obfs_auth_akarin_data.connection_id (info_data s) →
  obfs_auth_akarin_data.local_client_id (info_data s) = []
  ∨ length (obfs_auth_akarin_data.local_client_id (info_data s)) = 4%nat →
  ∃ out s',
    auth_data s = (Ok out, s')
    ∧ length out = 12%nat
    ∧ 1 ≤ obfs_auth_akarin_data.connection_id (info_data s') ≤ 0xFF000001
    ∧ length (obfs_auth_akarin_data.local_client_id (info_data s')) = 4%nat
    ∧ out = pack_le 4 (Z.land (Env.clock (env s)) 0xFFFFFFFF)
            ++ obfs_auth_akarin_data.local_client_id (info_data s')
            ++ pack_le 4 (obfs_auth_akarin_data.connection_id (info_data s'))
    ∧ (obfs_auth_akarin_data.local_client_id (info_data s) ≠ [] →
       obfs_auth_akarin_data.connection_id (info_data s) ≤ 0xFF000000 →
       obfs_auth_akarin_data.local_client_id (info_data s')
       = obfs_auth_akarin_data.local_client_id (info_data s)
       ∧ obfs_auth_akarin_data.connection_id (info_data s')
         = obfs_auth_akarin_data.connection_id (info_data s) + 1).
Proof.
  intros Hc Hl. unfold auth_data. unfold time_now. rewrite bind_gets, bind_gets.
  destruct (0xFF000000 <? obfs_auth_akarin_data.connection_id (info_data s)) eqn:E.
  - apply Z.ltb_lt in E. rewrite bind_modify.
    destruct (auth_data_draws
                (set_info_data
                   (obfs_auth_akarin_data.set_local_client_id [] (info_data s)) s))
      as (out & s' & Hrun & H1 & H2 & H3 & H4); [reflexivity|].
    exists out, s'. split; [exact Hrun|]. split; [exact H1|]. split; [lia|].
    split; [exact H3|]. split; [exact H4|]. intros _ Hle. lia.
  - apply Z.ltb_ge in E. rewrite bind_ret.
    destruct (obfs_auth_akarin_data.local_client_id (info_data s)) as [|b0 l0] eqn:El.
    + destruct (auth_data_draws s El) as (out & s' & Hrun & H1 & H2 & H3 & H4).
      rewrite bind_gets, El in Hrun.
      exists out, s'. rewrite bind_gets, El. split; [exact Hrun|].
      split; [exact H1|]. split; [lia|]. split; [exact H3|]. split; [exact H4|].
      intros Hne. exfalso. apply Hne. reflexivity.
    + destruct Hl as [Hl|Hl]; [discriminate|].
      rewrite bind_gets, El. cbv iota. rewrite bind_ret.
      rewrite auth_data_tail; [|apply time_is_32_bits|lia].
      eexists. eexists. split; [reflexivity|].
      cbn [info_data set_info_data server_info with_server_info
             ServerInfo.data ServerInfo.set_data obfs_auth_akarin_data.connection_id
             obfs_auth_akarin_data.local_client_id
             obfs_auth_akarin_data.set_connection_id].
      fold (info_data s). rewrite El.
      split; [rewrite !length_app, !length_pack_le, Hl; reflexivity|].
      split; [lia|]. split; [exact Hl|]. split; [reflexivity|].
      intros _ _. split; reflexivity.
Qed.

(** [auth_data] numbers the connections of a client.  While the shared
    [connection_id] is not negative and the client id is empty or has
    four bytes, the call never fails and gives twelve bytes: the time on
    four, the client id on four and the new connection id on four.  The
    new connection id is between 1 and 0xFF000001 and the client id has
    four bytes, so the next call finds the same conditions.  With a
    client id in place and a connection id up to 0xFF000000 the client id
    is kept and the connection id goes up by one. *)
Theorem auth_data_numbers_the_connections (s : t) :
  0 ≤ obfs_auth_akarin_data.connection_id (info_data s) →
  obfs_auth_akarin_data.local_client_id (info_data s) = []
  ∨ length (obfs_auth_akarin_data.local_client_id (info_data s)) = 4%nat →
  ∃ out s',
    auth_data s = (Ok out, s')
    ∧ length out = 12%nat
    ∧ 1 ≤ obfs_auth_akarin_data.connection_id (info_data s') ≤ 0xFF000001
    ∧ length (obfs_auth_akarin_data.local_client_id (info_data s')) = 4%nat
    ∧ out = pack_le 4 (Z.land (Env.clock (env s)) 0xFFFFFFFF)
            ++ obfs_auth_akarin_data.local_client_id (info_data s')
            ++ pack_le 4 (obfs_auth_akarin_data.connection_id (info_data s'))
    ∧ (obfs_auth_akarin_data.local_client_id (info_data s) ≠ [] →
       obfs_auth_akarin_data.connection_id (info_data s) ≤ 0xFF000000 →
       obfs_auth_akarin_data.local_client_id (info_data s')
       = obfs_auth_akarin_data.local_client_id (info_data s)
       ∧ obfs_auth_akarin_data.connection_id (info_data s')
         = obfs_auth_akarin_data.connection_id (info_data s) + 1).
Proof. apply auth_data_runs. Qed.

End with_primitives.

(** The first connection of a client, at time 1000, when every random
    byte is zero: connection 1 of client 0. *)
Lemma auth_data_numbers_the_connections_witness :
  ∃ s',
    auth_data fresh_session
    = (Ok ["232"%byte; x03; x00; x00; x00; x00; x00; x00; x01; x00; x00; x00], s').
Proof.
  destruct (auth_data_numbers_the_connections fresh_session)
    as (out & s' & Hrun & _).
  - vm_compute. discriminate.
  - left. reflexivity.
  - exists s'. rewrite Hrun. f_equal. f_equal.
    assert (Ho : fst (auth_data fresh_session) = Ok out) by (rewrite Hrun; reflexivity).
    vm_compute in Ho. injection Ho as <-. reflexivity.
Defined.

(** *** The first bytes on the server *)

Section with_primitives.
Context {prims : primitives}.
Import Opening.

Lemma not_match_return_runs (rb : bytes) (s : t) :
  not_match_return rb s
  = (Ok (if String.eqb (method s) (no_compatible_method s)
         then bytes_repeat "E" 2048 else rb, false),
     with_overhead 0 (with_raw_trans true s)).
Proof.
  unfold not_match_return. rewrite !bind_modify, !bind_gets.
  cbn [method no_compatible_method with_overhead with_raw_trans].
  destruct (String.eqb (method s) (no_compatible_method s)); reflexivity.
Qed.

Lemma server_post_decrypt_opening (buf : bytes) (s : t) :
  raw_trans s = false →
  has_recv_header s = false →
  (head_is_checked (recv_buf s ++ buf) = true →
   head_matches s (recv_buf s ++ buf) = false →
   server_post_decrypt buf s
   = (Ok (if String.eqb (method s) (no_compatible_method s)
          then bytes_repeat "E" 2048 else recv_buf s ++ buf, false),
      refused (recv_buf s ++ buf) s))
  ∧ (head_is_checked (recv_buf s ++ buf) = false
     ∨ head_matches s (recv_buf s ++ buf) = true →
     len (recv_buf s ++ buf) < 36 →
     server_post_decrypt buf s = (Ok ([], false), with_recv_buf (recv_buf s ++ buf) s)).
Proof.
  intros Hraw Hhdr.
  split.
  - intros Hc Hm. unfold server_post_decrypt.
    rewrite bind_gets, Hraw. rewrite bind_gets, bind_modify, bind_gets.
    change (has_recv_header (with_recv_buf (recv_buf s ++ buf) s))
      with (has_recv_header s).
    rewrite Hhdr. cbn [negb]. rewrite bind_assoc.
    unfold server_handshake at 1. rewrite bind_assoc, bind_gets, bind_assoc, bind_gets.
    cbv zeta.
    change (recv_buf (with_recv_buf (recv_buf s ++ buf) s)) with (recv_buf s ++ buf).
    change (server_info (with_recv_buf (recv_buf s ++ buf) s)) with (server_info s).
    unfold head_is_checked in Hc. unfold head_matches in Hm.
    rewrite Hc, Hm. cbn [negb andb].
    rewrite bind_assoc. rewrite (bind_Ok _ _ _ _ _ (not_match_return_runs _ _)).
    rewrite !bind_ret. reflexivity.
  - intros Hc Hl. unfold server_post_decrypt.
    rewrite bind_gets, Hraw. rewrite bind_gets, bind_modify, bind_gets.
    change (has_recv_header (with_recv_buf (recv_buf s ++ buf) s))
      with (has_recv_header s).
    rewrite Hhdr. cbn [negb]. rewrite bind_assoc.
    unfold server_handshake at 1. rewrite bind_assoc, bind_gets, bind_assoc, bind_gets.
    cbv zeta.
    change (recv_buf (with_recv_buf (recv_buf s ++ buf) s)) with (recv_buf s ++ buf).
    change (server_info (with_recv_buf (recv_buf s ++ buf) s)) with (server_info s).
    unfold head_is_checked, head_matches in Hc.
    assert (E : ((12 <=? len (recv_buf s ++ buf)) || (len (recv_buf s ++ buf) =? 7)
                 || (len (recv_buf s ++ buf) =? 8))
                && negb (bytes_eqb
                           (hmac_md5
                              (ServerInfo.recv_iv (server_info s)
                               ++ ServerInfo.key (server_info s))
                              (recv_buf s ++ buf).[:4]).[:Z.min (len (recv_buf s ++ buf)) 12
                                                          - 4]
                           (recv_buf s ++ buf).[4:Z.min (len (recv_buf s ++ buf)) 12])
                = false).
    { destruct Hc as [Hc|Hc]; rewrite Hc; [reflexivity|].
      cbn [negb]. apply andb_false_r. }
    rewrite E.
    assert (E2 : (len (recv_buf s ++ buf) <? 12 + 24) = true) by (apply Z.ltb_lt; lia).
    rewrite E2. rewrite !bind_ret. reflexivity.
Qed.

(** The first bytes a server is sent.  The head of the buffer is
    checked when the buffer holds 7 or 8 bytes, or 12 or more.  When the
    check fails the server turns the session raw with an overhead of 0
    and answers with 2048 bytes ['E'], or with the whole buffer if its
    method is not the compatible one.  Otherwise, and at any other
    length, fewer than 36 bytes are kept in [recv_buf] and the answer is
    empty. *)
Theorem server_post_decrypt_on_first_bytes (buf : bytes) (s : t) :
  raw_trans s = false →
  has_recv_header s = false →
  (head_is_checked (recv_buf s ++ buf) = true →
   head_matches s (recv_buf s ++ buf) = false →
   server_post_decrypt buf s
   = (Ok (if String.eqb (method s) (no_compatible_method s)
          then bytes_repeat "E" 2048 else recv_buf s ++ buf, false),
      refused (recv_buf s ++ buf) s))
  ∧ (head_is_checked (recv_buf s ++ buf) = false
     ∨ head_matches s (recv_buf s ++ buf) = true →
     len (recv_buf s ++ buf) < 36 →
     server_post_decrypt buf s = (Ok ([], false), with_recv_buf (recv_buf s ++ buf) s)).
Proof. apply server_post_decrypt_opening. Qed.

End with_primitives.

(** Twelve bytes that are no handshake are refused; their first nine
    are kept, no check being made at that length; so are their first
    seven when the three bytes after the first four are those of the
    digest. *)
Lemma server_post_decrypt_on_first_bytes_witness :
  fst (server_post_decrypt (prims := plain_primitives) probe fresh_session)
  = Ok (bytes_repeat "E" 2048, false)
  ∧ server_post_decrypt (prims := plain_primitives) (bytes_repeat x01 9) fresh_session
    = (Ok ([], false), with_recv_buf (bytes_repeat x01 9) fresh_session)
  ∧ server_post_decrypt (prims := plain_primitives)
      [x01; x01; x01; x01; x00; x00; x00] fresh_session
    = (Ok ([], false), with_recv_buf [x01; x01; x01; x01; x00; x00; x00] fresh_session).
Proof.
  split; [|split].
  - rewrite (proj1 (server_post_decrypt_on_first_bytes (prims := plain_primitives)
                      probe fresh_session eq_refl eq_refl)).
    + reflexivity.
    + vm_compute. reflexivity.
    + vm_compute. reflexivity.
  - apply (proj2 (server_post_decrypt_on_first_bytes (prims := plain_primitives)
                    (bytes_repeat x01 9) fresh_session eq_refl eq_refl)).
    + left. vm_compute. reflexivity.
    + vm_compute. reflexivity.
  - apply (proj2 (server_post_decrypt_on_first_bytes (prims := plain_primitives)
                    [x01; x01; x01; x01; x00; x00; x00] fresh_session eq_refl eq_refl)).
    + right. vm_compute. reflexivity.
    + vm_compute. reflexivity.
Defined.

End handshake_facts.

(* ===================================================================== *)
(** ** Datagrams from one end to the other *)
(* ===================================================================== *)

Module datagram_facts.
Import auth_akarin_rand Fixtures failure_facts bytes_facts codec_facts packet_facts.
Import Datagram.

(** Slices that count from the end. *)
Lemma pyslice_to_end_app {A} (a b : list A) (n : Z) :
  n = len b → 0 < n → (a ++ b).[:-n] = a.
Proof.
  intros -> Hn. unfold pyslice, slice_index.
  assert (E : (- len b <? 0) = true) by (apply Z.ltb_lt; lia). rewrite E.
  rewrite len_app. pose proof (len_nonneg a).
  rewrite Z.max_r by lia. rewrite Z.sub_0_r.
  replace (len a + len b + - len b) with (len a) by lia.
  unfold len. rewrite Nat2Z.id. cbn [drop]. apply take_app_length.
Qed.

Lemma pyslice_from_end_app {A} (a b : list A) (n : Z) :
  n = len b → 0 < n → (a ++ b).[-n:] = b.
Proof.
  intros -> Hn. unfold pyslice, slice_index.
  assert (E : (- len b <? 0) = true) by (apply Z.ltb_lt; lia). rewrite E.
  rewrite len_app. pose proof (len_nonneg a).
  rewrite Z.max_r by lia.
  replace (len a + len b + - len b) with (len a) by lia.
  replace (len a + len b - len a) with (len b) by lia.
  unfold len. rewrite !Nat2Z.id. rewrite drop_app_length. apply take_ge. lia.
Qed.

Lemma pyslice_mid_end_app {A} (a b c : list A) (n m : Z) :
  m = len c → 0 < m → n = len b + len c → (a ++ b ++ c).[-n:-m] = b.
Proof.
  intros -> Hm ->. unfold pyslice, slice_index.
  pose proof (len_nonneg a). pose proof (len_nonneg b).
  assert (E : (- (len b + len c) <? 0) = true) by (apply Z.ltb_lt; lia). rewrite E.
  assert (E' : (- len c <? 0) = true) by (apply Z.ltb_lt; lia). rewrite E'.
  rewrite !len_app. rewrite !Z.max_r by lia.
  replace (len a + (len b + len c) + - (len b + len c)) with (len a) by lia.
  replace (len a + (len b + len c) + - len c - len a) with (len b) by lia.
  unfold len. rewrite !Nat2Z.id. rewrite drop_app_length. apply take_app_length.
Qed.

Section with_primitives.
Context {prims : primitives}.
Hypothesis hmac_md5_length : ∀ k d, length (hmac_md5 k d) = 16%nat.

(** The padding of a datagram depends on the digest alone: it is below
    127, and computing it changes the generator it was given and
    nothing else. *)
Lemma udp_rnd_data_len_value (h : bytes) :
  ∃ n, 0 ≤ n < 127
       ∧ ∀ w s, ∃ g, udp_rnd_data_len h w s = (Ok n, set_random w g s).
Proof.
  destruct (init_from_bin_ok h) as [r Hr].
  exists (fst (xorshift128plus.next r) mod 127). split.
  - apply Z.mod_pos_bound. lia.
  - intros w s. exists (snd (xorshift128plus.next r)).
    unfold udp_rnd_data_len, random_init_from_bin, bind, lift, modify. rewrite Hr.
    unfold random_next.
    destruct w; cbn [get_random set_random];
      cbn [random_client random_server with_random_client with_random_server];
      destruct (xorshift128plus.next r) as [x g]; reflexivity.
Qed.

Lemma bind_new_encryptor {B} (k : bytes) (m : string) (iv : option bytes)
    (f : Encryptor.t → M t B) (s : t) :
  bind (new_encryptor k m iv) f s
  = f (fst (Encryptor.new k m iv (env s))) (with_env (snd (Encryptor.new k m iv (env s))) s).
Proof.
  unfold bind, new_encryptor. destruct (Encryptor.new k m iv (env s)). reflexivity.
Qed.

Lemma bind_rand_bytes {B} (n : Z) (f : bytes → M t B) (s : t) :
  bind (rand_bytes n) f s
  = f (fst (Env.rand_bytes n (env s))) (with_env (snd (Env.rand_bytes n (env s))) s).
Proof. reflexivity. Qed.

Lemma tag1_of_hmac (k d : bytes) : len (hmac_md5 k d).[:1] = 1.
Proof.
  unfold len. rewrite length_pyslice_to.
  - reflexivity.
  - unfold len. rewrite hmac_md5_length. lia.
Qed.

(** The server's datagram at the client. *)
Lemma server_to_client_datagram (v c : t) (buf : bytes) (uid : option bytes) (uk : bytes) :
  ServerInfo.key (server_info c) = ServerInfo.key (server_info v) →
  snd (udp_user_key uid (server_info v)) = uk →
  user_key c = Some uk →
  cipher_opens (ServerInfo.key (server_info v)).[:8] buf →
  ∃ p v' c',
    server_udp_pre_encrypt buf uid v = (Ok p, v')
    ∧ 8 ≤ len p
    ∧ client_udp_post_decrypt p c
      = (Ok (if len p =? 8 then Pair [] None else Bare buf), c').
Proof.
  intros Hkey Huk Hck Hopen.
  unfold server_udp_pre_encrypt. rewrite bind_gets.
  destruct (udp_user_key uid (server_info v)) as [uid' k] eqn:Eu.
  cbn [snd] in Huk. subst k.
  rewrite bind_rand_bytes.
  set (authdata := fst (Env.rand_bytes 7 (env v))).
  set (v1 := with_env (snd (Env.rand_bytes 7 (env v))) v).
  set (md5data := hmac_md5 (ServerInfo.key (server_info v)) authdata).
  destruct (udp_rnd_data_len_value md5data) as (rl & Hrl & Hlen).
  destruct (Hlen RandomServer v1) as [g Hg].
  rewrite (bind_Ok _ _ _ _ _ Hg).
  rewrite bind_new_encryptor.
  set (e2 := env (set_random RandomServer g v1)).
  set (K := b64encode uk ++ b64encode md5data).
  set (iv := (ServerInfo.key (server_info v)).[:8]).
  match goal with |- context [Encryptor.encrypt [] ?x] =>
    destruct (Encryptor.encrypt [] x) as [o1 enc1] eqn:E1 end.
  destruct (Encryptor.encrypt buf enc1) as [out enc2] eqn:E2.
  assert (Hout : out = sealed K iv buf e2).
  { unfold sealed.
    replace (Encryptor.encrypt [] _) with (o1, enc1) by (symmetry; exact E1).
    cbn [snd]. rewrite E2. reflexivity. }
  rewrite bind_rand_bytes. unfold ret.
  set (v2 := with_env _ (with_env _ _)).
  set (pad := fst (Env.rand_bytes rl (env _))).
  assert (Hpad : len pad = rl) by (apply len_rand_bytes; lia).
  assert (Hauth : len authdata = 7) by (apply len_rand_bytes; lia).
  set (body := out ++ pad ++ authdata).
  set (tag := (hmac_md5 uk body).[:1]).
  assert (Htag : len tag = 1) by apply tag1_of_hmac.
  assert (Hp : len (body ++ tag) = len out + rl + 8).
  { unfold body. rewrite !len_app. lia. }
  exists (body ++ tag), v2.
  unfold client_udp_post_decrypt.
  pose proof (len_nonneg out) as Hout0.
  destruct (Z.eq_dec (len out + rl) 0) as [Hz|Hnz].
  { assert (E : (len (body ++ tag) <=? 8) = true) by (apply Z.leb_le; lia).
    assert (E' : (len (body ++ tag) =? 8) = true) by (apply Z.eqb_eq; lia).
    rewrite E, E'. exists c. split; [reflexivity|]. split; [lia|reflexivity]. }
  assert (E : (len (body ++ tag) <=? 8) = false) by (apply Z.leb_gt; lia).
  assert (E' : (len (body ++ tag) =? 8) = false) by (apply Z.eqb_neq; lia).
  rewrite E, E'.
  rewrite (bind_the_user_key _ _ _ Hck).
  assert (S1 : (body ++ tag).[:-1] = body) by (apply (pyslice_to_end_app body tag 1); lia).
  assert (S2 : (body ++ tag).[-1:] = tag) by (apply (pyslice_from_end_app body tag 1); lia).
  assert (S3 : (body ++ tag).[-8:-1] = authdata).
  { unfold body. rewrite (app_assoc out pad authdata), <- (app_assoc (out ++ pad)).
    apply (pyslice_mid_end_app (out ++ pad) authdata tag 8 1); lia. }
  assert (S4 : (body ++ tag).[:-8 - rl] = out).
  { unfold body. rewrite <- !app_assoc.
    replace (-8 - rl) with (- (8 + rl)) by lia.
    apply pyslice_to_end_app; [rewrite !len_app|]; lia. }
  rewrite S1, S2. fold tag. rewrite Replay_facts.bytes_eqb_refl. cbn [negb].
  rewrite bind_gets, S3, Hkey. fold md5data.
  destruct (Hlen RandomServer c) as [g' Hg'].
  rewrite (bind_Ok _ _ _ _ _ Hg').
  rewrite bind_new_encryptor. fold K. fold iv. rewrite S4.
  set (e3 := env (set_random RandomServer g' c)).
  pose proof (Hopen K e2 e3) as Ho. fold iv in Ho. rewrite <- Hout in Ho.
  unfold opened in Ho.
  match goal with |- context [Encryptor.decrypt iv ?x] =>
    destruct (Encryptor.decrypt iv x) as [o3 enc3] eqn:E3 end.
  destruct (Encryptor.decrypt out enc3) as [got enc4] eqn:E4.
  assert (Hgot : got = buf).
  { rewrite <- Ho.
    replace (Encryptor.decrypt iv _) with (o3, enc3) by (symmetry; exact E3).
    cbn [snd]. rewrite E4. reflexivity. }
  rewrite Hgot. eexists. split; [reflexivity|]. split; [lia|reflexivity].
Qed.

(** The client's datagram at the server. *)
Lemma client_to_server_datagram (c v : t) (buf u uk : bytes) :
  ServerInfo.key (server_info v) = ServerInfo.key (server_info c) →
  client_identity c u uk →
  length u = 4%nat →
  snd (udp_user_key (Some u) (server_info v)) = uk →
  cipher_opens (ServerInfo.key (server_info c)).[:8] buf →
  ∃ p c' v',
    client_udp_pre_encrypt buf c = (Ok p, c')
    ∧ server_udp_post_decrypt p v
      = (Ok (Pair buf (fst (udp_user_key (Some u) (server_info v)))), v')
    ∧ user_id c' = Some u ∧ user_key c' = Some uk.
Proof.
  intros Hkey Hid Hu Huk Hopen.
  unfold client_udp_pre_encrypt. rewrite !bind_gets.
  assert (Hc1 : ∃ c1,
            (match user_key c with
             | None =>
                 let* u := rand_bytes 4 in
                 modify (with_user_id (Some u)) ;;
                 modify (with_user_key (Some (ServerInfo.key (server_info c))))
             | Some _ => ret tt
             end) c = (Ok tt, c1)
            ∧ user_id c1 = Some u ∧ user_key c1 = Some uk).
  { unfold client_identity in Hid. destruct (user_key c) as [k|] eqn:Ek.
    - destruct Hid as [Hi ->]. exists c. repeat split; assumption.
    - destruct Hid as [-> ->]. eexists. split; [reflexivity|]. split; reflexivity. }
  destruct Hc1 as (c1 & Hrun & Hi1 & Hk1).
  rewrite (bind_Ok _ _ _ _ _ Hrun).
  rewrite bind_rand_bytes.
  set (authdata := fst (Env.rand_bytes 3 (env c1))).
  set (c2 := with_env _ c1).
  set (key := ServerInfo.key (server_info c)) in *.
  set (md5data := hmac_md5 key authdata).
  rewrite bind_gets.
  change (user_id c2) with (user_id c1). rewrite Hi1. rewrite bind_ret.
  assert (Ha : unpack_I u = Ok (unpack_le u)).
  { unfold unpack_I, struct_unpack. rewrite Hu. reflexivity. }
  assert (Hb : unpack_I md5data.[:4] = Ok (unpack_le md5data.[:4])
               ∧ length md5data.[:4] = 4%nat).
  { assert (L : length md5data.[:4] = 4%nat).
    { rewrite length_pyslice_to; [reflexivity|].
      unfold len, md5data. rewrite hmac_md5_length. lia. }
    split; [|exact L]. unfold unpack_I, struct_unpack. rewrite L. reflexivity. }
  destruct Hb as [Hb Lb].
  rewrite (bind_lift_Ok _ _ _ _ Ha), (bind_lift_Ok _ _ _ _ Hb).
  pose proof (unpack_le_range u) as Ru. rewrite Hu in Ru.
  pose proof (unpack_le_range md5data.[:4]) as Rb. rewrite Lb in Rb.
  change (8 * Z.of_nat 4) with 32 in *.
  pose proof (lxor_range 32 _ _ ltac:(lia) Ru Rb) as Rx.
  rewrite (bind_lift_Ok _ _ _ _ (pack_I_ok _ Rx)).
  set (x := Z.lxor (unpack_le u) (unpack_le md5data.[:4])) in *.
  destruct (udp_rnd_data_len_value md5data) as (rl & Hrl & Hlen).
  destruct (Hlen RandomClient c2) as [g Hg].
  rewrite (bind_Ok _ _ _ _ _ Hg).
  rewrite (bind_the_user_key _ (set_random RandomClient g c2) uk Hk1).
  rewrite bind_new_encryptor.
  set (e2 := env (set_random RandomClient g c2)).
  set (K := b64encode uk ++ b64encode md5data).
  set (iv := key.[:8]) in *.
  match goal with |- context [Encryptor.encrypt [] ?x] =>
    destruct (Encryptor.encrypt [] x) as [o1 enc1] eqn:E1 end.
  destruct (Encryptor.encrypt buf enc1) as [out enc2] eqn:E2.
  assert (Hout : out = sealed K iv buf e2).
  { unfold sealed.
    replace (Encryptor.encrypt [] _) with (o1, enc1) by (symmetry; exact E1).
    cbn [snd]. rewrite E2. reflexivity. }
  rewrite bind_rand_bytes. unfold ret.
  set (c3 := with_env _ (with_env _ _)).
  set (pad := fst (Env.rand_bytes rl (env _))).
  assert (Hpad : len pad = rl) by (apply len_rand_bytes; lia).
  assert (Hauth : len authdata = 3) by (apply len_rand_bytes; lia).
  assert (Hx : len (pack_le 4 x) = 4) by (unfold len; rewrite length_pack_le; reflexivity).
  set (body := out ++ pad ++ authdata ++ pack_le 4 x).
  set (tag := (hmac_md5 uk body).[:1]).
  assert (Htag : len tag = 1) by apply tag1_of_hmac.
  exists (body ++ tag), c3.
  assert (S1 : (body ++ tag).[:-1] = body)
    by (apply (pyslice_to_end_app body tag 1); lia).
  assert (S2 : (body ++ tag).[-1:] = tag)
    by (apply (pyslice_from_end_app body tag 1); lia).
  assert (S3 : (body ++ tag).[-8:-5] = authdata).
  { replace (body ++ tag) with ((out ++ pad) ++ authdata ++ pack_le 4 x ++ tag)
      by (unfold body; rewrite <- !app_assoc; reflexivity).
    apply (pyslice_mid_end_app (out ++ pad) authdata (pack_le 4 x ++ tag) 8 5);
      rewrite ?len_app; lia. }
  assert (S4 : (body ++ tag).[-5:-1] = pack_le 4 x).
  { replace (body ++ tag) with (((out ++ pad) ++ authdata) ++ pack_le 4 x ++ tag)
      by (unfold body; rewrite <- !app_assoc; reflexivity).
    apply (pyslice_mid_end_app ((out ++ pad) ++ authdata) (pack_le 4 x) tag 5 1); lia. }
  assert (S5 : (body ++ tag).[:-8 - rl] = out).
  { unfold body. rewrite <- !app_assoc.
    replace (-8 - rl) with (- (8 + rl)) by lia.
    apply pyslice_to_end_app; [rewrite !len_app|]; lia. }
  unfold server_udp_post_decrypt.
  rewrite bind_gets, S3, S4, Hkey. fold key. fold md5data.
  assert (Hux : unpack_I (pack_le 4 x) = Ok x).
  { unfold unpack_I, struct_unpack. rewrite length_pack_le.
    rewrite unpack_pack_le by exact Rx. reflexivity. }
  rewrite (bind_lift_Ok _ _ _ _ Hux), (bind_lift_Ok _ _ _ _ Hb).
  unfold x at 1. rewrite lxor_unmasks.
  rewrite (bind_lift_Ok _ _ _ _ (pack_I_ok _ Ru)).
  assert (Hback : pack_le 4 (unpack_le u) = u) by (rewrite <- Hu; apply pack_unpack_le).
  rewrite Hback.
  destruct (udp_user_key (Some u) (server_info v)) as [uid' k] eqn:Eu.
  cbn [snd] in Huk. subst k. cbn [fst].
  rewrite S1, S2. fold tag. rewrite Replay_facts.bytes_eqb_refl. cbn [negb].
  destruct (Hlen RandomClient v) as [g' Hg'].
  rewrite (bind_Ok _ _ _ _ _ Hg').
  rewrite bind_new_encryptor. fold K. fold iv. rewrite S5.
  set (e3 := env (set_random RandomClient g' v)).
  pose proof (Hopen K e2 e3) as Ho. rewrite <- Hout in Ho.
  unfold opened in Ho.
  match goal with |- context [Encryptor.decrypt iv ?x] =>
    destruct (Encryptor.decrypt iv x) as [o3 enc3] eqn:E3 end.
  destruct (Encryptor.decrypt out enc3) as [got enc4] eqn:E4.
  assert (Hgot : got = buf).
  { rewrite <- Ho.
    replace (Encryptor.decrypt iv _) with (o3, enc3) by (symmetry; exact E3).
    cbn [snd]. rewrite E4. reflexivity. }
  rewrite Hgot. eexists. split; [reflexivity|]. split; [reflexivity|].
  split; assumption.
Qed.

(** A datagram goes through from the server to the client: when both
    ends hold the same [server_info.key], the client's [user_key] is the
    key the server picks for [uid], digests have 16 bytes and the
    cipher opens what it sealed, [server_udp_pre_encrypt] gives a
    datagram of at least 8 bytes and [client_udp_post_decrypt] gives
    back the bare [buf].  The datagram of exactly 8 bytes, an empty
    ciphertext that drew no padding, is dropped as [(b'', None)]. *)
Theorem client_opens_the_datagram_of_the_server (v c : t) (buf : bytes)
    (uid : option bytes) (uk : bytes) :
  ServerInfo.key (server_info c) = ServerInfo.key (server_info v) →
  snd (udp_user_key uid (server_info v)) = uk →
  user_key c = Some uk →
  cipher_opens (ServerInfo.key (server_info v)).[:8] buf →
  ∃ p v' c',
    server_udp_pre_encrypt buf uid v = (Ok p, v')
    ∧ 8 ≤ len p
    ∧ client_udp_post_decrypt p c
      = (Ok (if len p =? 8 then Pair [] None else Bare buf), c').
Proof. apply server_to_client_datagram. Qed.

(** A datagram goes through from the client to the server: when both
    ends hold the same [server_info.key], the client sends with the
    user id [u] of 4 bytes and the key [uk], and [uk] is the key the
    server picks for [u], [server_udp_post_decrypt] of what
    [client_udp_pre_encrypt] made gives [(buf, uid)], where [uid] is [u]
    if [u] is in the server's user table and [None] otherwise.  The
    client holds [u] and [uk] afterwards. *)
Theorem server_opens_the_datagram_of_the_client (c v : t) (buf u uk : bytes) :
  ServerInfo.key (server_info v) = ServerInfo.key (server_info c) →
  client_identity c u uk →
  length u = 4%nat →
  snd (udp_user_key (Some u) (server_info v)) = uk →
  cipher_opens (ServerInfo.key (server_info c)).[:8] buf →
  ∃ p c' v',
    client_udp_pre_encrypt buf c = (Ok p, c')
    ∧ server_udp_post_decrypt p v
      = (Ok (Pair buf (fst (udp_user_key (Some u) (server_info v)))), v')
    ∧ user_id c' = Some u ∧ user_key c' = Some uk.
Proof. apply client_to_server_datagram. Qed.

(** *** Datagrams that are too short *)

Lemma len_slice_end_4 (buf : bytes) :
  length buf.[-5:-1] = if len buf <? 5 then Z.to_nat (len buf - 1) else 4%nat.
Proof.
  unfold pyslice, slice_index. cbn [Z.ltb Z.compare].
  rewrite length_take, length_drop.
  destruct (len buf <? 5) eqn:E; [apply Z.ltb_lt in E|apply Z.ltb_ge in E];
    unfold len in *; lia.
Qed.

Lemma server_udp_post_decrypt_short (buf : bytes) (s : t) :
  (len buf < 5 → server_udp_post_decrypt buf s = (Raise StructError, s))
  ∧ (5 ≤ len buf →
     ∃ out uid s', server_udp_post_decrypt buf s = (Ok (Pair out uid), s')).
Proof.
  pose proof (len_slice_end_4 buf) as Hl.
  unfold server_udp_post_decrypt. rewrite bind_gets. cbv zeta. split; intros Hn.
  - destruct (len buf <? 5) eqn:E; [|apply Z.ltb_ge in E; lia].
    unfold bind at 1. unfold lift at 1. unfold unpack_I at 1, struct_unpack.
    rewrite Hl.
    destruct (Z.to_nat (len buf - 1) =? 4)%nat eqn:E4; [apply Nat.eqb_eq in E4; lia|].
    reflexivity.
  - destruct (len buf <? 5) eqn:E; [apply Z.ltb_lt in E; lia|].
    assert (Ha : unpack_I buf.[-5:-1] = Ok (unpack_le buf.[-5:-1])).
    { unfold unpack_I, struct_unpack. rewrite Hl. reflexivity. }
    pose proof (unpack_le_range buf.[-5:-1]) as Ra. rewrite Hl in Ra.
    set (md5data := hmac_md5 (ServerInfo.key (server_info s)) buf.[-8:-5]).
    assert (Hm4 : length md5data.[:4] = 4%nat).
    { rewrite length_pyslice_to; [reflexivity|].
      unfold len, md5data. rewrite hmac_md5_length. lia. }
    assert (Hb : unpack_I md5data.[:4] = Ok (unpack_le md5data.[:4])).
    { unfold unpack_I, struct_unpack. rewrite Hm4. reflexivity. }
    pose proof (unpack_le_range md5data.[:4]) as Rb. rewrite Hm4 in Rb.
    rewrite (bind_lift_Ok _ _ _ _ Ha), (bind_lift_Ok _ _ _ _ Hb).
    rewrite (bind_lift_Ok _ _ _ _
               (pack_I_ok _ (lxor_range 32 _ _ ltac:(lia) Ra Rb))).
    destruct (udp_user_key _ _) as [uid1 uk].
    destruct (negb _).
    { exists [], None, s. reflexivity. }
    destruct (udp_rnd_data_len_value md5data) as (n & _ & Hr).
    destruct (Hr RandomClient s) as [g Hg].
    rewrite (bind_Ok _ _ _ _ _ Hg), bind_new_encryptor.
    destruct (Encryptor.decrypt _ _) as [o1 e1].
    destruct (Encryptor.decrypt _ e1) as [o2 e2].
    eexists. eexists. eexists. reflexivity.
Qed.

(** [server_udp_post_decrypt] has no test of the length: on a datagram
    of fewer than five bytes, the empty one among them, it raises
    [struct.error] at [struct.unpack('<I', buf[-5:-1])] and leaves the
    session as it was, where [client_udp_post_decrypt] gives
    [(b'', None)].  On five bytes or more it returns a pair, when
    digests have 16 bytes. *)
Theorem server_udp_post_decrypt_raises_on_a_short_datagram (buf : bytes) (s : t) :
  (len buf < 5 → server_udp_post_decrypt buf s = (Raise StructError, s))
  ∧ (5 ≤ len buf →
     ∃ out uid s', server_udp_post_decrypt buf s = (Ok (Pair out uid), s')).
Proof. apply server_udp_post_decrypt_short. Qed.

End with_primitives.

(** A server without a user table sends ["hello"] to a client that has
    sent a datagram before. *)
Lemma client_opens_the_datagram_of_the_server_witness :
  ∃ p,
    fst (server_udp_pre_encrypt (prims := plain_primitives) hello None fresh_session)
    = Ok p
    ∧ fst (client_udp_post_decrypt (prims := plain_primitives) p
             Datagrams.client_sent_one)
      = Ok (Bare hello).
Proof.
  destruct (client_opens_the_datagram_of_the_server (prims := plain_primitives)
              (fun _ _ => eq_refl) fresh_session Datagrams.client_sent_one hello None
              (bytes_repeat "k" 16))
    as (p & v' & c' & Hp & Hl & Hc).
  - reflexivity.
  - reflexivity.
  - reflexivity.
  - intros key e e'. reflexivity.
  - exists p. rewrite Hp, Hc. split; [reflexivity|].
    assert (Hd : fst (server_udp_pre_encrypt (prims := plain_primitives) hello None
                        fresh_session) = Ok p) by (rewrite Hp; reflexivity).
    vm_compute in Hd. injection Hd as <-. reflexivity.
Defined.

(** A client that holds no key yet sends ["hello"] to a server without
    a user table: the user id is four random bytes, here zeros. *)
Lemma server_opens_the_datagram_of_the_client_witness :
  ∃ p,
    fst (client_udp_pre_encrypt (prims := plain_primitives) hello fresh_session) = Ok p
    ∧ fst (server_udp_post_decrypt (prims := plain_primitives) p fresh_session)
      = Ok (Pair hello None).
Proof.
  destruct (server_opens_the_datagram_of_the_client (prims := plain_primitives)
              (fun _ _ => eq_refl) fresh_session fresh_session hello
              [x00; x00; x00; x00] (bytes_repeat "k" 16))
    as (p & c' & v' & Hp & Hs & _).
  - reflexivity.
  - split; reflexivity.
  - reflexivity.
  - reflexivity.
  - intros key e e'. reflexivity.
  - exists p. rewrite Hp, Hs. split; reflexivity.
Defined.

(** Three bytes sent to a server: the call raises and the session is
    as it was. *)
Lemma server_udp_post_decrypt_raises_on_a_short_datagram_witness :
  server_udp_post_decrypt (prims := plain_primitives) [x00; x00; x00] fresh_session
  = (Raise StructError, fresh_session).
Proof.
  apply (server_udp_post_decrypt_raises_on_a_short_datagram (prims := plain_primitives)
           (fun _ _ => eq_refl) [x00; x00; x00] fresh_session).
  vm_compute. reflexivity.
Defined.

End datagram_facts.

(* ===================================================================== *)
(** ** Packets that arrive in pieces, or several at once *)
(* ===================================================================== *)

Module stream_facts.
Import auth_akarin_rand Frame Frame_facts Fixtures failure_facts command_facts.
Import bytes_facts codec_facts padding_more_facts packet_facts Pairing Stream.

(** The head of a list that starts like another. *)
Lemma head_of_prefix {A} (a b c d : list A) :
  a ++ b = c ++ d → (length c ≤ length a)%nat → take (length c) a = c.
Proof.
  intros H Hl.
  assert (E : take (length c) (a ++ b) = take (length c) (c ++ d)) by (rewrite H; reflexivity).
  rewrite take_app_le in E by exact Hl. rewrite take_app_length in E. exact E.
Qed.

Lemma prefix_is_shorter {A} (a b c : list A) :
  a ++ b = c → b ≠ [] → len a < len c.
Proof.
  intros <- Hb. rewrite len_app. destruct b; [congruence|].
  unfold len. simpl. lia.
Qed.

(** A turn of a receive loop that takes a packet and goes on. *)
Lemma recv_loop_step {A B} (body : A → M t (turn A B)) (fuel : nat) (acc acc' : A)
    (s s' : t) :
  4 < len (recv_buf s) →
  body acc s = (Ok (Next acc'), s') →
  recv_loop body (S fuel) acc s = recv_loop body fuel acc' s'.
Proof.
  intros Hl Hb. cbn [recv_loop].
  assert (E : (4 <? len (recv_buf s)) = true) by (apply Z.ltb_lt; exact Hl).
  rewrite E. unfold bind. rewrite Hb. reflexivity.
Qed.

(** A turn that finds the packet incomplete and leaves. *)
Lemma recv_loop_waits {A B} (body : A → M t (turn A B)) (fuel : nat) (acc : A)
    (s s' : t) :
  4 < len (recv_buf s) →
  body acc s = (Ok Break, s') →
  recv_loop body (S fuel) acc s = (Ok (Next acc), s').
Proof.
  intros Hl Hb. cbn [recv_loop].
  assert (E : (4 <? len (recv_buf s)) = true) by (apply Z.ltb_lt; exact Hl).
  rewrite E. unfold bind. rewrite Hb. reflexivity.
Qed.

(** With at most 4 bytes the loop is not entered. *)
Lemma recv_loop_rests {A B} (body : A → M t (turn A B)) (fuel : nat) (acc : A) (s : t) :
  len (recv_buf s) ≤ 4 → recv_loop body fuel acc s = (Ok (Next acc), s).
Proof.
  intros Hl.
  assert (E : (4 <? len (recv_buf s)) = false) by (apply Z.ltb_ge; exact Hl).
  destruct fuel; cbn [recv_loop]; rewrite E; reflexivity.
Qed.

Section with_primitives.
Context {prims : primitives}.
Hypothesis hmac_md5_length : ∀ k d, length (hmac_md5 k d) = 16%nat.

(** What [pack_server_data] makes of [buf] after the first packet, and
    how it leaves the server. *)
Lemma server_packet_shape (v : t) (uk h buf e : bytes) (ev ev' : Encryptor.t) :
  user_key v = Some uk →
  last_server_hash v = h →
  length h = 16%nat →
  1 < pack_id v < 2 ^ 32 →
  encryptor v = Some ev →
  Encryptor.encrypt buf ev = (e, ev') →
  0 < len e ≤ 3575 →
  send_tcp_mss v - info_overhead v ≤ 4096 →
  ∃ m14 rl pad v',
    unpack_H h.[14:16] = Ok m14 ∧ 0 ≤ m14 < 65536
    ∧ len pad = rl ∧ 0 ≤ rl ∧ len e + rl < 4096
    ∧ fst (send_rnd_data_len (len e) h RandomServer (with_encryptor (Some ev') v)) = Ok rl
    ∧ pack_server_data buf v
      = (Ok ((pack_le 2 (Z.lxor (len e) m14) ++ e ++ pad)
             ++ (hmac_md5 (uk ++ pack_le 4 (pack_id v))
                   (pack_le 2 (Z.lxor (len e) m14) ++ e ++ pad)).[:2]), v')
    ∧ last_server_hash v'
      = hmac_md5 (uk ++ pack_le 4 (pack_id v)) (pack_le 2 (Z.lxor (len e) m14) ++ e ++ pad)
    ∧ pack_id v' = Z.land (pack_id v + 1) 0xFFFFFFFF
    ∧ user_key v' = Some uk
    ∧ info_overhead v' = info_overhead v
    ∧ send_tcp_mss v' = send_tcp_mss v
    ∧ raw_trans v' = raw_trans v
    ∧ encryptor v' = Some ev'.
Proof.
  intros Hkv Hhv Hh Hp Hev Henc Hl Hmss. subst h.
  destruct (mask_of_hash _ Hh) as (m14 & Hm & Hm' & Hm14).
  destruct (send_rnd_data_len_bounds (len e) (last_server_hash v) RandomServer
              (with_encryptor (Some ev') v) ltac:(lia))
    as (rl & v1 & Hr & Hf & H0 & H1 & H2 & _ & _ & H5 & H6).
  change (send_tcp_mss (with_encryptor (Some ev') v)) with (send_tcp_mss v) in *.
  change (info_overhead (with_encryptor (Some ev') v)) with (info_overhead v) in *.
  assert (Hlen : len e + rl < 4096).
  { destruct (Z_lt_dec 400 (len e)) as [Hbig|Hsmall]; [pose proof (H5 Hbig); lia|].
    destruct (Z_lt_dec (send_tcp_mss v) (len e + info_overhead v)) as [Hov|Hfit];
      [pose proof (H1 Hov); lia|].
    destruct (Z.eq_dec (len e + info_overhead v) (send_tcp_mss v)) as [Heq|Hne].
    - pose proof (H2 ltac:(lia) (or_intror Heq)). lia.
    - pose proof (H6 ltac:(lia) ltac:(lia)). lia. }
  pose proof (pack_server_data_plain buf v ev ev' e uk m14 rl v1
                Hev Henc Hkv Hm Hm14 ltac:(lia) Hp Hr H0) as Hpack.
  exists m14, rl, (fst (Env.rand_bytes rl (env v1))).
  eexists. split; [exact Hm'|]. split; [exact Hm14|].
  split; [apply len_rand_bytes; exact H0|]. split; [exact H0|]. split; [exact Hlen|].
  split; [rewrite Hr; reflexivity|].
  split; [exact Hpack|].
  destruct Hf as [->|[g ->]]; repeat split; assumption || reflexivity.
Qed.

(** A packet of which the end is still missing: the turn leaves the
    loop, and the client as it was but for the generator. *)
Lemma client_packet_waits (out : bytes) (c : t) (uk e pad q2 tag2 : bytes)
    (m14 rl : Z) (c2 : t) :
  user_key c = Some uk →
  unpack_H (last_server_hash c).[14:16] = Ok m14 →
  0 ≤ m14 < 65536 →
  0 ≤ recv_id c < 2 ^ 32 →
  recv_buf c ++ q2 = (pack_le 2 (Z.lxor (len e) m14) ++ e ++ pad) ++ tag2 →
  q2 ≠ [] →
  4 < len (recv_buf c) →
  len tag2 = 2 →
  0 ≤ len e < 65536 →
  len pad = rl →
  len e + rl < 4096 →
  recv_rnd_data_len (len e) (last_server_hash c) RandomServer c = (Ok rl, c2) →
  client_packet out c = (Ok Break, c2).
Proof.
  intros Hk Hm Hm14 Hid Hrb Hq Hl4 Htag Hl Hpad Hlen Hr.
  pose proof (lxor_u16 (len e) m14 ltac:(lia) Hm14) as Hx.
  assert (Hl2 : length (pack_le 2 (Z.lxor (len e) m14)) = 2%nat) by apply length_pack_le.
  assert (Hw : unpack_H (recv_buf c).[:2] = Ok (Z.lxor (len e) m14)).
  { rewrite pyslice_to_inside by lia.
    rewrite <- app_assoc in Hrb.
    change (Z.to_nat 2) with 2%nat. rewrite <- Hl2 at 1.
    rewrite (head_of_prefix _ _ _ _ Hrb) by (unfold len in Hl4; lia).
    apply unpack_H_pack_le. exact Hx. }
  assert (Hshort : len (recv_buf c) < len e + rl + 4).
  { pose proof (prefix_is_shorter _ _ _ Hrb Hq) as Hs.
    rewrite !len_app in Hs. unfold len in Hs at 2. rewrite Hl2 in Hs. lia. }
  unfold client_packet.
  rewrite bind_gets. rewrite (bind_lift_Ok _ _ _ _ (pack_I_ok (recv_id c) Hid)).
  rewrite (bind_the_user_key _ _ _ Hk). rewrite !bind_gets.
  rewrite (bind_lift_Ok _ _ _ _ Hw). rewrite (bind_lift_Ok _ _ _ _ Hm).
  rewrite lxor_unmasks.
  rewrite (bind_Ok _ _ _ _ _ Hr).
  assert (E1 : (4096 <=? len e + rl) = false) by (apply Z.leb_gt; exact Hlen).
  assert (E2 : (len (recv_buf c) <? len e + rl + 4) = true) by (apply Z.ltb_lt; exact Hshort).
  rewrite E1, E2. reflexivity.
Qed.

(** The client state behind [server_to_client], whatever it holds in
    [recv_buf] and whatever its generators are at. *)
Lemma listener_frame (v c c1 : t) (uk h : bytes) :
  server_to_client v (with_recv_buf [] c) uk h →
  (c1 = c ∨ ∃ g, c1 = set_random RandomServer g c) →
  ∀ b, server_to_client v (with_recv_buf [] (with_recv_buf b c1)) uk h.
Proof.
  intros H [->|[g ->]] b; exact H.
Qed.

Lemma client_step (v c : t) (uk h buf e data rest out : bytes)
    (ev ev' ec ec' : Encryptor.t) (v' : t) :
  server_to_client v (with_recv_buf [] c) uk h →
  encryptor v = Some ev →
  encryptor c = Some ec →
  Encryptor.encrypt buf ev = (e, ev') →
  Encryptor.decrypt e ec = (buf, ec') →
  0 < len e ≤ 3575 →
  send_tcp_mss v - info_overhead v ≤ 4096 →
  pack_server_data buf v = (Ok data, v') →
  recv_buf c = data ++ rest →
  ∃ c', client_packet out c = (Ok (Next (out ++ buf)), c')
        ∧ 4 < len data
        ∧ recv_buf c' = rest
        ∧ encryptor c' = Some ec' ∧ encryptor v' = Some ev'
        ∧ send_tcp_mss v' - info_overhead v' ≤ 4096
        ∧ pack_id v' = Z.land (pack_id v + 1) 0xFFFFFFFF
        ∧ (pack_id v + 1 < 2 ^ 32 →
           server_to_client v' (with_recv_buf [] c') uk (last_server_hash v')).
Proof.
  intros Hpair Hev Hec Henc Hdec Hl Hmss Hpack Hrb.
  pose proof Hpair as
    (Hkv & Hkc & Hhv & Hhc & Hh & Hid & Hp & Ho & Hrm & Hsm & Hrawv & Hraw & _).
  cbn in Hkc, Hhc, Hid, Ho, Hrm, Hsm, Hraw.
  destruct (server_packet_shape v uk h buf e ev ev' Hkv Hhv Hh Hp Hev Henc Hl Hmss)
    as (m14 & rl & pad & v0 & Hm & Hm14 & Hpad & Hrl & Hlen & Hsend & Hpk
        & Hh' & Hp' & Hk' & Ho' & Hs' & Hr' & He').
  set (framed := pack_le 2 (Z.lxor (len e) m14) ++ e ++ pad) in *.
  set (tag := hmac_md5 (uk ++ pack_le 4 (pack_id v)) framed) in *.
  rewrite Hpack in Hpk.
  assert (Hdata : data = framed ++ tag.[:2]) by congruence.
  assert (Hv0 : v0 = v') by congruence. subst v0. clear Hpk.
  assert (Hr2 : fst (recv_rnd_data_len (len e) (last_server_hash c) RandomServer c)
                = Ok rl).
  { rewrite (recv_matches_send (with_encryptor (Some ev') v) c (len e)
               (last_server_hash c) RandomServer RandomServer).
    - rewrite Hhc. exact Hsend.
    - exact Ho.
    - exact Hrm.
    - rewrite Hsm. split; intros H; exact H. }
  destruct (recv_rnd_data_len (len e) (last_server_hash c) RandomServer c)
    as [r2 c2] eqn:Er2.
  cbn [fst] in Hr2. subst r2.
  assert (Hl2 : len (pack_le 2 (Z.lxor (len e) m14)) = 2)
    by (unfold len; rewrite length_pack_le; reflexivity).
  assert (Hlt : len tag.[:2] = 2).
  { unfold len, tag. rewrite tag_of_hmac by exact hmac_md5_length. reflexivity. }
  assert (Hld : 4 < len data).
  { rewrite Hdata. unfold framed. rewrite !len_app. pose proof (len_nonneg pad). lia. }
  exists (with_recv_buf rest
            (with_recv_id (Z.land (recv_id c + 1) 0xFFFFFFFF)
               (with_last_server_hash tag (with_encryptor (Some ec') c2)))).
  split.
  { apply (client_packet_takes hmac_md5_length out c ec ec' uk e pad rest buf framed tag
             m14 rl c2).
    - exact Hkc.
    - rewrite Hhc. exact Hh.
    - rewrite Hhc. exact Hm.
    - exact Hm14.
    - rewrite Hid. exact Hp.
    - reflexivity.
    - rewrite Hid. reflexivity.
    - rewrite Hrb, Hdata. rewrite <- app_assoc. reflexivity.
    - lia.
    - exact Hpad.
    - exact Hlen.
    - exact Er2.
    - exact Hec.
    - exact Hdec. }
  split; [exact Hld|]. split; [reflexivity|]. split; [reflexivity|].
  split; [exact He'|]. split; [rewrite Hs', Ho'; exact Hmss|]. split; [exact Hp'|].
  intros Hnext.
  assert (Hpid : Z.land (pack_id v + 1) 0xFFFFFFFF = pack_id v + 1).
  { change 0xFFFFFFFF with (Z.ones 32). rewrite Z.land_ones by lia.
    apply Z.mod_small. lia. }
  assert (Hf2 : c2 = c ∨ ∃ g, c2 = set_random RandomServer g c)
    by (apply (recv_rnd_data_len_frame _ _ _ _ _ _ Er2)).
  assert (Hlt16 : length tag = 16%nat) by (unfold tag; apply hmac_md5_length).
  unfold server_to_client.
  destruct Hf2 as [->|[g2 ->]];
    cbn; rewrite ?Hid, ?Hpid, ?Hp', ?Hh', ?Hs', ?Hr';
    repeat split; try assumption; try reflexivity; try lia;
    rewrite Ho'; exact Ho.
Qed.

Lemma client_wait (v c : t) (uk h buf e data q out : bytes)
    (ev ev' ec : Encryptor.t) (v' : t) (f : nat) :
  server_to_client v (with_recv_buf [] c) uk h →
  encryptor v = Some ev →
  encryptor c = Some ec →
  Encryptor.encrypt buf ev = (e, ev') →
  0 < len e ≤ 3575 →
  send_tcp_mss v - info_overhead v ≤ 4096 →
  pack_server_data buf v = (Ok data, v') →
  recv_buf c ++ q = data →
  q ≠ [] →
  (length (recv_buf c) ≤ f)%nat →
  ∃ c1, recv_loop client_packet f out c = (Ok (Next out), c1)
        ∧ recv_buf c1 = recv_buf c
        ∧ encryptor c1 = Some ec
        ∧ server_to_client v (with_recv_buf [] c1) uk h.
Proof.
  intros Hpair Hev Hec Henc Hl Hmss Hpack Hrb Hq Hf.
  destruct (Z_le_dec (len (recv_buf c)) 4) as [Hshort|Hlong].
  { exists c. split; [apply recv_loop_rests; exact Hshort|].
    split; [reflexivity|]. split; [exact Hec|exact Hpair]. }
  pose proof Hpair as
    (Hkv & Hkc & Hhv & Hhc & Hh & Hid & Hp & Ho & Hrm & Hsm & Hrawv & Hraw & _).
  cbn in Hkc, Hhc, Hid, Ho, Hrm, Hsm, Hraw.
  destruct (server_packet_shape v uk h buf e ev ev' Hkv Hhv Hh Hp Hev Henc Hl Hmss)
    as (m14 & rl & pad & v0 & Hm & Hm14 & Hpad & Hrl & Hlen & Hsend & Hpk & _).
  set (framed := pack_le 2 (Z.lxor (len e) m14) ++ e ++ pad) in *.
  set (tag := hmac_md5 (uk ++ pack_le 4 (pack_id v)) framed) in *.
  rewrite Hpack in Hpk.
  assert (Hdata : data = framed ++ tag.[:2]) by congruence.
  clear Hpk.
  assert (Hr2 : fst (recv_rnd_data_len (len e) (last_server_hash c) RandomServer c)
                = Ok rl).
  { rewrite (recv_matches_send (with_encryptor (Some ev') v) c (len e)
               (last_server_hash c) RandomServer RandomServer).
    - rewrite Hhc. exact Hsend.
    - exact Ho.
    - exact Hrm.
    - rewrite Hsm. split; intros H; exact H. }
  destruct (recv_rnd_data_len (len e) (last_server_hash c) RandomServer c)
    as [r2 c2] eqn:Er2.
  cbn [fst] in Hr2. subst r2.
  assert (Hlt : len tag.[:2] = 2).
  { unfold len, tag. rewrite tag_of_hmac by exact hmac_md5_length. reflexivity. }
  assert (Hbrk : client_packet out c = (Ok Break, c2)).
  { apply (client_packet_waits out c uk e pad q tag.[:2] m14 rl c2).
    - exact Hkc.
    - rewrite Hhc. exact Hm.
    - exact Hm14.
    - rewrite Hid. lia.
    - rewrite Hrb, Hdata. reflexivity.
    - exact Hq.
    - lia.
    - exact Hlt.
    - lia.
    - exact Hpad.
    - exact Hlen.
    - exact Er2. }
  destruct f as [|f]; [unfold len in Hlong; lia|].
  exists c2. split; [apply recv_loop_waits; [lia|exact Hbrk]|].
  assert (Hf2 : c2 = c ∨ ∃ g, c2 = set_random RandomServer g c)
    by (apply (recv_rnd_data_len_frame _ _ _ _ _ _ Er2)).
  destruct Hf2 as [->|[g ->]]; (split; [reflexivity|]); (split; [exact Hec|exact Hpair]).
Qed.

Lemma slices_join {A} (l : list A) (n : Z) : 0 ≤ n ≤ len l → l.[:n] ++ l.[n:] = l.
Proof.
  intros Hn. rewrite pyslice_to_inside, pyslice_from_inside by exact Hn.
  apply take_drop.
Qed.

Lemma len_slice_from {A} (l : list A) (n : Z) : 0 ≤ n ≤ len l → len l.[n:] = len l - n.
Proof.
  intros Hn. rewrite pyslice_from_inside by exact Hn.
  unfold len in *. rewrite length_drop. lia.
Qed.

Lemma pack_id_next (p : Z) : 0 ≤ p → p + 1 < 2 ^ 32 → Z.land (p + 1) 0xFFFFFFFF = p + 1.
Proof.
  intros H0 H1. change 0xFFFFFFFF with (Z.ones 32). rewrite Z.land_ones by lia.
  apply Z.mod_small. lia.
Qed.

(** The loop of [server_pre_encrypt] packs the pieces of [buf] one
    after the other. *)
Lemma chunk_loop_packs (fuel : nat) :
  ∀ (buf : bytes) (v : t) (ret_ : bytes) (ev ec : Encryptor.t) (uk : bytes),
    (length buf ≤ fuel)%nat →
    1 ≤ unit_len v →
    user_key v = Some uk →
    length (last_server_hash v) = 16%nat →
    1 < pack_id v →
    pack_id v + len buf < 2 ^ 32 →
    encryptor v = Some ev →
    in_step (chunks fuel (unit_len v) buf) ev ec →
    send_tcp_mss v - info_overhead v ≤ 4096 →
    ∃ most last ds v1,
      chunks fuel (unit_len v) buf = most ++ [last]
      ∧ chunk_loop pack_server_data fuel ret_ buf v = (Ok (ret_ ++ concat ds, last), v1)
      ∧ packed most ds v v1
      ∧ concat most ++ last = buf
      ∧ (buf ≠ [] → last ≠ [])
      ∧ Z.of_nat (length most) + len last ≤ len buf
      ∧ ∃ ev1 ec1,
          encryptor v1 = Some ev1
          ∧ in_step [last] ev1 ec1
          ∧ user_key v1 = Some uk
          ∧ length (last_server_hash v1) = 16%nat
          ∧ pack_id v1 = pack_id v + Z.of_nat (length most)
          ∧ send_tcp_mss v1 - info_overhead v1 ≤ 4096.
Proof.
  induction fuel as [|fuel IH];
    intros buf v ret_ ev ec uk Hf Hn Hk Hh Hp Hp' He Hstep Hmss.
  - assert (E : (unit_len v <? len buf) = false)
      by (apply Z.ltb_ge; unfold len; lia).
    cbn [chunks chunk_loop] in *. rewrite E in *.
    exists [], buf, [], v. cbn [app concat packed length].
    rewrite app_nil_r.
    split; [reflexivity|]. split; [reflexivity|]. split; [reflexivity|].
    split; [reflexivity|]. split; [intros H; exact H|]. split; [lia|].
    exists ev, ec. cbn [length]. repeat split; try assumption; apply Hstep || lia.
  - cbn [chunks chunk_loop] in *.
    destruct (unit_len v <? len buf) eqn:E.
    2:{ exists [], buf, [], v. cbn [app concat packed length].
        rewrite app_nil_r.
        split; [reflexivity|]. split; [reflexivity|]. split; [reflexivity|].
        split; [reflexivity|]. split; [intros H; exact H|]. split; [lia|].
        exists ev, ec. cbn [length].
        repeat split; try assumption; apply Hstep || lia. }
    apply Z.ltb_lt in E.
    set (n := unit_len v) in *.
    cbn [in_step] in Hstep.
    destruct (Encryptor.encrypt buf.[:n] ev) as [e ev'] eqn:Ee.
    cbn [fst snd] in Hstep.
    destruct (Encryptor.decrypt e ec) as [d ec'] eqn:Ed.
    cbn [fst snd] in Hstep. destruct Hstep as (Hd & Hl & Hrest).
    destruct (server_packet_shape v uk (last_server_hash v) buf.[:n] e ev ev'
                Hk eq_refl Hh ltac:(lia) He Ee Hl Hmss)
      as (m14 & rl & pad & v1 & _ & _ & _ & _ & _ & _ & Hpk
          & Hh' & Hp1 & Hk' & Ho' & Hs' & Hr' & He').
    match type of Hpk with _ = (Ok ?x, _) => set (d1 := x) in * end.
    assert (Hu : unit_len v1 = n).
    { pose proof (chunk_facts.steady_pack_server_data buf.[:n] v) as [Hu _].
      rewrite Hpk in Hu. exact Hu. }
    rewrite pack_id_next in Hp1 by lia.
    assert (Hlr : len buf.[n:] = len buf - n) by (apply len_slice_from; lia).
    destruct (IH buf.[n:] v1 (ret_ ++ d1) ev' ec' uk) as
      (most & last & ds & v2 & Hc & Hrun & Hpacked & Hcat & Hne & Hcount
       & ev1 & ec1 & He1 & Hs1 & Hk1 & Hh1 & Hp2 & Hm1).
    + unfold len in Hlr. lia.
    + rewrite Hu. exact Hn.
    + exact Hk'.
    + rewrite Hh'. apply hmac_md5_length.
    + lia.
    + lia.
    + exact He'.
    + rewrite Hu. exact Hrest.
    + rewrite Hs', Ho'. exact Hmss.
    + rewrite Hu in Hc.
      exists (buf.[:n] :: most), last, (d1 :: ds), v2.
      split; [rewrite Hc; reflexivity|].
      split.
      { unfold bind at 1. rewrite Hpk. fold n. rewrite Hrun.
        cbn [concat]. rewrite <- app_assoc. reflexivity. }
      split; [cbn [packed]; exists v1; split; [exact Hpk|exact Hpacked]|].
      split; [cbn [concat]; rewrite <- app_assoc, Hcat; apply slices_join; lia|].
      split.
      { intros _. apply Hne. intros Hnil. rewrite Hnil in Hlr. unfold len in Hlr at 1.
        simpl in Hlr. lia. }
      split; [cbn [length]; lia|].
      exists ev1, ec1.
      split; [exact He1|]. split; [exact Hs1|]. split; [exact Hk1|].
      split; [exact Hh1|]. split; [rewrite Hp2, Hp1; cbn [length]; lia|exact Hm1].
Qed.

(** The client's loop takes the packets at the head of [recv_buf] one
    after the other. *)
Lemma client_takes_packets (bufs : list bytes) :
  ∀ (ds : list bytes) (v v' c : t) (out rest : bytes) (f : nat)
    (ev ec : Encryptor.t) (uk : bytes) (more : list bytes),
    packed bufs ds v v' →
    server_to_client v (with_recv_buf [] c) uk (last_server_hash v) →
    encryptor v = Some ev →
    encryptor c = Some ec →
    in_step (bufs ++ more) ev ec →
    send_tcp_mss v - info_overhead v ≤ 4096 →
    pack_id v + Z.of_nat (length bufs) < 2 ^ 32 →
    recv_buf c = concat ds ++ rest →
    (length (recv_buf c) ≤ f)%nat →
    ∃ c1 f1 ev1 ec1,
      recv_loop client_packet f out c
      = recv_loop client_packet f1 (out ++ concat bufs) c1
      ∧ recv_buf c1 = rest
      ∧ (length rest ≤ f1)%nat
      ∧ encryptor v' = Some ev1
      ∧ encryptor c1 = Some ec1
      ∧ in_step more ev1 ec1
      ∧ server_to_client v' (with_recv_buf [] c1) uk (last_server_hash v')
      ∧ send_tcp_mss v' - info_overhead v' ≤ 4096
      ∧ pack_id v' = pack_id v + Z.of_nat (length bufs).
Proof.
  induction bufs as [|b bs IH];
    intros ds v v' c out rest f ev ec uk more Hpk Hpair Hev Hec Hstep Hmss Hid Hrb Hf.
  - destruct ds as [|d ds]; cbn [packed] in Hpk; [subst v'|contradiction].
    cbn [concat app] in *. rewrite app_nil_r.
    exists c, f, ev, ec.
    split; [reflexivity|]. split; [exact Hrb|]. split; [rewrite <- Hrb; exact Hf|].
    split; [exact Hev|]. split; [exact Hec|]. split; [exact Hstep|].
    split; [exact Hpair|]. split; [exact Hmss|]. cbn [length]. lia.
  - destruct ds as [|d ds]; cbn [packed] in Hpk; [contradiction|].
    destruct Hpk as (v1 & Hpack & Hpk).
    cbn [app in_step] in Hstep.
    destruct (Encryptor.encrypt b ev) as [e ev'] eqn:Ee.
    cbn [fst snd] in Hstep.
    destruct (Encryptor.decrypt e ec) as [d0 ec'] eqn:Ed.
    cbn [fst snd] in Hstep. destruct Hstep as (Hd & Hl & Hrest). subst d0.
    cbn [concat] in Hrb. rewrite <- app_assoc in Hrb.
    cbn [length] in Hid.
    pose proof Hpair as (_ & _ & _ & _ & _ & _ & Hp & _).
    destruct (client_step v c uk (last_server_hash v) b e d (concat ds ++ rest) out
                ev ev' ec ec' v1 Hpair Hev Hec Ee Ed Hl Hmss Hpack Hrb)
      as (c' & Hcp & Hld & Hrb' & Hec' & Hev' & Hmss' & Hp' & Hpair').
    rewrite pack_id_next in Hp' by lia.
    assert (Hlong : 4 < len (recv_buf c)).
    { rewrite Hrb, len_app. pose proof (len_nonneg (concat ds ++ rest)). lia. }
    destruct f as [|f]; [unfold len in Hlong; lia|].
    rewrite (recv_loop_step client_packet f out (out ++ b) c c' Hlong Hcp).
    destruct (IH ds v1 v' c' (out ++ b) rest f ev' ec' uk more Hpk
                (Hpair' ltac:(lia)) Hev' Hec' Hrest Hmss' ltac:(lia) Hrb')
      as (c1 & f1 & ev1 & ec1 & Hrun & Hr1 & Hf1 & Hev1 & Hec1 & Hstep1 & Hpair1
          & Hmss1 & Hp1).
    { rewrite Hrb'. rewrite Hrb in Hf, Hlong. rewrite len_app in Hlong.
      rewrite length_app in Hf. unfold len in Hld. lia. }
    exists c1, f1, ev1, ec1.
    split; [rewrite Hrun; cbn [concat]; rewrite app_assoc; reflexivity|].
    split; [exact Hr1|]. split; [exact Hf1|]. split; [exact Hev1|].
    split; [exact Hec1|]. split; [exact Hstep1|]. split; [exact Hpair1|].
    split; [exact Hmss1|]. rewrite Hp1, Hp'. cbn [length]. lia.
Qed.

Lemma packed_app (bufs1 : list bytes) :
  ∀ (ds1 bufs2 ds2 : list bytes) (v v1 v2 : t),
    packed bufs1 ds1 v v1 → packed bufs2 ds2 v1 v2 →
    packed (bufs1 ++ bufs2) (ds1 ++ ds2) v v2.
Proof.
  induction bufs1 as [|b bs IH]; intros ds1 bufs2 ds2 v v1 v2 H1 H2.
  - destruct ds1; cbn [packed] in H1; [subst v1; exact H2|contradiction].
  - destruct ds1 as [|d ds1]; cbn [packed] in H1; [contradiction|].
    destruct H1 as (v0 & Hp & H1). cbn [app packed].
    exists v0. split; [exact Hp|]. apply (IH ds1 bufs2 ds2 v0 v1 v2 H1 H2).
Qed.

(** Packets that were packed one after the other, cut in two runs. *)
Lemma packed_cut (A : list bytes) :
  ∀ (bufs B : list bytes) (v v' : t),
    packed bufs (A ++ B) v v' →
    ∃ bufsA bufsB vm,
      bufs = bufsA ++ bufsB ∧ packed bufsA A v vm ∧ packed bufsB B vm v'.
Proof.
  induction A as [|d A IH]; intros bufs B v v' H.
  - exists [], bufs, v. split; [reflexivity|]. split; [reflexivity|exact H].
  - destruct bufs as [|b bufs]; cbn [app packed] in H; [contradiction|].
    destruct H as (v1 & Hp & H).
    destruct (IH bufs B v1 v' H) as (bufsA & bufsB & vm & -> & HA & HB).
    exists (b :: bufsA), bufsB, vm. split; [reflexivity|].
    split; [cbn [packed]; exists v1; split; [exact Hp|exact HA]|exact HB].
Qed.

(** Where a cut of the stream falls: after some whole packets, inside
    the next or at its start. *)
Lemma cut_in_packets (ds : list bytes) :
  ∀ p1 p2 : bytes,
    p1 ++ p2 = concat ds →
    ∃ (A B : list bytes) (r : bytes),
      ds = A ++ B ∧ p1 = concat A ++ r ∧ r ++ p2 = concat B
      ∧ (r = [] ∨ ∃ d B' q, B = d :: B' ∧ r ++ q = d ∧ q ≠ []).
Proof.
  induction ds as [|d ds IH]; intros p1 p2 H.
  - cbn [concat] in H. apply app_eq_nil in H as [-> ->].
    exists [], [], []. repeat split; try reflexivity. left. reflexivity.
  - cbn [concat] in H.
    apply app_eq_inv in H as [(k & Hp1 & Hrest)|(k & Hd & Hp2)].
    + symmetry in Hrest.
      destruct (IH k p2 Hrest) as (A & B & r & -> & -> & Hr & Hcase).
      exists (d :: A), B, r. cbn [concat app].
      split; [reflexivity|]. split; [rewrite Hp1, app_assoc; reflexivity|].
      split; [exact Hr|exact Hcase].
    + destruct k as [|x k].
      * rewrite app_nil_r in Hd. subst p1. cbn [app] in Hp2. subst p2.
        exists [d], ds, []. cbn [concat app]. rewrite !app_nil_r.
        repeat split; try reflexivity. left. reflexivity.
      * exists [], (d :: ds), p1. cbn [concat app].
        split; [reflexivity|]. split; [reflexivity|].
        split; [rewrite Hp2, Hd, <- app_assoc; reflexivity|].
        right. exists d, ds, (x :: k). split; [reflexivity|].
        split; [symmetry; exact Hd|discriminate].
Qed.

(** One call of [client_post_decrypt]: it takes the whole packets it
    holds with the bytes it is given, and keeps what follows them, the
    beginning [r] of the next packet. *)
Lemma client_delivery (bufsA A : list bytes) (v vm c : t) (p r : bytes)
    (ev ec : Encryptor.t) (uk : bytes) (more : list bytes) :
  packed bufsA A v vm →
  server_to_client v (with_recv_buf [] c) uk (last_server_hash v) →
  encryptor v = Some ev →
  encryptor c = Some ec →
  in_step (bufsA ++ more) ev ec →
  send_tcp_mss v - info_overhead v ≤ 4096 →
  pack_id v + Z.of_nat (length bufsA) < 2 ^ 32 →
  recv_buf c ++ p = concat A ++ r →
  (r = [] ∨ ∃ b more' d vd q,
              more = b :: more' ∧ pack_server_data b vm = (Ok d, vd)
              ∧ r ++ q = d ∧ q ≠ []) →
  ∃ c1 ev1 ec1,
    client_post_decrypt p c = (Ok (concat bufsA), c1)
    ∧ recv_buf c1 = r
    ∧ encryptor vm = Some ev1
    ∧ encryptor c1 = Some ec1
    ∧ in_step more ev1 ec1
    ∧ server_to_client vm (with_recv_buf [] c1) uk (last_server_hash vm)
    ∧ send_tcp_mss vm - info_overhead vm ≤ 4096
    ∧ pack_id vm = pack_id v + Z.of_nat (length bufsA).
Proof.
  intros Hpk Hpair Hev Hec Hstep Hmss Hid Hrb Hcase.
  pose proof Hpair as (_ & _ & _ & _ & _ & _ & _ & _ & _ & _ & _ & Hraw & _).
  cbn in Hraw.
  unfold client_post_decrypt. rewrite bind_gets, Hraw. rewrite bind_gets, bind_modify.
  set (c0 := with_recv_buf (recv_buf c ++ p) c).
  destruct (client_takes_packets bufsA A v vm c0 [] r (length (recv_buf c ++ p))
              ev ec uk more Hpk Hpair Hev Hec Hstep Hmss Hid Hrb (Nat.le_refl _))
    as (c1 & f1 & ev1 & ec1 & Hrun & Hr1 & Hf1 & Hev1 & Hec1 & Hstep1 & Hpair1
        & Hmss1 & Hp1).
  cbn [app] in Hrun.
  assert (Hend : ∃ c2, recv_loop client_packet f1 (concat bufsA) c1
                       = (Ok (Next (concat bufsA)), c2)
                       ∧ recv_buf c2 = r ∧ encryptor c2 = Some ec1
                       ∧ server_to_client vm (with_recv_buf [] c2) uk
                           (last_server_hash vm)).
  { destruct Hcase as [->|(b & more' & d & vd & q & -> & Hpd & Hq & Hne)].
    - exists c1. split; [apply recv_loop_rests; rewrite Hr1; unfold len; simpl; lia|].
      split; [exact Hr1|]. split; [exact Hec1|exact Hpair1].
    - cbn [in_step] in Hstep1.
      destruct (Encryptor.encrypt b ev1) as [e ev'] eqn:Ee.
      cbn [fst snd] in Hstep1. destruct Hstep1 as (_ & Hl & _).
      destruct (client_wait vm c1 uk (last_server_hash vm) b e d q (concat bufsA)
                  ev1 ev' ec1 vd f1 Hpair1 Hev1 Hec1 Ee Hl Hmss1 Hpd)
        as (c2 & Hw & Hr2 & Hec2 & Hpair2).
      + rewrite Hr1. exact Hq.
      + exact Hne.
      + rewrite Hr1. exact Hf1.
      + exists c2. split; [exact Hw|]. split; [rewrite Hr2; exact Hr1|].
        split; [exact Hec2|exact Hpair2]. }
  destruct Hend as (c2 & Hloop & Hr2 & Hec2 & Hpair2).
  exists c2, ev1, ec1.
  split.
  { unfold bind at 1. fold c0. rewrite Hrun, Hloop. reflexivity. }
  split; [exact Hr2|]. split; [exact Hev1|]. split; [exact Hec2|].
  split; [exact Hstep1|]. split; [exact Hpair2|]. split; [exact Hmss1|exact Hp1].
Qed.

(** After its first packet [server_pre_encrypt] packs the pieces of
    [buf], the last included, and hands back the packets in a row. *)
Lemma server_pre_encrypt_packs (v : t) (uk buf : bytes) (ev ec : Encryptor.t) :
  raw_trans v = false →
  user_key v = Some uk →
  length (last_server_hash v) = 16%nat →
  1 < pack_id v →
  pack_id v + len buf < 2 ^ 32 →
  encryptor v = Some ev →
  in_step (chunks (length buf) (unit_len v) buf) ev ec →
  1 ≤ unit_len v →
  buf ≠ [] →
  send_tcp_mss v - info_overhead v ≤ 4096 →
  ∃ ds v',
    server_pre_encrypt buf v = (Ok (concat ds), v')
    ∧ packed (chunks (length buf) (unit_len v) buf) ds v v'
    ∧ concat (chunks (length buf) (unit_len v) buf) = buf
    ∧ Z.of_nat (length (chunks (length buf) (unit_len v) buf)) ≤ len buf.
Proof.
  intros Hraw Hk Hh Hp Hp' He Hstep Hn Hne Hmss.
  destruct (chunk_loop_packs (length buf) buf v [] ev ec uk (Nat.le_refl _)
              Hn Hk Hh Hp Hp' He Hstep Hmss)
    as (most & last & ds & v1 & Hc & Hrun & Hpacked & Hcat & Hlast & Hcount
        & ev1 & ec1 & He1 & Hs1 & Hk1 & Hh1 & Hp1 & Hm1).
  specialize (Hlast Hne).
  assert (Hll : 0 < len last).
  { destruct last; [congruence|]. unfold len. simpl. lia. }
  cbn [in_step] in Hs1.
  destruct (Encryptor.encrypt last ev1) as [e ev'] eqn:Ee.
  cbn [fst snd] in Hs1. destruct Hs1 as (_ & Hl & _).
  destruct (server_packet_shape v1 uk (last_server_hash v1) last e ev1 ev'
              Hk1 eq_refl Hh1 ltac:(lia) He1 Ee Hl Hm1)
    as (m14 & rl & pad & v' & _ & _ & _ & _ & _ & _ & Hpk & _).
  match type of Hpk with _ = (Ok ?x, _) => set (dl := x) in * end.
  exists (ds ++ [dl]), v'.
  split.
  { unfold server_pre_encrypt. rewrite bind_gets, Hraw. rewrite bind_gets.
    assert (E : (pack_id v =? 1) = false) by (apply Z.eqb_neq; lia).
    rewrite E. rewrite bind_ret.
    unfold bind at 1. rewrite Hrun. cbn [app].
    unfold bind at 1. rewrite Hpk. unfold ret.
    rewrite concat_app. cbn [concat]. rewrite app_nil_r. reflexivity. }
  rewrite Hc.
  split.
  { apply (packed_app most ds [last] [dl] v v1 v' Hpacked).
    cbn [packed]. exists v'. split; [exact Hpk|reflexivity]. }
  split.
  { rewrite concat_app. cbn [concat]. rewrite app_nil_r. exact Hcat. }
  rewrite length_app. cbn [length]. lia.
Qed.

Lemma listening (v c : t) (uk h : bytes) :
  server_to_client v c uk h → server_to_client v (with_recv_buf [] c) uk h.
Proof.
  intros (H1 & H2 & H3 & H4 & H5 & H6 & H7 & H8 & H9 & H10 & H11 & H12 & H13).
  unfold server_to_client. cbn.
  repeat split; try assumption; apply H7.
Qed.

Lemma listened (v c : t) (uk h : bytes) :
  server_to_client v (with_recv_buf [] c) uk h → recv_buf c = [] →
  server_to_client v c uk h.
Proof.
  intros (H1 & H2 & H3 & H4 & H5 & H6 & H7 & H8 & H9 & H10 & H11 & H12 & H13) Hb.
  cbn in H2, H4, H6, H8, H9, H10, H12.
  unfold server_to_client.
  repeat split; try assumption; apply H7.
Qed.

(** The stream of packets [server_pre_encrypt] makes of [buf], handed
    to the client in two parts cut anywhere. *)
Lemma server_to_client_stream (v c : t) (uk h buf : bytes) (ev ec : Encryptor.t) :
  server_to_client v c uk h →
  encryptor v = Some ev →
  encryptor c = Some ec →
  buf ≠ [] →
  1 ≤ unit_len v →
  in_step (chunks (length buf) (unit_len v) buf) ev ec →
  pack_id v + len buf < 2 ^ 32 →
  send_tcp_mss v - info_overhead v ≤ 4096 →
  ∃ data v',
    server_pre_encrypt buf v = (Ok data, v')
    ∧ ∀ p1 p2, p1 ++ p2 = data →
        ∃ o1 o2 c1 c',
          client_post_decrypt p1 c = (Ok o1, c1)
          ∧ client_post_decrypt p2 c1 = (Ok o2, c')
          ∧ o1 ++ o2 = buf
          ∧ server_to_client v' c' uk (last_server_hash v').
Proof.
  intros Hpair Hev Hec Hne Hn Hstep Hid Hmss.
  pose proof Hpair as (Hkv & _ & Hhv & _ & Hh & _ & Hp & _ & _ & _ & Hrawv & _ & Hrb).
  subst h.
  destruct (server_pre_encrypt_packs v uk buf ev ec Hrawv Hkv Hh ltac:(lia) Hid Hev
              Hstep Hn Hne Hmss)
    as (ds & v' & Hrun & Hpacked & Hcat & Hcount).
  set (bufs := chunks (length buf) (unit_len v) buf) in *.
  exists (concat ds), v'. split; [exact Hrun|].
  intros p1 p2 Hcut.
  destruct (cut_in_packets ds p1 p2 Hcut) as (A & B & r & -> & -> & Hr & Hcase).
  destruct (packed_cut A bufs B v v' Hpacked) as (bufsA & bufsB & vm & Hb & HA & HB).
  rewrite Hb in Hstep, Hcat, Hcount. rewrite length_app in Hcount.
  rewrite concat_app in Hcat.
  destruct (client_delivery bufsA A v vm c (concat A ++ r) r ev ec uk bufsB
              HA (listening _ _ _ _ Hpair) Hev Hec Hstep Hmss ltac:(lia))
    as (c1 & ev1 & ec1 & Hd1 & Hr1 & Hev1 & Hec1 & Hstep1 & Hpair1 & Hmss1 & Hp1).
  { rewrite Hrb. reflexivity. }
  { destruct Hcase as [->|(d & B' & q & -> & Hq & Hqn)]; [left; reflexivity|].
    right. destruct bufsB as [|b bufsB]; cbn [packed] in HB; [contradiction|].
    destruct HB as (vd & Hpd & _).
    exists b, bufsB, d, vd, q. repeat split; assumption. }
  rewrite <- (app_nil_r bufsB) in Hstep1.
  destruct (client_delivery bufsB B vm v' c1 p2 [] ev1 ec1 uk []
              HB Hpair1 Hev1 Hec1 Hstep1 Hmss1 ltac:(lia))
    as (c2 & ev2 & ec2 & Hd2 & Hr2 & Hev2 & Hec2 & _ & Hpair2 & _ & _).
  { rewrite Hr1, app_nil_r. exact Hr. }
  { left. reflexivity. }
  exists (concat bufsA), (concat bufsB), c1, c2.
  split; [exact Hd1|]. split; [exact Hd2|]. split; [exact Hcat|].
  apply listened; assumption.
Qed.

Lemma server_to_client_delivery (v c : t) (uk h buf : bytes) (ev ec : Encryptor.t) :
  server_to_client v c uk h →
  encryptor v = Some ev →
  encryptor c = Some ec →
  buf ≠ [] →
  1 ≤ unit_len v →
  in_step (chunks (length buf) (unit_len v) buf) ev ec →
  pack_id v + len buf < 2 ^ 32 →
  send_tcp_mss v - info_overhead v ≤ 4096 →
  ∃ data v' c',
    server_pre_encrypt buf v = (Ok data, v')
    ∧ client_post_decrypt data c = (Ok buf, c')
    ∧ server_to_client v' c' uk (last_server_hash v').
Proof.
  intros Hpair Hev Hec Hne Hn Hstep Hid Hmss.
  pose proof Hpair as (Hkv & _ & Hhv & _ & Hh & _ & Hp & _ & _ & _ & Hrawv & _ & Hrb).
  subst h.
  destruct (server_pre_encrypt_packs v uk buf ev ec Hrawv Hkv Hh ltac:(lia) Hid Hev
              Hstep Hn Hne Hmss)
    as (ds & v' & Hrun & Hpacked & Hcat & Hcount).
  set (bufs := chunks (length buf) (unit_len v) buf) in *.
  rewrite <- (app_nil_r bufs) in Hstep.
  destruct (client_delivery bufs ds v v' c (concat ds) [] ev ec uk []
              Hpacked (listening _ _ _ _ Hpair) Hev Hec Hstep Hmss ltac:(lia))
    as (c1 & ev1 & ec1 & Hd1 & Hr1 & _ & _ & _ & Hpair1 & _ & _).
  { rewrite Hrb, app_nil_r. reflexivity. }
  { left. reflexivity. }
  exists (concat ds), v', c1.
  split; [exact Hrun|]. split; [rewrite Hd1, Hcat; reflexivity|].
  apply listened; assumption.
Qed.

(** What [server_pre_encrypt] makes of [buf] after its first packet,
    [client_post_decrypt] turns back into [buf], however many packets
    it takes: for a server and a client paired as [server_to_client]
    says, a [buf] that is not empty, [unit_len] at least 1, ciphers in
    step for the pieces of [buf], no wrap of [pack_id] and an MSS at
    most 4096 above the overhead.  The two are paired again afterwards. *)
Theorem client_takes_what_server_pre_encrypt_makes (v c : t) (uk h buf : bytes)
    (ev ec : Encryptor.t) :
  server_to_client v c uk h →
  encryptor v = Some ev →
  encryptor c = Some ec →
  buf ≠ [] →
  1 ≤ unit_len v →
  in_step (chunks (length buf) (unit_len v) buf) ev ec →
  pack_id v + len buf < 2 ^ 32 →
  send_tcp_mss v - info_overhead v ≤ 4096 →
  ∃ data v' c',
    server_pre_encrypt buf v = (Ok data, v')
    ∧ client_post_decrypt data c = (Ok buf, c')
    ∧ server_to_client v' c' uk (last_server_hash v').
Proof. apply server_to_client_delivery. Qed.

(** The client puts the stream together again: when the bytes
    [server_pre_encrypt] made of [buf] reach the client in two parts,
    cut anywhere, the first [client_post_decrypt] gives the plaintext
    of the packets that are complete, keeps the beginning of the next
    in [recv_buf], and the second call gives the rest; the two outputs
    in a row are [buf], and the two ends are paired again. *)
Theorem client_puts_the_stream_together (v c : t) (uk h buf : bytes)
    (ev ec : Encryptor.t) :
  server_to_client v c uk h →
  encryptor v = Some ev →
  encryptor c = Some ec →
  buf ≠ [] →
  1 ≤ unit_len v →
  in_step (chunks (length buf) (unit_len v) buf) ev ec →
  pack_id v + len buf < 2 ^ 32 →
  send_tcp_mss v - info_overhead v ≤ 4096 →
  ∃ data v',
    server_pre_encrypt buf v = (Ok data, v')
    ∧ ∀ p1 p2, p1 ++ p2 = data →
        ∃ o1 o2 c1 c',
          client_post_decrypt p1 c = (Ok o1, c1)
          ∧ client_post_decrypt p2 c1 = (Ok o2, c')
          ∧ o1 ++ o2 = buf
          ∧ server_to_client v' c' uk (last_server_hash v').
Proof. apply server_to_client_stream. Qed.

End with_primitives.

(** The server that sent its first reply sends 3000 bytes, which go
    out as three packets, to the client that took the reply and
    answered it. *)
Lemma client_takes_what_server_pre_encrypt_makes_witness :
  ∃ data,
    fst (server_pre_encrypt (prims := plain_primitives) (bytes_repeat "s" 3000)
           Connection.server_replied) = Ok data
    ∧ fst (client_post_decrypt (prims := plain_primitives) data Connection.client_answered)
      = Ok (bytes_repeat "s" 3000).
Proof.
  destruct (client_takes_what_server_pre_encrypt_makes (prims := plain_primitives)
              (fun _ _ => eq_refl)
              Connection.server_replied Connection.client_answered
              (bytes_repeat "k" 16) zero16 (bytes_repeat "s" 3000)
              (Connection.cipher_of Connection.server_replied)
              (Connection.cipher_of Connection.client_answered))
    as (data & v' & c' & Hp & Hs & _).
  - unfold server_to_client.
    repeat match goal with |- _ ∧ _ => split end;
      vm_compute; first [reflexivity|discriminate].
  - vm_compute. reflexivity.
  - vm_compute. reflexivity.
  - vm_compute. discriminate.
  - vm_compute. discriminate.
  - vm_compute.
    repeat match goal with |- _ ∧ _ => split end;
      first [reflexivity|discriminate|exact I].
  - vm_compute. reflexivity.
  - vm_compute. discriminate.
  - exists data. rewrite Hp, Hs. split; reflexivity.
Defined.

(** The same 3000 bytes, with the stream cut after its first 1000
    bytes, inside the first packet. *)
Lemma client_puts_the_stream_together_witness :
  ∃ data o1 o2 c1,
    fst (server_pre_encrypt (prims := plain_primitives) (bytes_repeat "s" 3000)
           Connection.server_replied) = Ok data
    ∧ client_post_decrypt (prims := plain_primitives) (take 1000 data)
        Connection.client_answered = (Ok o1, c1)
    ∧ fst (client_post_decrypt (prims := plain_primitives) (drop 1000 data) c1) = Ok o2
    ∧ o1 ++ o2 = bytes_repeat "s" 3000.
Proof.
  destruct (client_puts_the_stream_together (prims := plain_primitives)
              (fun _ _ => eq_refl)
              Connection.server_replied Connection.client_answered
              (bytes_repeat "k" 16) zero16 (bytes_repeat "s" 3000)
              (Connection.cipher_of Connection.server_replied)
              (Connection.cipher_of Connection.client_answered))
    as (data & v' & Hp & Hcut).
  - unfold server_to_client.
    repeat match goal with |- _ ∧ _ => split end;
      vm_compute; first [reflexivity|discriminate].
  - vm_compute. reflexivity.
  - vm_compute. reflexivity.
  - vm_compute. discriminate.
  - vm_compute. discriminate.
  - vm_compute.
    repeat match goal with |- _ ∧ _ => split end;
      first [reflexivity|discriminate|exact I].
  - vm_compute. reflexivity.
  - vm_compute. discriminate.
  - destruct (Hcut (take 1000 data) (drop 1000 data) (take_drop 1000 data))
      as (o1 & o2 & c1 & c' & H1 & H2 & Ho & _).
    exists data, o1, o2, c1. rewrite Hp, H1, H2.
    repeat split; try reflexivity. exact Ho.
Defined.

End stream_facts.

(* ===================================================================== *)
(** ** The stream from the client to the server *)
(* ===================================================================== *)

Module upstream_facts.
Import auth_akarin_rand Frame Frame_facts Fixtures failure_facts command_facts.
Import bytes_facts codec_facts padding_more_facts packet_facts Pairing Stream stream_facts.

Section with_primitives.
Context {prims : primitives}.
Hypothesis hmac_md5_length : ∀ k d, length (hmac_md5 k d) = 16%nat.

Lemma sent_app (bufs1 : list bytes) :
  ∀ (ds1 bufs2 ds2 : list bytes) (c c1 c2 : t),
    packed_by pack_client_data bufs1 ds1 c c1 →
    packed_by pack_client_data bufs2 ds2 c1 c2 →
    packed_by pack_client_data (bufs1 ++ bufs2) (ds1 ++ ds2) c c2.
Proof.
  induction bufs1 as [|b bs IH]; intros ds1 bufs2 ds2 c c1 c2 H1 H2.
  - destruct ds1; cbn [packed_by] in H1; [subst c1; exact H2|contradiction].
  - destruct ds1 as [|d ds1]; cbn [packed_by] in H1; [contradiction|].
    destruct H1 as (c0 & Hp & H1). cbn [app packed_by].
    exists c0. split; [exact Hp|]. apply (IH ds1 bufs2 ds2 c0 c1 c2 H1 H2).
Qed.

Lemma sent_cut (A : list bytes) :
  ∀ (bufs B : list bytes) (c c' : t),
    packed_by pack_client_data bufs (A ++ B) c c' →
    ∃ bufsA bufsB cm,
      bufs = bufsA ++ bufsB
      ∧ packed_by pack_client_data bufsA A c cm
      ∧ packed_by pack_client_data bufsB B cm c'.
Proof.
  induction A as [|d A IH]; intros bufs B c c' H.
  - exists [], bufs, c. split; [reflexivity|]. split; [reflexivity|exact H].
  - destruct bufs as [|b bufs]; cbn [app packed_by] in H; [contradiction|].
    destruct H as (c1 & Hp & H).
    destruct (IH bufs B c1 c' H) as (bufsA & bufsB & cm & -> & HA & HB).
    exists (b :: bufsA), bufsB, cm. split; [reflexivity|].
    split; [cbn [packed_by]; exists c1; split; [exact Hp|exact HA]|exact HB].
Qed.

(** *** For a client that packs one way throughout

    [K] is what the client needs to pack, [J] how the two ends are
    paired; the packets are taken one by one as [J_step] says. *)
Section paired.
Variable K : t → Prop.
Variable J : t → t → Prop.
Hypothesis K_pack : ∀ c b e ec ec',
  K c → encryptor c = Some ec → Encryptor.encrypt b ec = (e, ec') → 0 < len e ≤ 3575 →
  ∃ d c1, pack_client_data b c = (Ok d, c1) ∧ K c1 ∧ encryptor c1 = Some ec'.
Hypothesis J_K : ∀ c v, J c v → K c.
Hypothesis J_flags : ∀ c v, J c v → raw_trans v = false ∧ has_recv_header v = true.
Hypothesis J_buf : ∀ c v b, J c v → J c (with_recv_buf b v).
Hypothesis J_info : ∀ c v d, J c v → J c (set_info_data d v).
Hypothesis J_step : ∀ c v c1 b e d rest (out : list byte) sb ec ec' ev ev',
  J c v → encryptor c = Some ec → encryptor v = Some ev →
  Encryptor.encrypt b ec = (e, ec') → Encryptor.decrypt e ev = (b, ev') →
  0 < len e ≤ 3575 →
  pack_client_data b c = (Ok d, c1) →
  recv_buf v = d ++ rest →
  ∃ v', server_packet (out, sb) v = (Ok (Next (out ++ b, sb)), v')
        ∧ 4 < len d ∧ recv_buf v' = rest ∧ encryptor v' = Some ev' ∧ J c1 v'.
Hypothesis J_wait : ∀ c v c1 b e d q (out : list byte) sb ec ec' ev,
  J c v → encryptor c = Some ec → encryptor v = Some ev →
  Encryptor.encrypt b ec = (e, ec') →
  0 < len e ≤ 3575 →
  pack_client_data b c = (Ok d, c1) →
  recv_buf v ++ q = d → q ≠ [] → 4 < len (recv_buf v) →
  ∃ v', server_packet (out, sb) v = (Ok Break, v')
        ∧ recv_buf v' = recv_buf v ∧ encryptor v' = Some ev ∧ J c v'.

(** The loop of [client_pre_encrypt] packs the pieces of [buf] one
    after the other. *)
Lemma chunk_loop_sends (fuel : nat) :
  ∀ (buf : bytes) (c : t) (ret_ : bytes) (ec ev : Encryptor.t),
    (length buf ≤ fuel)%nat →
    1 ≤ unit_len c →
    K c →
    encryptor c = Some ec →
    in_step (chunks fuel (unit_len c) buf) ec ev →
    ∃ most last ds c1,
      chunks fuel (unit_len c) buf = most ++ [last]
      ∧ chunk_loop pack_client_data fuel ret_ buf c = (Ok (ret_ ++ concat ds, last), c1)
      ∧ packed_by pack_client_data most ds c c1
      ∧ concat most ++ last = buf
      ∧ (buf ≠ [] → last ≠ [])
      ∧ K c1
      ∧ ∃ ec1 ev1, encryptor c1 = Some ec1 ∧ in_step [last] ec1 ev1.
Proof.
  induction fuel as [|fuel IH]; intros buf c ret_ ec ev Hf Hn Hk He Hstep.
  - assert (E : (unit_len c <? len buf) = false)
      by (apply Z.ltb_ge; unfold len; lia).
    cbn [chunks chunk_loop] in *. rewrite E in *.
    exists [], buf, [], c. cbn [app concat packed_by].
    rewrite app_nil_r.
    split; [reflexivity|]. split; [reflexivity|]. split; [reflexivity|].
    split; [reflexivity|]. split; [intros H; exact H|]. split; [exact Hk|].
    exists ec, ev. split; [exact He|exact Hstep].
  - cbn [chunks chunk_loop] in *.
    destruct (unit_len c <? len buf) eqn:E.
    2:{ exists [], buf, [], c. cbn [app concat packed_by].
        rewrite app_nil_r.
        split; [reflexivity|]. split; [reflexivity|]. split; [reflexivity|].
        split; [reflexivity|]. split; [intros H; exact H|]. split; [exact Hk|].
        exists ec, ev. split; [exact He|exact Hstep]. }
    apply Z.ltb_lt in E.
    set (n := unit_len c) in *.
    cbn [in_step] in Hstep.
    destruct (Encryptor.encrypt buf.[:n] ec) as [e ec'] eqn:Ee.
    cbn [fst snd] in Hstep.
    destruct (Encryptor.decrypt e ev) as [d ev'] eqn:Ed.
    cbn [fst snd] in Hstep. destruct Hstep as (Hd & Hl & Hrest).
    destruct (K_pack c buf.[:n] e ec ec' Hk He Ee Hl) as (d1 & c1 & Hpk & Hk1 & He1).
    assert (Hu : unit_len c1 = n).
    { pose proof (chunk_facts.steady_pack_client_data buf.[:n] c) as [Hu _].
      rewrite Hpk in Hu. exact Hu. }
    assert (Hlr : len buf.[n:] = len buf - n) by (apply len_slice_from; lia).
    destruct (IH buf.[n:] c1 (ret_ ++ d1) ec' ev') as
      (most & last & ds & c2 & Hc & Hrun & Hpacked & Hcat & Hne & Hk2 & Hciph).
    + unfold len in Hlr. lia.
    + rewrite Hu. exact Hn.
    + exact Hk1.
    + exact He1.
    + rewrite Hu. exact Hrest.
    + rewrite Hu in Hc.
      exists (buf.[:n] :: most), last, (d1 :: ds), c2.
      split; [rewrite Hc; reflexivity|].
      split.
      { unfold bind at 1. rewrite Hpk. fold n. rewrite Hrun.
        cbn [concat]. rewrite <- app_assoc. reflexivity. }
      split; [cbn [packed_by]; exists c1; split; [exact Hpk|exact Hpacked]|].
      split; [cbn [concat]; rewrite <- app_assoc, Hcat; apply slices_join; lia|].
      split.
      { intros _. apply Hne. intros Hnil. rewrite Hnil in Hlr. unfold len in Hlr at 1.
        simpl in Hlr. lia. }
      split; [exact Hk2|exact Hciph].
Qed.

(** With the header sent, [client_pre_encrypt] packs the pieces of
    [buf], the last included, and hands back the packets in a row. *)
Lemma client_pre_encrypt_sends (c : t) (buf : bytes) (ec ev : Encryptor.t) :
  has_sent_header c = true →
  K c →
  encryptor c = Some ec →
  in_step (chunks (length buf) (unit_len c) buf) ec ev →
  1 ≤ unit_len c →
  buf ≠ [] →
  ∃ ds c',
    client_pre_encrypt buf c = (Ok (concat ds), c')
    ∧ packed_by pack_client_data (chunks (length buf) (unit_len c) buf) ds c c'
    ∧ concat (chunks (length buf) (unit_len c) buf) = buf.
Proof.
  intros Hhdr Hk He Hstep Hn Hne.
  destruct (chunk_loop_sends (length buf) buf c [] ec ev (Nat.le_refl _) Hn Hk He Hstep)
    as (most & last & ds & c1 & Hc & Hrun & Hpacked & Hcat & Hlast & Hk1
        & ec1 & ev1 & He1 & Hs1).
  specialize (Hlast Hne).
  cbn [in_step] in Hs1.
  destruct (Encryptor.encrypt last ec1) as [e ec'] eqn:Ee.
  cbn [fst snd] in Hs1. destruct Hs1 as (_ & Hl & _).
  destruct (K_pack c1 last e ec1 ec' Hk1 He1 Ee Hl) as (dl & c' & Hpk & _ & _).
  exists (ds ++ [dl]), c'.
  split.
  { unfold client_pre_encrypt. rewrite bind_gets, Hhdr. cbn [negb]. rewrite bind_ret.
    unfold bind at 1. rewrite Hrun. cbn [app].
    unfold bind at 1. rewrite Hpk. unfold ret.
    rewrite concat_app. cbn [concat]. rewrite app_nil_r. reflexivity. }
  rewrite Hc.
  split.
  { apply (sent_app most ds [last] [dl] c c1 c' Hpacked).
    cbn [packed_by]. exists c'. split; [exact Hpk|reflexivity]. }
  rewrite concat_app. cbn [concat]. rewrite app_nil_r. exact Hcat.
Qed.

(** The server's loop takes the packets at the head of [recv_buf] one
    after the other. *)
Lemma server_takes_packets (bufs : list bytes) :
  ∀ (ds : list bytes) (c c' v : t) (out : list byte) (rest : bytes) (sb : bool) (f : nat)
    (ec ev : Encryptor.t) (more : list bytes),
    packed_by pack_client_data bufs ds c c' →
    J c v →
    encryptor c = Some ec →
    encryptor v = Some ev →
    in_step (bufs ++ more) ec ev →
    recv_buf v = concat ds ++ rest →
    (length (recv_buf v) ≤ f)%nat →
    ∃ v1 f1 ec1 ev1,
      recv_loop server_packet f (out, sb) v
      = recv_loop server_packet f1 (out ++ concat bufs, sb) v1
      ∧ recv_buf v1 = rest
      ∧ (length rest ≤ f1)%nat
      ∧ encryptor c' = Some ec1
      ∧ encryptor v1 = Some ev1
      ∧ in_step more ec1 ev1
      ∧ J c' v1.
Proof.
  induction bufs as [|b bs IH];
    intros ds c c' v out rest sb f ec ev more Hpk Hpair Hec Hev Hstep Hrb Hf.
  - destruct ds as [|d ds]; cbn [packed_by] in Hpk; [subst c'|contradiction].
    cbn [concat app] in *. rewrite app_nil_r.
    exists v, f, ec, ev.
    split; [reflexivity|]. split; [exact Hrb|]. split; [rewrite <- Hrb; exact Hf|].
    split; [exact Hec|]. split; [exact Hev|]. split; [exact Hstep|exact Hpair].
  - destruct ds as [|d ds]; cbn [packed_by] in Hpk; [contradiction|].
    destruct Hpk as (c1 & Hpack & Hpk).
    cbn [app in_step] in Hstep.
    destruct (Encryptor.encrypt b ec) as [e ec'] eqn:Ee.
    cbn [fst snd] in Hstep.
    destruct (Encryptor.decrypt e ev) as [d0 ev'] eqn:Ed.
    cbn [fst snd] in Hstep. destruct Hstep as (Hd & Hl & Hrest). subst d0.
    cbn [concat] in Hrb. rewrite <- app_assoc in Hrb.
    destruct (K_pack c b e ec ec' (J_K c v Hpair) Hec Ee Hl) as (d' & c1' & Hpk' & _ & Hec').
    rewrite Hpack in Hpk'. assert (c1' = c1) by congruence. subst c1'. clear Hpk'.
    destruct (J_step c v c1 b e d (concat ds ++ rest) out sb ec ec' ev ev'
                Hpair Hec Hev Ee Ed Hl Hpack Hrb)
      as (v' & Hsp & Hld & Hrb' & Hev' & Hpair').
    assert (Hlong : 4 < len (recv_buf v)).
    { rewrite Hrb, len_app. pose proof (len_nonneg (concat ds ++ rest)). lia. }
    destruct f as [|f]; [unfold len in Hlong; lia|].
    rewrite (recv_loop_step server_packet f (out, sb) (out ++ b, sb) v v' Hlong Hsp).
    destruct (IH ds c1 c' v' (out ++ b) rest sb f ec' ev' more Hpk
                Hpair' Hec' Hev' Hrest Hrb')
      as (v1 & f1 & ec1 & ev1 & Hrun & Hr1 & Hf1 & Hec1 & Hev1 & Hstep1 & Hpair1).
    { rewrite Hrb'. rewrite Hrb in Hf, Hlong. rewrite len_app in Hlong.
      rewrite length_app in Hf. unfold len in Hld. lia. }
    exists v1, f1, ec1, ev1.
    split; [etransitivity; [exact Hrun|]; cbn [concat]; rewrite app_assoc; reflexivity|].
    split; [exact Hr1|]. split; [exact Hf1|]. split; [exact Hec1|].
    split; [exact Hev1|]. split; [exact Hstep1|exact Hpair1].
Qed.

(** One call of [server_post_decrypt] after the handshake: it takes
    the whole packets it holds with the bytes it is given, and keeps
    what follows them, the beginning [r] of the next packet. *)
Lemma server_delivery (bufsA A : list bytes) (c cm v : t) (p r : bytes)
    (ec ev : Encryptor.t) (more : list bytes) :
  packed_by pack_client_data bufsA A c cm →
  J c v →
  encryptor c = Some ec →
  encryptor v = Some ev →
  in_step (bufsA ++ more) ec ev →
  recv_buf v ++ p = concat A ++ r →
  (r = [] ∨ ∃ b more' d cd q,
              more = b :: more' ∧ pack_client_data b cm = (Ok d, cd)
              ∧ r ++ q = d ∧ q ≠ []) →
  ∃ v1 ec1 ev1,
    server_post_decrypt p v = (Ok (concat bufsA, false), v1)
    ∧ recv_buf v1 = r
    ∧ encryptor cm = Some ec1
    ∧ encryptor v1 = Some ev1
    ∧ in_step more ec1 ev1
    ∧ J cm v1.
Proof.
  intros Hpk Hpair Hec Hev Hstep Hrb Hcase.
  destruct (J_flags c v Hpair) as [Hraw Hhdr].
  unfold server_post_decrypt. rewrite bind_gets, Hraw.
  rewrite bind_gets, bind_modify, bind_gets.
  set (v0 := with_recv_buf (recv_buf v ++ p) v).
  change (has_recv_header v0) with (has_recv_header v). rewrite Hhdr. cbn [negb].
  rewrite bind_ret, bind_gets.
  destruct (server_takes_packets bufsA A c cm v0 [] r false (length (recv_buf v0))
              ec ev more Hpk (J_buf c v _ Hpair) Hec Hev Hstep Hrb (Nat.le_refl _))
    as (v1 & f1 & ec1 & ev1 & Hrun & Hr1 & Hf1 & Hec1 & Hev1 & Hstep1 & Hpair1).
  cbn [app] in Hrun.
  assert (Hend : ∃ v2, recv_loop server_packet f1 (concat bufsA, false) v1
                       = (Ok (Next (concat bufsA, false)), v2)
                       ∧ recv_buf v2 = r ∧ encryptor v2 = Some ev1 ∧ J cm v2).
  { destruct Hcase as [->|(b & more' & d & cd & q & -> & Hpd & Hq & Hne)].
    - exists v1. split; [apply recv_loop_rests; rewrite Hr1; unfold len; simpl; lia|].
      split; [exact Hr1|]. split; [exact Hev1|exact Hpair1].
    - destruct (Z_le_dec (len (recv_buf v1)) 4) as [Hshort|Hlong].
      { exists v1. split; [apply recv_loop_rests; exact Hshort|].
        split; [exact Hr1|]. split; [exact Hev1|exact Hpair1]. }
      cbn [in_step] in Hstep1.
      destruct (Encryptor.encrypt b ec1) as [e ec'] eqn:Ee.
      cbn [fst snd] in Hstep1. destruct Hstep1 as (_ & Hl & _).
      destruct (J_wait cm v1 cd b e d q (concat bufsA) false ec1 ec' ev1
                  Hpair1 Hec1 Hev1 Ee Hl Hpd)
        as (v2 & Hw & Hr2 & Hev2 & Hpair2).
      + rewrite Hr1. exact Hq.
      + exact Hne.
      + lia.
      + destruct f1 as [|f1]; [rewrite <- Hr1 in Hf1; unfold len in Hlong; lia|].
        exists v2. split; [apply recv_loop_waits; [lia|exact Hw]|].
        split; [rewrite Hr2; exact Hr1|]. split; [exact Hev2|exact Hpair2]. }
  destruct Hend as (v2 & Hloop & Hr2 & Hev2 & Hpair2).
  unfold bind at 1. rewrite Hrun, Hloop.
  destruct (concat bufsA) as [|x xs] eqn:Eo.
  - rewrite bind_ret. exists v2, ec1, ev1.
    split; [reflexivity|]. split; [exact Hr2|]. split; [exact Hec1|].
    split; [exact Hev2|]. split; [exact Hstep1|exact Hpair2].
  - unfold bind, time_now, gets, modify, ret.
    eexists. exists ec1, ev1.
    split; [reflexivity|]. split; [exact Hr2|]. split; [exact Hec1|].
    split; [exact Hev2|]. split; [exact Hstep1|apply J_info; exact Hpair2].
Qed.

(** The stream of packets [client_pre_encrypt] makes of [buf], handed
    to the server in two parts cut anywhere. *)
Lemma upstream (c v : t) (buf : bytes) (ec ev : Encryptor.t) :
  J c v →
  recv_buf v = [] →
  has_sent_header c = true →
  encryptor c = Some ec →
  encryptor v = Some ev →
  buf ≠ [] →
  1 ≤ unit_len c →
  in_step (chunks (length buf) (unit_len c) buf) ec ev →
  ∃ data c',
    client_pre_encrypt buf c = (Ok data, c')
    ∧ (∃ v', server_post_decrypt data v = (Ok (buf, false), v')
              ∧ recv_buf v' = [] ∧ J c' v')
    ∧ ∀ p1 p2, p1 ++ p2 = data →
        ∃ o1 o2 v1 v',
          server_post_decrypt p1 v = (Ok (o1, false), v1)
          ∧ server_post_decrypt p2 v1 = (Ok (o2, false), v')
          ∧ o1 ++ o2 = buf
          ∧ recv_buf v' = [] ∧ J c' v'.
Proof.
  intros Hpair Hrb Hhdr Hec Hev Hne Hn Hstep.
  destruct (client_pre_encrypt_sends c buf ec ev Hhdr (J_K c v Hpair) Hec Hstep Hn Hne)
    as (ds & c' & Hrun & Hpacked & Hcat).
  set (bufs := chunks (length buf) (unit_len c) buf) in *.
  exists (concat ds), c'. split; [exact Hrun|]. split.
  { pose proof Hstep as Hstep0. rewrite <- (app_nil_r bufs) in Hstep0.
    destruct (server_delivery bufs ds c c' v (concat ds) [] ec ev []
                Hpacked Hpair Hec Hev Hstep0)
      as (v1 & ec1 & ev1 & Hd1 & Hr1 & _ & _ & _ & Hpair1).
    { rewrite Hrb, app_nil_r. reflexivity. }
    { left. reflexivity. }
    exists v1. split; [rewrite Hd1, Hcat; reflexivity|]. split; [exact Hr1|exact Hpair1]. }
  intros p1 p2 Hcut.
  destruct (cut_in_packets ds p1 p2 Hcut) as (A & B & r & -> & -> & Hr & Hcase).
  destruct (sent_cut A bufs B c c' Hpacked) as (bufsA & bufsB & cm & Hb & HA & HB).
  rewrite Hb in Hstep, Hcat. rewrite concat_app in Hcat.
  destruct (server_delivery bufsA A c cm v (concat A ++ r) r ec ev bufsB
              HA Hpair Hec Hev Hstep)
    as (v1 & ec1 & ev1 & Hd1 & Hr1 & Hec1 & Hev1 & Hstep1 & Hpair1).
  { rewrite Hrb. reflexivity. }
  { destruct Hcase as [->|(d & B' & q & -> & Hq & Hqn)]; [left; reflexivity|].
    right. destruct bufsB as [|b bufsB]; cbn [packed_by] in HB; [contradiction|].
    destruct HB as (cd & Hpd & _).
    exists b, bufsB, d, cd, q. repeat split; assumption. }
  rewrite <- (app_nil_r bufsB) in Hstep1.
  destruct (server_delivery bufsB B cm c' v1 p2 [] ec1 ev1 []
              HB Hpair1 Hec1 Hev1 Hstep1)
    as (v2 & ec2 & ev2 & Hd2 & Hr2 & _ & _ & _ & Hpair2).
  { rewrite Hr1, app_nil_r. exact Hr. }
  { left. reflexivity. }
  exists (concat bufsA), (concat bufsB), v1, v2.
  split; [exact Hd1|]. split; [exact Hd2|]. split; [exact Hcat|].
  split; [exact Hr2|exact Hpair2].
Qed.

End paired.

(** *** No command queued *)

(** What [pack_client_data] makes of [buf] while no command is queued,
    and how it leaves the client. *)
Lemma client_packet_shape (c : t) (uk buf e : bytes) (ec ec' : Encryptor.t) :
  packs_plain uk c →
  encryptor c = Some ec →
  Encryptor.encrypt buf ec = (e, ec') →
  0 < len e ≤ 3575 →
  ∃ m14 rl pad c',
    unpack_H (last_client_hash c).[14:16] = Ok m14 ∧ 0 ≤ m14 < 65536
    ∧ len pad = rl ∧ 0 ≤ rl ∧ len e + rl < 4096
    ∧ fst (send_rnd_data_len (len e) (last_client_hash c) RandomClient
             (with_encryptor (Some ec') c)) = Ok rl
    ∧ pack_client_data buf c
      = (Ok ((pack_le 2 (Z.lxor (len e) m14) ++ e ++ pad)
             ++ (hmac_md5 (uk ++ pack_le 4 (pack_id c))
                   (pack_le 2 (Z.lxor (len e) m14) ++ e ++ pad)).[:2]), c')
    ∧ last_client_hash c'
      = hmac_md5 (uk ++ pack_le 4 (pack_id c)) (pack_le 2 (Z.lxor (len e) m14) ++ e ++ pad)
    ∧ pack_id c' = Z.land (pack_id c + 1) 0xFFFFFFFF
    ∧ user_key c' = Some uk
    ∧ info_overhead c' = info_overhead c
    ∧ send_tcp_mss c' = send_tcp_mss c
    ∧ send_back_cmd c' = send_back_cmd c
    ∧ encryptor c' = Some ec'.
Proof.
  intros (Hcmd & Hk & Hh & Hp & Hmss) Hec Henc Hl.
  destruct (mask_of_hash _ Hh) as (m14 & Hm & Hm' & Hm14).
  destruct (send_rnd_data_len_bounds (len e) (last_client_hash c) RandomClient
              (with_encryptor (Some ec') c) ltac:(lia))
    as (rl & c1 & Hr & Hf & H0 & H1 & H2 & _ & _ & H5 & H6).
  change (send_tcp_mss (with_encryptor (Some ec') c)) with (send_tcp_mss c) in *.
  change (info_overhead (with_encryptor (Some ec') c)) with (info_overhead c) in *.
  assert (Hlen : len e + rl < 4096).
  { destruct (Z_lt_dec 400 (len e)) as [Hbig|Hsmall]; [pose proof (H5 Hbig); lia|].
    destruct (Z_lt_dec (send_tcp_mss c) (len e + info_overhead c)) as [Hov|Hfit];
      [pose proof (H1 Hov); lia|].
    destruct (Z.eq_dec (len e + info_overhead c) (send_tcp_mss c)) as [Heq|Hne].
    - pose proof (H2 ltac:(lia) (or_intror Heq)). lia.
    - pose proof (H6 ltac:(lia) ltac:(lia)). lia. }
  pose proof (pack_client_data_plain buf c ec ec' e uk m14 rl c1
                Hec Henc Hcmd Hk Hm Hm14 ltac:(lia) Hp Hr H0) as Hpack.
  exists m14, rl, (fst (Env.rand_bytes rl (env c1))).
  eexists. split; [exact Hm'|]. split; [exact Hm14|].
  split; [apply len_rand_bytes; exact H0|]. split; [exact H0|]. split; [exact Hlen|].
  split; [rewrite Hr; reflexivity|].
  split; [exact Hpack|].
  destruct Hf as [->|[g ->]]; repeat split; assumption || reflexivity.
Qed.

Lemma pack_id_wraps (p : Z) : 0 ≤ Z.land (p + 1) 0xFFFFFFFF < 2 ^ 32.
Proof.
  change 0xFFFFFFFF with (Z.ones 32). rewrite Z.land_ones by lia.
  apply Z.mod_pos_bound. lia.
Qed.

Lemma plain_pack : ∀ uk c b e ec ec',
  packs_plain uk c → encryptor c = Some ec → Encryptor.encrypt b ec = (e, ec') →
  0 < len e ≤ 3575 →
  ∃ d c1, pack_client_data b c = (Ok d, c1) ∧ packs_plain uk c1 ∧ encryptor c1 = Some ec'.
Proof.
  intros uk c b e ec ec' Hk Hec Henc Hl.
  destruct (client_packet_shape c uk b e ec ec' Hk Hec Henc Hl)
    as (m14 & rl & pad & c' & _ & _ & _ & _ & _ & _ & Hpk
        & Hh' & Hp' & Hk' & Ho' & Hs' & Hc' & He').
  destruct Hk as (Hcmd & Hkc & Hh & Hp & Hmss).
  eexists. exists c'. split; [exact Hpk|]. split; [|exact He'].
  unfold packs_plain.
  split; [rewrite Hc'; exact Hcmd|]. split; [exact Hk'|].
  split; [rewrite Hh'; apply hmac_md5_length|].
  split; [rewrite Hp'; apply pack_id_wraps|]. rewrite Hs', Ho'. exact Hmss.
Qed.

Lemma plain_flags : ∀ uk c v,
  upstream_plain uk c v → raw_trans v = false ∧ has_recv_header v = true.
Proof.
  intros uk c v (_ & H). destruct H as (_ & _ & _ & _ & _ & _ & _ & _ & _ & _ & Hr & Hh & _).
  split; [exact Hr|exact Hh].
Qed.

Lemma plain_step_frame : ∀ uk c v c1 b e d rest (out : list byte) sb ec ec' ev ev',
  upstream_plain uk c v → encryptor c = Some ec → encryptor v = Some ev →
  Encryptor.encrypt b ec = (e, ec') → Encryptor.decrypt e ev = (b, ev') →
  0 < len e ≤ 3575 →
  pack_client_data b c = (Ok d, c1) →
  recv_buf v = d ++ rest →
  ∃ v', server_packet (out, sb) v = (Ok (Next (out ++ b, sb)), v')
        ∧ 4 < len d ∧ recv_buf v' = rest ∧ encryptor v' = Some ev'
        ∧ upstream_plain uk c1 v'
        ∧ client_over_head v' = client_over_head v
        ∧ client_id v' = client_id v
        ∧ connection_id v' = connection_id v.
Proof.
  intros uk c v c1 b e d rest out sb ec ec' ev ev' [Hk Hpair] Hec Hev Henc Hdec Hl
    Hpack Hrb.
  pose proof Hpair as
    (Hkc & Hkv & _ & Hhv & Hh & Hid & Hp & Ho & Hrm & Hsm & Hraw & Hhdr & _).
  cbn in Hkv, Hhv, Hid, Ho, Hrm, Hsm, Hraw, Hhdr.
  destruct (client_packet_shape c uk b e ec ec' Hk Hec Henc Hl)
    as (m14 & rl & pad & c0 & Hm & Hm14 & Hpad & Hrl & Hlen & Hsend & Hpk
        & Hh' & Hp' & Hk' & Ho' & Hs' & Hc' & He').
  set (framed := pack_le 2 (Z.lxor (len e) m14) ++ e ++ pad) in *.
  set (tag := hmac_md5 (uk ++ pack_le 4 (pack_id c)) framed) in *.
  rewrite Hpack in Hpk.
  assert (Hdata : d = framed ++ tag.[:2]) by congruence.
  assert (Hc0 : c0 = c1) by congruence. subst c0. clear Hpk.
  assert (Hr2 : fst (recv_rnd_data_len (len e + 0) (last_client_hash v) RandomClient v)
                = Ok rl).
  { rewrite Z.add_0_r.
    rewrite (recv_matches_send (with_encryptor (Some ec') c) v (len e)
               (last_client_hash v) RandomClient RandomClient).
    - rewrite Hhv. exact Hsend.
    - exact Ho.
    - exact Hrm.
    - rewrite Hsm. split; intros H; exact H. }
  destruct (recv_rnd_data_len (len e + 0) (last_client_hash v) RandomClient v)
    as [r2 v2] eqn:Er2.
  cbn [fst] in Hr2. subst r2.
  assert (Hl2 : len (pack_le 2 (Z.lxor (len e) m14)) = 2)
    by (unfold len; rewrite length_pack_le; reflexivity).
  assert (Hlt : len tag.[:2] = 2).
  { unfold len, tag. rewrite tag_of_hmac by exact hmac_md5_length. reflexivity. }
  assert (Hld : 4 < len d).
  { rewrite Hdata. unfold framed. rewrite !len_app. pose proof (len_nonneg pad). lia. }
  assert (E0 : (len e =? 0) = false) by (apply Z.eqb_neq; lia).
  exists (with_recv_buf rest
            (with_last_client_hash tag
               (with_encryptor (Some ev')
                  (with_recv_id (Z.land (recv_id v + 1) 0xFFFFFFFF) v2)))).
  split.
  { pose proof (server_packet_takes hmac_md5_length out sb v ev ev' uk e pad rest b framed
                  tag m14 rl v2) as Hsp.
    rewrite E0 in Hsp. apply Hsp.
    - exact Hkv.
    - rewrite Hhv. exact Hh.
    - rewrite Hhv. exact Hm.
    - exact Hm14.
    - rewrite Hid. exact Hp.
    - reflexivity.
    - rewrite Hid. reflexivity.
    - rewrite Hrb, Hdata. rewrite <- app_assoc. reflexivity.
    - lia.
    - exact Hpad.
    - exact Hlen.
    - exact Er2.
    - exact Hev.
    - exact Hdec. }
  split; [exact Hld|]. split; [reflexivity|]. split; [reflexivity|].
  destruct (plain_pack uk c b e ec ec' Hk Hec Henc Hl) as (d' & c1' & Hpk' & Hk1 & _).
  rewrite Hpack in Hpk'. assert (c1' = c1) by congruence. subst c1'.
  assert (Hf2 : v2 = v ∨ ∃ g, v2 = set_random RandomClient g v)
    by (apply (recv_rnd_data_len_frame _ _ _ _ _ _ Er2)).
  assert (Hlt16 : length tag = 16%nat) by (unfold tag; apply hmac_md5_length).
  pose proof (pack_id_wraps (pack_id c)) as Hw.
  split.
  { split; [exact Hk1|].
    unfold client_to_server.
    destruct Hf2 as [->|[g2 ->]];
      cbn; rewrite ?Hid, ?Hp', ?Hh', ?Hs', ?Hk';
      repeat split; try assumption; try reflexivity; try lia;
      rewrite Ho'; exact Ho. }
  destruct Hf2 as [->|[g2 ->]]; repeat split; reflexivity.
Qed.

Lemma plain_step : ∀ uk c v c1 b e d rest (out : list byte) sb ec ec' ev ev',
  upstream_plain uk c v → encryptor c = Some ec → encryptor v = Some ev →
  Encryptor.encrypt b ec = (e, ec') → Encryptor.decrypt e ev = (b, ev') →
  0 < len e ≤ 3575 →
  pack_client_data b c = (Ok d, c1) →
  recv_buf v = d ++ rest →
  ∃ v', server_packet (out, sb) v = (Ok (Next (out ++ b, sb)), v')
        ∧ 4 < len d ∧ recv_buf v' = rest ∧ encryptor v' = Some ev'
        ∧ upstream_plain uk c1 v'.
Proof.
  intros uk c v c1 b e d rest out sb ec ec' ev ev' Hp Hec Hev Henc Hdec Hl Hpack Hrb.
  destruct (plain_step_frame uk c v c1 b e d rest out sb ec ec' ev ev'
              Hp Hec Hev Henc Hdec Hl Hpack Hrb)
    as (v' & H1 & H2 & H3 & H4 & H5 & _).
  exists v'. repeat split; assumption || apply H2 || apply H5.
Qed.

(** A packet without a command of which the end is still missing. *)
Lemma server_packet_waits (out : list byte) (sb : bool) (v : t) (uk e pad q2 tag2 : bytes)
    (m14 rl : Z) (v2 : t) :
  user_key v = Some uk →
  unpack_H (last_client_hash v).[14:16] = Ok m14 →
  0 ≤ m14 < 65536 →
  0 ≤ recv_id v < 2 ^ 32 →
  recv_buf v ++ q2 = (pack_le 2 (Z.lxor (len e) m14) ++ e ++ pad) ++ tag2 →
  q2 ≠ [] →
  4 < len (recv_buf v) →
  len tag2 = 2 →
  0 ≤ len e < 0xff00 →
  len pad = rl →
  len e + rl < 4096 →
  recv_rnd_data_len (len e + 0) (last_client_hash v) RandomClient v = (Ok rl, v2) →
  server_packet (out, sb) v = (Ok Break, v2).
Proof.
  intros Hk Hm Hm14 Hid Hrb Hq Hl4 Htag Hl Hpad Hlen Hr.
  pose proof (lxor_u16 (len e) m14 ltac:(lia) Hm14) as Hx.
  assert (Hl2 : length (pack_le 2 (Z.lxor (len e) m14)) = 2%nat) by apply length_pack_le.
  assert (Hw : unpack_H (recv_buf v).[:2] = Ok (Z.lxor (len e) m14)).
  { rewrite pyslice_to_inside by lia.
    rewrite <- app_assoc in Hrb.
    change (Z.to_nat 2) with 2%nat. rewrite <- Hl2 at 1.
    rewrite (head_of_prefix _ _ _ _ Hrb) by (unfold len in Hl4; lia).
    apply unpack_H_pack_le. exact Hx. }
  assert (Hshort : len (recv_buf v) < len e + rl + 4).
  { pose proof (prefix_is_shorter _ _ _ Hrb Hq) as Hs.
    rewrite !len_app in Hs. unfold len in Hs at 2. rewrite Hl2 in Hs. lia. }
  unfold server_packet.
  rewrite bind_gets. rewrite (bind_lift_Ok _ _ _ _ (pack_I_ok (recv_id v) Hid)).
  rewrite (bind_the_user_key _ _ _ Hk). rewrite !bind_gets.
  rewrite (bind_lift_Ok _ _ _ _ Hw). rewrite (bind_lift_Ok _ _ _ _ Hm).
  rewrite lxor_unmasks.
  rewrite (bind_Ok _ _ _ _ _ (cmd_loop_passes _ (len e) 0 (recv_buf v) v ltac:(lia))).
  rewrite (bind_Ok _ _ _ _ _ Hr).
  assert (E1 : (4096 <=? len e + rl) = false) by (apply Z.leb_gt; exact Hlen).
  assert (E2 : (len (recv_buf v) <? len e + rl + 4) = true) by (apply Z.ltb_lt; exact Hshort).
  rewrite E1, E2. reflexivity.
Qed.

Lemma plain_wait : ∀ uk c v c1 b e d q (out : list byte) sb ec ec' ev,
  upstream_plain uk c v → encryptor c = Some ec → encryptor v = Some ev →
  Encryptor.encrypt b ec = (e, ec') →
  0 < len e ≤ 3575 →
  pack_client_data b c = (Ok d, c1) →
  recv_buf v ++ q = d → q ≠ [] → 4 < len (recv_buf v) →
  ∃ v', server_packet (out, sb) v = (Ok Break, v')
        ∧ recv_buf v' = recv_buf v ∧ encryptor v' = Some ev ∧ upstream_plain uk c v'.
Proof.
  intros uk c v c1 b e d q out sb ec ec' ev [Hk Hpair] Hec Hev Henc Hl Hpack Hrb Hq Hlong.
  pose proof Hpair as
    (Hkc & Hkv & _ & Hhv & Hh & Hid & Hp & Ho & Hrm & Hsm & Hraw & Hhdr & _).
  cbn in Hkv, Hhv, Hid, Ho, Hrm, Hsm, Hraw, Hhdr.
  destruct (client_packet_shape c uk b e ec ec' Hk Hec Henc Hl)
    as (m14 & rl & pad & c0 & Hm & Hm14 & Hpad & Hrl & Hlen & Hsend & Hpk & _).
  set (framed := pack_le 2 (Z.lxor (len e) m14) ++ e ++ pad) in *.
  set (tag := hmac_md5 (uk ++ pack_le 4 (pack_id c)) framed) in *.
  rewrite Hpack in Hpk.
  assert (Hdata : d = framed ++ tag.[:2]) by congruence.
  clear Hpk.
  assert (Hr2 : fst (recv_rnd_data_len (len e + 0) (last_client_hash v) RandomClient v)
                = Ok rl).
  { rewrite Z.add_0_r.
    rewrite (recv_matches_send (with_encryptor (Some ec') c) v (len e)
               (last_client_hash v) RandomClient RandomClient).
    - rewrite Hhv. exact Hsend.
    - exact Ho.
    - exact Hrm.
    - rewrite Hsm. split; intros H; exact H. }
  destruct (recv_rnd_data_len (len e + 0) (last_client_hash v) RandomClient v)
    as [r2 v2] eqn:Er2.
  cbn [fst] in Hr2. subst r2.
  assert (Hlt : len tag.[:2] = 2).
  { unfold len, tag. rewrite tag_of_hmac by exact hmac_md5_length. reflexivity. }
  exists v2. split.
  { apply (server_packet_waits out sb v uk e pad q tag.[:2] m14 rl v2).
    - exact Hkv.
    - rewrite Hhv. exact Hm.
    - exact Hm14.
    - rewrite Hid. exact Hp.
    - rewrite Hrb, Hdata. reflexivity.
    - exact Hq.
    - exact Hlong.
    - exact Hlt.
    - lia.
    - exact Hpad.
    - exact Hlen.
    - exact Er2. }
  assert (Hf2 : v2 = v ∨ ∃ g, v2 = set_random RandomClient g v)
    by (apply (recv_rnd_data_len_frame _ _ _ _ _ _ Er2)).
  destruct Hf2 as [->|[g ->]]; (split; [reflexivity|]);
    (split; [exact Hev|]); (split; [exact Hk|exact Hpair]).
Qed.

Lemma plain_K : ∀ uk c v, upstream_plain uk c v → packs_plain uk c.
Proof. intros uk c v [Hk _]. exact Hk. Qed.

Lemma plain_buf : ∀ uk c v b, upstream_plain uk c v → upstream_plain uk c (with_recv_buf b v).
Proof. intros uk c v b H. exact H. Qed.

Lemma plain_info : ∀ uk c v d, upstream_plain uk c v → upstream_plain uk c (set_info_data d v).
Proof. intros uk c v d H. exact H. Qed.

Lemma plain_paired (c v : t) (uk h : bytes) :
  client_to_server c v uk h →
  send_back_cmd c = [] →
  send_tcp_mss c - info_overhead c ≤ 4096 →
  upstream_plain uk c v.
Proof.
  intros (H1 & H2 & H3 & H4 & H5 & H6 & H7 & H8 & H9 & H10 & H11 & H12 & H13) Hc Hm.
  subst h. split.
  - unfold packs_plain. repeat split; try assumption; lia.
  - unfold client_to_server. cbn. repeat split; try assumption; lia.
Qed.

Lemma plain_paired_back (c v : t) (uk : bytes) :
  upstream_plain uk c v → recv_buf v = [] →
  client_to_server c v uk (last_client_hash c) ∧ send_back_cmd c = [].
Proof.
  intros [(Hc & _) (H1 & H2 & H3 & H4 & H5 & H6 & H7 & H8 & H9 & H10 & H11 & H12 & H13)] Hb.
  cbn in H2, H4, H6, H8, H9, H10, H11, H12.
  split; [|exact Hc].
  unfold client_to_server. repeat split; try assumption; lia.
Qed.

Lemma client_to_server_stream (c v : t) (uk h buf : bytes) (ec ev : Encryptor.t) :
  client_to_server c v uk h →
  send_back_cmd c = [] →
  has_sent_header c = true →
  encryptor c = Some ec →
  encryptor v = Some ev →
  buf ≠ [] →
  1 ≤ unit_len c →
  in_step (chunks (length buf) (unit_len c) buf) ec ev →
  send_tcp_mss c - info_overhead c ≤ 4096 →
  ∃ data c',
    client_pre_encrypt buf c = (Ok data, c')
    ∧ send_back_cmd c' = []
    ∧ (∃ v', server_post_decrypt data v = (Ok (buf, false), v')
              ∧ client_to_server c' v' uk (last_client_hash c'))
    ∧ ∀ p1 p2, p1 ++ p2 = data →
        ∃ o1 o2 v1 v',
          server_post_decrypt p1 v = (Ok (o1, false), v1)
          ∧ server_post_decrypt p2 v1 = (Ok (o2, false), v')
          ∧ o1 ++ o2 = buf
          ∧ client_to_server c' v' uk (last_client_hash c').
Proof.
  intros Hpair Hcmd Hhdr Hec Hev Hne Hn Hstep Hmss.
  pose proof Hpair as (_ & _ & _ & _ & _ & _ & _ & _ & _ & _ & _ & _ & Hrb).
  destruct (upstream (packs_plain uk) (upstream_plain uk) (plain_pack uk) (plain_K uk)
              (plain_flags uk) (plain_buf uk) (plain_info uk) (plain_step uk)
              (plain_wait uk) c v buf ec ev
              (plain_paired c v uk h Hpair Hcmd Hmss) Hrb Hhdr Hec Hev Hne Hn Hstep)
    as (data & c' & Hrun & (v' & Hwhole & Hb' & Hp') & Hcut).
  exists data, c'. split; [exact Hrun|].
  split; [apply (plain_paired_back c' v' uk Hp' Hb')|].
  split.
  { exists v'. split; [exact Hwhole|]. apply (plain_paired_back c' v' uk Hp' Hb'). }
  intros p1 p2 H12.
  destruct (Hcut p1 p2 H12) as (o1 & o2 & v1 & v2 & H1 & H2 & Ho & Hb2 & Hp2).
  exists o1, o2, v1, v2. split; [exact H1|]. split; [exact H2|]. split; [exact Ho|].
  apply (plain_paired_back c' v2 uk Hp2 Hb2).
Qed.

(** *** With a command queued *)

(** What [pack_client_data] makes of [buf] while a command is queued,
    and how it leaves the client. *)
Lemma client_packet_shape_command (c : t) (uk buf e : bytes) (ec ec' : Encryptor.t) :
  packs_command uk c →
  encryptor c = Some ec →
  Encryptor.encrypt buf ec = (e, ec') →
  0 < len e ≤ 3575 →
  ∃ m12 m14 rl pad c',
    unpack_H (last_client_hash c).[12:14] = Ok m12 ∧ 0 ≤ m12 < 65536
    ∧ unpack_H (last_client_hash c).[14:16] = Ok m14 ∧ 0 ≤ m14 < 65536
    ∧ len pad = rl ∧ 0 ≤ rl ∧ len e + rl < 4096
    ∧ fst (send_rnd_data_len (len e + 2) (last_client_hash c) RandomClient
             (with_send_tcp_mss (recv_tcp_mss c) (with_encryptor (Some ec') c))) = Ok rl
    ∧ pack_client_data buf c
      = (Ok ((pack_le 2 (Z.lxor 0xff00 m14) ++ pack_le 2 (Z.lxor (len e) m12) ++ e ++ pad)
             ++ (hmac_md5 (uk ++ pack_le 4 (pack_id c))
                   (pack_le 2 (Z.lxor 0xff00 m14) ++ pack_le 2 (Z.lxor (len e) m12)
                    ++ e ++ pad)).[:2]), c')
    ∧ last_client_hash c'
      = hmac_md5 (uk ++ pack_le 4 (pack_id c))
          (pack_le 2 (Z.lxor 0xff00 m14) ++ pack_le 2 (Z.lxor (len e) m12) ++ e ++ pad)
    ∧ pack_id c' = Z.land (pack_id c + 1) 0xFFFFFFFF
    ∧ user_key c' = Some uk
    ∧ info_overhead c' = info_overhead c
    ∧ recv_tcp_mss c' = recv_tcp_mss c
    ∧ send_tcp_mss c' = recv_tcp_mss c
    ∧ send_back_cmd c' = send_back_cmd c
    ∧ encryptor c' = Some ec'.
Proof.
  intros (Hcmd & Hk & Hh & Hp & Hmss) Hec Henc Hl.
  destruct (mask_of_hash _ Hh) as (m14 & Hm & Hm' & Hm14).
  destruct (mask12_of_hash _ Hh) as (m12 & Hm12 & Hr12).
  set (cs := with_send_tcp_mss (recv_tcp_mss c) (with_encryptor (Some ec') c)).
  destruct (send_rnd_data_len_bounds (len e + 2) (last_client_hash c) RandomClient
              cs ltac:(lia))
    as (rl & c1 & Hr & Hf & H0 & H1 & H2 & _ & _ & H5 & H6).
  change (send_tcp_mss cs) with (recv_tcp_mss c) in *.
  change (info_overhead cs) with (info_overhead c) in *.
  assert (Hlen : len e + rl < 4096).
  { destruct (Z_lt_dec 400 (len e + 2)) as [Hbig|Hsmall]; [pose proof (H5 Hbig); lia|].
    destruct (Z_lt_dec (recv_tcp_mss c) (len e + 2 + info_overhead c)) as [Hov|Hfit];
      [pose proof (H1 Hov); lia|].
    destruct (Z.eq_dec (len e + 2 + info_overhead c) (recv_tcp_mss c)) as [Heq|Hne].
    - pose proof (H2 ltac:(lia) (or_intror Heq)). lia.
    - pose proof (H6 ltac:(lia) ltac:(lia)). lia. }
  pose proof (pack_client_data_command buf c ec ec' e uk m12 m14 rl c1
                Hec Henc Hcmd Hk Hm12 Hr12 Hm Hm14 ltac:(lia) Hp Hr H0) as Hpack.
  exists m12, m14, rl, (fst (Env.rand_bytes rl (env c1))).
  eexists. split; [exact Hm12|]. split; [exact Hr12|].
  split; [exact Hm'|]. split; [exact Hm14|].
  split; [apply len_rand_bytes; exact H0|]. split; [exact H0|]. split; [exact Hlen|].
  split; [fold cs; rewrite Hr; reflexivity|].
  split; [exact Hpack|].
  destruct Hf as [->|[g ->]]; repeat split; assumption || reflexivity.
Qed.

Lemma command_pack : ∀ uk c b e ec ec',
  packs_command uk c → encryptor c = Some ec → Encryptor.encrypt b ec = (e, ec') →
  0 < len e ≤ 3575 →
  ∃ d c1, pack_client_data b c = (Ok d, c1) ∧ packs_command uk c1
          ∧ encryptor c1 = Some ec'.
Proof.
  intros uk c b e ec ec' Hk Hec Henc Hl.
  destruct (client_packet_shape_command c uk b e ec ec' Hk Hec Henc Hl)
    as (m12 & m14 & rl & pad & c' & _ & _ & _ & _ & _ & _ & _ & _ & Hpk
        & Hh' & Hp' & Hk' & Ho' & Hr' & Hs' & Hc' & He').
  destruct Hk as (Hcmd & Hkc & Hh & Hp & Hmss).
  eexists. exists c'. split; [exact Hpk|]. split; [|exact He'].
  unfold packs_command.
  split; [rewrite Hc'; exact Hcmd|]. split; [exact Hk'|].
  split; [rewrite Hh'; apply hmac_md5_length|].
  split; [rewrite Hp'; apply pack_id_wraps|]. rewrite Hr', Ho'. exact Hmss.
Qed.

Lemma command_flags : ∀ uk c v,
  upstream_command uk c v → raw_trans v = false ∧ has_recv_header v = true.
Proof.
  intros uk c v (_ & H). destruct H as (_ & _ & _ & _ & _ & _ & _ & _ & _ & Hr & Hh & _).
  split; [exact Hr|exact Hh].
Qed.

Lemma command_step : ∀ uk c v c1 b e d rest (out : list byte) sb ec ec' ev ev',
  upstream_command uk c v → encryptor c = Some ec → encryptor v = Some ev →
  Encryptor.encrypt b ec = (e, ec') → Encryptor.decrypt e ev = (b, ev') →
  0 < len e ≤ 3575 →
  pack_client_data b c = (Ok d, c1) →
  recv_buf v = d ++ rest →
  ∃ v', server_packet (out, sb) v = (Ok (Next (out ++ b, sb)), v')
        ∧ 4 < len d ∧ recv_buf v' = rest ∧ encryptor v' = Some ev'
        ∧ upstream_command uk c1 v'.
Proof.
  intros uk c v c1 b e d rest out sb ec ec' ev ev' [Hk Hpair] Hec Hev Henc Hdec Hl
    Hpack Hrb.
  pose proof Hpair as
    (Hkc & Hkv & _ & Hhv & Hh & Hid & Hp & Ho & Hsm & Hraw & Hhdr & _).
  cbn in Hkv, Hhv, Hid, Ho, Hsm, Hraw, Hhdr.
  destruct (client_packet_shape_command c uk b e ec ec' Hk Hec Henc Hl)
    as (m12 & m14 & rl & pad & c0 & Hm12 & Hr12 & Hm & Hm14 & Hpad & Hrl & Hlen & Hsend
        & Hpk & Hh' & Hp' & Hk' & Ho' & Hr' & Hs' & Hc' & He').
  set (framed := pack_le 2 (Z.lxor 0xff00 m14) ++ pack_le 2 (Z.lxor (len e) m12)
                 ++ e ++ pad) in *.
  set (tag := hmac_md5 (uk ++ pack_le 4 (pack_id c)) framed) in *.
  rewrite Hpack in Hpk.
  assert (Hdata : d = framed ++ tag.[:2]) by congruence.
  assert (Hc0 : c0 = c1) by congruence. subst c0. clear Hpk.
  set (cs := with_send_tcp_mss (recv_tcp_mss c) (with_encryptor (Some ec') c)) in *.
  set (vs := with_recv_tcp_mss (send_tcp_mss v) v).
  assert (Hr2 : fst (recv_rnd_data_len (len e + (0 + 2)) (last_client_hash v)
                       RandomClient vs) = Ok rl).
  { change (len e + (0 + 2)) with (len e + 2).
    rewrite (recv_matches_send cs vs (len e + 2) (last_client_hash v)
               RandomClient RandomClient).
    - rewrite Hhv. exact Hsend.
    - exact Ho.
    - exact Hsm.
    - change (send_tcp_mss vs) with (send_tcp_mss v). rewrite Hsm.
      split; intros H; exact H. }
  destruct (recv_rnd_data_len (len e + (0 + 2)) (last_client_hash v) RandomClient vs)
    as [r2 v2] eqn:Er2.
  cbn [fst] in Hr2. subst r2.
  assert (Hl1 : len (pack_le 2 (Z.lxor 0xff00 m14)) = 2)
    by (unfold len; rewrite length_pack_le; reflexivity).
  assert (Hl2 : len (pack_le 2 (Z.lxor (len e) m12)) = 2)
    by (unfold len; rewrite length_pack_le; reflexivity).
  assert (Hlt : len tag.[:2] = 2).
  { unfold len, tag. rewrite tag_of_hmac by exact hmac_md5_length. reflexivity. }
  assert (Hld : 4 < len d).
  { rewrite Hdata. unfold framed. rewrite !len_app. pose proof (len_nonneg pad). lia. }
  assert (E0 : (len e =? 0) = false) by (apply Z.eqb_neq; lia).
  exists (with_recv_buf rest
            (with_last_client_hash tag
               (with_encryptor (Some ev')
                  (with_recv_id (Z.land (recv_id v + 1) 0xFFFFFFFF) v2)))).
  split.
  { pose proof (server_packet_takes_command hmac_md5_length out sb v ev ev' uk e pad rest
                  b framed tag m12 m14 rl v2) as Hsp.
    rewrite E0 in Hsp. apply Hsp.
    - exact Hkv.
    - rewrite Hhv. exact Hh.
    - rewrite Hhv. exact Hm12.
    - exact Hr12.
    - rewrite Hhv. exact Hm.
    - exact Hm14.
    - rewrite Hid. exact Hp.
    - reflexivity.
    - rewrite Hid. reflexivity.
    - rewrite Hrb, Hdata. rewrite <- app_assoc. reflexivity.
    - lia.
    - exact Hpad.
    - exact Hlen.
    - exact Er2.
    - exact Hev.
    - exact Hdec. }
  split; [exact Hld|]. split; [reflexivity|]. split; [reflexivity|].
  destruct (command_pack uk c b e ec ec' Hk Hec Henc Hl) as (d' & c1' & Hpk' & Hk1 & _).
  rewrite Hpack in Hpk'. assert (c1' = c1) by congruence. subst c1'.
  split; [exact Hk1|].
  assert (Hf2 : v2 = vs ∨ ∃ g, v2 = set_random RandomClient g vs)
    by (apply (recv_rnd_data_len_frame _ _ _ _ _ _ Er2)).
  assert (Hlt16 : length tag = 16%nat) by (unfold tag; apply hmac_md5_length).
  pose proof (pack_id_wraps (pack_id c)) as Hw.
  unfold client_commands_server.
  destruct Hf2 as [->|[g2 ->]];
    cbn; rewrite ?Hid, ?Hp', ?Hh', ?Hr', ?Hk';
    repeat split; try assumption; try reflexivity; try lia;
    rewrite Ho'; exact Ho.
Qed.

(** A packet with a command of which the end is still missing: the
    inner loop has taken the MSS over before the turn leaves. *)
Lemma server_packet_waits_command (out : list byte) (sb : bool) (v : t)
    (uk e pad q2 tag2 : bytes) (m12 m14 rl : Z) (v2 : t) :
  user_key v = Some uk →
  unpack_H (last_client_hash v).[12:14] = Ok m12 →
  0 ≤ m12 < 65536 →
  unpack_H (last_client_hash v).[14:16] = Ok m14 →
  0 ≤ m14 < 65536 →
  0 ≤ recv_id v < 2 ^ 32 →
  recv_buf v ++ q2
  = (pack_le 2 (Z.lxor 0xff00 m14) ++ pack_le 2 (Z.lxor (len e) m12) ++ e ++ pad) ++ tag2 →
  q2 ≠ [] →
  4 < len (recv_buf v) →
  len tag2 = 2 →
  0 ≤ len e < 0xff00 →
  len pad = rl →
  len e + rl < 4096 →
  recv_rnd_data_len (len e + (0 + 2)) (last_client_hash v) RandomClient
    (with_recv_tcp_mss (send_tcp_mss v) v) = (Ok rl, v2) →
  server_packet (out, sb) v = (Ok Break, v2).
Proof.
  intros Hk Hm12 Hr12 Hm Hm14 Hid Hrb Hq Hl4 Htag Hl Hpad Hlen Hr.
  pose proof (lxor_u16 (len e) m12 ltac:(lia) Hr12) as Hx.
  pose proof (lxor_u16 0xff00 m14 ltac:(lia) Hm14) as Hx14.
  set (l1 := pack_le 2 (Z.lxor 0xff00 m14)) in *.
  set (l2 := pack_le 2 (Z.lxor (len e) m12)) in *.
  assert (Hl1 : length l1 = 2%nat) by apply length_pack_le.
  assert (Hl2 : length l2 = 2%nat) by apply length_pack_le.
  rewrite <- !app_assoc in Hrb.
  assert (Hhead : take 2 (recv_buf v) = l1).
  { rewrite <- Hl1 at 1. apply (head_of_prefix _ _ _ _ Hrb). unfold len in Hl4. lia. }
  assert (Hlocal : (recv_buf v).[2:] = drop 2 (recv_buf v)).
  { rewrite pyslice_from_inside by lia. reflexivity. }
  assert (Hrb' : drop 2 (recv_buf v) ++ q2 = l2 ++ e ++ pad ++ tag2).
  { rewrite <- (take_drop 2 (recv_buf v)) in Hrb. rewrite Hhead, <- app_assoc in Hrb.
    apply app_inv_head in Hrb. exact Hrb. }
  assert (Hl' : length (drop 2 (recv_buf v)) = (length (recv_buf v) - 2)%nat)
    by apply length_drop.
  assert (Hw : unpack_H (recv_buf v).[:2] = Ok (Z.lxor 0xff00 m14)).
  { rewrite pyslice_to_inside by lia. change (Z.to_nat 2) with 2%nat. rewrite Hhead.
    apply unpack_H_pack_le. exact Hx14. }
  assert (Hw2 : unpack_H (recv_buf v).[2:].[:2] = Ok (Z.lxor (len e) m12)).
  { rewrite Hlocal. rewrite pyslice_to_inside by (unfold len in *; lia).
    change (Z.to_nat 2) with 2%nat. rewrite <- Hl2 at 1.
    rewrite (head_of_prefix _ _ _ _ Hrb') by (unfold len in Hl4; lia).
    apply unpack_H_pack_le. exact Hx. }
  assert (Hshort : len (recv_buf v).[2:] < len e + rl + 4).
  { rewrite Hlocal. pose proof (prefix_is_shorter _ _ _ Hrb' Hq) as Hs.
    rewrite !len_app in Hs. unfold len in Hs at 2. rewrite Hl2 in Hs. lia. }
  assert (Hfuel : ∃ fuel, length (recv_buf v) = S fuel).
  { destruct (length (recv_buf v)) as [|n] eqn:En; [|exists n; reflexivity].
    unfold len in Hl4. rewrite En in Hl4. simpl in Hl4. lia. }
  destruct Hfuel as [fuel Hfuel].
  unfold server_packet.
  rewrite bind_gets. rewrite (bind_lift_Ok _ _ _ _ (pack_I_ok (recv_id v) Hid)).
  rewrite (bind_the_user_key _ _ _ Hk). rewrite !bind_gets.
  rewrite (bind_lift_Ok _ _ _ _ Hw). rewrite (bind_lift_Ok _ _ _ _ Hm).
  rewrite lxor_unmasks. rewrite Hfuel.
  pose proof (cmd_loop_steps fuel 0 (recv_buf v) v (Z.lxor (len e) m12) m12 Hw2 Hm12
                ltac:(rewrite lxor_unmasks; lia)) as Hcmd.
  rewrite lxor_unmasks in Hcmd.
  rewrite (bind_Ok _ _ _ _ _ Hcmd).
  rewrite (bind_Ok _ _ _ _ _ Hr).
  assert (E1 : (4096 <=? len e + rl) = false) by (apply Z.leb_gt; exact Hlen).
  assert (E2 : (len (recv_buf v).[2:] <? len e + rl + 4) = true)
    by (apply Z.ltb_lt; exact Hshort).
  rewrite E1, E2. reflexivity.
Qed.

Lemma command_wait : ∀ uk c v c1 b e d q (out : list byte) sb ec ec' ev,
  upstream_command uk c v → encryptor c = Some ec → encryptor v = Some ev →
  Encryptor.encrypt b ec = (e, ec') →
  0 < len e ≤ 3575 →
  pack_client_data b c = (Ok d, c1) →
  recv_buf v ++ q = d → q ≠ [] → 4 < len (recv_buf v) →
  ∃ v', server_packet (out, sb) v = (Ok Break, v')
        ∧ recv_buf v' = recv_buf v ∧ encryptor v' = Some ev ∧ upstream_command uk c v'.
Proof.
  intros uk c v c1 b e d q out sb ec ec' ev [Hk Hpair] Hec Hev Henc Hl Hpack Hrb Hq Hlong.
  pose proof Hpair as
    (Hkc & Hkv & _ & Hhv & Hh & Hid & Hp & Ho & Hsm & Hraw & Hhdr & _).
  cbn in Hkv, Hhv, Hid, Ho, Hsm, Hraw, Hhdr.
  destruct (client_packet_shape_command c uk b e ec ec' Hk Hec Henc Hl)
    as (m12 & m14 & rl & pad & c0 & Hm12 & Hr12 & Hm & Hm14 & Hpad & Hrl & Hlen & Hsend
        & Hpk & _).
  set (framed := pack_le 2 (Z.lxor 0xff00 m14) ++ pack_le 2 (Z.lxor (len e) m12)
                 ++ e ++ pad) in *.
  set (tag := hmac_md5 (uk ++ pack_le 4 (pack_id c)) framed) in *.
  rewrite Hpack in Hpk.
  assert (Hdata : d = framed ++ tag.[:2]) by congruence.
  clear Hpk.
  set (cs := with_send_tcp_mss (recv_tcp_mss c) (with_encryptor (Some ec') c)) in *.
  set (vs := with_recv_tcp_mss (send_tcp_mss v) v).
  assert (Hr2 : fst (recv_rnd_data_len (len e + (0 + 2)) (last_client_hash v)
                       RandomClient vs) = Ok rl).
  { change (len e + (0 + 2)) with (len e + 2).
    rewrite (recv_matches_send cs vs (len e + 2) (last_client_hash v)
               RandomClient RandomClient).
    - rewrite Hhv. exact Hsend.
    - exact Ho.
    - exact Hsm.
    - change (send_tcp_mss vs) with (send_tcp_mss v). rewrite Hsm.
      split; intros H; exact H. }
  destruct (recv_rnd_data_len (len e + (0 + 2)) (last_client_hash v) RandomClient vs)
    as [r2 v2] eqn:Er2.
  cbn [fst] in Hr2. subst r2.
  assert (Hlt : len tag.[:2] = 2).
  { unfold len, tag. rewrite tag_of_hmac by exact hmac_md5_length. reflexivity. }
  exists v2. split.
  { apply (server_packet_waits_command out sb v uk e pad q tag.[:2] m12 m14 rl v2).
    - exact Hkv.
    - rewrite Hhv. exact Hm12.
    - exact Hr12.
    - rewrite Hhv. exact Hm.
    - exact Hm14.
    - rewrite Hid. exact Hp.
    - rewrite Hrb, Hdata. reflexivity.
    - exact Hq.
    - exact Hlong.
    - exact Hlt.
    - lia.
    - exact Hpad.
    - exact Hlen.
    - exact Er2. }
  assert (Hf2 : v2 = vs ∨ ∃ g, v2 = set_random RandomClient g vs)
    by (apply (recv_rnd_data_len_frame _ _ _ _ _ _ Er2)).
  destruct Hf2 as [->|[g ->]]; (split; [reflexivity|]);
    (split; [exact Hev|]); (split; [exact Hk|exact Hpair]).
Qed.

Lemma command_K : ∀ uk c v, upstream_command uk c v → packs_command uk c.
Proof. intros uk c v [Hk _]. exact Hk. Qed.

Lemma command_buf : ∀ uk c v b,
  upstream_command uk c v → upstream_command uk c (with_recv_buf b v).
Proof. intros uk c v b H. exact H. Qed.

Lemma command_info : ∀ uk c v d,
  upstream_command uk c v → upstream_command uk c (set_info_data d v).
Proof. intros uk c v d H. exact H. Qed.

Lemma command_paired (c v : t) (uk h : bytes) :
  client_commands_server c v uk h →
  send_back_cmd c ≠ [] →
  recv_tcp_mss c - info_overhead c ≤ 4096 →
  upstream_command uk c v.
Proof.
  intros (H1 & H2 & H3 & H4 & H5 & H6 & H7 & H8 & H9 & H10 & H11 & H12) Hc Hm.
  subst h. split.
  - unfold packs_command. repeat split; try assumption; lia.
  - unfold client_commands_server. cbn. repeat split; try assumption; lia.
Qed.

Lemma command_paired_back (c v : t) (uk : bytes) :
  upstream_command uk c v → recv_buf v = [] →
  client_commands_server c v uk (last_client_hash c) ∧ send_back_cmd c ≠ [].
Proof.
  intros [(Hc & _) (H1 & H2 & H3 & H4 & H5 & H6 & H7 & H8 & H9 & H10 & H11 & H12)] Hb.
  cbn in H2, H4, H6, H8, H9, H10, H11.
  split; [|exact Hc].
  unfold client_commands_server. repeat split; try assumption; lia.
Qed.

Lemma client_to_server_stream_command (c v : t) (uk h buf : bytes)
    (ec ev : Encryptor.t) :
  client_commands_server c v uk h →
  send_back_cmd c ≠ [] →
  has_sent_header c = true →
  encryptor c = Some ec →
  encryptor v = Some ev →
  buf ≠ [] →
  1 ≤ unit_len c →
  in_step (chunks (length buf) (unit_len c) buf) ec ev →
  recv_tcp_mss c - info_overhead c ≤ 4096 →
  ∃ data c',
    client_pre_encrypt buf c = (Ok data, c')
    ∧ send_back_cmd c' ≠ []
    ∧ (∃ v', server_post_decrypt data v = (Ok (buf, false), v')
              ∧ client_commands_server c' v' uk (last_client_hash c'))
    ∧ ∀ p1 p2, p1 ++ p2 = data →
        ∃ o1 o2 v1 v',
          server_post_decrypt p1 v = (Ok (o1, false), v1)
          ∧ server_post_decrypt p2 v1 = (Ok (o2, false), v')
          ∧ o1 ++ o2 = buf
          ∧ client_commands_server c' v' uk (last_client_hash c').
Proof.
  intros Hpair Hcmd Hhdr Hec Hev Hne Hn Hstep Hmss.
  pose proof Hpair as (_ & _ & _ & _ & _ & _ & _ & _ & _ & _ & _ & Hrb).
  destruct (upstream (packs_command uk) (upstream_command uk) (command_pack uk)
              (command_K uk) (command_flags uk) (command_buf uk) (command_info uk)
              (command_step uk) (command_wait uk) c v buf ec ev
              (command_paired c v uk h Hpair Hcmd Hmss) Hrb Hhdr Hec Hev Hne Hn Hstep)
    as (data & c' & Hrun & (v' & Hwhole & Hb' & Hp') & Hcut).
  exists data, c'. split; [exact Hrun|].
  split; [apply (command_paired_back c' v' uk Hp' Hb')|].
  split.
  { exists v'. split; [exact Hwhole|]. apply (command_paired_back c' v' uk Hp' Hb'). }
  intros p1 p2 H12.
  destruct (Hcut p1 p2 H12) as (o1 & o2 & v1 & v2 & H1 & H2 & Ho & Hb2 & Hp2).
  exists o1, o2, v1, v2. split; [exact H1|]. split; [exact H2|]. split; [exact Ho|].
  apply (command_paired_back c' v2 uk Hp2 Hb2).
Qed.

(** The stream from the client to the server while no command is
    queued: with the header sent, for a client and a server paired as
    [client_to_server] says, a [buf] that is not empty, [unit_len] at
    least 1, ciphers in step for the pieces of [buf] and an MSS at most
    4096 above the overhead, [server_post_decrypt] turns what
    [client_pre_encrypt] made back into [(buf, False)], in one call or
    in two when the bytes arrive in two parts cut anywhere; the two
    ends are paired again. *)
Theorem server_takes_the_stream_of_the_client (c v : t) (uk h buf : bytes)
    (ec ev : Encryptor.t) :
  client_to_server c v uk h →
  send_back_cmd c = [] →
  has_sent_header c = true →
  encryptor c = Some ec →
  encryptor v = Some ev →
  buf ≠ [] →
  1 ≤ unit_len c →
  in_step (chunks (length buf) (unit_len c) buf) ec ev →
  send_tcp_mss c - info_overhead c ≤ 4096 →
  ∃ data c',
    client_pre_encrypt buf c = (Ok data, c')
    ∧ send_back_cmd c' = []
    ∧ (∃ v', server_post_decrypt data v = (Ok (buf, false), v')
              ∧ client_to_server c' v' uk (last_client_hash c'))
    ∧ ∀ p1 p2, p1 ++ p2 = data →
        ∃ o1 o2 v1 v',
          server_post_decrypt p1 v = (Ok (o1, false), v1)
          ∧ server_post_decrypt p2 v1 = (Ok (o2, false), v')
          ∧ o1 ++ o2 = buf
          ∧ client_to_server c' v' uk (last_client_hash c').
Proof. apply client_to_server_stream. Qed.

(** The same with a command queued on the client, as it is from the
    first reply of the server on: every packet then starts with the
    command word and is padded for the client's [recv_tcp_mss], which
    the server holds as its [send_tcp_mss]; the command stays queued. *)
Theorem server_takes_the_stream_with_commands (c v : t) (uk h buf : bytes)
    (ec ev : Encryptor.t) :
  client_commands_server c v uk h →
  send_back_cmd c ≠ [] →
  has_sent_header c = true →
  encryptor c = Some ec →
  encryptor v = Some ev →
  buf ≠ [] →
  1 ≤ unit_len c →
  in_step (chunks (length buf) (unit_len c) buf) ec ev →
  recv_tcp_mss c - info_overhead c ≤ 4096 →
  ∃ data c',
    client_pre_encrypt buf c = (Ok data, c')
    ∧ send_back_cmd c' ≠ []
    ∧ (∃ v', server_post_decrypt data v = (Ok (buf, false), v')
              ∧ client_commands_server c' v' uk (last_client_hash c'))
    ∧ ∀ p1 p2, p1 ++ p2 = data →
        ∃ o1 o2 v1 v',
          server_post_decrypt p1 v = (Ok (o1, false), v1)
          ∧ server_post_decrypt p2 v1 = (Ok (o2, false), v')
          ∧ o1 ++ o2 = buf
          ∧ client_commands_server c' v' uk (last_client_hash c').
Proof. apply client_to_server_stream_command. Qed.

End with_primitives.

(** The client that sent its greeting sends 3000 bytes, which go out
    as two packets, to the server that took the greeting; the stream
    is also cut after its first 1000 bytes. *)
Lemma server_takes_the_stream_of_the_client_witness :
  ∃ data o1 o2 v1,
    fst (client_pre_encrypt (prims := plain_primitives) (bytes_repeat "s" 3000)
           Connection.client_greeted) = Ok data
    ∧ fst (server_post_decrypt (prims := plain_primitives) data Connection.server_greeted)
      = Ok (bytes_repeat "s" 3000, false)
    ∧ server_post_decrypt (prims := plain_primitives) (take 1000 data)
        Connection.server_greeted = (Ok (o1, false), v1)
    ∧ fst (server_post_decrypt (prims := plain_primitives) (drop 1000 data) v1)
      = Ok (o2, false)
    ∧ o1 ++ o2 = bytes_repeat "s" 3000.
Proof.
  destruct (server_takes_the_stream_of_the_client (prims := plain_primitives)
              (fun _ _ => eq_refl)
              Connection.client_greeted Connection.server_greeted
              (bytes_repeat "k" 16) zero16 (bytes_repeat "s" 3000)
              (Connection.cipher_of Connection.client_greeted)
              (Connection.cipher_of Connection.server_greeted))
    as (data & c' & Hp & _ & (v' & Hs & _) & Hcut).
  - unfold client_to_server.
    repeat match goal with |- _ ∧ _ => split end;
      vm_compute; first [reflexivity|discriminate].
  - vm_compute. reflexivity.
  - vm_compute. reflexivity.
  - vm_compute. reflexivity.
  - vm_compute. reflexivity.
  - vm_compute. discriminate.
  - vm_compute. discriminate.
  - vm_compute.
    repeat match goal with |- _ ∧ _ => split end;
      first [reflexivity|discriminate|exact I].
  - vm_compute. discriminate.
  - destruct (Hcut (take 1000 data) (drop 1000 data) (take_drop 1000 data))
      as (o1 & o2 & v1 & v2 & H1 & H2 & Ho & _).
    exists data, o1, o2, v1. rewrite Hp, Hs, H1, H2.
    repeat split; try reflexivity. exact Ho.
Defined.

(** The client that took the first reply, and so has a command queued,
    sends 3000 bytes to the server that sent the reply. *)
Lemma server_takes_the_stream_with_commands_witness :
  ∃ data o1 o2 v1,
    fst (client_pre_encrypt (prims := plain_primitives) (bytes_repeat "s" 3000)
           Connection.client_replied) = Ok data
    ∧ fst (server_post_decrypt (prims := plain_primitives) data Connection.server_replied)
      = Ok (bytes_repeat "s" 3000, false)
    ∧ server_post_decrypt (prims := plain_primitives) (take 1000 data)
        Connection.server_replied = (Ok (o1, false), v1)
    ∧ fst (server_post_decrypt (prims := plain_primitives) (drop 1000 data) v1)
      = Ok (o2, false)
    ∧ o1 ++ o2 = bytes_repeat "s" 3000.
Proof.
  destruct (server_takes_the_stream_with_commands (prims := plain_primitives)
              (fun _ _ => eq_refl)
              Connection.client_replied Connection.server_replied
              (bytes_repeat "k" 16) zero16 (bytes_repeat "s" 3000)
              (Connection.cipher_of Connection.client_replied)
              (Connection.cipher_of Connection.server_replied))
    as (data & c' & Hp & _ & (v' & Hs & _) & Hcut).
  - unfold client_commands_server.
    repeat match goal with |- _ ∧ _ => split end;
      vm_compute; first [reflexivity|discriminate].
  - vm_compute. discriminate.
  - vm_compute. reflexivity.
  - vm_compute. reflexivity.
  - vm_compute. reflexivity.
  - vm_compute. discriminate.
  - vm_compute. discriminate.
  - vm_compute.
    repeat match goal with |- _ ∧ _ => split end;
      first [reflexivity|discriminate|exact I].
  - vm_compute. discriminate.
  - destruct (Hcut (take 1000 data) (drop 1000 data) (take_drop 1000 data))
      as (o1 & o2 & v1 & v2 & H1 & H2 & Ho & _).
    exists data, o1, o2, v1. rewrite Hp, Hs, H1, H2.
    repeat split; try reflexivity. exact Ho.
Defined.

End upstream_facts.

(* ===================================================================== *)
(** ** The first packet: the handshake *)
(* ===================================================================== *)

Module first_packet_facts.
Import auth_akarin_rand Frame Frame_facts Fixtures failure_facts command_facts.
Import bytes_facts codec_facts padding_more_facts packet_facts Pairing Stream stream_facts.
Import datagram_facts upstream_facts Handshake.

Section with_primitives.
Context {prims : primitives}.
Hypothesis hmac_md5_length : ∀ k d, length (hmac_md5 k d) = 16%nat.

Lemma unpack_I_of_4 (b : bytes) :
  length b = 4%nat → unpack_I b = Ok (unpack_le b) ∧ 0 ≤ unpack_le b < 2 ^ 32.
Proof.
  intros Hb. split.
  - unfold unpack_I, struct_unpack. rewrite Hb. reflexivity.
  - pose proof (unpack_le_range b) as R. rewrite Hb in R. exact R.
Qed.

Lemma unpack_H_of_2 (b : bytes) :
  length b = 2%nat → unpack_H b = Ok (unpack_le b) ∧ 0 ≤ unpack_le b < 65536.
Proof.
  intros Hb. split.
  - unfold unpack_H, struct_unpack. rewrite Hb. reflexivity.
  - pose proof (unpack_le_range b) as R. rewrite Hb in R. exact R.
Qed.

Lemma length_slice_of_hash (k d : bytes) (a b : Z) :
  0 ≤ a ≤ b → b ≤ 16 → length (hmac_md5 k d).[a:b] = Z.to_nat (b - a).
Proof.
  intros Hab Hb. apply length_pyslice; [exact Hab|].
  unfold len. rewrite hmac_md5_length. lia.
Qed.

Lemma length_head_of_hash (k d : bytes) (b : Z) :
  0 ≤ b ≤ 16 → length (hmac_md5 k d).[:b] = Z.to_nat b.
Proof.
  intros Hb. apply length_pyslice_to.
  unfold len. rewrite hmac_md5_length. lia.
Qed.

Lemma bind_encryptor_encrypt {B} (b : bytes) (k : bytes → M t B) (s : t)
    (enc : Encryptor.t) :
  encryptor s = Some enc →
  bind (encryptor_encrypt b) k s
  = k (fst (Encryptor.encrypt b enc))
      (with_encryptor (Some (snd (Encryptor.encrypt b enc))) s).
Proof.
  intros He. unfold bind, encryptor_encrypt. rewrite He.
  destruct (Encryptor.encrypt b enc). reflexivity.
Qed.

Lemma bind_encryptor_decrypt {B} (b : bytes) (k : bytes → M t B) (s : t)
    (enc : Encryptor.t) :
  encryptor s = Some enc →
  bind (encryptor_decrypt b) k s
  = k (fst (Encryptor.decrypt b enc))
      (with_encryptor (Some (snd (Encryptor.decrypt b enc))) s).
Proof.
  intros He. unfold bind, encryptor_decrypt. rewrite He.
  destruct (Encryptor.decrypt b enc). reflexivity.
Qed.

(** What [pack_auth_data] puts in front of the first data packet for
    a client without a user of its own, and the client it hands to
    [pack_client_data]. *)
Lemma pack_auth_data_opening (c : t) (a buf : bytes) :
  contains_byte colon (ServerInfo.protocol_param (server_info c)) = false →
  user_key c = None →
  0 ≤ info_overhead c < 65536 →
  ∃ (k4 u : bytes) (n : Z) (e : Env.t) (e' : Env.t) (c1 : t),
    let key := ServerInfo.key (server_info c) in
    let ch := hmac_md5 (ServerInfo.iv (server_info c) ++ key) k4 in
    let x := pack_le 4 (Z.lxor (unpack_le u) (unpack_le ch.[8:12])) in
    let E := head_sealed (b64encode key ++ salt c)
               (a ++ pack_le 2 (info_overhead c) ++ pack_le 2 (n + 400)) e in
    let sh := hmac_md5 key (x ++ E) in
    length k4 = 4%nat ∧ length u = 4%nat ∧ 0 ≤ n < 1024
    ∧ pack_auth_data a buf c
      = (let* p := pack_client_data buf in
         ret (((k4 ++ ch.[:8]) ++ (x ++ E) ++ sh.[:4]) ++ p)) c1
    ∧ user_key c1 = Some key
    ∧ last_client_hash c1 = ch
    ∧ last_server_hash c1 = sh
    ∧ encryptor c1
      = Some (session_cipher (b64encode key ++ b64encode ch) ch.[:8] sh.[:8] e')
    ∧ send_tcp_mss c1 = n + 400
    ∧ pack_id c1 = pack_id c
    ∧ send_back_cmd c1 = send_back_cmd c
    ∧ info_overhead c1 = info_overhead c.
Proof.
  intros Hcolon Hkey Hover.
  unfold pack_auth_data.
  rewrite bind_rand_bytes.
  set (r2 := fst (Env.rand_bytes 2 (env c))).
  assert (Hr2 : length r2 = 2%nat).
  { pose proof (len_rand_bytes 2 (env c) ltac:(lia)) as H. unfold len in H.
    fold r2 in H. lia. }
  assert (Hn : unpack_H_be r2 = Ok (unpack_le (rev r2)) ∧ 0 ≤ unpack_le (rev r2) < 65536).
  { unfold unpack_H_be. apply unpack_H_of_2. rewrite length_rev. exact Hr2. }
  destruct Hn as [Hn Rn].
  rewrite (bind_lift_Ok _ _ _ _ Hn).
  unfold py_mod at 1. change (1024 =? 0) with false. cbv iota.
  rewrite (bind_lift_Ok _ (unpack_le (rev r2) mod 1024) _ _ eq_refl).
  set (n := unpack_le (rev r2) mod 1024).
  assert (Hnr : 0 ≤ n < 1024) by (apply Z.mod_pos_bound; lia).
  rewrite bind_modify, bind_gets.
  cbn [server_info with_send_tcp_mss with_env].
  change (ServerInfo.overhead (server_info c)) with (info_overhead c).
  rewrite (bind_lift_Ok _ _ _ _ (pack_H_ok _ Hover)).
  rewrite bind_gets. cbn [send_tcp_mss with_send_tcp_mss].
  rewrite (bind_lift_Ok _ _ _ _ (pack_H_ok (n + 400) ltac:(lia))).
  rewrite bind_rand_bytes. cbn [env with_send_tcp_mss with_env].
  set (e1 := snd (Env.rand_bytes 2 (env c))).
  set (k4 := fst (Env.rand_bytes 4 e1)).
  set (e2 := snd (Env.rand_bytes 4 e1)).
  rewrite bind_modify. rewrite Hcolon.
  rewrite bind_rand_bytes. cbn [env with_last_client_hash with_send_tcp_mss with_env].
  set (u := fst (Env.rand_bytes 4 e2)).
  set (e3 := snd (Env.rand_bytes 4 e2)).
  rewrite bind_gets.
  cbn [user_key with_last_client_hash with_send_tcp_mss with_env].
  rewrite Hkey. rewrite bind_modify.
  set (key := ServerInfo.key (server_info c)).
  unfold bind at 1. unfold the_user_key at 1. cbn [user_key with_user_key].
  rewrite bind_gets.
  cbn [salt with_user_key with_last_client_hash with_send_tcp_mss with_env].
  rewrite bind_new_encryptor.
  cbn [env with_user_key with_last_client_hash with_send_tcp_mss with_env].
  set (ch := hmac_md5 (ServerInfo.iv (server_info c) ++ key) k4).
  change ((fst (Encryptor.encrypt (a ++ pack_le 2 (info_overhead c) ++ pack_le 2 (n + 400))
                  (fst (Encryptor.new (b64encode key ++ salt c) "aes-128-cbc"
                          (Some (bytes_repeat x00 16)) e3)))).[16:])
    with (head_sealed (b64encode key ++ salt c)
            (a ++ pack_le 2 (info_overhead c) ++ pack_le 2 (n + 400)) e3).
  set (E := head_sealed (b64encode key ++ salt c)
              (a ++ pack_le 2 (info_overhead c) ++ pack_le 2 (n + 400)) e3).
  set (e4 := snd (Encryptor.new (b64encode key ++ salt c) "aes-128-cbc"
                    (Some (bytes_repeat x00 16)) e3)).
  assert (Hk4 : length k4 = 4%nat).
  { pose proof (len_rand_bytes 4 e1 ltac:(lia)) as H. unfold len in H.
    fold k4 in H. lia. }
  assert (Hu : length u = 4%nat).
  { pose proof (len_rand_bytes 4 e2 ltac:(lia)) as H. unfold len in H.
    fold u in H. lia. }
  destruct (unpack_I_of_4 u Hu) as [Hua Ru].
  assert (Hc4 : length ch.[8:12] = 4%nat)
    by (unfold ch; rewrite length_slice_of_hash by lia; reflexivity).
  destruct (unpack_I_of_4 _ Hc4) as [Hub Rb].
  rewrite (bind_lift_Ok _ _ _ _ Hua), (bind_lift_Ok _ _ _ _ Hub).
  rewrite (bind_lift_Ok _ _ _ _ (pack_I_ok _ (lxor_range 32 _ _ ltac:(lia) Ru Rb))).
  set (x := pack_le 4 (Z.lxor (unpack_le u) (unpack_le ch.[8:12]))).
  set (sh := hmac_md5 key (x ++ E)).
  rewrite bind_modify, bind_new_encryptor, bind_modify.
  cbn [env with_last_server_hash with_env].
  erewrite bind_encryptor_encrypt by reflexivity.
  erewrite bind_encryptor_decrypt by reflexivity.
  exists k4, u, n, e3, e4.
  eexists. split; [exact Hk4|]. split; [exact Hu|]. split; [exact Hnr|].
  split; [reflexivity|].
  cbn. repeat split; reflexivity.
Qed.

Lemma pyslice_of_take {A} (l : list A) (a b n : Z) :
  0 ≤ a ≤ b → b ≤ n → n ≤ len l → l.[a:b] = (take (Z.to_nat n) l).[a:b].
Proof.
  intros Hab Hb Hn.
  rewrite (pyslice_inside l) by lia.
  rewrite (pyslice_inside (take (Z.to_nat n) l))
    by (unfold len in *; rewrite ?length_take; lia).
  replace (Z.to_nat n) with (Z.to_nat a + (Z.to_nat n - Z.to_nat a))%nat by lia.
  rewrite <- take_drop_commute. rewrite take_take. f_equal. lia.
Qed.

Lemma pyslice_to_of_take {A} (l : list A) (b n : Z) :
  0 ≤ b → b ≤ n → n ≤ len l → l.[:b] = (take (Z.to_nat n) l).[:b].
Proof.
  intros H0 Hb Hn.
  rewrite (pyslice_to_inside l) by lia.
  rewrite (pyslice_to_inside (take (Z.to_nat n) l))
    by (unfold len in *; rewrite ?length_take; lia).
  rewrite take_take. f_equal. lia.
Qed.

Lemma pyslice_app_l {A} (l r : list A) (a b : Z) :
  0 ≤ a ≤ b → b ≤ len l → (l ++ r).[a:b] = l.[a:b].
Proof.
  intros Hab Hb.
  rewrite (pyslice_inside (l ++ r)) by (rewrite ?len_app; pose proof (len_nonneg r); lia).
  rewrite (pyslice_inside l) by lia.
  rewrite drop_app_le by (unfold len in *; lia).
  rewrite take_app_le by (rewrite length_drop; unfold len in *; lia).
  reflexivity.
Qed.

Lemma pyslice_to_app_l {A} (l r : list A) (b : Z) :
  0 ≤ b ≤ len l → (l ++ r).[:b] = l.[:b].
Proof.
  intros Hb.
  rewrite (pyslice_to_inside (l ++ r)) by (rewrite ?len_app; pose proof (len_nonneg r); lia).
  rewrite (pyslice_to_inside l) by lia.
  rewrite take_app_le by (unfold len in *; lia).
  reflexivity.
Qed.

Lemma clock_after_new (k : bytes) (m : string) (iv : option bytes) (e : Env.t) :
  Env.clock (snd (Encryptor.new k m iv e)) = Env.clock e.
Proof.
  unfold Encryptor.new.
  destruct (match iv with
            | Some v => if len v =? cipher_iv_len m then Some v else None
            | None => None
            end); reflexivity.
Qed.

(** The handshake on the server without a user table, for a first
    packet put together as [pack_auth_data] does. *)
Lemma server_handshake_accepts (v : t) (k4 u a E p : bytes) (ov mss : Z) :
  let key := ServerInfo.key (server_info v) in
  let ch := hmac_md5 (ServerInfo.recv_iv (server_info v) ++ key) k4 in
  let x := pack_le 4 (Z.lxor (unpack_le u) (unpack_le ch.[8:12])) in
  let sh := hmac_md5 key (x ++ E) in
  ServerInfo.users (server_info v) = [] →
  length k4 = 4%nat → length u = 4%nat → length E = 16%nat → length a = 12%nat →
  0 ≤ ov < 65536 → 0 ≤ mss < 65536 →
  recv_buf v = ((k4 ++ ch.[:8]) ++ (x ++ E) ++ sh.[:4]) ++ p →
  take 16 (head_opened (b64encode key ++ salt v) E (env v))
  = a ++ pack_le 2 ov ++ pack_le 2 mss →
  in_time a v →
  guard_accepts a v →
  ∃ v1 e',
    server_handshake v = (Ok (Next tt), v1)
    ∧ user_key v1 = Some key
    ∧ last_client_hash v1 = ch
    ∧ last_server_hash v1 = sh
    ∧ client_over_head v1 = ov
    ∧ recv_tcp_mss v1 = mss
    ∧ send_tcp_mss v1 = mss
    ∧ has_recv_header v1 = true
    ∧ encryptor v1
      = Some (session_cipher (b64encode key ++ b64encode ch) sh.[:8] ch.[:8] e')
    ∧ recv_buf v1 = p
    ∧ recv_id v1 = recv_id v
    ∧ raw_trans v1 = raw_trans v
    ∧ info_overhead v1 = info_overhead v
    ∧ client_id v1 = unpack_le a.[4:8]
    ∧ connection_id v1 = unpack_le a.[8:12]
    ∧ user_id v1 = user_id v.
Proof.
  intros key ch x sh Husers Hk4 Hu HE Ha Hov Hmss Hrb Hhead Htime Hguard.
  assert (Hch8 : length ch.[:8] = 8%nat)
    by (unfold ch; rewrite length_head_of_hash by lia; reflexivity).
  assert (Hsh4 : length sh.[:4] = 4%nat)
    by (unfold sh; rewrite length_head_of_hash by lia; reflexivity).
  assert (Hx : length x = 4%nat) by apply length_pack_le.
  assert (S1 : (recv_buf v).[:4] = k4).
  { rewrite Hrb, <- !app_assoc. apply pyslice_to_app. unfold len. lia. }
  assert (S2 : (recv_buf v).[4:12] = ch.[:8]).
  { rewrite Hrb, <- !app_assoc. apply pyslice_mid_app; unfold len; lia. }
  assert (S3 : (recv_buf v).[12:16] = x).
  { replace (recv_buf v) with ((k4 ++ ch.[:8]) ++ x ++ (E ++ sh.[:4] ++ p))
      by (rewrite Hrb, <- !app_assoc; reflexivity).
    apply pyslice_mid_app; rewrite ?len_app; unfold len; lia. }
  assert (S4 : (recv_buf v).[12:12 + 20] = x ++ E).
  { replace (recv_buf v) with ((k4 ++ ch.[:8]) ++ (x ++ E) ++ (sh.[:4] ++ p))
      by (rewrite Hrb, <- !app_assoc; reflexivity).
    apply pyslice_mid_app; rewrite ?len_app; unfold len; lia. }
  assert (S5 : (recv_buf v).[32:36] = sh.[:4]).
  { replace (recv_buf v) with (((k4 ++ ch.[:8]) ++ (x ++ E)) ++ sh.[:4] ++ p)
      by (rewrite Hrb, <- !app_assoc; reflexivity).
    apply pyslice_mid_app; rewrite ?len_app; unfold len; lia. }
  assert (S6 : (recv_buf v).[16:32] = E).
  { replace (recv_buf v) with (((k4 ++ ch.[:8]) ++ x) ++ E ++ (sh.[:4] ++ p))
      by (rewrite Hrb, <- !app_assoc; reflexivity).
    apply pyslice_mid_app; rewrite ?len_app; unfold len; lia. }
  assert (S7 : (recv_buf v).[36:] = p).
  { rewrite Hrb. apply pyslice_from_app. rewrite !len_app. unfold len. lia. }
  assert (Hlen : len (recv_buf v) = 36 + len p).
  { rewrite Hrb, !len_app. unfold len. lia. }
  pose proof (len_nonneg p) as Hp0.
  unfold server_handshake. rewrite !bind_gets.
  fold key. rewrite S1. fold ch.
  assert (C1 : ((12 <=? len (recv_buf v)) || (len (recv_buf v) =? 7)
                || (len (recv_buf v) =? 8)) = true).
  { assert (E1 : (12 <=? len (recv_buf v)) = true) by (apply Z.leb_le; lia).
    rewrite E1. reflexivity. }
  rewrite C1. rewrite (Z.min_r (len (recv_buf v)) 12) by lia.
  change (12 - 4) with 8. rewrite S2. rewrite Replay_facts.bytes_eqb_refl.
  cbn [negb andb].
  assert (C2 : (len (recv_buf v) <? 12 + 24) = false) by (apply Z.ltb_ge; lia).
  rewrite C2. rewrite bind_modify. rewrite S3.
  destruct (unpack_I_of_4 x Hx) as [Hux Rx].
  assert (Hc4 : length ch.[8:12] = 4%nat)
    by (unfold ch; rewrite length_slice_of_hash by lia; reflexivity).
  destruct (unpack_I_of_4 _ Hc4) as [Hub Rb].
  rewrite (bind_lift_Ok _ _ _ _ Hux), (bind_lift_Ok _ _ _ _ Hub).
  rewrite bind_modify.
  rewrite (bind_lift_Ok _ _ _ _ (pack_I_ok _ (lxor_range 32 _ _ ltac:(lia) Rx Rb))).
  rewrite Husers. cbn [ServerInfo.users_get].
  rewrite bind_assoc, !bind_modify.
  unfold bind at 1. unfold the_user_key at 1. cbn [user_key with_user_key].
  rewrite S4, S5. fold sh. rewrite Replay_facts.bytes_eqb_refl. cbn [negb].
  rewrite bind_modify, bind_gets, bind_new_encryptor.
  cbn [salt env with_last_server_hash with_user_key with_user_id_num with_last_client_hash].
  rewrite S6.
  change (fst (Encryptor.decrypt (bytes_repeat x00 16 ++ E ++ [x00])
                 (fst (Encryptor.new (b64encode key ++ salt v) "aes-128-cbc" None (env v)))))
    with (head_opened (b64encode key ++ salt v) E (env v)).
  set (head := head_opened (b64encode key ++ salt v) E (env v)) in *.
  set (data := a ++ pack_le 2 ov ++ pack_le 2 mss) in *.
  assert (Hdl : length data = 16%nat).
  { unfold data. rewrite !length_app, !length_pack_le. lia. }
  assert (Hhl : 16 ≤ len head).
  { assert (H : length (take 16 head) = 16%nat) by (rewrite Hhead; exact Hdl).
    rewrite length_take in H. unfold len. lia. }
  assert (D1 : head.[12:14] = pack_le 2 ov).
  { rewrite (pyslice_of_take head 12 14 16) by lia.
    change (Z.to_nat 16) with 16%nat. rewrite Hhead. unfold data.
    apply pyslice_mid_app; unfold len; rewrite ?length_pack_le; lia. }
  assert (D2 : head.[14:16] = pack_le 2 mss).
  { rewrite (pyslice_of_take head 14 16 16) by lia.
    change (Z.to_nat 16) with 16%nat. rewrite Hhead. unfold data.
    rewrite app_assoc. rewrite <- (app_nil_r (pack_le 2 mss)) at 1.
    apply pyslice_mid_app; rewrite ?len_app; unfold len; rewrite ?length_pack_le; lia. }
  assert (D3 : head.[:4] = a.[:4]).
  { rewrite (pyslice_to_of_take head 4 16) by lia.
    change (Z.to_nat 16) with 16%nat. rewrite Hhead. unfold data.
    apply pyslice_to_app_l. unfold len. lia. }
  assert (D4 : head.[4:8] = a.[4:8]).
  { rewrite (pyslice_of_take head 4 8 16) by lia.
    change (Z.to_nat 16) with 16%nat. rewrite Hhead. unfold data.
    apply pyslice_app_l; unfold len; lia. }
  assert (D5 : head.[8:12] = a.[8:12]).
  { rewrite (pyslice_of_take head 8 12 16) by lia.
    change (Z.to_nat 16) with 16%nat. rewrite Hhead. unfold data.
    apply pyslice_app_l; unfold len; lia. }
  rewrite D1, D2, D3, D4, D5.
  rewrite (bind_lift_Ok _ _ _ _ (unpack_H_pack_le ov Hov)).
  rewrite bind_modify.
  rewrite (bind_lift_Ok _ _ _ _ (unpack_H_pack_le mss Hmss)).
  rewrite !bind_modify.
  assert (A1 : length a.[:4] = 4%nat)
    by (rewrite length_pyslice_to by (unfold len; lia); reflexivity).
  assert (A2 : length a.[4:8] = 4%nat)
    by (rewrite length_pyslice by (unfold len; lia); reflexivity).
  assert (A3 : length a.[8:12] = 4%nat)
    by (rewrite length_pyslice by (unfold len; lia); reflexivity).
  rewrite (bind_lift_Ok _ _ _ _ (proj1 (unpack_I_of_4 _ A1))).
  rewrite (bind_lift_Ok _ _ _ _ (proj1 (unpack_I_of_4 _ A2))).
  rewrite (bind_lift_Ok _ _ _ _ (proj1 (unpack_I_of_4 _ A3))).
  unfold time_now. rewrite !bind_gets.
  set (e1 := snd (Encryptor.new (b64encode key ++ salt v) "aes-128-cbc" None (env v))).
  set (s5 := with_send_tcp_mss mss _).
  change (env s5) with e1. change (max_time_dif s5) with (max_time_dif v).
  assert (Hclock : Env.clock e1 = Env.clock (env v)) by apply clock_after_new.
  rewrite Hclock.
  unfold in_time in Htime. cbv zeta in Htime.
  assert (C3 : ((int32 (unpack_le a.[:4] - Z.land (Env.clock (env v)) 4294967295)
                 <? - max_time_dif v)
                || (max_time_dif v
                    <? int32 (unpack_le a.[:4] - Z.land (Env.clock (env v)) 4294967295)))
               = false).
  { apply orb_false_iff. split; apply Z.ltb_ge; lia. }
  rewrite C3.
  unfold guard_accepts in Hguard.
  destruct (obfs_auth_akarin_data.insert (Env.clock (env v)) (user_id v)
              (unpack_le a.[4:8]) (unpack_le a.[8:12]) (info_data v))
    as [accepted d] eqn:Eins.
  cbn [fst] in Hguard. subst accepted.
  rewrite !bind_gets.
  change (user_id s5) with (user_id v). change (info_data s5) with (info_data v).
  rewrite Eins.
  rewrite !bind_modify. unfold on_recv_auth_data. rewrite bind_ret, !bind_gets.
  rewrite bind_new_encryptor, bind_modify.
  erewrite bind_encryptor_encrypt by reflexivity.
  erewrite bind_encryptor_decrypt by reflexivity.
  rewrite !bind_modify. unfold ret. rewrite S7.
  eexists. eexists. split; [reflexivity|].
  cbn. repeat split; reflexivity.
Qed.

Lemma first_packet_goes_through (c v : t) (a buf : bytes) :
  ServerInfo.key (server_info v) = ServerInfo.key (server_info c) →
  ServerInfo.recv_iv (server_info v) = ServerInfo.iv (server_info c) →
  info_overhead v = info_overhead c →
  0 ≤ info_overhead c < 65536 →
  salt v = salt c →
  ServerInfo.users (server_info v) = [] →
  contains_byte colon (ServerInfo.protocol_param (server_info c)) = false →
  user_key c = None →
  send_back_cmd c = [] →
  0 ≤ pack_id c < 2 ^ 32 →
  recv_id v = pack_id c →
  raw_trans v = false →
  has_recv_header v = false →
  recv_buf v = [] →
  length a = 12%nat →
  head_opens →
  in_time a v →
  guard_accepts a v →
  ciphers_start_in_step buf →
  ∃ data c' v',
    pack_auth_data a buf c = (Ok data, c')
    ∧ server_post_decrypt data v = (Ok (buf, true), v')
    ∧ client_to_server c' v' (ServerInfo.key (server_info c)) (last_client_hash c')
    ∧ send_back_cmd c' = []
    ∧ client_over_head v' = info_overhead c
    ∧ client_id v' = unpack_le a.[4:8]
    ∧ connection_id v' = unpack_le a.[8:12].
Proof.
  intros Hkey Hiv Ho Hov Hsalt Husers Hcolon Hukey Hcmd Hpid Hrid Hraw Hhdr Hrb Ha
    Haes Htime Hguard Hciph.
  destruct (pack_auth_data_opening c a buf Hcolon Hukey Hov)
    as (k4 & u & n & e & e' & c1 & Hk4 & Hu & Hn & Hrun & Hk1 & Hch & Hsh & Henc1
        & Hmss1 & Hpid1 & Hcmd1 & Ho1).
  cbv zeta in *.
  set (key := ServerInfo.key (server_info c)) in *.
  set (ch := hmac_md5 (ServerInfo.iv (server_info c) ++ key) k4) in *.
  set (x := pack_le 4 (Z.lxor (unpack_le u) (unpack_le ch.[8:12]))) in *.
  set (data := a ++ pack_le 2 (info_overhead c) ++ pack_le 2 (n + 400)) in *.
  set (E := head_sealed (b64encode key ++ salt c) data e) in *.
  set (sh := hmac_md5 key (x ++ E)) in *.
  set (out := (k4 ++ ch.[:8]) ++ (x ++ E) ++ sh.[:4]) in *.
  assert (Hdl : length data = 16%nat).
  { unfold data. rewrite !length_app, !length_pack_le. lia. }
  assert (Hch8 : length ch.[:8] = 8%nat)
    by (unfold ch; rewrite length_head_of_hash by lia; reflexivity).
  assert (Hsh8 : length sh.[:8] = 8%nat)
    by (unfold sh; rewrite length_head_of_hash by lia; reflexivity).
  (* the client packs the data *)
  assert (Hpk1 : packs_plain key c1).
  { unfold packs_plain. rewrite Hcmd1, Hk1, Hch, Hpid1, Hmss1, Ho1.
    repeat split; try assumption; try reflexivity; try lia.
    unfold ch. apply hmac_md5_length. }
  set (K := b64encode key ++ b64encode ch) in *.
  set (ec := session_cipher K ch.[:8] sh.[:8] e') in *.
  destruct (Encryptor.encrypt buf ec) as [eb ec'] eqn:Eenc.
  assert (Hl : 0 < len eb ≤ 3575).
  { pose proof (Hciph K ch.[:8] sh.[:8] e' e' Hch8 Hsh8) as H.
    cbn [in_step] in H. fold ec in H. rewrite Eenc in H. cbn [fst] in H. apply H. }
  destruct (plain_pack hmac_md5_length key c1 buf eb ec ec' Hpk1 Henc1 Eenc Hl)
    as (d & c' & Hpack & Hpk' & Hec').
  assert (Hclient : pack_auth_data a buf c = (Ok (out ++ d), c')).
  { rewrite Hrun. unfold bind. rewrite Hpack. reflexivity. }
  (* the server takes the handshake *)
  set (v0 := with_recv_buf (recv_buf v ++ (out ++ d)) v).
  destruct (Haes (b64encode key ++ salt c) data e (env v) Hdl) as [HE Hopen].
  fold E in HE, Hopen.
  pose proof (server_handshake_accepts v0 k4 u a E d (info_overhead c) (n + 400)) as Hhs.
  cbv zeta in Hhs. unfold v0 in Hhs.
  cbn [server_info with_recv_buf salt env recv_buf] in Hhs.
  rewrite Hkey, Hiv, Hsalt in Hhs. fold key ch x sh in Hhs.
  destruct (Hhs Husers Hk4 Hu HE Ha Hov ltac:(lia)
              ltac:(cbn [recv_buf with_recv_buf]; rewrite Hrb; reflexivity)
              Hopen Htime Hguard)
    as (v1 & e2 & Hshake & Hkv1 & Hchv & Hshv & Hcoh & Hrm & Hsm & Hhdr1 & Hev1 & Hrb1
        & Hrid1 & Hraw1 & Hov1 & Hcid & Hconn & Huid).
  clear Hhs.
  (* the packet behind the handshake *)
  set (ev := session_cipher K sh.[:8] ch.[:8] e2) in *.
  destruct (Encryptor.decrypt eb ev) as [b' ev'] eqn:Edec.
  assert (Hb' : b' = buf).
  { pose proof (Hciph K ch.[:8] sh.[:8] e' e2 Hch8 Hsh8) as H.
    cbn [in_step] in H. fold ec ev in H. rewrite Eenc in H. cbn [fst] in H.
    rewrite Edec in H. cbn [fst] in H. apply H. }
  subst b'.
  assert (Hup : upstream_plain key c1 v1).
  { split; [exact Hpk1|].
    destruct Hpk1 as (P1 & P2 & P3 & P4 & P5).
    unfold client_to_server.
    change (info_overhead (with_recv_buf [] v1)) with (info_overhead v1).
    cbn [user_key last_client_hash recv_id recv_tcp_mss send_tcp_mss raw_trans
         has_recv_header recv_buf with_recv_buf].
    rewrite Hkv1, Hchv, Hch, Hrid1, Hpid1, Hrm, Hsm, Hmss1, Hraw1, Hhdr1, Hov1, Ho1.
    repeat split; try assumption; try reflexivity; try lia.
    unfold ch. apply hmac_md5_length. }
  destruct (plain_step_frame hmac_md5_length key c1 v1 c' buf eb d [] [] true
              ec ec' ev ev' Hup Henc1 Hev1 Eenc Edec Hl Hpack
              ltac:(rewrite Hrb1, app_nil_r; reflexivity))
    as (v2 & Hsp & Hld & Hrb2 & Hev2 & Hup2 & F1 & F2 & F3).
  cbn [app] in Hsp.
  assert (Hloop : recv_loop server_packet (length (recv_buf v1)) ([], true) v1
                  = (Ok (Next (buf, true)), v2)).
  { destruct (length (recv_buf v1)) as [|fuel] eqn:En.
    { rewrite Hrb1 in En. unfold len in Hld. lia. }
    apply (recv_loop_once server_packet fuel _ _ v1 v2).
    - rewrite Hrb1. exact Hld.
    - exact Hsp.
    - rewrite Hrb2. unfold len. simpl. lia. }
  assert (Hserver : ∃ v', server_post_decrypt (out ++ d) v = (Ok (buf, true), v')
                          ∧ (v' = v2 ∨ ∃ dd, v' = set_info_data dd v2)).
  { unfold server_post_decrypt.
    rewrite bind_gets, Hraw. rewrite bind_gets, bind_modify, bind_gets.
    fold v0. change (has_recv_header v0) with (has_recv_header v).
    rewrite Hhdr. cbn [negb].
    rewrite bind_assoc. rewrite (bind_Ok _ _ _ _ _ Hshake).
    rewrite bind_ret, bind_gets.
    rewrite (bind_Ok _ _ _ _ _ Hloop).
    destruct buf as [|b0 buf'].
    - rewrite bind_ret. eexists. split; [reflexivity|left; reflexivity].
    - eexists. split; [reflexivity|right; eexists; reflexivity]. }
  destruct Hserver as (v' & Hserver & Hv').
  exists (out ++ d), c', v'.
  split; [exact Hclient|]. split; [exact Hserver|].
  assert (Hback : ∀ w, upstream_plain key c' w → recv_buf w = [] →
                       client_to_server c' w key (last_client_hash c')
                       ∧ send_back_cmd c' = [])
    by (intros w; apply plain_paired_back).
  destruct Hv' as [->|[dd ->]].
  - destruct (Hback v2 Hup2 Hrb2) as [B1 B2].
    split; [exact B1|]. split; [exact B2|].
    rewrite F1, F2, F3, Hcoh, Hcid, Hconn. repeat split; reflexivity.
  - destruct (Hback (set_info_data dd v2) (plain_info key c' v2 dd Hup2) Hrb2) as [B1 B2].
    split; [exact B1|]. split; [exact B2|].
    cbn [client_over_head client_id connection_id set_info_data with_server_info].
    rewrite F1, F2, F3, Hcoh, Hcid, Hconn. repeat split; reflexivity.
Qed.

(** The first packet of a connection is accepted: a client without a
    user of its own ([protocol_param] has no [':'], no key held yet)
    and a server without a user table hold the same key, the server's
    [recv_iv] is the client's [iv], both have the same overhead and
    salt, and neither has sent or taken a packet.  If the time in the
    auth data [a] is within [max_time_dif] of the server's clock, the
    replay guard takes its ids, the block cipher gives the 16 bytes of
    the head back and the ciphers of the connection start in step for
    [buf] (the ciphertext of [buf] is not empty, has at most 3575 bytes
    and is deciphered to [buf]),
    then [server_post_decrypt] of what [pack_auth_data] made gives
    [(buf, True)], leaves the two ends paired as [client_to_server]
    says (the header is taken), and holds the overhead of the client
    and the ids of [a]. *)
Theorem server_accepts_the_first_packet (c v : t) (a buf : bytes) :
  ServerInfo.key (server_info v) = ServerInfo.key (server_info c) →
  ServerInfo.recv_iv (server_info v) = ServerInfo.iv (server_info c) →
  info_overhead v = info_overhead c →
  0 ≤ info_overhead c < 65536 →
  salt v = salt c →
  ServerInfo.users (server_info v) = [] →
  contains_byte colon (ServerInfo.protocol_param (server_info c)) = false →
  user_key c = None →
  send_back_cmd c = [] →
  0 ≤ pack_id c < 2 ^ 32 →
  recv_id v = pack_id c →
  raw_trans v = false →
  has_recv_header v = false →
  recv_buf v = [] →
  length a = 12%nat →
  head_opens →
  in_time a v →
  guard_accepts a v →
  ciphers_start_in_step buf →
  ∃ data c' v',
    pack_auth_data a buf c = (Ok data, c')
    ∧ server_post_decrypt data v = (Ok (buf, true), v')
    ∧ client_to_server c' v' (ServerInfo.key (server_info c)) (last_client_hash c')
    ∧ send_back_cmd c' = []
    ∧ client_over_head v' = info_overhead c
    ∧ client_id v' = unpack_le a.[4:8]
    ∧ connection_id v' = unpack_le a.[8:12].
Proof. apply first_packet_goes_through. Qed.

End with_primitives.

(** A fresh client makes its auth data and sends ["hello"] behind it
    to a fresh server. *)
Lemma server_accepts_the_first_packet_witness :
  ∃ data,
    fst (pack_auth_data (prims := plain_primitives) Opening_flight.auth
           hello Opening_flight.client) = Ok data
    ∧ fst (server_post_decrypt (prims := plain_primitives) data fresh_session)
      = Ok (hello, true).
Proof.
  destruct (server_accepts_the_first_packet (prims := plain_primitives)
              (fun _ _ => eq_refl) Opening_flight.client fresh_session
              Opening_flight.auth hello)
    as (data & c' & v' & Hp & Hs & _).
  - reflexivity.
  - reflexivity.
  - reflexivity.
  - vm_compute. split; first [reflexivity|discriminate].
  - reflexivity.
  - reflexivity.
  - reflexivity.
  - reflexivity.
  - reflexivity.
  - vm_compute. split; first [reflexivity|discriminate].
  - reflexivity.
  - reflexivity.
  - reflexivity.
  - reflexivity.
  - reflexivity.
  - intros key data e e' Hd.
    do 17 (destruct data as [|? data]; try discriminate Hd).
    split; reflexivity.
  - vm_compute. split; first [reflexivity|discriminate].
  - vm_compute. reflexivity.
  - intros key x y e e' Hx Hy.
    do 9 (destruct x as [|? x]; try discriminate Hx).
    do 9 (destruct y as [|? y]; try discriminate Hy).
    vm_compute. repeat split; first [reflexivity|discriminate].
  - exists data. rewrite Hp, Hs. split; reflexivity.
Defined.

End first_packet_facts.

(* ===================================================================== *)
(** ** The receive loops end *)
(* ===================================================================== *)

Module receive_facts.
Import auth_akarin_rand Steady Frame Fixtures failure_facts command_facts.
Import bytes_facts codec_facts packet_facts chunk_facts stream_facts.

Section with_primitives.
Context {prims : primitives}.

Lemma the_user_key_inv (s : t) (uk : bytes) (s' : t) :
  the_user_key s = (Ok uk, s') → s' = s.
Proof. unfold the_user_key. destruct (user_key s); intros [= _ <-]. reflexivity. Qed.

(** A padding length is not negative. *)
Lemma draw_nonneg (w : which_random) (h : bytes) (n d : Z) (s : t) (rl : Z) (s' : t) :
  0 ≤ d →
  bind (random_init_from_bin_len w h n)
    (fun _ => bind (random_next w) (fun r => lift (py_mod r d))) s = (Ok rl, s') →
  0 ≤ rl.
Proof.
  intros Hd H.
  apply bind_inv in H as (? & s1 & _ & H).
  apply bind_inv in H as (r & s2 & _ & H).
  apply lift_inv in H as [H _]. unfold py_mod in H.
  destruct (d =? 0) eqn:E; [discriminate|]. apply Z.eqb_neq in E.
  injection H as <-. apply Z.mod_pos_bound. lia.
Qed.

Lemma recv_rnd_data_len_nonneg (n : Z) (h : bytes) (w : which_random) (s : t)
    (rl : Z) (s' : t) :
  recv_rnd_data_len n h w s = (Ok rl, s') → 0 ≤ rl.
Proof.
  unfold recv_rnd_data_len. rewrite !bind_gets.
  destruct (recv_tcp_mss s <? n + info_overhead s) eqn:E1.
  { apply draw_nonneg. lia. }
  apply Z.ltb_ge in E1.
  destruct ((1440 <=? n) || (n + info_overhead s =? send_tcp_mss s)).
  { intros [= <- _]. lia. }
  destruct (1300 <? n); [apply draw_nonneg; lia|].
  destruct (900 <? n); [apply draw_nonneg; lia|].
  destruct (400 <? n); [apply draw_nonneg; lia|].
  apply draw_nonneg. lia.
Qed.

Lemma fail_raise_not_next {A B} (msg : string) (s : t) (a : A) (s' : t) :
  fail_raise (A := turn A B) msg s ≠ (Ok (Next a), s').
Proof. unfold fail_raise, bind, modify, raise. discriminate. Qed.

Lemma fail_poison_not_next {A} (msg : string) (s : t) (a : A) (s' : t) :
  fail_poison (A := A) msg s ≠ (Ok (Next a), s').
Proof.
  rewrite fail_poison_runs. unfold poison_or_raise.
  destruct (recv_id s =? 1); discriminate.
Qed.

(** A packet the client takes is at least four bytes of [recv_buf]. *)
Lemma client_turn_takes_bytes (out : bytes) (s : t) (a : bytes) (s' : t) :
  client_packet out s = (Ok (Next a), s') →
  len (recv_buf s') + 4 ≤ len (recv_buf s).
Proof.
  unfold client_packet. rewrite bind_gets. intros H.
  apply bind_inv in H as (p & s1 & Hp & H). apply lift_inv in Hp as [Hp ->].
  apply bind_inv in H as (uk & s1 & Huk & H). apply the_user_key_inv in Huk as ->.
  rewrite !bind_gets in H.
  apply bind_inv in H as (w & s1 & Hw & H). apply lift_inv in Hw as [Hw ->].
  apply bind_inv in H as (m & s1 & Hm & H). apply lift_inv in Hm as [Hm ->].
  cbv zeta in H.
  apply bind_inv in H as (rl & s1 & Hr & H).
  apply recv_rnd_data_len_nonneg in Hr.
  apply unpack_H_range in Hw, Hm.
  pose proof (lxor_u16 w m Hw Hm) as Hd.
  destruct (4096 <=? _); [exfalso; exact (fail_raise_not_next _ _ _ _ H)|].
  destruct (len (recv_buf s) <? _) eqn:El; [discriminate|].
  apply Z.ltb_ge in El.
  destruct (negb _); [exfalso; exact (fail_raise_not_next _ _ _ _ H)|].
  apply bind_inv in H as (d & s2 & _ & H).
  rewrite bind_modify in H.
  apply bind_inv in H as (o & s3 & _ & H).
  rewrite !bind_modify in H. injection H as _ <-.
  cbn [recv_buf with_recv_buf].
  rewrite len_slice_from by lia. lia.
Qed.

(** The loop over the commands leaves a length that is not negative and
    a buffer that is not longer. *)
Lemma len_slice_from_le {A} (l : list A) (n : Z) : len l.[n:] ≤ len l.
Proof.
  unfold pyslice, len. rewrite length_take, length_drop. lia.
Qed.

Lemma len_slice_to_le {A} (l : list A) (n : Z) : len l.[:n] ≤ len l.
Proof.
  unfold pyslice, len. rewrite length_take, length_drop. lia.
Qed.

Lemma cmd_loop_takes (fuel : nat) :
  ∀ (dl cl : Z) (rb : bytes) (s : t) (dl' cl' : Z) (rb' : bytes) (s' : t),
    0 ≤ dl →
    cmd_loop fuel dl cl rb s = (Ok (Next (dl', cl', rb')), s') →
    0 ≤ dl' ∧ len rb' ≤ len rb.
Proof.
  induction fuel as [|fuel IH]; intros dl cl rb s dl' cl' rb' s' Hd H; cbn [cmd_loop] in H.
  - destruct (0xff00 <=? dl); [discriminate|].
    injection H as <- <- <- _. split; lia.
  - destruct (0xff00 <=? dl).
    + destruct (dl =? 0xff00).
      * cbv zeta in H. rewrite bind_gets, bind_modify, bind_gets in H.
        apply bind_inv in H as (w & s1 & Hw & H). apply lift_inv in Hw as [Hw ->].
        apply bind_inv in H as (m & s1 & Hm & H). apply lift_inv in Hm as [Hm ->].
        apply unpack_H_range in Hw, Hm.
        apply IH in H; [|apply (lxor_u16 w m Hw Hm)].
        destruct H as [H1 H2]. split; [exact H1|].
        pose proof (len_slice_from_le rb 2). lia.
      * exfalso. exact (fail_poison_not_next _ _ _ _ H).
    + injection H as <- <- <- _. split; lia.
Qed.

(** With two bytes or more to read and a turn for each byte, the loop
    over the commands comes to its end. *)
Lemma cmd_loop_returns (fuel : nat) :
  ∀ (dl cl : Z) (rb : bytes) (s : t),
    (length rb ≤ fuel)%nat → (2 ≤ length rb)%nat →
    fst (cmd_loop fuel dl cl rb s) ≠ Hang.
Proof.
  induction fuel as [|fuel IH]; intros dl cl rb s Hf Hl; [lia|].
  cbn [cmd_loop]. destruct (0xff00 <=? dl); [|discriminate].
  destruct (dl =? 0xff00); [|apply steady_fail_poison].
  cbv zeta. rewrite bind_gets, bind_modify, bind_gets.
  assert (Hlen : len rb.[2:] = len rb - 2).
  { apply len_slice_from. unfold len. lia. }
  apply bind_comes_back; [apply struct_unpack_returns|].
  intros w s1 Hw. apply lift_inv in Hw as [Hw ->].
  apply bind_comes_back; [apply struct_unpack_returns|].
  intros m s1 Hm. apply lift_inv in Hm as [Hm ->].
  unfold unpack_H, struct_unpack in Hw.
  destruct (length _ =? 2)%nat eqn:E; [|discriminate]. apply Nat.eqb_eq in E.
  pose proof (len_slice_to_le rb.[2:] 2) as Hs. unfold len in Hs.
  unfold len in Hlen.
  apply IH; lia.
Qed.

(** A packet the server takes is at least four bytes of [recv_buf]. *)
Lemma server_turn_takes_bytes (acc : bytes * bool) (s : t) (a : bytes * bool) (s' : t) :
  server_packet acc s = (Ok (Next a), s') →
  len (recv_buf s') + 4 ≤ len (recv_buf s).
Proof.
  unfold server_packet. destruct acc as [out sb]. rewrite bind_gets. intros H.
  apply bind_inv in H as (p & s1 & Hp & H). apply lift_inv in Hp as [Hp ->].
  apply bind_inv in H as (uk & s1 & Huk & H). apply the_user_key_inv in Huk as ->.
  rewrite !bind_gets in H.
  apply bind_inv in H as (w & s1 & Hw & H). apply lift_inv in Hw as [Hw ->].
  apply bind_inv in H as (m & s1 & Hm & H). apply lift_inv in Hm as [Hm ->].
  cbv zeta in H.
  apply bind_inv in H as (c & s1 & Hc & H).
  apply unpack_H_range in Hw, Hm.
  pose proof (lxor_u16 w m Hw Hm) as Hd.
  destruct c as [[[dl cl] rb]| |]; [|discriminate|discriminate].
  apply cmd_loop_takes in Hc; [|lia]. destruct Hc as [Hdl Hrb].
  apply bind_inv in H as (rl & s2 & Hr & H).
  apply recv_rnd_data_len_nonneg in Hr.
  destruct (4096 <=? _); [exfalso; exact (fail_poison_not_next _ _ _ _ H)|].
  destruct (len rb <? _) eqn:El; [discriminate|].
  apply Z.ltb_ge in El.
  rewrite bind_gets in H.
  destruct (negb _); [exfalso; exact (fail_poison_not_next _ _ _ _ H)|].
  rewrite bind_gets, bind_modify in H.
  apply bind_inv in H as (d & s3 & _ & H).
  rewrite !bind_modify in H. injection H as _ <-.
  cbn [recv_buf with_recv_buf].
  rewrite len_slice_from by lia. lia.
Qed.

(** Entered with more than four bytes in [recv_buf], the body of the
    server's loop comes back. *)
Lemma server_packet_returns (acc : bytes * bool) (s : t) :
  4 < len (recv_buf s) → fst (server_packet acc s) ≠ Hang.
Proof.
  intros Hl. unfold server_packet. destruct acc as [out sb]. rewrite bind_gets.
  apply bind_comes_back; [apply struct_pack_returns|].
  intros p s1 Hp. apply lift_inv in Hp as [Hp ->].
  apply bind_comes_back; [apply steady_the_user_key|].
  intros uk s1 Huk. apply the_user_key_inv in Huk as ->.
  rewrite !bind_gets.
  apply bind_comes_back; [apply struct_unpack_returns|].
  intros w s1 Hw. apply lift_inv in Hw as [Hw ->].
  apply bind_comes_back; [apply struct_unpack_returns|].
  intros m s1 Hm. apply lift_inv in Hm as [Hm ->].
  cbv zeta.
  apply bind_comes_back.
  { apply cmd_loop_returns; [lia|]. unfold len in Hl. lia. }
  intros c s1 _.
  destruct c as [[[dl cl] rb]| |]; [|discriminate|discriminate].
  apply bind_comes_back; [apply steady_recv_rnd_data_len|]. intros rl s2 _.
  destruct (4096 <=? _); [apply steady_fail_poison|].
  destruct (len rb <? _); [discriminate|].
  rewrite bind_gets. destruct (negb _); [apply steady_fail_poison|].
  rewrite bind_gets, bind_modify.
  apply bind_comes_back; [apply steady_encryptor_decrypt|]. intros d s3 _.
  rewrite !bind_modify. discriminate.
Qed.

(** A loop whose body comes back, and takes bytes off [recv_buf]
    whenever it asks for another turn, ends within as many turns as
    [recv_buf] has bytes. *)
Lemma recv_loop_ends {A R} (body : A → M t (turn A R)) :
  (∀ acc s, 4 < len (recv_buf s) → fst (body acc s) ≠ Hang) →
  (∀ acc s a s', body acc s = (Ok (Next a), s') →
     len (recv_buf s') + 4 ≤ len (recv_buf s)) →
  ∀ (fuel : nat) (acc : A) (s : t),
    (length (recv_buf s) ≤ fuel)%nat → fst (recv_loop body fuel acc s) ≠ Hang.
Proof.
  intros Hb Ht. induction fuel as [|fuel IH]; intros acc s Hf; cbn [recv_loop].
  - destruct (4 <? len (recv_buf s)) eqn:E; [|discriminate].
    apply Z.ltb_lt in E. unfold len in E. lia.
  - destruct (4 <? len (recv_buf s)) eqn:E; [|discriminate].
    apply Z.ltb_lt in E.
    apply bind_comes_back; [apply Hb; exact E|].
    intros [a| |r] s1 Hs; [|discriminate|discriminate].
    apply IH. apply Ht in Hs. unfold len in Hs. lia.
Qed.

Lemma client_post_decrypt_comes_back (buf : bytes) (s : t) :
  fst (client_post_decrypt buf s) ≠ Hang.
Proof.
  unfold client_post_decrypt. rewrite bind_gets.
  destruct (raw_trans s); [discriminate|].
  rewrite bind_gets, bind_modify.
  apply bind_comes_back.
  - apply recv_loop_ends.
    + intros acc s0 _. apply steady_client_packet.
    + apply client_turn_takes_bytes.
    + cbn [recv_buf with_recv_buf]. lia.
  - intros [a| |r] s1 _; discriminate.
Qed.

Lemma server_post_decrypt_comes_back (buf : bytes) (s : t) :
  fst (server_post_decrypt buf s) ≠ Hang.
Proof.
  unfold server_post_decrypt. rewrite bind_gets.
  destruct (raw_trans s); [discriminate|].
  rewrite bind_gets, bind_modify. cbv zeta. rewrite bind_gets.
  apply bind_comes_back.
  - destruct (negb _); [|discriminate].
    apply bind_comes_back; [apply steady_server_handshake|].
    intros [a| |r] s1 _; discriminate.
  - intros [sb| |r] s1 _; [|discriminate|discriminate].
    rewrite bind_gets.
    apply bind_comes_back.
    + apply recv_loop_ends.
      * apply server_packet_returns.
      * apply server_turn_takes_bytes.
      * lia.
    + intros [[o b]| |r] s2 _; [|discriminate|discriminate].
      apply bind_comes_back; [|intros ? ? _; discriminate].
      destruct o; [discriminate|].
      unfold time_now. rewrite !bind_gets. discriminate.
Qed.

(** [client_post_decrypt] and [server_post_decrypt] come back on every
    input, with a result or an exception: a turn of the loop
    [while len(self.recv_buf) > 4] that does not leave the loop takes
    a packet of four bytes or more off [recv_buf], and the server's
    inner loop [while data_len >= 0xff00] takes two bytes off its
    buffer each turn, so that as many turns as there are bytes are
    enough for the loops. *)
Theorem the_receive_loops_end (buf : bytes) (s : t) :
  fst (client_post_decrypt buf s) ≠ Hang ∧ fst (server_post_decrypt buf s) ≠ Hang.
Proof.
  split; [apply client_post_decrypt_comes_back|apply server_post_decrypt_comes_back].
Qed.

End with_primitives.
End receive_facts.

(* ===================================================================== *)
(** ** The padding lengths of the variant, at the two ends *)
(* ===================================================================== *)

Module spec_a_padding_facts.
Import auth_akarin_spec_a bytes_facts codec_facts spec_a_facts.

Lemma get_set_random (w : auth_akarin_rand.which_random) (g : xorshift128plus.t)
    (b : auth_akarin_rand.t) :
  auth_akarin_rand.get_random w (auth_akarin_rand.set_random w g b) = g.
Proof. destruct w; reflexivity. Qed.

(** A draw on an object takes the next number of the generator. *)
Lemma on_base_next (w : auth_akarin_rand.which_random) (b : auth_akarin_rand.t) (s : t) :
  on_base (auth_akarin_rand.random_next w) (with_base b s)
  = (Ok (fst (xorshift128plus.next (auth_akarin_rand.get_random w b))),
     with_base (auth_akarin_rand.set_random w
                  (snd (xorshift128plus.next (auth_akarin_rand.get_random w b))) b) s).
Proof.
  unfold on_base, auth_akarin_rand.random_next. cbn [base with_base].
  destruct (xorshift128plus.next _) as [v g']. reflexivity.
Qed.

Lemma lift_fst {A B} (r : result A) (k : A → M t B) (k' : A → M t B) (s s' : t) :
  (∀ a, fst (k a s) = fst (k' a s')) →
  fst (bind (lift r) k s) = fst (bind (lift r) k' s').
Proof. intros Hk. unfold bind, lift. destruct r as [a| |]; [apply Hk|reflexivity|reflexivity]. Qed.

Lemma size_from_lists_fst (n : Z) (h : bytes) (w w' : auth_akarin_rand.which_random)
    (s s' : t) :
  data_size_list s' = data_size_list s →
  data_size_list2 s' = data_size_list2 s →
  auth_akarin_rand.info_overhead (base s') = auth_akarin_rand.info_overhead (base s) →
  fst (size_from_lists n h w' s') = fst (size_from_lists n h w s).
Proof.
  intros H1 H2 Ho. unfold size_from_lists. rewrite !gbind_gets. rewrite Ho.
  destruct (xorshift128plus.init_from_bin_len h n) as [g| |] eqn:Hg.
  2,3: unfold bind, on_base, auth_akarin_rand.random_init_from_bin_len, lift;
       rewrite Hg; reflexivity.
  rewrite (gbind_Ok _ _ _ _ _ (on_base_seed w' h n s' g Hg)).
  rewrite (gbind_Ok _ _ _ _ _ (on_base_seed w h n s g Hg)).
  rewrite !gbind_gets. cbn [data_size_list with_base]. cbv zeta.
  rewrite !(gbind_Ok _ _ _ _ _ (on_base_next _ _ _)).
  rewrite !get_set_random, H1.
  apply lift_fst. intros r1.
  destruct (_ <? len (data_size_list s)); [apply lift_fst; intros v; reflexivity|].
  rewrite !gbind_gets. cbn [data_size_list2 with_base].
  rewrite !(gbind_Ok _ _ _ _ _ (on_base_next _ _ _)).
  rewrite !get_set_random, H2.
  apply lift_fst. intros r2.
  destruct (_ <? len (data_size_list2 s)); [apply lift_fst; intros v; reflexivity|].
  destruct (_ <? _ + len (data_size_list2 s) - 1); [reflexivity|].
  assert (Htail : ∀ d b b',
            auth_akarin_rand.get_random w' b' = auth_akarin_rand.get_random w b →
            fst (bind (on_base (auth_akarin_rand.random_next w'))
                   (fun r => lift (py_mod r d)) (with_base b' s'))
            = fst (bind (on_base (auth_akarin_rand.random_next w))
                     (fun r => lift (py_mod r d)) (with_base b s))).
  { intros d b b' Hb. rewrite !(gbind_Ok _ _ _ _ _ (on_base_next _ _ _)).
    rewrite Hb. reflexivity. }
  destruct (1300 <? n); [apply Htail; rewrite !get_set_random; reflexivity|].
  destruct (900 <? n); [apply Htail; rewrite !get_set_random; reflexivity|].
  destruct (400 <? n); [apply Htail; rewrite !get_set_random; reflexivity|].
  apply Htail. rewrite !get_set_random. reflexivity.
Qed.

Lemma spec_a_recv_matches_send (sender receiver : t) (n : Z) (h : bytes)
    (w w' : auth_akarin_rand.which_random) :
  data_size_list receiver = data_size_list sender →
  data_size_list2 receiver = data_size_list2 sender →
  auth_akarin_rand.info_overhead (base receiver)
  = auth_akarin_rand.info_overhead (base sender) →
  auth_akarin_rand.recv_tcp_mss (base receiver)
  = auth_akarin_rand.send_tcp_mss (base sender) →
  (n + auth_akarin_rand.info_overhead (base sender)
   = auth_akarin_rand.send_tcp_mss (base receiver)
   ↔ n + auth_akarin_rand.info_overhead (base sender)
     = auth_akarin_rand.send_tcp_mss (base sender)) →
  fst (recv_rnd_data_len n h w' receiver) = fst (send_rnd_data_len n h w sender).
Proof.
  intros H1 H2 Ho Hm He. unfold recv_rnd_data_len, send_rnd_data_len.
  rewrite !gbind_gets. rewrite Ho, Hm.
  set (over := auth_akarin_rand.info_overhead (base sender)) in *.
  set (mss := auth_akarin_rand.send_tcp_mss (base sender)) in *.
  assert (E : (n + over =? auth_akarin_rand.send_tcp_mss (base receiver))
              = (n + over =? mss)).
  { destruct (n + over =? mss) eqn:E1.
    - apply Z.eqb_eq in E1. apply Z.eqb_eq. apply He. exact E1.
    - apply Z.eqb_neq in E1. apply Z.eqb_neq. intros Hx. apply E1. apply He. exact Hx. }
  rewrite E.
  destruct (mss <? n + over).
  { destruct (xorshift128plus.init_from_bin_len h n) as [g| |] eqn:Hg.
    2,3: unfold bind, on_base, auth_akarin_rand.random_init_from_bin_len, lift;
         rewrite Hg; reflexivity.
    rewrite (gbind_Ok _ _ _ _ _ (on_base_seed w' h n receiver g Hg)).
    rewrite (gbind_Ok _ _ _ _ _ (on_base_seed w h n sender g Hg)).
    rewrite !(gbind_Ok _ _ _ _ _ (on_base_next _ _ _)).
    rewrite !get_set_random. reflexivity. }
  destruct ((1440 <=? n) || (n + over =? mss)); [reflexivity|].
  apply size_from_lists_fst; assumption.
Qed.

(** The two ends of the variant agree on the padding of a packet: with
    the same two lists, the same overhead and the sender's
    [send_tcp_mss] as its [recv_tcp_mss], the receiver's
    [recv_rnd_data_len] gives what the sender's [send_rnd_data_len]
    gave, or fails as it did, whichever generator each uses and whatever
    was drawn from it before.  The receiver's own [send_tcp_mss] has to
    be the packet's size with overhead exactly when the sender's is. *)
Theorem spec_a_receiver_finds_the_padding_of_the_sender (sender receiver : t) (n : Z)
    (h : bytes) (w w' : auth_akarin_rand.which_random) :
  data_size_list receiver = data_size_list sender →
  data_size_list2 receiver = data_size_list2 sender →
  auth_akarin_rand.info_overhead (base receiver)
  = auth_akarin_rand.info_overhead (base sender) →
  auth_akarin_rand.recv_tcp_mss (base receiver)
  = auth_akarin_rand.send_tcp_mss (base sender) →
  (n + auth_akarin_rand.info_overhead (base sender)
   = auth_akarin_rand.send_tcp_mss (base receiver)
   ↔ n + auth_akarin_rand.info_overhead (base sender)
     = auth_akarin_rand.send_tcp_mss (base sender)) →
  fst (recv_rnd_data_len n h w' receiver) = fst (send_rnd_data_len n h w sender).
Proof. apply spec_a_recv_matches_send. Qed.

(** The object after [set_server_info] at both ends, the receiver with
    the server's generator already used, and a packet of 100 bytes. *)
Lemma spec_a_receiver_finds_the_padding_of_the_sender_witness :
  fst (recv_rnd_data_len 100 zero16 auth_akarin_rand.RandomServer
         (snd (send_rnd_data_len 7 zero16 auth_akarin_rand.RandomServer
                 Variant.spec_a_ready)))
  = fst (send_rnd_data_len 100 zero16 auth_akarin_rand.RandomClient Variant.spec_a_ready).
Proof.
  apply (spec_a_receiver_finds_the_padding_of_the_sender
           Variant.spec_a_ready
           (snd (send_rnd_data_len 7 zero16 auth_akarin_rand.RandomServer
                   Variant.spec_a_ready))
           100 zero16 auth_akarin_rand.RandomClient auth_akarin_rand.RandomServer).
  - vm_compute. reflexivity.
  - vm_compute. reflexivity.
  - vm_compute. reflexivity.
  - vm_compute. reflexivity.
  - vm_compute. split; intros H; exact H.
Defined.

End spec_a_padding_facts.

(* ===================================================================== *)
(** ** The overhead a session reports *)
(* ===================================================================== *)

Module overhead_facts.
Import auth_akarin_rand Frame Frame_facts Fixtures failure_facts packet_facts.
Import sticky_facts handshake_facts Opening.

Section with_primitives.
Context {prims : primitives}.

Lemma kr_keeps {A} (m : M t (turn A (bytes * bool))) :
  keeps same_overhead m → keeps_or_refuses m.
Proof. intros Hm s. left. apply Hm. Qed.

Lemma kr_refuse {A} (rb : bytes) :
  keeps_or_refuses (A := A) (let* r := not_match_return rb in ret (Return r)).
Proof. intros s. right. exists rb, s. reflexivity. Qed.

Lemma kr_bind {A B} (m : M t A) (k : A → M t (turn B (bytes * bool))) :
  keeps same_overhead m → (∀ a, keeps_or_refuses (k a)) → keeps_or_refuses (bind m k).
Proof.
  intros Hm Hk s. unfold bind. pose proof (Hm s) as H1. unfold same_overhead in H1.
  destruct (m s) as [[a| |] s1]; cbn [snd] in *; [|left; exact H1|left; exact H1].
  destruct (Hk a s1) as [H2|(rb & s2 & H2)].
  - left. congruence.
  - right. exists rb, s2. exact H2.
Qed.

(** A step of the handshake that leaves [overhead] alone. *)
Ltac quiet :=
  intros ?s; unfold same_overhead;
  repeat first
    [ progress unfold bind, gets, lift, modify, ret, raise, the_user_key,
        new_encryptor, encryptor_encrypt, encryptor_decrypt, time_now,
        on_recv_auth_data, set_info_data
    | match goal with
      | |- context [match ?x with _ => _ end] => destruct x
      end ];
  reflexivity.

Ltac kr_step :=
  match goal with
  | |- keeps_or_refuses (bind (not_match_return _) _) => apply kr_refuse
  | |- keeps_or_refuses (bind _ _) => apply kr_bind; [quiet|intros ?]
  | |- keeps_or_refuses (ret _) => apply kr_keeps; quiet
  | |- keeps_or_refuses (if ?b then _ else _) => destruct b
  | |- keeps_or_refuses (match ?x with _ => _ end) => destruct x
  end.

(** The handshake leaves [overhead] as it was on every way out but
    those through [not_match_return]. *)
Lemma server_handshake_keeps_or_refuses : keeps_or_refuses server_handshake.
Proof.
  unfold server_handshake. repeat kr_step.
Qed.

Lemma same_overhead_facts :
  (∀ s, same_overhead s s)
  ∧ (∀ a b c, same_overhead a b → same_overhead b c → same_overhead a c)
  ∧ (∀ s s', same_watched s s' → same_overhead s s')
  ∧ (∀ s, same_overhead s (with_raw_trans true s))
  ∧ (∀ s l x, same_overhead s (with_send_back_cmd (l ++ [x]) s))
  ∧ (∀ s v, same_overhead s (with_recv_id v s))
  ∧ (∀ s v, same_overhead s (with_recv_buf v s)).
Proof.
  unfold same_overhead. repeat split; try reflexivity.
  - intros a b c H1 H2. congruence.
  - intros a b (_ & Ho & _). exact Ho.
Qed.

(** The packets after the handshake leave [overhead] alone. *)
Lemma same_overhead_packets (fuel : nat) (acc : bytes * bool) :
  keeps same_overhead (recv_loop server_packet fuel acc).
Proof.
  destruct same_overhead_facts as (Hrefl & Htrans & Hframe & Hraw & Hcmd & Hrid & Hrbuf).
  apply (keeps_recv_loop same_overhead Hrefl Htrans).
  intros a s. use_keeps (keeps_server_packet same_overhead).
Qed.

Lemma server_post_decrypt_keeps_or_refuses (buf : bytes) (s : t) :
  overhead (snd (server_post_decrypt buf s)) = overhead s
  ∨ ∃ rb s1, server_post_decrypt buf s = not_match_return rb s1.
Proof.
  unfold server_post_decrypt. rewrite bind_gets.
  destruct (raw_trans s); [left; reflexivity|].
  rewrite bind_gets, bind_modify. cbv zeta. rewrite bind_gets.
  set (s0 := with_recv_buf (recv_buf s ++ buf) s).
  assert (Hrest : ∀ sb s1,
            overhead s1 = overhead s →
            overhead
              (snd ((let* rb := gets recv_buf in
                     let* t := recv_loop server_packet (length rb) ([], sb) in
                     match t with
                     | Return r => ret r
                     | Break => ret ([], sb)
                     | Next (out_buf, sendback) =>
                         (match out_buf with
                          | _ :: _ =>
                              let* now := time_now in
                              let* u := gets user_id in
                              let* c := gets client_id in
                              let* n := gets connection_id in
                              let* d := gets info_data in
                              modify (set_info_data
                                        (obfs_auth_akarin_data.update now u c n d))
                          | [] => ret tt
                          end) ;;
                         ret (out_buf, sendback)
                     end) s1))
            = overhead s).
  { intros sb s1 H1. rewrite bind_gets.
    pose proof (same_overhead_packets (length (recv_buf s1)) ([], sb) s1) as Hp.
    unfold same_overhead in Hp. unfold bind at 1.
    destruct (recv_loop server_packet _ _ s1) as [[[[o b]| |r]| |] s2];
      cbn [snd] in *.
    all: try (unfold ret; cbn [snd]; congruence).
    destruct o; (transitivity (overhead s2); [reflexivity|congruence]). }
  destruct (negb (has_recv_header s0)).
  - rewrite bind_assoc.
    destruct (server_handshake_keeps_or_refuses s0) as [Hk|(rb & s1 & Hr)].
    + left. unfold bind at 1.
      destruct (server_handshake s0) as [[[u| |r]| |] s1]; cbn [snd] in *;
        try (rewrite Hk; reflexivity).
      * rewrite bind_ret. apply Hrest. exact Hk.
      * rewrite bind_ret. apply Hrest. exact Hk.
      * rewrite bind_ret. unfold ret. cbn [snd]. exact Hk.
    + right. exists rb, s1.
      assert (E : server_handshake s0
                  = (Ok (Return (if String.eqb (method s1) (no_compatible_method s1)
                                 then bytes_repeat "E" 2048 else rb, false)),
                     with_overhead 0 (with_raw_trans true s1))).
      { rewrite Hr. unfold bind. rewrite not_match_return_runs. reflexivity. }
      rewrite (bind_Ok _ _ _ _ _ E), bind_ret, not_match_return_runs. reflexivity.
  - left. rewrite bind_ret. apply Hrest. reflexivity.
Qed.

Lemma overhead_stays_when_raw (calls : list call) :
  ∀ s, raw_trans s = true → overhead (after_all calls s) = overhead s.
Proof.
  induction calls as [|c calls IH]; intros s Hs; cbn [after_all]; [reflexivity|].
  rewrite IH by (apply (raw_stays_after c s Hs)).
  destruct c.
  6: { cbn [after]. unfold server_post_decrypt. rewrite bind_gets, Hs. reflexivity. }
  all: apply same_overhead_after; intros b; discriminate.
Qed.

(** C9, amended: [get_overhead] gives [self.overhead] whatever the
    direction.  That is 4 on a new session, and no call changes it but
    [server_post_decrypt].  [not_match_return] sets [raw_trans] and
    makes [overhead] 0 whatever it is given; [server_post_decrypt]
    leaves [overhead] as it was on every way out but those through
    [not_match_return], where it is 0 and [raw_trans] is set
    afterwards; it takes that way out whenever the head of a
    handshake fails its HMAC check.  With [raw_trans] set, no later
    call changes [overhead]: [get_overhead] gives 0 from then on. *)
Theorem C9_overhead_until_refused :
  (∀ direction s, get_overhead direction s = (Ok (overhead s), s))
  ∧ (∀ direction m info e, fst (get_overhead direction (init m info e)) = Ok 4)
  ∧ (∀ c s, (∀ buf, c ≠ Server_post_decrypt buf) → overhead (after c s) = overhead s)
  ∧ (∀ rb s,
       overhead (snd (not_match_return rb s)) = 0
       ∧ raw_trans (snd (not_match_return rb s)) = true)
  ∧ (∀ buf s,
       overhead (after (Server_post_decrypt buf) s) = overhead s
       ∨ ((∃ rb s1, server_post_decrypt buf s = not_match_return rb s1)
          ∧ overhead (after (Server_post_decrypt buf) s) = 0
          ∧ raw_trans (after (Server_post_decrypt buf) s) = true))
  ∧ (∀ buf s direction,
       raw_trans s = false → has_recv_header s = false →
       head_is_checked (recv_buf s ++ buf) = true →
       head_matches s (recv_buf s ++ buf) = false →
       server_post_decrypt buf s
       = not_match_return (recv_buf s ++ buf) (with_recv_buf (recv_buf s ++ buf) s)
       ∧ raw_trans (after (Server_post_decrypt buf) s) = true
       ∧ fst (get_overhead direction (after (Server_post_decrypt buf) s)) = Ok 0)
  ∧ (∀ calls s direction,
       raw_trans s = true → overhead s = 0 →
       fst (get_overhead direction (after_all calls s)) = Ok 0).
Proof.
  split; [|split; [|split; [|split; [|split; [|split]]]]].
  - intros direction s. reflexivity.
  - intros direction m info e. reflexivity.
  - intros c s Hc. apply same_overhead_after. exact Hc.
  - intros rb s. rewrite not_match_return_runs. split; reflexivity.
  - intros buf s. cbn [after].
    destruct (server_post_decrypt_keeps_or_refuses buf s) as [Hk|(rb & s1 & Hr)];
      [left; exact Hk|right].
    split; [exists rb, s1; exact Hr|].
    rewrite Hr, not_match_return_runs. split; reflexivity.
  - intros buf s direction Hraw Hhdr Hc Hm. cbn [after].
    rewrite (proj1 (server_post_decrypt_opening buf s Hraw Hhdr) Hc Hm).
    rewrite not_match_return_runs. split; [reflexivity|]. split; reflexivity.
  - intros calls s direction Hraw Ho. unfold get_overhead, gets. cbn [fst].
    rewrite (overhead_stays_when_raw calls s Hraw), Ho. reflexivity.
Qed.

End with_primitives.

(** A fresh server is sent [probe], twelve bytes whose head fails the
    HMAC check: it leaves through [not_match_return], and
    [get_overhead] gives 0. *)
Lemma C9_overhead_until_refused_witness :
  server_post_decrypt (prims := plain_primitives) probe fresh_session
  = not_match_return probe (with_recv_buf probe fresh_session)
  ∧ raw_trans (after (prims := plain_primitives) (Server_post_decrypt probe)
                 fresh_session) = true
  ∧ fst (get_overhead true
           (after (prims := plain_primitives) (Server_post_decrypt probe)
              fresh_session)) = Ok 0.
Proof.
  destruct (C9_overhead_until_refused (prims := plain_primitives))
    as (_ & _ & _ & _ & _ & H & _).
  apply (H probe fresh_session true).
  - reflexivity.
  - reflexivity.
  - vm_compute. reflexivity.
  - vm_compute. reflexivity.
Defined.

(** C9 as it is written fails after a refused handshake: the server
    answers [probe] with 2048 bytes and [get_overhead] gives 0 from then
    on. *)
Lemma C9_overhead_after_refusal :
  fst (get_overhead true
         (after (prims := plain_primitives) (Server_post_decrypt probe) fresh_session))
  = Ok 0
  ∧ fst (get_overhead false
           (after (prims := plain_primitives) (Server_post_decrypt probe) fresh_session))
    = Ok 0.
Proof. by_computing. Qed.

End overhead_facts.
